(* ===== verification/_CoqProject ===== *)
-Q . S2P
Prelude.v
Text.v
Json.v
Nexus.v
Options.v
Config.v
Ffi.v
Abi.v
Effects.v
Trampolines.v
TrampolinesProps.v
TrampolinesWitness.v
Logging.v
MetricsSink.v
MetricsProps.v
Engine.v
EngineProps.v
EngineRefinement.v
EngineConcurrency.v
Snapshot.v
StrTypes.v
HandlerTypes.v
StrOps.v
AbiScanner.v
AbiCheck.v
DocsCheck.v
BuildScript.v
Consumer.v
Examples.v
TestKit.v
OptionsTests.v
ConfigTests.v
EngineTests.v
TrampolinesTests.v
MetricsTests.v
CoverageTests.v
