(* ===== verification/Prelude.v ===== *)
(** * Verification of llingr-kafka

    llingr-kafka is a Rust crate around a Kafka consumer engine written in Go. A [Builder]
    (src/src/engine.rs) collects client options (src/src/options.rs), broker and engine
    settings (src/src/config.rs) and the application's handlers; [build] writes one JSON
    document for the Go bridge, publishes the handlers behind an atomic pointer, registers
    six [extern "C"] callbacks (src/src/trampolines.rs, C types in src/src/ffi.rs) and calls
    [llingr_init]. While [run] is active Go worker threads call back into those
    trampolines, which rebuild messages from raw memory, run the handlers and contain their
    panics. Telemetry (src/src/metrics.rs), log lines (src/src/logging.rs) and engine
    snapshots (src/src/snapshot.rs) cross the same boundary. Three build scripts guard the
    crate: src/build.rs links or compiles the engine, src/abi-check pins the C contract,
    src/docs/check-examples mirrors the documentation samples for compilation.

    ** Files

    - Prelude: machine integers ([wrap_u], [wrap_s]), byte-string and list lemmas, decimal
      printing, the rewrite database [str] and the tactics that use it.
    - Text: UTF-8 as [core::str] treats it: validation, lossy decoding, [char]s,
      [is_char_boundary]. StrOps: the other [str] methods the scripts call.
    - Json: specification only: a JSON value, a reader and a renderer with their round trip.
    - Nexus: the vocabulary of the llingr-nexus dependency. Its functions are the class
      [Nexus], what is relied on is the class [NexusLaws]; [nexus_ref] is an instance.
    - Options: options.rs. One definition per setter ([Options_tls] is [Options::tls]),
      [Options_entries], [Options_typed_security_keys], [Options_validate], [Options_fmt].
      A chain of builder calls is a list of [Setter]s run by [run_setters].
    - Config: config.rs. [BrokerConfig], [DemuxConfig], deduplication, [config_json] and the
      escaper, statement by statement on an explicit buffer.
    - Ffi: memory as a partial map from addresses to bytes, little-endian scalars, the
      [repr(C)] layout algorithm, alignment, the three raw structs, [assert_layout] of
      abi-check. A typed access through a misaligned pointer is undefined behaviour.
    - Effects: the monad of the callbacks. State: memory, published handlers, stderr, the
      state of the application's own code. Outcomes: a value, an unwinding panic (whose
      payload may panic again when dropped), a process abort, undefined behaviour.
      [catch_unwind], [extern_C] and [with_drop] give those outcomes their Rust meaning.
    - Trampolines, TrampolinesProps, TrampolinesWitness: trampolines.rs, the contracts of
      the six callbacks, and those contracts at a concrete memory.
    - Logging: logging.rs. MetricsSink, MetricsProps: metrics.rs, both Prometheus sinks,
      the activation modes and the scrape endpoint. prometheus_client is the class [Prom]
      with [PromLaws] and the instance [prom_ref], the response type of tiny_http the class
      [Http] with [HttpLaws] and [http_ref]. Floating point is [SpecFloat] at the binary64
      format.
    - Abi: the C contract in its two copies, the types of src/src/ffi.rs and the prototypes
      exported by bridge/main.go, and the compile-time comparisons of src/abi-check/src/lib.rs.
    - Engine, EngineProps: engine.rs. [build] is a function of the process-wide state
      ([Proc]: the init guard, the published set, the callbacks registered with the bridge,
      registry slots, bound addresses). Registrations accumulate as [setCallback] of
      bridge/main.go does it and survive a failed build; a build-time log line arrives only
      if the log callback is registered. The stages [build_metrics], [build_publish] and [build_init] are the
      consecutive parts of the Rust function. The bridge ([Bridge]) answers the ABI version
      and [llingr_init].
    - EngineRefinement: the same builds and callbacks in small steps ([sys_step]: the lock,
      every stage of a build, workers entering and leaving a trampoline) and the machine in
      which a build and a callback are one step each ([atomic_step]).
    - EngineConcurrency: the publication protocol with its ownership: the lock, the
      pointer, the boxes, the callbacks in flight ([step], [reachable]).
    - Snapshot: snapshot.rs, the derived decoders over a parsed document.
    - StrTypes: the typing of values: what is a [str] and a width-bounded integer, for the
      document sent, the arguments borrowed and the snapshots decoded. HandlerTypes: a
      program logic over Effects ([safe]) and what it shows of the six callbacks.
    - AbiScanner, AbiCheck: abi-check/build.rs, the index-driven comment scanner as a step
      machine, the signature, the lock file and [main], with headers as sequences of code and
      comments ([Piece]) and the outcome of a check as a relation ([verdict]). DocsCheck:
      docs/check-examples/build.rs, against pages as sequences of prose and fenced blocks
      ([Segment]). BuildScript: build.rs.
    - Consumer: examples/e2e/consumer, handlers, builder, monitor thread, exit code, run on
      top of [Engine.build]. Examples: the six programs of examples/auth.
    - TestKit, OptionsTests, ConfigTests, EngineTests, TrampolinesTests, MetricsTests,
      CoverageTests: 118 of the crate's own tests, one boolean per test, each file with the
      lemma that all of them evaluate to true: regression checks of the definitions.

    ** What the theorems show

    - The C boundary (TrampolinesProps): under the documented contract of the bridge no
      callback unwinds into Go or reads or writes outside what it was given; success,
      handler error and handler panic have the documented return code, out-parameters and
      error text (cut at a character boundary); messages, headers and bandwidth packets
      arrive as they were laid out; before publication every callback is inert. Ffi: the
      layout algorithm is sound for every struct. HandlerTypes: handlers only ever see values
      of their declared types. Abi: if abi-check builds against a header, every callback and
      every export it compares carries its arguments across unchanged; the registration
      functions agree in bridge/main.go and ffi.rs but are outside that check.
    - Lifecycle (EngineProps, EngineConcurrency): at most one engine per process, a failed
      build leaves no handler set, init flag or bound address behind and can be retried (its
      registrations stay with the bridge, which [retry_succeeds] states), build-time logs
      reach the [log] facade, two defensive branches are dead, and no callback holds a freed
      handler set.
      EngineRefinement: concurrent builds and callbacks are linearizable, so the theorems
      about sequences of atomic builds speak of the interleaved program.
    - Configuration (Options, Config): [validate] finds exactly the keys configured in two
      styles, and an accepted configuration reaches the wire unchanged; cloud IAM selected by
      its setter is always encrypted; the last mechanism wins; [Debug] does not depend on
      credentials; the document is JSON that reads back as configured, and valid UTF-8.
    - Telemetry (MetricsProps): counters and histograms equal what the packets add up to,
      up to u64 wrap-around; each request is answered once; activation publishes what it
      registered. Snapshot: decoding inverts encoding and tolerates unknown fields only.
    - Build scripts: the comment scanner stops and equals a structural reference; the lock
      accepts exactly an unchanged contract and otherwise says what moved, a regenerated
      lock is accepted by the next build, comments never change the fingerprint and a
      one-byte edit always does; samples.md is exactly the document of the pages' samples;
      the engine is linked once outside docs.rs; the Go gate compares numbers.
    - Examples: the consumer exits 0 exactly when every order matched and enough arrived,
      its monitor ends within its deadline; the authentication examples never send
      credentials on an unencrypted protocol.

    ** Modelling decisions

    - A Rust [str] and a byte slice are both a [string] of bytes; a [str] satisfies
      [utf8_valid]. Integers are [Z] or [N] with casts written as [wrap_u] and [wrap_s].
    - Handlers are arbitrary state transformers that return or panic; every statement about
      them quantifies over all of them. Panics use the unwinding profile.
    - Fuel: [read_cstr] follows a C string and its theorem asks for more fuel than the
      document has bytes; the JSON reader's fuel is twice the length of its input, and every
      call consumes a byte or a level, which its round trip proves enough; UTF-8 decoding
      is fuelled by the length of the text; the comment scanner takes at most twice the
      length plus one steps ([scan_bound]); the consumer's monitor is given any fuel above
      its last poll, at most the 600th after the first (120 s over sleeps of 200 ms). Each
      bound is part of a theorem. Every other recursion is structural.
    - The class laws state documented behaviour only: rounding of durations, trait bits,
      log levels, that metric families are independent cells, and that setting the status
      or the content type of a response changes that field only.

    ** Not modelled

    The Go bridge and engine (another language behind the C contract; the prototypes it
    exports are in Abi), sockets and threads of tiny_http (the loop sees a list of events;
    which content type a plain text response has is its own), the Prometheus text encoder, serde_json's text reader, bindgen, the file system and the
    Go tool (functions of the environment record), Debug implementations other than that of
    [Options], signal delivery and env_logger in the example programs, the crate root
    (documentation and re-exports), and the integration tests under src/tests, which drive
    the linked engine against a broker.

    ** Planned extensions

    [run], [stop] and [emergency_stop] as a lifecycle of the engine with its shutdown
    callback; the memory hand-over of [llingr_init]'s error buffer at the byte level; the
    publication protocol of EngineConcurrency (boxes and their owners) as a refinement of
    the stages of EngineRefinement. *)
From Stdlib Require Import ZArith NArith Decimal DecimalString DecimalN DecimalFacts Ascii.
From Stdlib Require String.
From stdpp Require Export base tactics option list sorting gmap strings.

#[global] Set Default Goal Selector "!".

(** ** Machine integers

    An unsigned [w]-bit value is a [Z] in [0, 2^w); a signed one is a [Z] in
    [-2^(w-1), 2^(w-1)). [wrap_u]/[wrap_s] are the wrap-around of a Rust [as] cast and
    of the [wrapping_*] operations. *)
Definition wrap_u (w : Z) (z : Z) : Z := (z mod 2 ^ w)%Z.
Definition wrap_s (w : Z) (z : Z) : Z :=
  let u := wrap_u w z in (if decide (u < 2 ^ (w - 1)) then u else u - 2 ^ w)%Z.
Definition in_u (w : Z) (z : Z) : Prop := (0 ≤ z < 2 ^ w)%Z.
Definition in_s (w : Z) (z : Z) : Prop := (- 2 ^ (w - 1) ≤ z < 2 ^ (w - 1))%Z.

#[export] Instance in_u_dec w z : Decision (in_u w z).
Proof. unfold in_u. apply _. Defined.
#[export] Instance in_s_dec w z : Decision (in_s w z).
Proof. unfold in_s. apply _. Defined.

Lemma wrap_u_small w z : in_u w z → wrap_u w z = z.
Proof. intros H. apply Z.mod_small, H. Qed.

Lemma wrap_u_range w z : (0 ≤ w)%Z → in_u w (wrap_u w z).
Proof. intros Hw. apply Z.mod_pos_bound. by apply Z.pow_pos_nonneg. Qed.

Lemma pow2_split w : (0 < w)%Z → (2 ^ w = 2 * 2 ^ (w - 1))%Z.
Proof. intros. rewrite <-Z.pow_succ_r by lia. f_equal. lia. Qed.

Lemma wrap_s_small w z : (0 < w)%Z → in_s w z → wrap_s w z = z.
Proof.
  intros Hw [Hl Hu]. unfold wrap_s, wrap_u. pose proof (pow2_split w Hw).
  destruct (decide (0 ≤ z)%Z).
  - rewrite Z.mod_small by lia. by rewrite decide_True by lia.
  - replace (z mod 2 ^ w)%Z with (z + 2 ^ w)%Z.
    + rewrite decide_False by lia. lia.
    + rewrite <-(Z.mod_small (z + 2 ^ w) (2 ^ w)) by lia.
      replace (z + 2 ^ w)%Z with (z + 1 * 2 ^ w)%Z by lia. by rewrite Z.mod_add by lia.
Qed.

Lemma wrap_s_range w z : (0 < w)%Z → in_s w (wrap_s w z).
Proof.
  intros Hw. pose proof (wrap_u_range w z ltac:(lia)) as [Hl Hu].
  pose proof (pow2_split w Hw). unfold wrap_s, in_s. case_decide; lia.
Qed.

(** Casting to the unsigned type of the same width and back is the identity. *)
Lemma wrap_s_u w z : (0 < w)%Z → in_s w z → wrap_s w (wrap_u w z) = z.
Proof.
  intros Hw Hz. rewrite <-(wrap_s_small w z Hw Hz) at 2. unfold wrap_s, wrap_u.
  by rewrite Z.mod_mod by (apply Z.pow_nonzero; lia).
Qed.

Lemma wrap_u_s w z : (0 < w)%Z → in_u w z → wrap_u w (wrap_s w z) = z.
Proof.
  intros Hw Hz. pose proof (pow2_split w Hw). unfold wrap_s. rewrite (wrap_u_small w z Hz).
  case_decide; [by apply wrap_u_small|]. unfold wrap_u.
  replace (z - 2 ^ w)%Z with (z + (-1) * 2 ^ w)%Z by lia. rewrite Z.mod_add by lia.
  by apply wrap_u_small.
Qed.

(** ** Strings

    A Rust [str] or byte slice is a [string], its bytes in order. *)
Lemma sapp_nil_l s : "" +:+ s = s.
Proof. done. Qed.
Lemma sapp_cons a s t : String a s +:+ t = String a (s +:+ t).
Proof. done. Qed.
Lemma sapp_nil_r s : s +:+ "" = s.
Proof. induction s as [|a s IH]; [done|]. by rewrite sapp_cons, IH. Qed.
Lemma sapp_assoc s t u : (s +:+ t) +:+ u = s +:+ (t +:+ u).
Proof. induction s as [|a s IH]; [done|]. by rewrite !sapp_cons, IH. Qed.
Lemma slen_app s t : String.length (s +:+ t) = String.length s + String.length t.
Proof. induction s as [|a s IH]; [done|]. rewrite sapp_cons. simpl. by rewrite IH. Qed.

Create Rewrite HintDb str.
#[export] Hint Rewrite sapp_nil_l sapp_cons sapp_nil_r sapp_assoc slen_app : str.

(** Normalise string concatenations: right-associated, literal heads exposed. *)
Ltac str_norm := autorewrite with str; simpl.
Ltac str_norm_in H := autorewrite with str in H; simpl in H.

Lemma sapp_inv_head s t u : s +:+ t = s +:+ u → t = u.
Proof. apply (inj (String.append s)). Qed.

Lemma sapp_inv_tail s t u : s +:+ u = t +:+ u → s = t.
Proof.
  revert t. induction s as [|a s IH]; intros [|b t] H; rewrite ?sapp_cons, ?sapp_nil_l in H.
  - done.
  - exfalso. apply (f_equal String.length) in H. simpl in H. rewrite slen_app in H. lia.
  - exfalso. apply (f_equal String.length) in H. simpl in H. rewrite slen_app in H. lia.
  - injection H as -> H. by rewrite (IH _ H).
Qed.

(** [s.contains(pat)] *)
Fixpoint str_contains (pat s : string) : bool :=
  String.prefix pat s ||
  match s with
  | "" => false
  | String _ s' => str_contains pat s'
  end.

Lemma prefix_app pat s : String.prefix pat (pat +:+ s) = true.
Proof. induction pat as [|a pat IH]; [by destruct s|].
  rewrite sapp_cons. simpl. by destruct (ascii_dec a a). Qed.

Lemma prefix_spec pat s : String.prefix pat s = true ↔ ∃ u, s = pat +:+ u.
Proof.
  split.
  - revert s. induction pat as [|a pat IH]; intros s H; [by exists s|].
    destruct s as [|b s]; simpl in H; [done|].
    destruct (ascii_dec a b) as [->|]; [|done].
    destruct (IH _ H) as [u ->]. exists u. done.
  - intros [u ->]. apply prefix_app.
Qed.

Lemma str_contains_spec pat s :
  str_contains pat s = true ↔ ∃ u v, s = u +:+ pat +:+ v.
Proof.
  split.
  - induction s as [|a s IH]; cbn [str_contains]; intros [H|H]%orb_true_iff.
    + apply prefix_spec in H as [v H]. by exists "", v.
    + done.
    + apply prefix_spec in H as [v H]. by exists "", v.
    + destruct (IH H) as (u & v & ->). by exists (String a u), v.
  - intros (u & v & ->). induction u as [|a u IH].
    + rewrite sapp_nil_l. pose proof (prefix_app pat v) as H.
      destruct (pat +:+ v); cbn [str_contains]; by rewrite H.
    + rewrite sapp_cons. cbn [str_contains]. rewrite IH. apply orb_true_r.
Qed.

(** [l.concat()] and [l.join(sep)] *)
Definition str_concat (l : list string) : string := foldr String.append "" l.
Fixpoint str_join (sep : string) (l : list string) : string :=
  match l with
  | [] => ""
  | [s] => s
  | s :: l' => s +:+ sep +:+ str_join sep l'
  end.

Lemma str_concat_cons s l : str_concat (s :: l) = s +:+ str_concat l.
Proof. done. Qed.
Lemma str_concat_app l k : str_concat (l ++ k) = str_concat l +:+ str_concat k.
Proof.
  induction l as [|s l IH]; [done|]. unfold str_concat in *. simpl. by rewrite IH, sapp_assoc.
Qed.

(** ** Decimal rendering, as [to_string] and [format!("{}")] print integers *)
Definition dec_N (n : N) : string := NilZero.string_of_uint (N.to_uint n).
Definition dec_Z (z : Z) : string := NilZero.string_of_int (Z.to_int z).

Example dec_N_0 : dec_N 0 = "0". Proof. reflexivity. Qed.
Example dec_N_5000 : dec_N 5000 = "5000". Proof. reflexivity. Qed.
Example dec_Z_neg : dec_Z (-5) = "-5". Proof. reflexivity. Qed.

Lemma dec_N_inj m n : dec_N m = dec_N n → m = n.
Proof.
  unfold dec_N. intros H. apply DecimalN.Unsigned.to_uint_inj.
  assert (∀ k, N.to_uint k ≠ Decimal.Nil) as Hnil.
  { intros k. destruct k as [|p]; [done|]. simpl.
    apply DecimalPos.Unsigned.to_uint_nonnil. }
  pose proof (f_equal NilZero.uint_of_string H) as H'.
  rewrite !NilZero.usu in H' by apply Hnil. by injection H'.
Qed.
