(* ===== verification/Text.v ===== *)
(** * Text: the standard library's view of bytes as UTF-8

    What the crate uses of Rust's [str]: validation ([str::from_utf8]), lossy decoding
    ([String::from_utf8_lossy], [CStr::to_string_lossy]), iteration over [char]s, and
    [str::is_char_boundary]. A byte slice and a [str] are both a [string] (their bytes);
    a value of type [str] satisfies [utf8_valid]. A [char] is the [string] of the one to
    four bytes that encode it. The decoder follows the well-formedness table of the
    Unicode standard the way [core::str] does: an ill-formed sequence is cut at its
    maximal valid prefix. *)
From Stdlib Require Import ZArith NArith Ascii.
From Stdlib Require String.
From stdpp Require Import base tactics option list strings.
From S2P Require Import Prelude.

(** ** Bytes *)
Definition byte_val (b : ascii) : N := N_of_ascii b.
Definition byte_in (lo hi : N) (b : ascii) : bool := ((lo <=? byte_val b) && (byte_val b <=? hi))%N.

(** A continuation byte, 0b10xxxxxx. *)
Definition is_cont (b : ascii) : bool := byte_in 0x80 0xBF b.

(** The width of the character a lead byte announces, 0 for a byte that leads none. *)
Definition utf8_width (b : ascii) : N :=
  if byte_in 0x00 0x7F b then 1
  else if byte_in 0xC2 0xDF b then 2
  else if byte_in 0xE0 0xEF b then 3
  else if byte_in 0xF0 0xF4 b then 4
  else 0.

(** The second bytes a three- or four-byte lead admits: no overlong forms, no surrogates,
    nothing above U+10FFFF. *)
Definition second3 (b0 b1 : ascii) : bool :=
  if (byte_val b0 =? 0xE0)%N then byte_in 0xA0 0xBF b1
  else if (byte_val b0 =? 0xED)%N then byte_in 0x80 0x9F b1
  else is_cont b1.
Definition second4 (b0 b1 : ascii) : bool :=
  if (byte_val b0 =? 0xF0)%N then byte_in 0x90 0xBF b1
  else if (byte_val b0 =? 0xF4)%N then byte_in 0x80 0x8F b1
  else is_cont b1.

(** The strings that encode exactly one [char]. *)
Definition utf8_char (c : string) : bool :=
  match c with
  | String b0 "" => (utf8_width b0 =? 1)%N
  | String b0 (String b1 "") => (utf8_width b0 =? 2)%N && is_cont b1
  | String b0 (String b1 (String b2 "")) =>
      (utf8_width b0 =? 3)%N && second3 b0 b1 && is_cont b2
  | String b0 (String b1 (String b2 (String b3 ""))) =>
      (utf8_width b0 =? 4)%N && second4 b0 b1 && is_cont b2 && is_cont b3
  | _ => false
  end.

(** ** Decoding *)
Inductive chunk := Valid (c : string) | Invalid (c : string).

Definition chunk_bytes (k : chunk) : string :=
  match k with Valid c => c | Invalid c => c end.
Definition chunk_ok (k : chunk) : bool :=
  match k with Valid _ => true | Invalid _ => false end.

Definition utf8_step (s : string) : option (chunk * string) :=
  match s with
  | "" => None
  | String b0 r0 =>
    match utf8_width b0, r0 with
    | 1%N, _ => Some (Valid (String b0 ""), r0)
    | 2%N, String b1 r1 =>
      if is_cont b1 then Some (Valid (String b0 (String b1 "")), r1)
      else Some (Invalid (String b0 ""), r0)
    | 3%N, String b1 r1 =>
      if second3 b0 b1 then
        match r1 with
        | String b2 r2 =>
          if is_cont b2 then Some (Valid (String b0 (String b1 (String b2 ""))), r2)
          else Some (Invalid (String b0 (String b1 "")), r1)
        | "" => Some (Invalid (String b0 (String b1 "")), r1)
        end
      else Some (Invalid (String b0 ""), r0)
    | 4%N, String b1 r1 =>
      if second4 b0 b1 then
        match r1 with
        | String b2 r2 =>
          if is_cont b2 then
            match r2 with
            | String b3 r3 =>
              if is_cont b3
              then Some (Valid (String b0 (String b1 (String b2 (String b3 "")))), r3)
              else Some (Invalid (String b0 (String b1 (String b2 ""))), r2)
            | "" => Some (Invalid (String b0 (String b1 (String b2 ""))), r2)
            end
          else Some (Invalid (String b0 (String b1 "")), r1)
        | "" => Some (Invalid (String b0 (String b1 "")), r1)
        end
      else Some (Invalid (String b0 ""), r0)
    | _, _ => Some (Invalid (String b0 ""), r0)
    end
  end.

Fixpoint chunks_go (fuel : nat) (s : string) : list chunk :=
  match fuel with
  | 0 => []
  | S fuel =>
    match utf8_step s with
    | None => []
    | Some (k, r) => k :: chunks_go fuel r
    end
  end.
(** Every step consumes a byte, so the length of the input is fuel enough. *)
Definition chunks (s : string) : list chunk := chunks_go (String.length s) s.

Definition utf8_valid (s : string) : bool := forallb chunk_ok (chunks s).

(** [str::from_utf8(bytes)] *)
Definition from_utf8 (s : string) : option string :=
  if utf8_valid s then Some s else None.

(** U+FFFD, the replacement character *)
Definition replacement : string := String "239" (String "191" (String "189" "")).

(** [String::from_utf8_lossy(bytes)] *)
Definition from_utf8_lossy (s : string) : string :=
  str_concat (map (λ k, match k with Valid c => c | Invalid _ => replacement end) (chunks s)).

(** [s.chars()], each [char] as its encoding *)
Definition chars (s : string) : list string := map chunk_bytes (chunks s).

(** ** Indexing *)
Fixpoint str_take (n : nat) (s : string) : string :=
  match n, s with
  | S n, String a s => String a (str_take n s)
  | _, _ => ""
  end.

(** [s.is_char_boundary(n)] *)
Definition is_char_boundary (s : string) (n : nat) : bool :=
  match n with
  | 0 => true
  | _ => match String.get n s with
         | Some b => negb (is_cont b)
         | None => n =? String.length s
         end
  end.

Example lossy_ascii : from_utf8_lossy "foo" = "foo".
Proof. reflexivity. Qed.
Example lossy_invalid :
  from_utf8_lossy (String "102" (String "255" (String "254" ""))) = "f" +:+ replacement +:+ replacement.
Proof. reflexivity. Qed.
Example lossy_truncated_tail :
  from_utf8_lossy (String "226" (String "130" (String "097" ""))) = replacement +:+ "a".
Proof. reflexivity. Qed.
Example surrogate_is_invalid : utf8_valid (String "237" (String "160" (String "128" ""))) = false.
Proof. reflexivity. Qed.

(** ** The decoder's steps *)
Lemma utf8_step_app s k r : utf8_step s = Some (k, r) → s = chunk_bytes k +:+ r.
Proof.
  intros H. unfold utf8_step in H.
  repeat (case_match; simplify_eq/=); done.
Qed.

Lemma utf8_step_nonempty s k r : utf8_step s = Some (k, r) → chunk_bytes k ≠ "".
Proof.
  intros H. unfold utf8_step in H. repeat (case_match; simplify_eq/=); done.
Qed.

Lemma utf8_step_shorter s k r :
  utf8_step s = Some (k, r) → String.length r < String.length s.
Proof.
  intros H. pose proof (utf8_step_nonempty _ _ _ H) as Hne.
  apply utf8_step_app in H as ->. rewrite slen_app.
  destruct (chunk_bytes k); [done|simpl; lia].
Qed.

Lemma utf8_step_valid s c r : utf8_step s = Some (Valid c, r) → utf8_char c = true.
Proof.
  intros H. unfold utf8_step in H.
  repeat (case_match; simplify_eq/=); simpl;
    repeat match goal with H : _ = _ |- _ => rewrite H end; done.
Qed.

Lemma utf8_step_char c r : utf8_char c = true → utf8_step (c +:+ r) = Some (Valid c, r).
Proof.
  intros H.
  destruct c as [|b0 [|b1 [|b2 [|b3 [|b4 c]]]]]; simpl in H; try done;
    repeat match goal with
    | H : _ && _ = true |- _ => apply andb_true_iff in H as [? ?]
    | H : (_ =? _)%N = true |- _ => apply N.eqb_eq in H
    end; rewrite ?sapp_cons, sapp_nil_l; cbn [utf8_step];
    repeat match goal with H : _ = _ |- _ => rewrite H; clear H end; done.
Qed.

Lemma chunks_go_fuel n m s :
  String.length s ≤ n → String.length s ≤ m → chunks_go n s = chunks_go m s.
Proof.
  revert m s. induction n as [|n IH]; intros [|m] s Hn Hm; simpl; try done.
  - by destruct s; simpl in Hn; [|lia].
  - by destruct s; simpl in Hm; [|lia].
  - destruct (utf8_step s) as [[k r]|] eqn:E; [|done].
    apply utf8_step_shorter in E. f_equal. apply IH; lia.
Qed.

Lemma chunks_unfold s :
  chunks s = match utf8_step s with None => [] | Some (k, r) => k :: chunks r end.
Proof.
  unfold chunks at 1. destruct s as [|a s]; [done|].
  change (String.length (String a s)) with (S (String.length s)). cbn [chunks_go].
  destruct (utf8_step (String a s)) as [[k r]|] eqn:E; [|done].
  apply utf8_step_shorter in E. simpl in E. f_equal. apply chunks_go_fuel; lia.
Qed.

Lemma chunks_nil : chunks "" = [].
Proof. done. Qed.

(** Induction over the decoder's steps. *)
Lemma chunks_ind (P : string → Prop) :
  P "" → (∀ s k r, utf8_step s = Some (k, r) → P r → P s) → ∀ s, P s.
Proof.
  intros Hnil Hstep s. remember (String.length s) as n eqn:Hn.
  revert s Hn. induction (lt_wf n) as [n _ IH]. intros s ->.
  destruct (utf8_step s) as [[k r]|] eqn:E.
  - apply (Hstep _ _ _ E). eapply IH; [|done]. by eapply utf8_step_shorter.
  - destruct s as [|b s]; [done|]. exfalso. unfold utf8_step in E. by repeat case_match.
Qed.

(** The chunks partition the bytes: nothing is dropped, repeated or reordered. *)
Lemma chars_concat s : str_concat (chars s) = s.
Proof.
  induction s as [|s k r E IH] using chunks_ind; [done|].
  unfold chars in *. rewrite chunks_unfold, E. cbn [map].
  rewrite str_concat_cons, IH.
  symmetry. by apply utf8_step_app.
Qed.

(** ** Valid text *)
Lemma utf8_valid_nil : utf8_valid "" = true.
Proof. done. Qed.

Lemma utf8_valid_step s k r :
  utf8_step s = Some (k, r) → utf8_valid s = chunk_ok k && utf8_valid r.
Proof. intros E. unfold utf8_valid. by rewrite chunks_unfold, E. Qed.

Lemma utf8_valid_cons c r : utf8_char c = true → utf8_valid (c +:+ r) = utf8_valid r.
Proof. intros Hc. by rewrite (utf8_valid_step _ _ _ (utf8_step_char _ r Hc)). Qed.

Lemma utf8_valid_ind (P : string → Prop) :
  P "" →
  (∀ c r, utf8_char c = true → utf8_valid r = true → P r → P (c +:+ r)) →
  ∀ s, utf8_valid s = true → P s.
Proof.
  intros Hnil Hcons s. induction s as [|s k r E IH] using chunks_ind; [done|].
  rewrite (utf8_valid_step _ _ _ E). intros [Hk Hr]%andb_true_iff.
  destruct k as [c|c]; [|done]. rewrite (utf8_step_app _ _ _ E).
  apply Hcons; eauto using utf8_step_valid.
Qed.

Lemma utf8_valid_app s t : utf8_valid s = true → utf8_valid (s +:+ t) = utf8_valid t.
Proof.
  revert s. apply utf8_valid_ind; [done|]. intros c r Hc _ IH.
  by rewrite sapp_assoc, utf8_valid_cons.
Qed.

Lemma utf8_valid_concat l : Forall (λ s, utf8_valid s = true) l → utf8_valid (str_concat l) = true.
Proof.
  induction 1 as [|s l Hs _ IH]; [done|]. by rewrite str_concat_cons, utf8_valid_app.
Qed.

(** Plain ASCII is valid text. *)
Definition is_ascii (b : ascii) : bool := byte_in 0x00 0x7F b.
Fixpoint str_all (f : ascii → bool) (s : string) : bool :=
  match s with "" => true | String b s => f b && str_all f s end.

Lemma utf8_char_ascii b : is_ascii b = true → utf8_char (String b "") = true.
Proof. intros H. unfold utf8_char, utf8_width. unfold is_ascii in H. by rewrite H. Qed.

Lemma utf8_valid_ascii s : str_all is_ascii s = true → utf8_valid s = true.
Proof.
  induction s as [|b s IH]; [done|]. simpl. intros [Hb Hs]%andb_true_iff.
  change (String b s) with (String b "" +:+ s).
  rewrite utf8_valid_cons by by apply utf8_char_ascii. auto.
Qed.

(** ** Lossy decoding *)
Lemma from_utf8_lossy_step s k r :
  utf8_step s = Some (k, r) →
  from_utf8_lossy s
  = match k with Valid c => c | Invalid _ => replacement end +:+ from_utf8_lossy r.
Proof. intros E. unfold from_utf8_lossy. by rewrite chunks_unfold, E. Qed.

(** The result is always a well-formed [str], whatever the bytes. *)
Lemma from_utf8_lossy_valid s : utf8_valid (from_utf8_lossy s) = true.
Proof.
  induction s as [|s k r E IH] using chunks_ind; [done|].
  rewrite (from_utf8_lossy_step _ _ _ E). destruct k as [c|c].
  - rewrite utf8_valid_cons; eauto using utf8_step_valid.
  - by rewrite utf8_valid_cons.
Qed.

(** On valid text it changes nothing. *)
Lemma from_utf8_lossy_id s : utf8_valid s = true → from_utf8_lossy s = s.
Proof.
  revert s. apply utf8_valid_ind; [done|]. intros c r Hc _ IH.
  by rewrite (from_utf8_lossy_step _ _ _ (utf8_step_char _ r Hc)), IH.
Qed.

Lemma from_utf8_lossy_idemp s : from_utf8_lossy (from_utf8_lossy s) = from_utf8_lossy s.
Proof. apply from_utf8_lossy_id, from_utf8_lossy_valid. Qed.

Lemma from_utf8_lossy_nonempty s : s ≠ "" → from_utf8_lossy s ≠ "".
Proof.
  intros Hs. destruct (utf8_step s) as [[k r]|] eqn:E.
  - rewrite (from_utf8_lossy_step _ _ _ E). pose proof (utf8_step_nonempty _ _ _ E) as Hk.
    destruct k as [c|c]; [|done]. simpl in Hk. by destruct c.
  - destruct s as [|b s]; [done|]. exfalso. unfold utf8_step in E. by repeat case_match.
Qed.

(** ** Character boundaries *)
Lemma str_take_0 s : str_take 0 s = "".
Proof. by destruct s. Qed.
Lemma str_take_all s n : String.length s ≤ n → str_take n s = s.
Proof.
  revert n. induction s as [|b s IH]; intros [|n] H; simpl in *; try done; [lia|].
  f_equal. apply IH. lia.
Qed.
Lemma str_take_app s t n :
  str_take (String.length s + n) (s +:+ t) = s +:+ str_take n t.
Proof. induction s as [|b s IH]; [done|]. rewrite !sapp_cons. simpl. by rewrite IH. Qed.
Lemma slen_take s n : String.length (str_take n s) = Nat.min n (String.length s).
Proof. revert n. induction s as [|b s IH]; intros [|n]; simpl; auto. Qed.
Lemma str_take_prefix s n : ∃ u, s = str_take n s +:+ u.
Proof.
  revert n. induction s as [|b s IH]; intros [|n]; simpl; [by exists ""..|by exists (String b s)|].
  destruct (IH n) as [u Hu]. exists u. by rewrite sapp_cons, <-Hu.
Qed.

Lemma str_get_app_l s t n : n < String.length s → String.get n (s +:+ t) = String.get n s.
Proof.
  revert n. induction s as [|b s IH]; intros [|n] H; simpl in H; try lia; [done|].
  rewrite sapp_cons. simpl. apply IH. lia.
Qed.
Lemma str_get_app_r s t n : String.get (String.length s + n) (s +:+ t) = String.get n t.
Proof. induction s as [|b s IH]; [done|]. by rewrite sapp_cons. Qed.

Lemma second3_cont b0 b1 : second3 b0 b1 = true → is_cont b1 = true.
Proof.
  unfold second3, is_cont, byte_in. intros H.
  repeat case_match; apply andb_true_iff in H as [?%N.leb_le ?%N.leb_le];
    apply andb_true_iff; rewrite !N.leb_le; lia.
Qed.
Lemma second4_cont b0 b1 : second4 b0 b1 = true → is_cont b1 = true.
Proof.
  unfold second4, is_cont, byte_in. intros H.
  repeat case_match; apply andb_true_iff in H as [?%N.leb_le ?%N.leb_le];
    apply andb_true_iff; rewrite !N.leb_le; lia.
Qed.

(** Inside a character every byte but the first is a continuation byte. *)
Lemma utf8_char_inner c n :
  utf8_char c = true → 0 < n < String.length c → ∃ b, String.get n c = Some b ∧ is_cont b = true.
Proof.
  intros H Hn.
  destruct c as [|b0 [|b1 [|b2 [|b3 [|b4 c]]]]]; simpl in H, Hn; try done; try lia;
    repeat match goal with H : _ && _ = true |- _ => apply andb_true_iff in H as [H ?] end;
    (destruct n as [|[|[|[|n]]]]; try lia); simpl; eauto using second3_cont, second4_cont.
Qed.

(** Cutting valid text at a character boundary leaves valid text. *)
Lemma utf8_valid_take s n :
  utf8_valid s = true → is_char_boundary s n = true → utf8_valid (str_take n s) = true.
Proof.
  intros Hs. revert s Hs n.
  apply (utf8_valid_ind (λ s, ∀ n, is_char_boundary s n = true → utf8_valid (str_take n s) = true));
    [|intros c r Hc Hr IH]; intros n Hb.
  - by destruct n.
  - destruct (decide (n < String.length c)) as [Hlt|Hge].
    + destruct n as [|n]; [by rewrite str_take_0|]. exfalso.
      destruct (utf8_char_inner c (S n) Hc ltac:(lia)) as (b & Hget & Hcont).
      unfold is_char_boundary in Hb. rewrite str_get_app_l in Hb by done.
      by rewrite Hget, Hcont in Hb.
    + replace n with (String.length c + (n - String.length c)) in Hb |- * by lia.
      rewrite str_take_app, utf8_valid_cons by done. apply IH.
      set (m := n - String.length c) in *. unfold is_char_boundary in Hb |- *.
      rewrite str_get_app_r, slen_app in Hb. destruct m as [|m]; [done|].
      destruct (String.length c + S m) eqn:E in Hb; [lia|].
      destruct (String.get (S m) r); [done|].
      apply Nat.eqb_eq in Hb. apply Nat.eqb_eq. lia.
Qed.
