(* ===== verification/Json.v ===== *)
(** * JSON: the reference reading of the documents the crate emits and consumes

    This file is specification, not translation: a value type, a parser for the integer
    fragment of RFC 8259 (no fractions, no exponents, no surrogate escapes; everything
    else of the grammar, white space included), and the compact rendering of a value
    under a string escaper. The escaper is the section's parameter with its one law, so
    the round trip below holds for any code whose escaping the parser undoes;
    [Config] discharges the law for [json_escape_into]. *)
From Stdlib Require Import ZArith NArith Ascii Decimal DecimalString DecimalZ DecimalFacts.
From Stdlib Require String.
From stdpp Require Import base tactics option list strings.
From S2P Require Import Prelude Text.

Unset Elimination Schemes.
Inductive json :=
  | JNull
  | JBool (b : bool)
  | JNum (n : Z)
  | JStr (s : string)
  | JArr (l : list json)
  | JObj (m : list (string * json)).
Set Elimination Schemes.

Section json_ind.
Context (P : json → Prop).
Hypothesis P_null : P JNull.
Hypothesis P_bool : ∀ b, P (JBool b).
Hypothesis P_num : ∀ n, P (JNum n).
Hypothesis P_str : ∀ s, P (JStr s).
Hypothesis P_arr : ∀ l, Forall P l → P (JArr l).
Hypothesis P_obj : ∀ m, Forall (λ kv, P kv.2) m → P (JObj m).

Fixpoint json_ind (v : json) : P v :=
  match v with
  | JNull => P_null
  | JBool b => P_bool b
  | JNum n => P_num n
  | JStr s => P_str s
  | JArr l =>
      P_arr l ((fix go l := match l return Forall P l with
                | [] => List.Forall_nil _
                | v :: l => List.Forall_cons _ _ _ (json_ind v) (go l)
                end) l)
  | JObj m =>
      P_obj m ((fix go m := match m return Forall (λ kv, P kv.2) m with
                | [] => List.Forall_nil _
                | kv :: m => List.Forall_cons _ _ _ (json_ind kv.2) (go m)
                end) m)
  end.
End json_ind.

(** ** Reading *)
Definition is_ws (b : ascii) : bool :=
  match b with " " | "009" | "010" | "013" => true | _ => false end%char.
Fixpoint skip_ws (s : string) : string :=
  match s with
  | String b r => if is_ws b then skip_ws r else s
  | "" => ""
  end.

Definition hex_digit (b : ascii) : option N :=
  let v := byte_val b in
  if byte_in 48 57 b then Some (v - 48)%N
  else if byte_in 97 102 b then Some (v - 87)%N
  else if byte_in 65 70 b then Some (v - 55)%N
  else None.

(** The UTF-8 encoding of a code point of the basic plane; none for a surrogate. *)
Definition encode_bmp (cp : N) : option string :=
  let b n := ascii_of_N n in
  if (cp <? 0x80)%N then Some (String (b cp) "")
  else if (cp <? 0x800)%N then
    Some (String (b (0xC0 + cp / 64)%N) (String (b (0x80 + cp mod 64)%N) ""))
  else if ((0xD800 <=? cp) && (cp <=? 0xDFFF))%N then None
  else Some (String (b (0xE0 + cp / 4096)%N)
      (String (b (0x80 + (cp / 64) mod 64)%N) (String (b (0x80 + cp mod 64)%N) ""))).

Definition unescape (e : ascii) : option ascii :=
  match e with
  | "034" => Some "034" | "\" => Some "\" | "/" => Some "/"
  | "b" => Some "008" | "f" => Some "012" | "n" => Some "010"
  | "r" => Some "013" | "t" => Some "009"
  | _ => None
  end%char.

Definition quote : ascii := "034".
Definition backslash : ascii := "\".

(** The rest of a string literal after its opening quote. *)
Fixpoint parse_str (s : string) : option (string * string) :=
  match s with
  | "" => None
  | String b r =>
    if Ascii.eqb b quote then Some ("", r)
    else if Ascii.eqb b backslash then
      match r with
      | String e r1 =>
        if Ascii.eqb e "u" then
          match r1 with
          | String h1 (String h2 (String h3 (String h4 r2))) =>
            match hex_digit h1, hex_digit h2, hex_digit h3, hex_digit h4 with
            | Some x1, Some x2, Some x3, Some x4 =>
              match encode_bmp (((x1 * 16 + x2) * 16 + x3) * 16 + x4)%N, parse_str r2 with
              | Some c, Some (t, k) => Some (c +:+ t, k)
              | _, _ => None
              end
            | _, _, _, _ => None
            end
          | _ => None
          end
        else match unescape e, parse_str r1 with
             | Some c, Some (t, k) => Some (String c t, k)
             | _, _ => None
             end
      | "" => None
      end
    else if (byte_val b <? 32)%N then None
    else match parse_str r with Some (t, k) => Some (String b t, k) | None => None end
  end.

(** The longest run of digits. *)
Fixpoint parse_digits (s : string) : Decimal.uint * string :=
  match s with
  | String b r =>
    let go f := let '(d, k) := parse_digits r in (f d, k) in
    match b with
    | "0" => go D0 | "1" => go D1 | "2" => go D2 | "3" => go D3 | "4" => go D4
    | "5" => go D5 | "6" => go D6 | "7" => go D7 | "8" => go D8 | "9" => go D9
    | _ => (Decimal.Nil, s)
    end%char
  | "" => (Decimal.Nil, "")
  end.

(** A JSON integer has at least one digit and no leading zero: its digits are the
    normal form of the number they denote. *)
Definition parse_num (s : string) : option (Z * string) :=
  let read neg r :=
    let '(d, k) := parse_digits r in
    if Decimal.uint_beq (unorm d) d
         then Some (Z.of_int (if neg : bool then Decimal.Neg d else Decimal.Pos d), k)
         else None in
  match s with
  | String "-" r => read true r
  | _ => read false s
  end.

Fixpoint parse_value (fuel : nat) (s : string) : option (json * string) :=
  match fuel with
  | 0 => None
  | S fuel =>
    match skip_ws s with
    | String "{" r =>
      match skip_ws r with
      | String "}" r1 => Some (JObj [], r1)
      | r1 => match parse_members fuel r1 with
              | Some (m, k) => Some (JObj m, k)
              | None => None
              end
      end
    | String "[" r =>
      match skip_ws r with
      | String "]" r1 => Some (JArr [], r1)
      | r1 => match parse_elements fuel r1 with
              | Some (l, k) => Some (JArr l, k)
              | None => None
              end
      end
    | String "034" r =>
      match parse_str r with Some (t, k) => Some (JStr t, k) | None => None end
    | String "n" (String "u" (String "l" (String "l" r))) => Some (JNull, r)
    | String "t" (String "r" (String "u" (String "e" r))) => Some (JBool true, r)
    | String "f" (String "a" (String "l" (String "s" (String "e" r)))) => Some (JBool false, r)
    | s1 => match parse_num s1 with Some (n, k) => Some (JNum n, k) | None => None end
    end
  end
with parse_members (fuel : nat) (s : string) : option (list (string * json) * string) :=
  match fuel with
  | 0 => None
  | S fuel =>
    match skip_ws s with
    | String "034" r =>
      match parse_str r with
      | Some (key, r1) =>
        match skip_ws r1 with
        | String ":" r2 =>
          match parse_value fuel r2 with
          | Some (v, r3) =>
            match skip_ws r3 with
            | String "," r4 =>
              match parse_members fuel r4 with
              | Some (m, k) => Some ((key, v) :: m, k)
              | None => None
              end
            | String "}" r4 => Some ([(key, v)], r4)
            | _ => None
            end
          | None => None
          end
        | _ => None
        end
      | None => None
      end
    | _ => None
    end
  end
with parse_elements (fuel : nat) (s : string) : option (list json * string) :=
  match fuel with
  | 0 => None
  | S fuel =>
    match parse_value fuel s with
    | Some (v, r) =>
      match skip_ws r with
      | String "," r1 =>
        match parse_elements fuel r1 with
        | Some (l, k) => Some (v :: l, k)
        | None => None
        end
      | String "]" r1 => Some ([v], r1)
      | _ => None
      end
    | None => None
    end
  end.

(** A document is one value and nothing but white space after it. Every recursive call
    consumes a byte, so twice the length is fuel enough. *)
Definition parse (s : string) : option json :=
  match parse_value (2 * String.length s + 2) s with
  | Some (v, k) => match skip_ws k with "" => Some v | _ => None end
  | None => None
  end.


(** ** Integers read back *)
Definition starts_digit (s : string) : bool :=
  match s with String b _ => byte_in 48 57 b | "" => false end.

Lemma parse_digits_stop k : starts_digit k = false → parse_digits k = (Decimal.Nil, k).
Proof.
  destruct k as [|b k]; [done|].
  by destruct b as [[][][][][][][][]].
Qed.

Lemma parse_digits_uint d k :
  starts_digit k = false →
  parse_digits (NilEmpty.string_of_uint d +:+ k) = (d, k).
Proof.
  intros Hk. induction d; [by apply parse_digits_stop|..];
    cbn [NilEmpty.string_of_uint]; rewrite sapp_cons; cbn [parse_digits]; by rewrite IHd.
Qed.

Lemma to_uint_unorm n : unorm (N.to_uint n) = N.to_uint n.
Proof. by rewrite <-DecimalN.Unsigned.to_of, DecimalN.Unsigned.of_to. Qed.

Lemma uint_beq_refl d : Decimal.uint_beq d d = true.
Proof. by apply Decimal.internal_uint_dec_lb. Qed.

Lemma N_to_uint_nonnil n : N.to_uint n ≠ Decimal.Nil.
Proof. destruct n as [|p]; [done|]. apply DecimalPos.Unsigned.to_uint_nonnil. Qed.

(** The text of a number is its digits behind an optional sign. *)
Lemma dec_Z_cases z :
  ∃ d, d ≠ Decimal.Nil ∧ unorm d = d ∧
  ((dec_Z z = NilEmpty.string_of_uint d ∧ Z.of_int (Decimal.Pos d) = z) ∨
   (dec_Z z = String "-" (NilEmpty.string_of_uint d) ∧ Z.of_int (Decimal.Neg d) = z)).
Proof.
  pose proof (DecimalZ.of_to z) as Hz. unfold dec_Z.
  assert (∀ p, ∃ d, Pos.to_uint p = d ∧ d ≠ Decimal.Nil ∧ unorm d = d) as Hp.
  { intros p. exists (Pos.to_uint p). split; [done|]. split.
    - apply DecimalPos.Unsigned.to_uint_nonnil.
    - apply (to_uint_unorm (Npos p)). }
  destruct z as [|p|p]; simpl in *.
  - exists (D0 Decimal.Nil). split_and!; [done..|by left].
  - destruct (Hp p) as (d & Hd & Hne & Hu). rewrite Hd in Hz |- *.
    exists d. split_and!; [done..|]. left. split; [|done]. by destruct d.
  - destruct (Hp p) as (d & Hd & Hne & Hu). rewrite Hd in Hz |- *.
    exists d. split_and!; [done..|]. right. split; [|done]. by destruct d.
Qed.

Lemma parse_value_num n z k :
  starts_digit k = false → parse_value (S n) (dec_Z z +:+ k) = Some (JNum z, k).
Proof.
  intros Hk. destruct (dec_Z_cases z) as (d & Hne & Hu & [[-> Hz]|[-> Hz]]).
  - assert (parse_num (NilEmpty.string_of_uint d +:+ k) = Some (z, k)) as Hn.
    { transitivity (let '(d', k') := parse_digits (NilEmpty.string_of_uint d +:+ k) in
        if Decimal.uint_beq (unorm d') d' then Some (Z.of_int (Decimal.Pos d'), k') else None).
      - by destruct d.
      - by rewrite parse_digits_uint, Hu, uint_beq_refl, Hz by done. }
    destruct d; [done|..]; cbn [NilEmpty.string_of_uint] in Hn |- *;
      rewrite sapp_cons in Hn |- *; cbn [parse_value skip_ws is_ws]; by rewrite Hn.
  - rewrite sapp_cons. cbn [parse_value skip_ws is_ws parse_num].
    by rewrite parse_digits_uint, Hu, uint_beq_refl, Hz by done.
Qed.

(** ** Rendering and its round trip *)
Section render.
Context (escape : string → string).
Hypothesis escape_ok : ∀ s k, parse_str (escape s +:+ String quote k) = Some (s, k).

Definition quoted (s : string) : string := String quote (escape s +:+ String quote "").

Fixpoint render (v : json) : string :=
  match v with
  | JNull => "null"
  | JBool b => if b then "true" else "false"
  | JNum n => dec_Z n
  | JStr s => quoted s
  | JArr l => "[" +:+ str_join "," (map render l) +:+ "]"
  | JObj m => "{" +:+ str_join "," (map (λ kv, quoted kv.1 +:+ ":" +:+ render kv.2) m) +:+ "}"
  end.

(** Fuel for reading a rendered value back. *)
Fixpoint jfuel (v : json) : nat :=
  match v with
  | JArr l => S (foldr (λ v n, S (Nat.max (jfuel v) n)) 0 l)
  | JObj m => S (foldr (λ kv n, S (Nat.max (jfuel kv.2) n)) 0 m)
  | _ => 1
  end.

Definition joined (xs : list string) (close : ascii) (k : string) : string :=
  str_join "," xs +:+ String close k.

Lemma joined_one x close k : joined [x] close k = x +:+ String close k.
Proof. done. Qed.
Lemma joined_cons x y xs close k :
  joined (x :: y :: xs) close k = x +:+ String "," (joined (y :: xs) close k).
Proof. unfold joined. cbn [str_join]. by str_norm. Qed.

Lemma parse_quoted n s k : parse_value (S n) (quoted s +:+ k) = Some (JStr s, k).
Proof.
  unfold quoted. rewrite sapp_cons, sapp_assoc. cbn [parse_value skip_ws is_ws quote].
  rewrite sapp_cons, sapp_nil_l. fold quote. by rewrite escape_ok.
Qed.

Definition reads (v : json) : Prop :=
  ∀ n k, jfuel v ≤ n → starts_digit k = false → parse_value n (render v +:+ k) = Some (v, k).

Definition member (kv : string * json) : string := quoted kv.1 +:+ ":" +:+ render kv.2.
Definition mfuel (m : list (string * json)) : nat :=
  foldr (λ kv n, S (Nat.max (jfuel kv.2) n)) 0 m.
Definition lfuel (l : list json) : nat := foldr (λ v n, S (Nat.max (jfuel v) n)) 0 l.

Lemma parse_member_step n kv r :
  reads kv.2 → jfuel kv.2 ≤ n → starts_digit r = false →
  parse_members (S n) (member kv +:+ r)
  = match skip_ws r with
    | String "," r4 =>
      match parse_members n r4 with Some (m, k') => Some (kv :: m, k') | None => None end
    | String "}" r4 => Some ([kv], r4)
    | _ => None
    end.
Proof.
  intros Hv Hn Hr. destruct kv as [key v]. unfold member, quoted. cbn [fst snd] in *.
  autorewrite with str. cbn [parse_members skip_ws is_ws quote]. fold quote.
  rewrite escape_ok. cbn [skip_ws is_ws]. by rewrite Hv by done.
Qed.

Lemma parse_members_render m n k :
  m ≠ [] → Forall (λ kv, reads kv.2) m → mfuel m ≤ n →
  parse_members n (joined (map member m) "}" k) = Some (m, k).
Proof.
  intros Hne Hm. revert n. induction Hm as [|kv m Hv Hm IH]; intros n Hn; [done|].
  simpl in Hn. destruct n as [|n]; [lia|]. destruct m as [|kv' m].
  - cbn [map]. rewrite joined_one. by rewrite (parse_member_step _ _ _) by (done || lia).
  - cbn [map]. rewrite joined_cons, (parse_member_step _ _ _) by (done || lia).
    cbn [skip_ws is_ws]. cbn [map] in IH. rewrite IH; [done..|]. unfold mfuel in *. simpl in *. lia.
Qed.

Lemma parse_elements_render l n k :
  l ≠ [] → Forall reads l → lfuel l ≤ n →
  parse_elements n (joined (map render l) "]" k) = Some (l, k).
Proof.
  intros Hne Hl. revert n. induction Hl as [|v l Hv Hl IH]; intros n Hn; [done|].
  simpl in Hn. destruct n as [|n]; [lia|]. destruct l as [|v' l].
  - cbn [map]. rewrite joined_one. cbn [parse_elements]. by rewrite Hv by (done || lia).
  - cbn [map]. rewrite joined_cons. cbn [parse_elements]. rewrite Hv by (done || lia).
    cbn [skip_ws is_ws]. cbn [map] in IH. rewrite IH; [done..|]. unfold lfuel in *. simpl in *. lia.
Qed.

Lemma render_obj_cons m k :
  m ≠ [] → ∃ r, joined (map member m) "}" k = String quote r.
Proof.
  intros Hm. destruct m as [|kv [|kv' m]]; [done|..]; cbn [map].
  - rewrite joined_one. unfold member, quoted. rewrite !sapp_cons. eauto.
  - rewrite joined_cons. unfold member, quoted. rewrite !sapp_cons. eauto.
Qed.

(** No rendered value starts with white space or a closing bracket. *)
Lemma render_head v : ∃ b r, render v = String b r ∧ is_ws b = false ∧ b ≠ "]"%char.
Proof.
  destruct v as [|[]|z|s|l|m]; simpl; try by (eexists _, _; rewrite ?sapp_cons).
  destruct (dec_Z_cases z) as (d & Hne & _ & [[-> _]|[-> _]]); [|by eexists _, _].
  by destruct d; [done|eexists _, _..].
Qed.

Lemma joined_elements_head l k :
  l ≠ [] → ∃ b r, joined (map render l) "]" k = String b r ∧ is_ws b = false ∧ b ≠ "]"%char.
Proof.
  intros Hl. destruct l as [|v l]; [done|].
  destruct (render_head v) as (b & r & Hv & Hb).
  destruct l as [|v' l]; cbn [map];
    [rewrite joined_one|rewrite joined_cons]; rewrite Hv, sapp_cons; eauto.
Qed.

Theorem render_reads v : reads v.
Proof.
  induction v as [|b|z|s|l IH|m IH] using json_ind; intros [|n] k Hn Hk; cbn [jfuel] in Hn;
    try lia; cbn [render].
  - done.
  - by destruct b.
  - by apply parse_value_num.
  - apply parse_quoted.
  - autorewrite with str. change (str_join _ _ +:+ String "]" k) with (joined (map render l) "]" k).
    destruct (decide (l = [])) as [->|Hl]; [done|].
    pose proof (parse_elements_render l n k Hl IH ltac:(unfold lfuel; lia)) as He.
    destruct (joined_elements_head l k Hl) as (b & r & Hj & Hws & Hb).
    cbn [parse_value skip_ws is_ws]. rewrite Hj in He |- *. cbn [skip_ws]. rewrite Hws.
    clear Hj Hws. destruct b as [[][][][][][][][]]; (done || by rewrite He).
  - autorewrite with str.
    change (str_join _ _ +:+ String "}" k) with (joined (map member m) "}" k).
    destruct (decide (m = [])) as [->|Hm]; [done|].
    pose proof (parse_members_render m n k Hm IH ltac:(unfold mfuel; lia)) as He.
    destruct (render_obj_cons m k Hm) as [r Hj].
    cbn [parse_value skip_ws is_ws]. rewrite Hj in He |- *. cbn [skip_ws quote is_ws].
    fold quote. by rewrite He.
Qed.

Lemma joined_length x l :
  String.length x + String.length (str_join "," l) ≤ String.length (str_join "," (x :: l)).
Proof. destruct l as [|y l]; cbn [str_join]; rewrite ?slen_app; simpl; lia. Qed.

Lemma jfuel_length v : jfuel v ≤ String.length (render v).
Proof.
  induction v as [|b|z|s|l IH|m IH] using json_ind; cbn [render jfuel].
  - simpl. lia.
  - destruct b; simpl; lia.
  - destruct (render_head (JNum z)) as (b & r & Hz & _). simpl in Hz. rewrite Hz. simpl. lia.
  - unfold quoted. simpl. lia.
  - autorewrite with str. cut (lfuel l ≤ S (String.length (str_join "," (map render l)))).
    { unfold lfuel. simpl. lia. }
    induction IH as [|v l Hv _ IHl]; [simpl; lia|]. cbn [lfuel foldr map].
    pose proof (joined_length (render v) (map render l)). fold (lfuel l).
    assert (0 < String.length (render v)).
    { destruct (render_head v) as (? & ? & -> & _). simpl. lia. }
    lia.
  - autorewrite with str. cut (mfuel m ≤ S (String.length (str_join "," (map member m)))).
    { unfold mfuel, member. simpl. lia. }
    induction IH as [|kv m Hv _ IHm]; [simpl; lia|]. cbn [mfuel foldr map].
    pose proof (joined_length (member kv) (map member m)) as Hj. fold (mfuel m).
    assert (String.length (render kv.2) < String.length (member kv)).
    { unfold member, quoted. autorewrite with str. simpl. lia. }
    lia.
Qed.

(** Reading a rendered document gives the value back. *)
Theorem parse_render v : parse (render v) = Some v.
Proof.
  unfold parse. pose proof (jfuel_length v) as Hf.
  pose proof (render_reads v (2 * String.length (render v) + 2) "" ltac:(lia) eq_refl) as Hv.
  rewrite sapp_nil_r in Hv. by rewrite Hv.
Qed.
End render.

(** ** Queries *)
(** The value of a key; of several, the last one written, as JSON readers that build a
    map resolve it. *)
Definition obj_get (key : string) (m : list (string * json)) : option json :=
  foldl (λ acc kv, if decide (kv.1 = key) then Some kv.2 else acc) None m.
