(* ===== verification/Nexus.v ===== *)
(** * The llingr-nexus vocabulary

    llingr-nexus is a dependency, not part of the repository: its functions are the
    fields of the class [Nexus], parameters of every definition that calls them, and what
    the crate relies on is the class [NexusLaws], the documented behaviour. The records
    below are the nexus types the crate builds field by field or matches on, with the
    fields and constructors its source names. [nexus_ref] is a concrete instance that
    satisfies the laws; the witnesses compute with it. *)
From Stdlib Require Import ZArith NArith.
From stdpp Require Import base tactics option list strings.
From S2P Require Import Prelude.

(** [std::time::Duration]: whole seconds and a sub-second part below 10^9 ns. *)
Record Duration := mkDuration { as_secs : N; subsec_nanos : N }.
#[export] Instance Duration_eq_dec : EqDecision Duration.
Proof. solve_decision. Defined.

Definition duration_ok (d : Duration) : Prop := (as_secs d < 2 ^ 64 ∧ subsec_nanos d < 10 ^ 9)%N.
Definition total_nanos (d : Duration) : N := (as_secs d * 10 ^ 9 + subsec_nanos d)%N.
Definition from_secs (n : N) : Duration := mkDuration n 0.
Definition from_millis (n : N) : Duration := mkDuration (n / 1000) (n mod 1000 * 10 ^ 6).
Definition from_micros (n : N) : Duration := mkDuration (n / 10 ^ 6) (n mod 10 ^ 6 * 1000).

(** Timestamps, headers and messages *)
Inductive Timestamp :=
  | NotAvailable
  | CreateTime (millis : Z)
  | LogAppendTime (millis : Z).
#[export] Instance Timestamp_eq_dec : EqDecision Timestamp.
Proof. solve_decision. Defined.

Record Header := mkHeader { h_key : string; h_value : option string }.
#[export] Instance Header_eq_dec : EqDecision Header.
Proof. solve_decision. Defined.

(** What [Message::new] is given: the view a handler gets. *)
Record Message := mkMessage {
  msg_key : option string;
  msg_value : option string;
  msg_topic : string;
  msg_partition : Z;
  msg_offset : Z;
  msg_timestamp : Timestamp;
  msg_headers : list Header;
}.
#[export] Instance Message_eq_dec : EqDecision Message.
Proof. solve_decision. Defined.

Inductive LogLevel := LogDebug | LogInfo | LogWarn | LogError.
#[export] Instance LogLevel_eq_dec : EqDecision LogLevel.
Proof. solve_decision. Defined.

(** The bandwidth packet *)
Record BrokerInfo := mkBrokerInfo {
  broker_id : string; broker_host : string; broker_port : string; broker_rack : string;
}.
Record PartitionBandwidth := mkPartitionBandwidth {
  pb_ts_unix_ns : Z;
  pb_received_bytes : Z;
  pb_transmitted_bytes : Z;
  pb_received_message_count : Z;
  pb_compressed_bytes : Z;
  pb_uncompressed_bytes : Z;
  pb_id : Z;
  pb_leader : string;
  pb_compression : string;
}.
Record BandwidthMetrics := mkBandwidthMetrics {
  bm_ts_unix_ns : Z;
  bm_stats_interval_ms : Z;
  bm_metrics_id : string;
  bm_topic : string;
  bm_consumer_group : string;
  bm_brokers : list BrokerInfo;
  bm_partitions : list PartitionBandwidth;
}.

(** The functions of the crate's dependency. *)
Class Nexus := {
  duration_ms_ceil : Duration → N;
  AutoOffsetReset : Type;
  AutoOffsetReset_as_str : AutoOffsetReset → string;
  Traits : Type;
  Traits_none : Traits;
  Traits_raw : Traits → Z;
  Traits_from_raw : Z → Traits;
  has_process_error : Traits → bool;
  has_process_panic : Traits → bool;
  has_dead_letter : Traits → bool;
  has_duplicate : Traits → bool;
  has_used_overflow : Traits → bool;
  LogLevel_from_raw : Z → LogLevel;
}.

(** What the crate documents of them: whole milliseconds rounded up; the framework
    trait bits 0, 1, 2, 4 and 5; log levels 0 to 3 with anything else read as info. *)
Class NexusLaws `{!Nexus} := {
  duration_ms_ceil_lower d : duration_ok d → (total_nanos d ≤ duration_ms_ceil d * 10 ^ 6)%N;
  duration_ms_ceil_upper d : duration_ok d → (duration_ms_ceil d * 10 ^ 6 < total_nanos d + 10 ^ 6)%N;
  Traits_raw_u64 t : in_u 64 (Traits_raw t);
  has_process_error_bit r : has_process_error (Traits_from_raw r) = Z.testbit r 0;
  has_process_panic_bit r : has_process_panic (Traits_from_raw r) = Z.testbit r 1;
  has_dead_letter_bit r : has_dead_letter (Traits_from_raw r) = Z.testbit r 2;
  has_duplicate_bit r : has_duplicate (Traits_from_raw r) = Z.testbit r 4;
  has_used_overflow_bit r : has_used_overflow (Traits_from_raw r) = Z.testbit r 5;
  LogLevel_from_raw_spec r :
    LogLevel_from_raw r =
      if decide (r = 0)%Z then LogDebug else if decide (r = 2)%Z then LogWarn
      else if decide (r = 3)%Z then LogError else LogInfo;
}.

Lemma duration_ms_ceil_zero_iff `{NexusLaws} d :
  duration_ok d → duration_ms_ceil d = 0%N ↔ total_nanos d = 0%N.
Proof.
  intros Hd. pose proof (duration_ms_ceil_lower d Hd). pose proof (duration_ms_ceil_upper d Hd).
  split; intros E; rewrite E in *; lia.
Qed.

(** One message's metrics, as [MetricsHandler] is given them. *)
Record MessageMetrics {NX : Nexus} := mkMetrics {
  m_traits : Traits;
  m_queue_depth : Z;
  m_partition : Z;
  m_offset : Z;
  m_process_duration_ns : Z;
  m_deadletter_duration_ns : Z;
  m_read_time_ns : Z;
  m_process_start_time_ns : Z;
  m_watermark_advance_time_ns : Z;
}.
Arguments mkMetrics {NX}.

(** ** A reference instance *)
Inductive ref_reset := RefEarliest | RefLatest.
Definition ref_reset_str (r : ref_reset) : string :=
  match r with RefEarliest => "earliest" | RefLatest => "latest" end.
Definition ref_ms_ceil (d : Duration) : N := ((total_nanos d + 999999) / 10 ^ 6)%N.

Lemma ref_ms_ceil_bounds d :
  (total_nanos d ≤ ref_ms_ceil d * 1000000 < total_nanos d + 1000000)%N.
Proof.
  unfold ref_ms_ceil. change (10 ^ 6)%N with 1000000%N.
  pose proof (N.div_mod (total_nanos d + 999999) 1000000 ltac:(done)).
  pose proof (N.mod_lt (total_nanos d + 999999) 1000000 ltac:(done)).
  set (q := ((total_nanos d + 999999) / 1000000)%N) in *.
  set (r := ((total_nanos d + 999999) mod 1000000)%N) in *. clearbody q r. lia.
Qed.

Definition nexus_ref : Nexus := {|
  duration_ms_ceil := ref_ms_ceil;
  AutoOffsetReset := ref_reset;
  AutoOffsetReset_as_str := ref_reset_str;
  Traits := Z;
  Traits_none := 0%Z;
  Traits_raw t := wrap_u 64 t;
  Traits_from_raw r := r;
  has_process_error t := Z.testbit t 0;
  has_process_panic t := Z.testbit t 1;
  has_dead_letter t := Z.testbit t 2;
  has_duplicate t := Z.testbit t 4;
  has_used_overflow t := Z.testbit t 5;
  LogLevel_from_raw r :=
    match r with 0%Z => LogDebug | 2%Z => LogWarn | 3%Z => LogError | _ => LogInfo end;
|}.

Lemma nexus_ref_laws : @NexusLaws nexus_ref.
Proof.
  split; try done.
  - intros d _. pose proof (ref_ms_ceil_bounds d). simpl. lia.
  - intros d _. pose proof (ref_ms_ceil_bounds d). simpl. lia.
  - intros t. apply wrap_u_range. lia.
  - intros r. simpl. repeat case_decide; subst; try done. repeat case_match; done.
Qed.
