(* ===== verification/Options.v ===== *)
(** * The typed Kafka client options ([src/src/options.rs])

    The fluent [Options] builder: every setter as a function on the record, [entries]
    (what the builder hands to the engine configuration), [typed_security_keys] and
    [validate] (the typed-versus-string ambiguity guard), and the redacting [Debug].
    A setter that takes [impl ToString] or [impl Into<String>] takes the string that
    conversion yields. Builder programs are lists of [Setter]s, so a statement about
    every chain of calls is an induction over that list. *)
From Stdlib Require Import ZArith NArith.
From Stdlib Require String.
From stdpp Require Import base tactics option list sorting strings.
From S2P Require Import Prelude Text Nexus.

Inductive SaslMechanism := Plain | ScramSha256 | ScramSha512.
#[export] Instance SaslMechanism_eq_dec : EqDecision SaslMechanism.
Proof. solve_decision. Defined.

Definition SaslMechanism_as_str (m : SaslMechanism) : string :=
  match m with
  | Plain => "PLAIN"
  | ScramSha256 => "SCRAM-SHA-256"
  | ScramSha512 => "SCRAM-SHA-512"
  end.

Inductive Sasl :=
  | UserPass (mechanism : SaslMechanism) (username password : string)
  | AwsMskIam (region profile role_arn role_session_name : option string)
  | OauthbearerOidc (token_endpoint client_id client_secret : string)
      (scope : option string) (extensions : list (string * string))
  | GcpIam (principal credentials_file : option string).
#[export] Instance Sasl_eq_dec : EqDecision Sasl.
Proof. solve_decision. Defined.

Inductive BalanceStrategy := CooperativeSticky | Sticky | RoundRobin | Range.
Definition BalanceStrategy_wire_name (s : BalanceStrategy) : string :=
  match s with
  | CooperativeSticky => "cooperative-sticky"
  | Sticky => "sticky"
  | RoundRobin => "roundrobin"
  | Range => "range"
  end.

Inductive ClientLogLevel := CllNone | CllError | CllWarn | CllInfo | CllDebug.
Definition ClientLogLevel_wire_name (l : ClientLogLevel) : string :=
  match l with
  | CllNone => "none"
  | CllError => "error"
  | CllWarn => "warn"
  | CllInfo => "info"
  | CllDebug => "debug"
  end.

Record Options := mkOptions {
  opt_entries : list (string * string);
  opt_tls : bool;
  opt_ssl_entries : list (string * string);
  opt_sasl : option Sasl;
}.
#[export] Instance Options_eq_dec : EqDecision Options.
Proof. solve_decision. Defined.

Definition Options_new : Options := mkOptions [] false [] None.

Definition Options_push (self : Options) (key value : string) : Options :=
  mkOptions (opt_entries self ++ [(key, value)]) (opt_tls self) (opt_ssl_entries self)
    (opt_sasl self).

Definition Options_push_ssl (self : Options) (key value : string) : Options :=
  mkOptions (opt_entries self) true (opt_ssl_entries self ++ [(key, value)]) (opt_sasl self).

Definition set_sasl (self : Options) (s : Sasl) : Options :=
  mkOptions (opt_entries self) (opt_tls self) (opt_ssl_entries self) (Some s).

Section setters.
Context {NX : Nexus}.

(** [duration_ms_ceil(d).to_string()] *)
Definition ms (d : Duration) : string := dec_N (duration_ms_ceil d).

(** ** Client options *)
Definition Options_auto_offset_reset (self : Options) (reset : AutoOffsetReset) : Options :=
  Options_push self "auto.offset.reset" (AutoOffsetReset_as_str reset).
Definition Options_client_id (self : Options) (id : string) : Options :=
  Options_push self "client.id" id.
Definition Options_group_instance_id (self : Options) (id : string) : Options :=
  Options_push self "group.instance.id" id.
Definition Options_session_timeout (self : Options) (d : Duration) : Options :=
  Options_push self "session.timeout.ms" (ms d).
Definition Options_heartbeat_interval (self : Options) (d : Duration) : Options :=
  Options_push self "heartbeat.interval.ms" (ms d).
Definition Options_rebalance_timeout (self : Options) (d : Duration) : Options :=
  Options_push self "rebalance.timeout.ms" (ms d).
Definition Options_client_log_level (self : Options) (level : ClientLogLevel) : Options :=
  Options_push self "llingr.client.log.level" (ClientLogLevel_wire_name level).
Definition Options_partition_assignment_strategy (self : Options)
    (strategies : list BalanceStrategy) : Options :=
  Options_push self "partition.assignment.strategy"
    (str_join "," (map BalanceStrategy_wire_name strategies)).
Definition Options_fetch_min_bytes (self : Options) (n : N) : Options :=
  Options_push self "fetch.min.bytes" (dec_N n).
Definition Options_fetch_max_bytes (self : Options) (n : N) : Options :=
  Options_push self "fetch.max.bytes" (dec_N n).
Definition Options_max_partition_fetch_bytes (self : Options) (n : N) : Options :=
  Options_push self "max.partition.fetch.bytes" (dec_N n).
Definition Options_fetch_max_wait (self : Options) (d : Duration) : Options :=
  Options_push self "fetch.max.wait.ms" (ms d).
Definition Options_rack (self : Options) (rack : string) : Options :=
  Options_push self "client.rack" rack.
Definition Options_metadata_max_age (self : Options) (d : Duration) : Options :=
  Options_push self "metadata.max.age.ms" (ms d).
Definition Options_dial_timeout (self : Options) (d : Duration) : Options :=
  Options_push self "socket.connection.setup.timeout.ms" (ms d).
Definition Options_connection_idle_timeout (self : Options) (d : Duration) : Options :=
  Options_push self "connections.max.idle.ms" (ms d).
Definition Options_request_retries (self : Options) (n : N) : Options :=
  Options_push self "llingr.request.retries" (dec_N n).
Definition Options_retry_timeout (self : Options) (d : Duration) : Options :=
  Options_push self "llingr.retry.timeout.ms" (ms d).
Definition Options_max_concurrent_fetches (self : Options) (n : N) : Options :=
  Options_push self "llingr.max.concurrent.fetches" (dec_N n).
Definition Options_allow_auto_topic_creation (self : Options) : Options :=
  Options_push self "allow.auto.create.topics" "true".
Definition Options_disable_fetch_crc_validation (self : Options) : Options :=
  Options_push self "check.crcs" "false".
Definition Options_disable_client_metrics_push (self : Options) : Options :=
  Options_push self "enable.metrics.push" "false".

(** ** Poll-error resilience *)
Definition Options_poll_error_bail_after (self : Options) (d : Duration) : Options :=
  Options_push self "llingr.poll.error.bail.after.ms" (ms d).
Definition Options_poll_error_log_interval (self : Options) (d : Duration) : Options :=
  Options_push self "llingr.poll.error.log.interval.ms" (ms d).
Definition Options_poll_error_backoff (self : Options) (d : Duration) : Options :=
  Options_push self "llingr.poll.error.backoff.ms" (ms d).
End setters.

(** ** TLS *)
Definition Options_tls (self : Options) : Options :=
  mkOptions (opt_entries self) true (opt_ssl_entries self) (opt_sasl self).
Definition Options_tls_ca_location (self : Options) (path : string) : Options :=
  Options_push_ssl self "ssl.ca.location" path.
Definition Options_tls_ca_pem (self : Options) (pem : string) : Options :=
  Options_push_ssl self "ssl.ca.pem" pem.
Definition Options_tls_client_certificate (self : Options)
    (certificate_path key_path : string) : Options :=
  Options_push_ssl (Options_push_ssl self "ssl.certificate.location" certificate_path)
    "ssl.key.location" key_path.
Definition Options_tls_client_certificate_pem (self : Options)
    (certificate_pem key_pem : string) : Options :=
  Options_push_ssl (Options_push_ssl self "ssl.certificate.pem" certificate_pem)
    "ssl.key.pem" key_pem.
Definition Options_disable_certificate_verification (self : Options) : Options :=
  Options_push_ssl self "enable.ssl.certificate.verification" "false".
Definition Options_disable_hostname_verification (self : Options) : Options :=
  Options_push_ssl self "ssl.endpoint.identification.algorithm" "none".

(** ** SASL *)
Definition Options_sasl_plain (self : Options) (username password : string) : Options :=
  set_sasl self (UserPass Plain username password).
Definition Options_sasl_scram_sha256 (self : Options) (username password : string) : Options :=
  set_sasl self (UserPass ScramSha256 username password).
Definition Options_sasl_scram_sha512 (self : Options) (username password : string) : Options :=
  set_sasl self (UserPass ScramSha512 username password).

Definition Options_sasl_aws_msk_iam (self : Options) : Options :=
  set_sasl (Options_tls self) (AwsMskIam None None None None).
Definition Options_aws_region (self : Options) (region : string) : Options :=
  match opt_sasl self with
  | Some (AwsMskIam _ p a n) => set_sasl self (AwsMskIam (Some region) p a n)
  | _ => self
  end.
Definition Options_aws_profile (self : Options) (profile : string) : Options :=
  match opt_sasl self with
  | Some (AwsMskIam r _ a n) => set_sasl self (AwsMskIam r (Some profile) a n)
  | _ => self
  end.
Definition Options_aws_assume_role (self : Options) (role_arn : string)
    (session_name : option string) : Options :=
  match opt_sasl self with
  | Some (AwsMskIam r p _ _) => set_sasl self (AwsMskIam r p (Some role_arn) session_name)
  | _ => self
  end.

Definition Options_sasl_oauthbearer_oidc (self : Options)
    (token_endpoint_url client_id client_secret : string) : Options :=
  set_sasl self (OauthbearerOidc token_endpoint_url client_id client_secret None []).
Definition Options_oauthbearer_scope (self : Options) (scope : string) : Options :=
  match opt_sasl self with
  | Some (OauthbearerOidc t i s _ e) => set_sasl self (OauthbearerOidc t i s (Some scope) e)
  | _ => self
  end.
Definition Options_oauthbearer_extensions (self : Options)
    (pairs : list (string * string)) : Options :=
  match opt_sasl self with
  | Some (OauthbearerOidc t i s sc _) => set_sasl self (OauthbearerOidc t i s sc pairs)
  | _ => self
  end.

Definition Options_sasl_gcp_iam (self : Options) : Options :=
  set_sasl (Options_tls self) (GcpIam None None).
Definition Options_gcp_principal (self : Options) (principal : string) : Options :=
  match opt_sasl self with
  | Some (GcpIam _ f) => set_sasl self (GcpIam (Some principal) f)
  | _ => self
  end.
Definition Options_gcp_credentials_file (self : Options) (path : string) : Options :=
  match opt_sasl self with
  | Some (GcpIam p _) => set_sasl self (GcpIam p (Some path))
  | _ => self
  end.

(** ** String escape hatch *)
Definition Options_kafka_option (self : Options) (key value : string) : Options :=
  mkOptions (opt_entries self ++ [(key, value)]) (opt_tls self) (opt_ssl_entries self)
    (opt_sasl self).
Definition Options_kafka_options (self : Options) (pairs : list (string * string)) : Options :=
  foldl (λ o kv, Options_kafka_option o kv.1 kv.2) self pairs.

(** ** What the builder emits *)
Definition opt_pair (key : string) (v : option string) : list (string * string) :=
  match v with Some x => [(key, x)] | None => [] end.

(** The properties of the selected SASL mechanism. *)
Definition sasl_entries (s : Sasl) : list (string * string) :=
  match s with
  | UserPass mechanism username password =>
      [("sasl.mechanism", SaslMechanism_as_str mechanism);
       ("sasl.username", username); ("sasl.password", password)]
  | AwsMskIam region profile role_arn role_session_name =>
      [("sasl.mechanism", "AWS_MSK_IAM")]
      ++ opt_pair "aws.region" region ++ opt_pair "aws.profile" profile
      ++ opt_pair "aws.role.arn" role_arn
      ++ opt_pair "aws.role.session.name" role_session_name
  | OauthbearerOidc token_endpoint client_id client_secret scope extensions =>
      [("sasl.mechanism", "OAUTHBEARER");
       ("sasl.oauthbearer.token.endpoint.url", token_endpoint);
       ("sasl.oauthbearer.client.id", client_id);
       ("sasl.oauthbearer.client.secret", client_secret)]
      ++ opt_pair "sasl.oauthbearer.scope" scope
      ++ (match extensions with
          | [] => []
          | _ => [("sasl.oauthbearer.extensions",
                   str_join "," (map (λ kv, kv.1 +:+ "=" +:+ kv.2) extensions))]
          end)
  | GcpIam principal credentials_file =>
      [("sasl.mechanism", "OAUTHBEARER"); ("sasl.oauthbearer.method", "gcp")]
      ++ opt_pair "gcp.principal" principal
      ++ opt_pair "gcp.credentials.file" credentials_file
  end.

Definition Options_entries (self : Options) : list (string * string) :=
  let out := opt_entries self in
  if opt_tls self || bool_decide (is_Some (opt_sasl self)) then
    let protocol :=
      match opt_tls self, bool_decide (is_Some (opt_sasl self)) with
      | true, true => "sasl_ssl"
      | true, false => "ssl"
      | false, true => "sasl_plaintext"
      | false, false => "" (* unreachable!(): excluded by the guard *)
      end in
    out ++ [("security.protocol", protocol)] ++ opt_ssl_entries self
    ++ match opt_sasl self with Some s => sasl_entries s | None => [] end
  else out.

(** The keys a mechanism claims. *)
Definition sasl_keys (s : Sasl) : list string :=
  match s with
  | UserPass _ _ _ => ["sasl.mechanism"; "sasl.mechanisms"; "sasl.username"; "sasl.password"]
  | AwsMskIam _ _ _ _ =>
      ["sasl.mechanism"; "sasl.mechanisms"; "aws.region"; "aws.profile"; "aws.role.arn";
       "aws.role.session.name"]
  | OauthbearerOidc _ _ _ _ _ =>
      ["sasl.mechanism"; "sasl.mechanisms"; "sasl.oauthbearer.token.endpoint.url";
       "sasl.oauthbearer.client.id"; "sasl.oauthbearer.client.secret";
       "sasl.oauthbearer.scope"; "sasl.oauthbearer.extensions"]
  | GcpIam _ _ =>
      ["sasl.mechanism"; "sasl.mechanisms"; "sasl.oauthbearer.method"; "gcp.principal";
       "gcp.credentials.file"]
  end.

Definition Options_typed_security_keys (self : Options) : list string :=
  if negb (opt_tls self) && negb (bool_decide (is_Some (opt_sasl self))) then []
  else
    ["security.protocol"] ++ (opt_ssl_entries self).*1
    ++ match opt_sasl self with Some s => sasl_keys s | None => [] end.

(** [Vec::dedup]: drop each element equal to the one before it. *)
Fixpoint dedup (l : list string) : list string :=
  match l with
  | x :: l' =>
    match l' with
    | y :: _ => if decide (x = y) then dedup l' else x :: dedup l'
    | [] => [x]
    end
  | [] => []
  end.

(** [sort_unstable] on [&str] sorts by bytes; equal strings are indistinguishable, so
    stability cannot be observed. *)
Definition Options_conflicts (self : Options) : list string :=
  let typed_keys := Options_typed_security_keys self in
  dedup (merge_sort String.le (filter (λ key, key ∈ typed_keys) (opt_entries self).*1)).

Definition Options_validate (self : Options) : string + unit :=
  match Options_typed_security_keys self with
  | [] => inr tt
  | _ =>
    match Options_conflicts self with
    | [] => inr tt
    | conflicts =>
      inl ("Options: security key(s) set both via typed setters and kafka_option(): "
           +:+ str_join ", " conflicts +:+ "; configure each key with one style only")
    end
  end.

(** ** Debug *)
Definition is_secret_key (key : string) : bool :=
  str_contains "password" key || str_contains "secret" key || str_contains "key.pem" key.

Definition redact (kv : string * string) : string * string :=
  if is_secret_key kv.1 then (kv.1, "<redacted>") else kv.

(** The pairs [Debug] prints, in order, under the field name ["entries"]. *)
Definition Options_fmt (self : Options) : list (string * string) := map redact (Options_entries self).

(** ** Builder programs *)
Section programs.
Context {NX : Nexus}.

(** One public setter call. *)
Inductive Setter :=
  | SAutoOffsetReset (reset : AutoOffsetReset)
  | SClientId (id : string)
  | SGroupInstanceId (id : string)
  | SSessionTimeout (d : Duration)
  | SHeartbeatInterval (d : Duration)
  | SRebalanceTimeout (d : Duration)
  | SClientLogLevel (level : ClientLogLevel)
  | SPartitionAssignmentStrategy (l : list BalanceStrategy)
  | SFetchMinBytes (n : N)
  | SFetchMaxBytes (n : N)
  | SMaxPartitionFetchBytes (n : N)
  | SFetchMaxWait (d : Duration)
  | SRack (rack : string)
  | SMetadataMaxAge (d : Duration)
  | SDialTimeout (d : Duration)
  | SConnectionIdleTimeout (d : Duration)
  | SRequestRetries (n : N)
  | SRetryTimeout (d : Duration)
  | SMaxConcurrentFetches (n : N)
  | SAllowAutoTopicCreation
  | SDisableFetchCrcValidation
  | SDisableClientMetricsPush
  | SPollErrorBailAfter (d : Duration)
  | SPollErrorLogInterval (d : Duration)
  | SPollErrorBackoff (d : Duration)
  | STls
  | STlsCaLocation (path : string)
  | STlsCaPem (pem : string)
  | STlsClientCertificate (certificate_path key_path : string)
  | STlsClientCertificatePem (certificate_pem key_pem : string)
  | SDisableCertificateVerification
  | SDisableHostnameVerification
  | SSaslPlain (username password : string)
  | SSaslScramSha256 (username password : string)
  | SSaslScramSha512 (username password : string)
  | SSaslAwsMskIam
  | SAwsRegion (region : string)
  | SAwsProfile (profile : string)
  | SAwsAssumeRole (role_arn : string) (session_name : option string)
  | SSaslOauthbearerOidc (token_endpoint_url client_id client_secret : string)
  | SOauthbearerScope (scope : string)
  | SOauthbearerExtensions (pairs : list (string * string))
  | SSaslGcpIam
  | SGcpPrincipal (principal : string)
  | SGcpCredentialsFile (path : string)
  | SKafkaOption (key value : string)
  | SKafkaOptions (pairs : list (string * string)).

Definition apply_setter (o : Options) (s : Setter) : Options :=
  match s with
  | SAutoOffsetReset r => Options_auto_offset_reset o r
  | SClientId id => Options_client_id o id
  | SGroupInstanceId id => Options_group_instance_id o id
  | SSessionTimeout d => Options_session_timeout o d
  | SHeartbeatInterval d => Options_heartbeat_interval o d
  | SRebalanceTimeout d => Options_rebalance_timeout o d
  | SClientLogLevel l => Options_client_log_level o l
  | SPartitionAssignmentStrategy l => Options_partition_assignment_strategy o l
  | SFetchMinBytes n => Options_fetch_min_bytes o n
  | SFetchMaxBytes n => Options_fetch_max_bytes o n
  | SMaxPartitionFetchBytes n => Options_max_partition_fetch_bytes o n
  | SFetchMaxWait d => Options_fetch_max_wait o d
  | SRack r => Options_rack o r
  | SMetadataMaxAge d => Options_metadata_max_age o d
  | SDialTimeout d => Options_dial_timeout o d
  | SConnectionIdleTimeout d => Options_connection_idle_timeout o d
  | SRequestRetries n => Options_request_retries o n
  | SRetryTimeout d => Options_retry_timeout o d
  | SMaxConcurrentFetches n => Options_max_concurrent_fetches o n
  | SAllowAutoTopicCreation => Options_allow_auto_topic_creation o
  | SDisableFetchCrcValidation => Options_disable_fetch_crc_validation o
  | SDisableClientMetricsPush => Options_disable_client_metrics_push o
  | SPollErrorBailAfter d => Options_poll_error_bail_after o d
  | SPollErrorLogInterval d => Options_poll_error_log_interval o d
  | SPollErrorBackoff d => Options_poll_error_backoff o d
  | STls => Options_tls o
  | STlsCaLocation p => Options_tls_ca_location o p
  | STlsCaPem p => Options_tls_ca_pem o p
  | STlsClientCertificate c k => Options_tls_client_certificate o c k
  | STlsClientCertificatePem c k => Options_tls_client_certificate_pem o c k
  | SDisableCertificateVerification => Options_disable_certificate_verification o
  | SDisableHostnameVerification => Options_disable_hostname_verification o
  | SSaslPlain u p => Options_sasl_plain o u p
  | SSaslScramSha256 u p => Options_sasl_scram_sha256 o u p
  | SSaslScramSha512 u p => Options_sasl_scram_sha512 o u p
  | SSaslAwsMskIam => Options_sasl_aws_msk_iam o
  | SAwsRegion r => Options_aws_region o r
  | SAwsProfile p => Options_aws_profile o p
  | SAwsAssumeRole a n => Options_aws_assume_role o a n
  | SSaslOauthbearerOidc t i c => Options_sasl_oauthbearer_oidc o t i c
  | SOauthbearerScope c => Options_oauthbearer_scope o c
  | SOauthbearerExtensions e => Options_oauthbearer_extensions o e
  | SSaslGcpIam => Options_sasl_gcp_iam o
  | SGcpPrincipal p => Options_gcp_principal o p
  | SGcpCredentialsFile f => Options_gcp_credentials_file o f
  | SKafkaOption k v => Options_kafka_option o k v
  | SKafkaOptions l => Options_kafka_options o l
  end.

Definition run_setters (l : list Setter) : Options := foldl apply_setter Options_new l.

(** The mechanism a setter selects, if it selects one. *)
Definition setter_mechanism (s : Setter) : option string :=
  match s with
  | SSaslPlain _ _ => Some "PLAIN"
  | SSaslScramSha256 _ _ => Some "SCRAM-SHA-256"
  | SSaslScramSha512 _ _ => Some "SCRAM-SHA-512"
  | SSaslAwsMskIam => Some "AWS_MSK_IAM"
  | SSaslOauthbearerOidc _ _ _ => Some "OAUTHBEARER"
  | SSaslGcpIam => Some "OAUTHBEARER"
  | _ => None
  end.

(** Two calls that differ at most in a credential. *)
Inductive same_but_secret : Setter → Setter → Prop :=
  | sbs_refl s : same_but_secret s s
  | sbs_plain u p q : same_but_secret (SSaslPlain u p) (SSaslPlain u q)
  | sbs_scram256 u p q : same_but_secret (SSaslScramSha256 u p) (SSaslScramSha256 u q)
  | sbs_scram512 u p q : same_but_secret (SSaslScramSha512 u p) (SSaslScramSha512 u q)
  | sbs_oidc t i c d :
      same_but_secret (SSaslOauthbearerOidc t i c) (SSaslOauthbearerOidc t i d)
  | sbs_key_pem c k l :
      same_but_secret (STlsClientCertificatePem c k) (STlsClientCertificatePem c l)
  | sbs_option k v w :
      is_secret_key k = true → same_but_secret (SKafkaOption k v) (SKafkaOption k w).
End programs.

(** ** The shape of the emitted list *)
Definition security_entries (self : Options) : list (string * string) :=
  match opt_tls self, opt_sasl self with
  | false, None => []
  | tls, sasl =>
    ("security.protocol",
     match tls, sasl with
     | true, Some _ => "sasl_ssl" | true, None => "ssl" | false, _ => "sasl_plaintext"
     end)
    :: opt_ssl_entries self ++ match sasl with Some s => sasl_entries s | None => [] end
  end.

Lemma Options_entries_eq o : Options_entries o = opt_entries o ++ security_entries o.
Proof.
  unfold Options_entries, security_entries.
  destruct (opt_tls o), (opt_sasl o); simpl; by rewrite ?app_nil_r.
Qed.

Lemma opt_pair_key k key v : k ∈ (opt_pair key v).*1 → k = key.
Proof. destruct v; simpl; [by intros ?%list_elem_of_singleton|by intros ?%not_elem_of_nil]. Qed.

Lemma sasl_keys_cover s k : k ∈ (sasl_entries s).*1 → k ∈ sasl_keys s.
Proof.
  destruct s as [m u p|r p a n|t i c sc e|p f]; simpl;
    rewrite ?fmap_app; intros H;
    repeat first
      [ apply elem_of_cons in H as [->|H]
      | apply elem_of_app in H as [H|H]
      | apply opt_pair_key in H as -> ];
    try (by apply not_elem_of_nil in H); try (set_solver).
  all: destruct e; simpl in H; set_solver.
Qed.

Lemma security_keys_cover o k :
  k ∈ (security_entries o).*1 → k ∈ Options_typed_security_keys o.
Proof.
  unfold security_entries, Options_typed_security_keys.
  assert (∀ s, k ∈ (sasl_entries s).*1 → k ∈ sasl_keys s) by (intros; by apply sasl_keys_cover).
  destruct (opt_tls o), (opt_sasl o) as [s|]; simpl; rewrite ?fmap_app; set_solver.
Qed.

(** ** Sorting and deduplicating the conflicts *)
Lemma dedup_cons2 x y l :
  dedup (x :: y :: l) = if decide (x = y) then dedup (y :: l) else x :: dedup (y :: l).
Proof. done. Qed.

Lemma dedup_elem k l : k ∈ dedup l ↔ k ∈ l.
Proof.
  induction l as [|x [|y l] IH]; [done|done|]. rewrite dedup_cons2.
  case_decide as Hxy; [subst|]; set_solver.
Qed.

Lemma dedup_sorted l : StronglySorted String.le l → StronglySorted (strict String.le) (dedup l).
Proof.
  induction l as [|x [|y l] IH]; intros Hl; [by repeat constructor..|].
  apply StronglySorted_cons in Hl as [Hx Hl]. rewrite dedup_cons2.
  case_decide as Hxy; [subst; auto|]. apply StronglySorted_cons. split; [|auto].
  apply Forall_forall. intros k Hk. rewrite dedup_elem in Hk.
  rewrite Forall_forall in Hx. split; [by apply Hx|]. intros Hkx.
  apply StronglySorted_cons in Hl as [Hy _]. rewrite Forall_forall in Hy.
  apply Hxy, (anti_symm String.le); [apply Hx; set_solver|].
  transitivity k; [|done]. apply elem_of_cons in Hk as [->|Hk]; [done|by apply Hy].
Qed.

Lemma Options_conflicts_elem o k :
  k ∈ Options_conflicts o ↔ k ∈ (opt_entries o).*1 ∧ k ∈ Options_typed_security_keys o.
Proof.
  unfold Options_conflicts. rewrite dedup_elem, merge_sort_Permutation, list_elem_of_filter.
  tauto.
Qed.

Lemma Options_conflicts_sorted o : StronglySorted (strict String.le) (Options_conflicts o).
Proof. apply dedup_sorted, StronglySorted_merge_sort; apply _. Qed.

Lemma Options_validate_ok_iff o : Options_validate o = inr tt ↔ Options_conflicts o = [].
Proof.
  unfold Options_validate. destruct (Options_typed_security_keys o) eqn:E.
  - split; [intros _|done]. apply elem_of_nil_inv. intros k Hk.
    apply Options_conflicts_elem in Hk as [_ Hk]. rewrite E in Hk. by apply not_elem_of_nil in Hk.
  - destruct (Options_conflicts o); naive_solver.
Qed.

(** ** The ambiguity guard *)

(** C15: the guard knows every security key. Whatever the builder holds, the emitted list
    is the recorded pairs followed by the security pairs, and every key among the latter
    is one [typed_security_keys] names, so no typed key can escape [validate]. *)
Theorem Options_typed_keys_cover o :
  ∃ sec, Options_entries o = opt_entries o ++ sec ∧
  Forall (λ kv, kv.1 ∈ Options_typed_security_keys o) sec.
Proof.
  exists (security_entries o). split; [apply Options_entries_eq|].
  apply Forall_forall. intros kv Hkv. apply security_keys_cover. by apply list_elem_of_fmap_2.
Qed.

(** C14: [validate] accepts exactly when no recorded key is also claimed by an active
    typed security setter; otherwise its message names precisely the offending keys,
    each once, in byte order. *)
Theorem Options_validate_spec o :
  match Options_validate o with
  | inr _ => ∀ k, k ∈ (opt_entries o).*1 → k ∉ Options_typed_security_keys o
  | inl message =>
    ∃ ks, ks ≠ [] ∧ StronglySorted (strict String.le) ks ∧
      (∀ k, k ∈ ks ↔ k ∈ (opt_entries o).*1 ∧ k ∈ Options_typed_security_keys o) ∧
      message = "Options: security key(s) set both via typed setters and kafka_option(): "
        +:+ str_join ", " ks +:+ "; configure each key with one style only"
  end.
Proof.
  destruct (Options_validate o) as [message|[]] eqn:E.
  - exists (Options_conflicts o).
    assert (Options_conflicts o ≠ []).
    { intros Hc. apply Options_validate_ok_iff in Hc. congruence. }
    split_and!; [done|apply Options_conflicts_sorted|apply Options_conflicts_elem|].
    unfold Options_validate in E. repeat case_match; congruence.
  - apply Options_validate_ok_iff in E. intros k Hk Ht.
    assert (k ∈ Options_conflicts o) as Hc by by apply Options_conflicts_elem.
    rewrite E in Hc. by apply not_elem_of_nil in Hc.
Qed.

(** A validated builder emits no security key twice over: the recorded pairs and the
    security pairs have disjoint keys. *)
Lemma Options_validated_disjoint o :
  Options_validate o = inr tt → (opt_entries o).*1 ## (security_entries o).*1.
Proof.
  intros E k Hk Hs. apply Options_validate_ok_iff in E.
  assert (k ∈ Options_conflicts o) as Hc.
  { apply Options_conflicts_elem. eauto using security_keys_cover. }
  rewrite E in Hc. by apply not_elem_of_nil in Hc.
Qed.

(** ** What every chain of builder calls keeps *)
Definition ssl_keys : list string :=
  ["ssl.ca.location"; "ssl.ca.pem"; "ssl.certificate.location"; "ssl.key.location";
   "ssl.certificate.pem"; "ssl.key.pem"; "enable.ssl.certificate.verification";
   "ssl.endpoint.identification.algorithm"].

Definition requires_tls (s : option Sasl) : bool :=
  match s with Some (AwsMskIam _ _ _ _) | Some (GcpIam _ _) => true | _ => false end.

(** TLS material and the cloud mechanisms come with TLS switched on, and the TLS section
    holds only TLS keys. *)
Definition options_wf (o : Options) : Prop :=
  (opt_ssl_entries o ≠ [] → opt_tls o = true) ∧
  (requires_tls (opt_sasl o) = true → opt_tls o = true) ∧
  Forall (λ kv, kv.1 ∈ ssl_keys) (opt_ssl_entries o).

Section invariants.
Context {NX : Nexus}.

Lemma kafka_options_eq o l :
  Options_kafka_options o l
  = mkOptions (opt_entries o ++ l) (opt_tls o) (opt_ssl_entries o) (opt_sasl o).
Proof.
  unfold Options_kafka_options. revert o. induction l as [|[k v] l IH]; intros o; simpl.
  - rewrite app_nil_r. by destruct o.
  - rewrite IH. simpl. by rewrite <-app_assoc.
Qed.

Lemma apply_setter_wf o s : options_wf o → options_wf (apply_setter o s).
Proof.
  intros (Hssl & Hiam & Hkeys). unfold options_wf.
  destruct s; simpl; try rewrite kafka_options_eq; simpl;
    try (split_and!; done);
    unfold Options_aws_region, Options_aws_profile, Options_aws_assume_role,
      Options_oauthbearer_scope, Options_oauthbearer_extensions,
      Options_gcp_principal, Options_gcp_credentials_file;
    try (destruct (opt_sasl o) as [[]|] eqn:E; simpl; rewrite ?E; split_and!; by auto);
    rewrite ?Forall_app, ?Forall_singleton; unfold ssl_keys; simpl; set_solver.
Qed.

Lemma run_setters_ind (P : Options → Prop) l :
  P Options_new → (∀ o s, P o → P (apply_setter o s)) → P (run_setters l).
Proof.
  intros Hnew Hstep. unfold run_setters. generalize Options_new, Hnew.
  induction l as [|s l IH]; intros o Ho; simpl; auto.
Qed.

Lemma run_setters_wf l : options_wf (run_setters l).
Proof.
  apply run_setters_ind; [|auto using apply_setter_wf]. split_and!; [done..|constructor].
Qed.
End invariants.

Section programs_theorems.
Context {NX : Nexus}.

Lemma filter_none (P : string * string → Prop) `{!∀ kv, Decision (P kv)} l :
  Forall (λ kv, ¬ P kv) l → filter P l = [].
Proof. induction 1 as [|kv l Hk Hl IH]; [done|]. by rewrite filter_cons_False. Qed.

(** C18: The typed cloud mechanisms are always encrypted: whatever chain of builder calls
    selected AWS MSK IAM or GCP IAM through its setter, if [validate] accepts the builder
    then the options it emits set [security.protocol] exactly once, to [sasl_ssl], and no
    later pair can override it. (A mechanism configured through string pairs alone is the
    application's own, and outside this guarantee.) *)
Theorem Options_cloud_iam_is_encrypted (l : list Setter) :
  requires_tls (opt_sasl (run_setters l)) = true → Options_validate (run_setters l) = inr tt →
  filter (λ kv, kv.1 = "security.protocol") (Options_entries (run_setters l))
    = [("security.protocol", "sasl_ssl")].
Proof.
  intros Hiam Hv. pose proof (run_setters_wf l) as (_ & Htls & Hssl). specialize (Htls Hiam).
  pose proof (Options_validated_disjoint _ Hv) as Hd. generalize dependent (run_setters l). intros o Hiam Hv Htls Hssl Hd.
  destruct (opt_sasl o) as [s|] eqn:Es; [|done].
  assert (security_entries o = ("security.protocol", "sasl_ssl") :: opt_ssl_entries o ++ sasl_entries s) as Hsec
    by (unfold security_entries; by rewrite Htls, Es).
  rewrite Options_entries_eq, Hsec, filter_app, filter_cons_True, filter_app by done.
  rewrite !filter_none; [done|..]; apply Forall_forall.
  - intros [k v] Hin Hk. simpl in Hk. subst k. apply (list_elem_of_fmap_2 fst) in Hin.
    assert ("security.protocol" ∈ sasl_keys s) as H by (by apply sasl_keys_cover). by destruct s; set_solver.
  - intros [k v] Hin Hk. simpl in Hk. subst k. rewrite Forall_forall in Hssl.
    pose proof (Hssl _ Hin) as H. unfold ssl_keys in H. simpl in H. set_solver.
  - intros [k v] Hin Hk. simpl in Hk. subst k. apply (list_elem_of_fmap_2 fst) in Hin.
    apply (Hd "security.protocol"); [exact Hin|]. rewrite Hsec. left.
Qed.

Definition security_part (o : Options) : list (string * string) :=
  drop (length (opt_entries o)) (Options_entries o).

Lemma security_part_eq o : security_part o = security_entries o.
Proof. unfold security_part. rewrite Options_entries_eq. by rewrite drop_app_length. Qed.

Definition sasl_mechanism_of (s : Sasl) : string :=
  match s with
  | UserPass m _ _ => SaslMechanism_as_str m
  | AwsMskIam _ _ _ _ => "AWS_MSK_IAM"
  | OauthbearerOidc _ _ _ _ _ | GcpIam _ _ => "OAUTHBEARER"
  end.

Lemma apply_setter_mechanism o s :
  sasl_mechanism_of <$> opt_sasl (apply_setter o s)
  = match setter_mechanism s with Some m => Some m | None => sasl_mechanism_of <$> opt_sasl o end.
Proof.
  destruct s; simpl; try rewrite kafka_options_eq; try done;
    unfold Options_aws_region, Options_aws_profile, Options_aws_assume_role,
      Options_oauthbearer_scope, Options_oauthbearer_extensions,
      Options_gcp_principal, Options_gcp_credentials_file;
    by destruct (opt_sasl o) as [[]|] eqn:E; simpl; rewrite ?E.
Qed.

Lemma run_mechanism_none post o :
  Forall (λ s, setter_mechanism s = None) post →
  sasl_mechanism_of <$> opt_sasl (foldl apply_setter o post) = sasl_mechanism_of <$> opt_sasl o.
Proof.
  intros Hpost. revert o. induction Hpost as [|s post Hs _ IH]; intros o; [done|]. simpl.
  by rewrite IH, apply_setter_mechanism, Hs.
Qed.

Lemma filter_mechanism_opt_pair key v l :
  key ≠ "sasl.mechanism" →
  filter (λ kv, kv.1 = "sasl.mechanism") (opt_pair key v ++ l)
  = filter (λ kv, kv.1 = "sasl.mechanism") l.
Proof. intros Hk. destruct v; [|done]. simpl. by rewrite filter_cons_False. Qed.

Lemma sasl_entries_mechanism s :
  filter (λ kv, kv.1 = "sasl.mechanism") (sasl_entries s)
  = [("sasl.mechanism", sasl_mechanism_of s)].
Proof.
  destruct s as [m u p|r p a n|t i c sc e|p f]; simpl; try done;
    rewrite ?filter_cons_True, ?filter_cons_False by done;
    repeat (rewrite filter_mechanism_opt_pair by done).
  - by destruct n.
  - by destruct e.
  - by destruct f.
Qed.

Lemma ssl_entries_no_mechanism l :
  Forall (λ kv, kv.1 ∈ ssl_keys) l → filter (λ kv : string * string, kv.1 = "sasl.mechanism") l = [].
Proof.
  induction 1 as [|kv l Hkv _ IH]; [done|]. rewrite filter_cons_False; [done|].
  intros Hm. rewrite Hm in Hkv. unfold ssl_keys in Hkv. set_solver.
Qed.

(** Repeated mechanism setters: the last one wins outright. After any chain whose
    last mechanism-selecting call chose [m], the security section holds exactly one
    [sasl.mechanism] pair and its value is [m]; steering setters never change it. *)
Theorem Options_last_mechanism_wins (pre : list Setter) (s : Setter) (post : list Setter) m :
  setter_mechanism s = Some m →
  Forall (λ t, setter_mechanism t = None) post →
  filter (λ kv, kv.1 = "sasl.mechanism") (security_part (run_setters (pre ++ s :: post)))
  = [("sasl.mechanism", m)].
Proof.
  intros Hs Hpost. rewrite security_part_eq.
  destruct (run_setters_wf (pre ++ s :: post)) as (_ & _ & Hssl).
  assert (sasl_mechanism_of <$> opt_sasl (run_setters (pre ++ s :: post)) = Some m) as Hm.
  { unfold run_setters. rewrite foldl_app. simpl.
    by rewrite run_mechanism_none, apply_setter_mechanism, Hs. }
  revert Hssl Hm. generalize (run_setters (pre ++ s :: post)). intros o Hssl Hm.
  unfold security_entries. destruct (opt_sasl o) as [sasl|]; simplify_eq/=.
  destruct (opt_tls o); rewrite filter_cons_False by done;
    by rewrite filter_app, ssl_entries_no_mechanism, sasl_entries_mechanism.
Qed.

Lemma apply_setter_entries o s :
  opt_entries (apply_setter o s) = opt_entries o ++ opt_entries (apply_setter Options_new s).
Proof.
  destruct s; simpl; rewrite ?kafka_options_eq; simpl; rewrite ?app_nil_r; try done;
    unfold Options_aws_region, Options_aws_profile, Options_aws_assume_role,
      Options_oauthbearer_scope, Options_oauthbearer_extensions,
      Options_gcp_principal, Options_gcp_credentials_file;
    destruct (opt_sasl o) as [[]|]; simpl; by rewrite ?app_nil_r.
Qed.

Lemma run_setters_entries l o :
  opt_entries (foldl apply_setter o l) = opt_entries o ++ opt_entries (run_setters l).
Proof.
  revert o. induction l as [|s l IH]; intros o; unfold run_setters; simpl.
  - by rewrite app_nil_r.
  - rewrite IH, apply_setter_entries, <-app_assoc. f_equal. by rewrite IH.
Qed.

(** The recorded pairs are a log of the calls: typed setters and string pairs
    interleave in call order, nothing recorded earlier is changed or dropped by a later
    call, and what a suffix of calls records does not depend on what came before. *)
Theorem Options_entries_in_call_order (l1 l2 : list Setter) :
  opt_entries (run_setters (l1 ++ l2))
  = opt_entries (run_setters l1) ++ opt_entries (run_setters l2).
Proof. unfold run_setters at 1. by rewrite foldl_app, run_setters_entries. Qed.

(** *** Redaction *)
Definition pair_sim (a b : string * string) : Prop :=
  a.1 = b.1 ∧ (is_secret_key a.1 = false → a.2 = b.2).

Inductive sasl_sim : Sasl → Sasl → Prop :=
  | sim_userpass m u p q : sasl_sim (UserPass m u p) (UserPass m u q)
  | sim_oidc t i c d sc e : sasl_sim (OauthbearerOidc t i c sc e) (OauthbearerOidc t i d sc e)
  | sim_same s : sasl_sim s s.

Definition options_sim (a b : Options) : Prop :=
  Forall2 pair_sim (opt_entries a) (opt_entries b) ∧ opt_tls a = opt_tls b ∧
  Forall2 pair_sim (opt_ssl_entries a) (opt_ssl_entries b) ∧
  option_Forall2 sasl_sim (opt_sasl a) (opt_sasl b).

Lemma pair_sim_refl kv : pair_sim kv kv.
Proof. done. Qed.
Lemma pairs_sim_refl l : Forall2 pair_sim l l.
Proof. induction l; constructor; auto using pair_sim_refl. Qed.

Lemma redact_sim a b : pair_sim a b → redact a = redact b.
Proof.
  destruct a as [k v], b as [k' w]. intros [Hk Hv]. simpl in *. subst k'. unfold redact. simpl.
  destruct (is_secret_key k); [done|]. by rewrite Hv.
Qed.

Lemma redact_all_sim l k : Forall2 pair_sim l k → map redact l = map redact k.
Proof. induction 1; simpl; f_equal; auto using redact_sim. Qed.

Lemma sasl_entries_sim s t : sasl_sim s t → Forall2 pair_sim (sasl_entries s) (sasl_entries t).
Proof.
  destruct 1; simpl; repeat (constructor; [by split|]); auto using pairs_sim_refl.
Qed.

Lemma Options_fmt_sim a b : options_sim a b → Options_fmt a = Options_fmt b.
Proof.
  intros (He & Ht & Hs & Hm). unfold Options_fmt. apply redact_all_sim.
  rewrite !Options_entries_eq. apply Forall2_app; [done|].
  unfold security_entries. rewrite Ht.
  destruct Hm as [s t Hst|]; destruct (opt_tls b); constructor;
    rewrite ?app_nil_r; auto using pair_sim_refl, Forall2_app, sasl_entries_sim.
Qed.

Lemma push_options_sim a b k v w :
  options_sim a b → pair_sim (k, v) (k, w) →
  options_sim (Options_push a k v) (Options_push b k w).
Proof. intros (? & ? & ? & ?) ?. split_and!; simpl; auto using Forall2_app. Qed.

Lemma push_ssl_sim a b k v w :
  options_sim a b → pair_sim (k, v) (k, w) →
  options_sim (Options_push_ssl a k v) (Options_push_ssl b k w).
Proof. intros (? & ? & ? & ?) ?. split_and!; simpl; auto using Forall2_app. Qed.

Lemma tls_sim a b : options_sim a b → options_sim (Options_tls a) (Options_tls b).
Proof. by intros (? & ? & ? & ?). Qed.

Lemma set_sasl_sim a b s t :
  options_sim a b → sasl_sim s t → options_sim (set_sasl a s) (set_sasl b t).
Proof. intros (? & ? & ? & ?) ?. split_and!; simpl; auto. by constructor. Qed.

Lemma kafka_options_sim a b l :
  options_sim a b → options_sim (Options_kafka_options a l) (Options_kafka_options b l).
Proof.
  intros (? & ? & ? & ?). rewrite !kafka_options_eq. split_and!; simpl; auto.
  apply Forall2_app; auto using pairs_sim_refl.
Qed.

(** Steering setters touch only their own mechanism's fields. *)
Lemma steer_aws a b (f : option string → option string → option string → option string → Sasl) :
  options_sim a b →
  options_sim
    (match opt_sasl a with Some (AwsMskIam r p n m) => set_sasl a (f r p n m) | _ => a end)
    (match opt_sasl b with Some (AwsMskIam r p n m) => set_sasl b (f r p n m) | _ => b end).
Proof.
  intros Hab. pose proof Hab as (_ & _ & _ & Hm).
  destruct Hm as [s t Hst|]; [|done]. destruct Hst as [| |[]]; auto using set_sasl_sim, sim_same.
Qed.

Lemma steer_oidc a b (f : option string → list (string * string) →
    option string * list (string * string)) :
  options_sim a b →
  options_sim
    (match opt_sasl a with
     | Some (OauthbearerOidc t i s c e) =>
         set_sasl a (OauthbearerOidc t i s (f c e).1 (f c e).2) | _ => a end)
    (match opt_sasl b with
     | Some (OauthbearerOidc t i s c e) =>
         set_sasl b (OauthbearerOidc t i s (f c e).1 (f c e).2) | _ => b end).
Proof.
  intros Hab. pose proof Hab as (_ & _ & _ & Hm).
  destruct Hm as [s t Hst|]; [|done].
  destruct Hst as [| |[]]; auto using set_sasl_sim, sim_same, sim_oidc.
Qed.

Lemma steer_gcp a b (f : option string → option string → Sasl) :
  options_sim a b →
  options_sim
    (match opt_sasl a with Some (GcpIam p c) => set_sasl a (f p c) | _ => a end)
    (match opt_sasl b with Some (GcpIam p c) => set_sasl b (f p c) | _ => b end).
Proof.
  intros Hab. pose proof Hab as (_ & _ & _ & Hm).
  destruct Hm as [s t Hst|]; [|done]. destruct Hst as [| |[]]; auto using set_sasl_sim, sim_same.
Qed.

Ltac by_sim :=
  solve [ assumption
        | apply kafka_options_sim; by_sim
        | apply push_options_sim; [by_sim|done]
        | apply push_ssl_sim; [by_sim|done]
        | apply tls_sim; by_sim
        | apply set_sasl_sim; [by_sim|by constructor] ].

Lemma apply_setter_sim_refl a b s :
  options_sim a b → options_sim (apply_setter a s) (apply_setter b s).
Proof.
  intros Hab. destruct s; cbn [apply_setter]; try by_sim.
  - apply (steer_aws _ _ (λ _ p n m, AwsMskIam (Some region) p n m)), Hab.
  - apply (steer_aws _ _ (λ r _ n m, AwsMskIam r (Some profile) n m)), Hab.
  - apply (steer_aws _ _ (λ r p _ _, AwsMskIam r p (Some role_arn) session_name)), Hab.
  - apply (steer_oidc _ _ (λ _ e, (Some scope, e))), Hab.
  - apply (steer_oidc _ _ (λ c _, (c, pairs))), Hab.
  - apply (steer_gcp _ _ (λ _ c, GcpIam (Some principal) c)), Hab.
  - apply (steer_gcp _ _ (λ p _, GcpIam p (Some path))), Hab.
Qed.

Lemma apply_setter_sim a b s t :
  options_sim a b → same_but_secret s t → options_sim (apply_setter a s) (apply_setter b t).
Proof.
  intros Hab Hst. destruct Hst as [s|u p q|u p q|u p q|t i c d|c k l|k v w Hk].
  - by apply apply_setter_sim_refl.
  - by_sim.
  - by_sim.
  - by_sim.
  - by_sim.
  - cbn [apply_setter]. unfold Options_tls_client_certificate_pem. by_sim.
  - apply push_options_sim; [done|]. split; [done|]. simpl. congruence.
Qed.

(** C17: [Debug] never reveals a credential: two chains of builder calls that differ only
    in credentials (SASL passwords, the OIDC client secret, the inline client key, the
    value of a string pair under a secret key) print the same. *)
Theorem Options_debug_noninterference (p q : list Setter) :
  Forall2 same_but_secret p q → Options_fmt (run_setters p) = Options_fmt (run_setters q).
Proof.
  intros Hpq. apply Options_fmt_sim. unfold run_setters.
  assert (options_sim Options_new Options_new) as Hnew by by repeat constructor.
  revert Hnew. generalize Options_new at 1 3. generalize Options_new.
  induction Hpq as [|s t p q Hst _ IH]; intros b a Hab; simpl; [done|].
  apply IH. by apply apply_setter_sim.
Qed.
End programs_theorems.

(** ** Witnesses and sample runs *)
Section witnesses.
#[local] Existing Instance nexus_ref.

Definition demo_chain : list Setter :=
  [SClientId "app"; SSaslPlain "u" "p"; SKafkaOption "isolation.level" "read_committed";
   SSaslAwsMskIam; SAwsRegion "eu-west-2"].

Example demo_entries :
  Options_entries (run_setters demo_chain)
  = [("client.id", "app"); ("isolation.level", "read_committed");
     ("security.protocol", "sasl_ssl"); ("sasl.mechanism", "AWS_MSK_IAM");
     ("aws.region", "eu-west-2")].
Proof. reflexivity. Qed.

Example demo_conflict :
  Options_validate (run_setters
    [SSaslScramSha256 "u" "p"; SKafkaOption "sasl.password" "x";
     SKafkaOption "sasl.mechanisms" "PLAIN"; SKafkaOption "sasl.password" "y"])
  = inl ("Options: security key(s) set both via typed setters and kafka_option(): "
         +:+ "sasl.mechanisms, sasl.password; configure each key with one style only").
Proof. reflexivity. Qed.

Example demo_duration :
  Options_entries (run_setters [SSessionTimeout (from_micros 500); SFetchMinBytes 1024])
  = [("session.timeout.ms", "1"); ("fetch.min.bytes", "1024")].
Proof. reflexivity. Qed.

Lemma Options_cloud_iam_is_encrypted_witness :
  filter (λ kv, kv.1 = "security.protocol") (Options_entries (run_setters demo_chain))
    = [("security.protocol", "sasl_ssl")].
Proof. apply (Options_cloud_iam_is_encrypted demo_chain); reflexivity. Defined.

Lemma Options_last_mechanism_wins_witness :
  filter (λ kv, kv.1 = "sasl.mechanism") (security_part (run_setters demo_chain))
  = [("sasl.mechanism", "AWS_MSK_IAM")].
Proof.
  apply (Options_last_mechanism_wins
    [SClientId "app"; SSaslPlain "u" "p"; SKafkaOption "isolation.level" "read_committed"]
    SSaslAwsMskIam [SAwsRegion "eu-west-2"] "AWS_MSK_IAM"); [reflexivity|].
  constructor; [reflexivity|constructor].
Defined.

Lemma Options_debug_noninterference_witness :
  Options_fmt (run_setters [STls; SSaslPlain "u" "hunter2"])
  = Options_fmt (run_setters [STls; SSaslPlain "u" "correct horse"]).
Proof.
  apply (Options_debug_noninterference [STls; SSaslPlain "u" "hunter2"]).
  constructor; [apply sbs_refl|]. constructor; [apply sbs_plain|constructor].
Defined.
End witnesses.
