(* ===== verification/Config.v ===== *)
(** * The engine configuration and its wire document ([src/src/config.rs])

    [BrokerConfig] collects what the [Builder] and [Options] provide; [DemuxConfig] holds
    the thirteen engine settings; [config_json] assembles the JSON text the Go bridge
    parses. The code builds that text by hand, so the central theorem is that a JSON
    reader ([Json.parse]) recovers from it exactly the intended document [config_doc],
    whatever bytes the fields hold. *)
From Stdlib Require Import ZArith NArith Ascii.
From Stdlib Require String.
From stdpp Require Import base tactics option list gmap strings.
From S2P Require Import Prelude Text Json Nexus Options.

(** ** BrokerConfig *)
Record BrokerConfig := mkBrokerConfig {
  bc_brokers : string;
  bc_consumer_group : string;
  bc_kafka_config : list (string * string);
  bc_deferred_error : option string;
}.

Definition BrokerConfig_new : BrokerConfig := mkBrokerConfig "" "" [] None.

Definition BrokerConfig_brokers (self : BrokerConfig) (brokers : string) : BrokerConfig :=
  mkBrokerConfig brokers (bc_consumer_group self) (bc_kafka_config self) (bc_deferred_error self).

Definition BrokerConfig_consumer_group (self : BrokerConfig) (group : string) : BrokerConfig :=
  mkBrokerConfig (bc_brokers self) group (bc_kafka_config self) (bc_deferred_error self).

(** What a typed options builder promises: the nexus trait [AdapterOptions]. *)
Class AdapterOptions (A : Type) := {
  ao_entries : A → list (string * string);
  ao_validate : A → string + unit;
}.
#[export] Instance Options_AdapterOptions : AdapterOptions Options := {|
  ao_entries := Options_entries;
  ao_validate := Options_validate;
|}.

(** The failure is kept with [get_or_insert]: the first one stays. *)
Definition BrokerConfig_adapter_options `{AdapterOptions A} (self : BrokerConfig) (options : A)
    : BrokerConfig :=
  let deferred :=
    match ao_validate options with
    | inl message =>
      match bc_deferred_error self with Some e => Some e | None => Some message end
    | inr _ => bc_deferred_error self
    end in
  mkBrokerConfig (bc_brokers self) (bc_consumer_group self)
    (bc_kafka_config self ++ ao_entries options) deferred.

Definition BrokerConfig_deferred_error (self : BrokerConfig) : option string :=
  bc_deferred_error self.

Definition BrokerConfig_consumer_group_value (self : BrokerConfig) : string :=
  bc_consumer_group self.

(** [deduped.iter_mut().find(|(k, _)| k == key)] and the in-place update, or the push. *)
Fixpoint upsert (key value : string) (l : list (string * string)) : list (string * string) :=
  match l with
  | [] => [(key, value)]
  | kv :: l => if decide (kv.1 = key) then (kv.1, value) :: l else kv :: upsert key value l
  end.

Definition BrokerConfig_deduped_kafka_config (self : BrokerConfig) : list (string * string) :=
  foldl (λ deduped kv, upsert kv.1 kv.2 deduped) [] (bc_kafka_config self).

(** ** DemuxConfig *)
Record DemuxConfig := mkDemuxConfig {
  dc_concurrent_keys : option N;
  dc_per_key_buffer_len : option N;
  dc_poll_timeout : option Duration;
  dc_auto_commit_interval : option Duration;
  dc_drain_timeout : option Duration;
  dc_await_assignments_timeout : option Duration;
  dc_commit_ingest_channel_len : option N;
  dc_commit_partition_slice_len : option N;
  dc_query_timeout : option Duration;
  dc_acquire_worker_timeout_circuit_breaker : option Duration;
  dc_worker_shards_count : option N;
  dc_rebalance_pause_polling_timeout : option Duration;
  dc_acquire_commit_guard_timeout : option Duration;
}.

Definition DemuxConfig_new : DemuxConfig :=
  mkDemuxConfig None None None None None None None None None None None None None.

Definition DemuxConfig_concurrent_keys (c : DemuxConfig) (n : N) : DemuxConfig :=
  let 'mkDemuxConfig _ b p a d w ci cp q ac ws rp ag := c in
  mkDemuxConfig (Some n) b p a d w ci cp q ac ws rp ag.
Definition DemuxConfig_per_key_buffer_len (c : DemuxConfig) (n : N) : DemuxConfig :=
  let 'mkDemuxConfig k _ p a d w ci cp q ac ws rp ag := c in
  mkDemuxConfig k (Some n) p a d w ci cp q ac ws rp ag.
Definition DemuxConfig_poll_timeout (c : DemuxConfig) (t : Duration) : DemuxConfig :=
  let 'mkDemuxConfig k b _ a d w ci cp q ac ws rp ag := c in
  mkDemuxConfig k b (Some t) a d w ci cp q ac ws rp ag.
Definition DemuxConfig_auto_commit_interval (c : DemuxConfig) (t : Duration) : DemuxConfig :=
  let 'mkDemuxConfig k b p _ d w ci cp q ac ws rp ag := c in
  mkDemuxConfig k b p (Some t) d w ci cp q ac ws rp ag.
Definition DemuxConfig_drain_timeout (c : DemuxConfig) (t : Duration) : DemuxConfig :=
  let 'mkDemuxConfig k b p a _ w ci cp q ac ws rp ag := c in
  mkDemuxConfig k b p a (Some t) w ci cp q ac ws rp ag.
Definition DemuxConfig_await_assignments_timeout (c : DemuxConfig) (t : Duration) : DemuxConfig :=
  let 'mkDemuxConfig k b p a d _ ci cp q ac ws rp ag := c in
  mkDemuxConfig k b p a d (Some t) ci cp q ac ws rp ag.
Definition DemuxConfig_commit_ingest_channel_len (c : DemuxConfig) (n : N) : DemuxConfig :=
  let 'mkDemuxConfig k b p a d w _ cp q ac ws rp ag := c in
  mkDemuxConfig k b p a d w (Some n) cp q ac ws rp ag.
Definition DemuxConfig_commit_partition_slice_len (c : DemuxConfig) (n : N) : DemuxConfig :=
  let 'mkDemuxConfig k b p a d w ci _ q ac ws rp ag := c in
  mkDemuxConfig k b p a d w ci (Some n) q ac ws rp ag.
Definition DemuxConfig_query_timeout (c : DemuxConfig) (t : Duration) : DemuxConfig :=
  let 'mkDemuxConfig k b p a d w ci cp _ ac ws rp ag := c in
  mkDemuxConfig k b p a d w ci cp (Some t) ac ws rp ag.
Definition DemuxConfig_acquire_worker_timeout_circuit_breaker (c : DemuxConfig) (t : Duration)
    : DemuxConfig :=
  let 'mkDemuxConfig k b p a d w ci cp q _ ws rp ag := c in
  mkDemuxConfig k b p a d w ci cp q (Some t) ws rp ag.
Definition DemuxConfig_worker_shards_count (c : DemuxConfig) (n : N) : DemuxConfig :=
  let 'mkDemuxConfig k b p a d w ci cp q ac _ rp ag := c in
  mkDemuxConfig k b p a d w ci cp q ac (Some n) rp ag.
Definition DemuxConfig_rebalance_pause_polling_timeout (c : DemuxConfig) (t : Duration)
    : DemuxConfig :=
  let 'mkDemuxConfig k b p a d w ci cp q ac ws _ ag := c in
  mkDemuxConfig k b p a d w ci cp q ac ws (Some t) ag.
Definition DemuxConfig_acquire_commit_guard_timeout (c : DemuxConfig) (t : Duration)
    : DemuxConfig :=
  let 'mkDemuxConfig k b p a d w ci cp q ac ws rp _ := c in
  mkDemuxConfig k b p a d w ci cp q ac ws rp (Some t).

(** ** The wire document *)

(** [format!("{:04x}", n)] *)
Definition hex_char (n : N) : ascii :=
  if (n <? 10)%N then ascii_of_N (48 + n) else ascii_of_N (87 + n).
Definition hex4 (n : N) : string :=
  String (hex_char (n / 4096 mod 16)) (String (hex_char (n / 256 mod 16))
    (String (hex_char (n / 16 mod 16)) (String (hex_char (n mod 16)) ""))).

(** One round of [json_escape_into]'s loop over [char]s. *)
Definition json_escape_char (ch : string) : string :=
  match ch with
  | String b "" =>
    if Ascii.eqb b "034" then String "\" (String "034" "")
    else if Ascii.eqb b "\" then String "\" (String "\" "")
    else if Ascii.eqb b "010" then String "\" (String "n" "")
    else if Ascii.eqb b "013" then String "\" (String "r" "")
    else if Ascii.eqb b "009" then String "\" (String "t" "")
    else if (byte_val b <? 0x20)%N then String "\" (String "u" (hex4 (byte_val b)))
    else ch
  | _ => ch
  end.

Definition json_escape_into (buf s : string) : string :=
  foldl (λ buf ch, buf +:+ json_escape_char ch) buf (chars s).

Definition push_string_field (buf key value : string) : string :=
  let buf := buf +:+ String "034" "" in
  let buf := json_escape_into buf key in
  let buf := buf +:+ String "034" (String ":" (String "034" "")) in
  let buf := json_escape_into buf value in
  buf +:+ String "034" "".

Section wire.
Context {NX : Nexus}.

(** [push_int] and [push_duration], the closures of [demux_json]: [fields] extended by
    the setting when it is set. *)
Definition push_int (fields : list string) (name : string) (v : option N) : list string :=
  match v with
  | Some n =>
      fields ++ [String "034" (name +:+ String "034" (String ":" (dec_N n)))]
  | None => fields
  end.
Definition push_duration (fields : list string) (name : string) (v : option Duration)
    : list string :=
  match v with
  | Some d =>
      fields ++ [String "034" (name +:+ String "034" (String ":" (String "034"
        (dec_N (duration_ms_ceil d) +:+ "ms" +:+ String "034" ""))))]
  | None => fields
  end.

Definition DemuxConfig_demux_json (self : DemuxConfig) : option string :=
  let fields := [] in
  let fields := push_int fields "concurrentKeys" (dc_concurrent_keys self) in
  let fields := push_int fields "perKeyBufferLen" (dc_per_key_buffer_len self) in
  let fields := push_int fields "commitIngestChannelLen" (dc_commit_ingest_channel_len self) in
  let fields := push_int fields "commitPartitionSliceLen" (dc_commit_partition_slice_len self) in
  let fields := push_int fields "workerShardsCount" (dc_worker_shards_count self) in
  let fields := push_duration fields "pollTimeout" (dc_poll_timeout self) in
  let fields := push_duration fields "autoCommitInterval" (dc_auto_commit_interval self) in
  let fields := push_duration fields "drainTimeout" (dc_drain_timeout self) in
  let fields := push_duration fields "awaitAssignmentsTimeout"
    (dc_await_assignments_timeout self) in
  let fields := push_duration fields "queryTimeout" (dc_query_timeout self) in
  let fields := push_duration fields "acquireWorkerTimeoutCircuitBreaker"
    (dc_acquire_worker_timeout_circuit_breaker self) in
  let fields := push_duration fields "rebalancePausePollingTimeout"
    (dc_rebalance_pause_polling_timeout self) in
  let fields := push_duration fields "acquireCommitGuardTimeout"
    (dc_acquire_commit_guard_timeout self) in
  match fields with
  | [] => None
  | _ => Some ("{" +:+ str_join "," fields +:+ "}")
  end.

(** [for (i, (k, v)) in kafka_config.iter().enumerate()] from index [i] on *)
Fixpoint push_kafka_config (i : nat) (json : string) (l : list (string * string)) : string :=
  match l with
  | [] => json
  | (k, v) :: l =>
    let json := if (0 <? i)%nat then json +:+ "," else json in
    push_kafka_config (S i) (push_string_field json k v) l
  end.

Definition config_json (topic : string) (broker : BrokerConfig) (demux : DemuxConfig)
    (service : option (string * string))
    (bandwidth_stats_interval bandwidth_flush_interval : option Duration) : string :=
  let json := "" +:+ "{" in
  let json := push_string_field json "adapter" "franz" in
  let json := json +:+ "," in
  let json := push_string_field json "brokers" (bc_brokers broker) in
  let json := json +:+ "," in
  let json := push_string_field json "topic" topic in
  let json := json +:+ "," in
  let json := push_string_field json "consumer_group" (bc_consumer_group broker) in
  let kafka_config := BrokerConfig_deduped_kafka_config broker in
  let json :=
    match kafka_config with
    | [] => json
    | _ =>
      let json := json +:+ ("," +:+ quoted id "kafka_config" +:+ ":{") in
      push_kafka_config 0 json kafka_config +:+ "}"
    end in
  let json :=
    match service with
    | Some (name, team) =>
      let json := json +:+ ("," +:+ quoted id "service" +:+ ":{") in
      let json := push_string_field json "name" name in
      let json := json +:+ "," in
      let json := push_string_field json "team" team in
      json +:+ "}"
    | None => json
    end in
  let json :=
    match DemuxConfig_demux_json demux with
    | Some demux => json +:+ ("," +:+ quoted id "demux" +:+ ":") +:+ demux
    | None => json
    end in
  let json :=
    if bool_decide (is_Some bandwidth_stats_interval)
       || bool_decide (is_Some bandwidth_flush_interval) then
      let json := json +:+ ("," +:+ quoted id "bandwidth" +:+ ":{") in
      let '(json, first) :=
        match bandwidth_stats_interval with
        | Some d =>
          (json +:+ (quoted id "statsInterval" +:+ ":"
             +:+ quoted id (dec_N (duration_ms_ceil d) +:+ "ms")), false)
        | None => (json, true)
        end in
      let json :=
        match bandwidth_flush_interval with
        | Some d =>
          (if first : bool then json else json +:+ ",")
          +:+ (quoted id "flushInterval" +:+ ":"
             +:+ quoted id (dec_N (duration_ms_ceil d) +:+ "ms"))
        | None => json
        end in
      json +:+ "}"
    else json in
  json +:+ "}".
End wire.

(** ** Escaping *)

(** The same escaping byte by byte: every character the loop singles out is one byte,
    and the bytes of any other character pass through. *)
Fixpoint escape_bytes (s : string) : string :=
  match s with
  | "" => ""
  | String b s => json_escape_char (String b "") +:+ escape_bytes s
  end.

Definition high_byte (b : ascii) : bool := (0x80 <=? byte_val b)%N.

Lemma high_byte_plain b : high_byte b = true → json_escape_char (String b "") = String b "".
Proof. by destruct b as [[][][][][][][][]]. Qed.

Lemma width_high b : utf8_width b ≠ 1%N → high_byte b = true.
Proof. by destruct b as [[][][][][][][][]]. Qed.
Lemma cont_high b : is_cont b = true → high_byte b = true.
Proof. by destruct b as [[][][][][][][][]]. Qed.

(** A chunk of the decoder is a single byte or holds only bytes outside ASCII. *)
Lemma chunk_high s k r :
  utf8_step s = Some (k, r) →
  (∃ b, chunk_bytes k = String b "") ∨
  str_all high_byte (chunk_bytes k) = true.
Proof.
  unfold utf8_step. intros H.
  repeat (case_match; simplify_eq/=); eauto; right;
    repeat match goal with
    | H : is_cont _ = true |- _ => apply cont_high in H; rewrite H
    | H : second3 _ _ = true |- _ => apply second3_cont, cont_high in H; rewrite H
    | H : second4 _ _ = true |- _ => apply second4_cont, cont_high in H; rewrite H
    | H : utf8_width ?b = _ |- _ => rewrite (width_high b) by (rewrite H; done)
    end; done.
Qed.

Lemma escape_bytes_app s t : escape_bytes (s +:+ t) = escape_bytes s +:+ escape_bytes t.
Proof.
  induction s as [|b s IH]; [done|]. rewrite sapp_cons. cbn [escape_bytes].
  by rewrite IH, sapp_assoc.
Qed.

Lemma escape_bytes_high s : str_all high_byte s = true → escape_bytes s = s.
Proof.
  induction s as [|b s IH]; [done|]. cbn [str_all]. intros [Hb Hs]%andb_true_iff.
  cbn [escape_bytes]. by rewrite high_byte_plain, IH.
Qed.

Lemma escape_chunk s k r :
  utf8_step s = Some (k, r) → json_escape_char (chunk_bytes k) = escape_bytes (chunk_bytes k).
Proof.
  intros E. destruct (chunk_high _ _ _ E) as [[b ->]|Hh].
  - cbn [escape_bytes]. by rewrite sapp_nil_r.
  - rewrite escape_bytes_high by done.
    destruct (chunk_bytes k) as [|b [|b' c]]; [done| |done].
    apply high_byte_plain. by apply andb_true_iff in Hh as [? _].
Qed.

Lemma json_escape_into_eq buf s : json_escape_into buf s = buf +:+ escape_bytes s.
Proof.
  revert buf. induction s as [|s k r E IH] using chunks_ind; intros buf.
  - by rewrite sapp_nil_r.
  - unfold json_escape_into, chars in *. rewrite chunks_unfold, E. cbn [map foldl].
    by rewrite IH, (escape_chunk _ _ _ E), (utf8_step_app _ _ _ E), escape_bytes_app, sapp_assoc.
Qed.

(** A JSON reader undoes the escaping. *)
Lemma parse_escape_byte b t k r :
  parse_str r = Some (t, k) →
  parse_str (json_escape_char (String b "") +:+ r) = Some (String b t, k).
Proof.
  intros Hr. destruct b as [[][][][][][][][]];
    cbn -[parse_str]; rewrite ?sapp_cons, ?sapp_nil_l; simpl; rewrite ?sapp_nil_l; by rewrite Hr.
Qed.

Lemma parse_escape_bytes s k : parse_str (escape_bytes s +:+ String quote k) = Some (s, k).
Proof.
  induction s as [|b s IH]; [done|]. cbn [escape_bytes]. rewrite sapp_assoc.
  by apply parse_escape_byte.
Qed.

(** ** The intended document *)
Definition opt_field (name : string) (v : option json) : list (string * json) :=
  match v with Some j => [(name, j)] | None => [] end.
Definition str_fields (l : list (string * string)) : list (string * json) :=
  map (λ kv, (kv.1, JStr kv.2)) l.
Definition section_field (name : string) (m : list (string * json)) : list (string * json) :=
  match m with [] => [] | _ => [(name, JObj m)] end.

Section document.
Context {NX : Nexus}.

Definition duration_value (d : Duration) : json := JStr (dec_N (duration_ms_ceil d) +:+ "ms").
Definition int_value (n : N) : json := JNum (Z.of_N n).

Definition demux_doc (c : DemuxConfig) : list (string * json) :=
  opt_field "concurrentKeys" (int_value <$> dc_concurrent_keys c)
  ++ opt_field "perKeyBufferLen" (int_value <$> dc_per_key_buffer_len c)
  ++ opt_field "commitIngestChannelLen" (int_value <$> dc_commit_ingest_channel_len c)
  ++ opt_field "commitPartitionSliceLen" (int_value <$> dc_commit_partition_slice_len c)
  ++ opt_field "workerShardsCount" (int_value <$> dc_worker_shards_count c)
  ++ opt_field "pollTimeout" (duration_value <$> dc_poll_timeout c)
  ++ opt_field "autoCommitInterval" (duration_value <$> dc_auto_commit_interval c)
  ++ opt_field "drainTimeout" (duration_value <$> dc_drain_timeout c)
  ++ opt_field "awaitAssignmentsTimeout" (duration_value <$> dc_await_assignments_timeout c)
  ++ opt_field "queryTimeout" (duration_value <$> dc_query_timeout c)
  ++ opt_field "acquireWorkerTimeoutCircuitBreaker"
       (duration_value <$> dc_acquire_worker_timeout_circuit_breaker c)
  ++ opt_field "rebalancePausePollingTimeout"
       (duration_value <$> dc_rebalance_pause_polling_timeout c)
  ++ opt_field "acquireCommitGuardTimeout"
       (duration_value <$> dc_acquire_commit_guard_timeout c).

Definition bandwidth_doc (stats flush : option Duration) : list (string * json) :=
  opt_field "statsInterval" (duration_value <$> stats)
  ++ opt_field "flushInterval" (duration_value <$> flush).

(** The four required fields, then each optional section exactly when it has content. *)
Definition config_doc (topic : string) (broker : BrokerConfig) (demux : DemuxConfig)
    (service : option (string * string)) (stats flush : option Duration) : json :=
  JObj (str_fields [("adapter", "franz"); ("brokers", bc_brokers broker); ("topic", topic);
                    ("consumer_group", bc_consumer_group broker)]
    ++ section_field "kafka_config" (str_fields (BrokerConfig_deduped_kafka_config broker))
    ++ opt_field "service" ((λ s, JObj (str_fields [("name", s.1); ("team", s.2)])) <$> service)
    ++ section_field "demux" (demux_doc demux)
    ++ section_field "bandwidth" (bandwidth_doc stats flush)).

Notation render' := (render escape_bytes).
Notation member' := (member escape_bytes).

(** Members written after another one: each behind a comma. *)
Definition trailing (m : list (string * json)) : string :=
  str_concat (map (λ kv, "," +:+ member' kv) m).

Lemma trailing_app m n : trailing (m ++ n) = trailing m +:+ trailing n.
Proof. unfold trailing. by rewrite map_app, str_concat_app. Qed.
Lemma trailing_cons kv m : trailing (kv :: m) = "," +:+ member' kv +:+ trailing m.
Proof. unfold trailing. cbn [map]. by rewrite str_concat_cons, sapp_assoc. Qed.

Lemma join_members kv m : str_join "," (map member' (kv :: m)) = member' kv +:+ trailing m.
Proof.
  revert kv. induction m as [|kv' m IH]; intros kv; [by rewrite sapp_nil_r|].
  rewrite trailing_cons, <-IH. done.
Qed.

Lemma render_obj m : render' (JObj m) = "{" +:+ str_join "," (map member' m) +:+ "}".
Proof. done. Qed.

(** ** The text is the rendering of the document *)
Lemma push_string_field_eq buf k v : push_string_field buf k v = buf +:+ member' (k, JStr v).
Proof.
  unfold push_string_field, member, quoted. rewrite !json_escape_into_eq. simpl. unfold quoted.
  by autorewrite with str.
Qed.

Lemma push_kafka_config_eq i json l :
  push_kafka_config (S i) json l = json +:+ trailing (str_fields l).
Proof.
  revert i json. induction l as [|[k v] l IH]; intros i json; [by rewrite sapp_nil_r|].
  cbn [push_kafka_config Nat.ltb Nat.leb].
  rewrite push_string_field_eq, IH. unfold str_fields. cbn [map].
  by rewrite trailing_cons, !sapp_assoc.
Qed.

Lemma dec_Z_of_N n : dec_Z (Z.of_N n) = dec_N n.
Proof. by destruct n. Qed.

Definition plain_byte (b : ascii) : bool := (json_escape_char (String b "") =? String b "")%string.
Lemma escape_plain s : str_all plain_byte s = true → escape_bytes s = s.
Proof.
  induction s as [|b s IH]; [done|]. cbn [str_all escape_bytes].
  intros [Hb Hs]%andb_true_iff. apply String.eqb_eq in Hb. by rewrite Hb, IH.
Qed.
Lemma str_all_app f s t : str_all f (s +:+ t) = str_all f s && str_all f t.
Proof.
  induction s as [|b s IH]; [done|]. rewrite sapp_cons. cbn [str_all].
  by rewrite IH, andb_assoc.
Qed.
Lemma digits_plain n : str_all plain_byte (dec_N n) = true.
Proof.
  unfold dec_N. assert (∀ d, str_all plain_byte (DecimalString.NilEmpty.string_of_uint d) = true).
  { induction d; [done|..]; by cbn [DecimalString.NilEmpty.string_of_uint str_all]; rewrite IHd. }
  unfold DecimalString.NilZero.string_of_uint. by destruct (N.to_uint n) eqn:E; rewrite <-?E.
Qed.
Lemma escape_ms n : escape_bytes (dec_N n +:+ "ms") = dec_N n +:+ "ms".
Proof. apply escape_plain. by rewrite str_all_app, digits_plain. Qed.

Lemma push_int_eq fields name v :
  escape_bytes name = name →
  push_int fields name v = fields ++ map member' (opt_field name (int_value <$> v)).
Proof.
  intros Hn. destruct v as [n|]; simpl; [|by rewrite app_nil_r].
  unfold member, quoted. simpl. rewrite Hn, dec_Z_of_N. by autorewrite with str.
Qed.
Lemma push_duration_eq fields name v :
  escape_bytes name = name →
  push_duration fields name v = fields ++ map member' (opt_field name (duration_value <$> v)).
Proof.
  intros Hn. destruct v as [d|]; simpl; [|by rewrite app_nil_r].
  unfold member, quoted. simpl. unfold quoted. rewrite Hn, escape_ms. by autorewrite with str.
Qed.

Lemma demux_json_eq c :
  DemuxConfig_demux_json c
  = match demux_doc c with [] => None | m => Some (render' (JObj m)) end.
Proof.
  unfold DemuxConfig_demux_json.
  rewrite !push_int_eq, !push_duration_eq by reflexivity.
  rewrite app_nil_l, <-!map_app, <-!app_assoc.
  change (opt_field "concurrentKeys" _ ++ _) with (demux_doc c).
  by destruct (demux_doc c).
Qed.

Lemma bandwidth_text json stats flush :
  (if bool_decide (is_Some stats) || bool_decide (is_Some flush) then
     let json := json +:+ ("," +:+ quoted id "bandwidth" +:+ ":{") in
     let '(json, first) :=
       match stats with
       | Some d =>
         (json +:+ (quoted id "statsInterval" +:+ ":"
            +:+ quoted id (dec_N (duration_ms_ceil d) +:+ "ms")), false)
       | None => (json, true)
       end in
     let json :=
       match flush with
       | Some d =>
         (if first : bool then json else json +:+ ",")
         +:+ (quoted id "flushInterval" +:+ ":"
            +:+ quoted id (dec_N (duration_ms_ceil d) +:+ "ms"))
       | None => json
       end in
     json +:+ "}"
   else json)
  = json +:+ trailing (section_field "bandwidth" (bandwidth_doc stats flush)).
Proof.
  destruct stats as [a|], flush as [b|]; simpl; rewrite ?trailing_cons;
    unfold member, quoted; simpl; unfold quoted; rewrite ?escape_ms;
    autorewrite with str; try done.
  all: unfold trailing; simpl; by autorewrite with str.
Qed.

Lemma member_obj name m :
  escape_bytes name = name →
  member' (name, JObj m) = quoted id name +:+ ":{" +:+ str_join "," (map member' m) +:+ "}".
Proof. intros Hn. unfold member, quoted. cbn [fst snd]. rewrite Hn, render_obj. by autorewrite with str. Qed.

Lemma config_json_render topic broker demux service stats flush :
  config_json topic broker demux service stats flush
  = render' (config_doc topic broker demux service stats flush).
Proof.
  unfold config_json. cbv zeta. rewrite bandwidth_text, demux_json_eq.
  unfold config_doc. unfold str_fields at 1. cbn [map app fst snd]. rewrite render_obj.
  rewrite join_members, !trailing_cons, !trailing_app.
  rewrite !push_string_field_eq.
  set (kafka := section_field "kafka_config" _). set (svc := opt_field "service" _).
  assert (∀ json, match BrokerConfig_deduped_kafka_config broker with
    | [] => json
    | _ => push_kafka_config 0 (json +:+ ("," +:+ quoted id "kafka_config" +:+ ":{"))
             (BrokerConfig_deduped_kafka_config broker) +:+ "}"
    end = json +:+ trailing kafka) as Hkafka.
  { intros json. subst kafka. destruct (BrokerConfig_deduped_kafka_config broker) as [|[k v] l].
    - by rewrite sapp_nil_r.
    - cbn [push_kafka_config Nat.ltb Nat.leb section_field str_fields map fst snd].
      rewrite push_kafka_config_eq, push_string_field_eq, trailing_cons, member_obj by done.
      rewrite join_members. fold (str_fields l). by autorewrite with str. }
  rewrite Hkafka. clear Hkafka.
  assert (∀ json, match service with
    | Some (name, team) =>
      push_string_field (push_string_field (json +:+ ("," +:+ quoted id "service" +:+ ":{"))
        "name" name +:+ ",") "team" team +:+ "}"
    | None => json
    end = json +:+ trailing svc) as Hsvc.
  { intros json. subst svc. destruct service as [[name team]|]; cbn [opt_field fmap option_fmap option_map].
    - rewrite !push_string_field_eq, trailing_cons, member_obj by done.
      cbn [str_fields map fst snd str_join]. by autorewrite with str.
    - by rewrite sapp_nil_r. }
  rewrite Hsvc. clear Hsvc.
  destruct (demux_doc demux) as [|kv m] eqn:E; cbn [section_field].
  - by autorewrite with str.
  - rewrite trailing_cons, member_obj by done. rewrite render_obj. by autorewrite with str.
Qed.
End document.

(** ** The wire contract *)
Section wire_theorems.
Context {NX : Nexus}.

(** C4: the hand-built text is a JSON document that means what was configured: for every
    topic, broker list, group, option pair, identity and setting, whatever characters
    they contain, a JSON reader recovers exactly [config_doc]: each section present
    exactly when it has content, every value intact. *)
Theorem config_json_parses topic broker demux service stats flush :
  parse (config_json topic broker demux service stats flush)
  = Some (config_doc topic broker demux service stats flush).
Proof. rewrite config_json_render. apply parse_render, parse_escape_bytes. Qed.

(** *** No NUL byte *)
Definition not_nul (b : ascii) : bool := negb (Ascii.eqb b "000").

Lemma escape_not_nul s : str_all not_nul (escape_bytes s) = true.
Proof.
  induction s as [|b s IH]; [done|]. cbn [escape_bytes]. rewrite str_all_app, IH, andb_true_r.
  by destruct b as [[][][][][][][][]].
Qed.

Lemma plain_not_nul s : str_all plain_byte s = true → str_all not_nul s = true.
Proof. intros H. rewrite <-(escape_plain s H). apply escape_not_nul. Qed.

Lemma join_not_nul l :
  Forall (λ s, str_all not_nul s = true) l → str_all not_nul (str_join "," l) = true.
Proof.
  induction 1 as [|s l Hs Hl IH]; [done|]. destruct l as [|t l]; [done|].
  change (str_join "," (s :: t :: l)) with (s +:+ "," +:+ str_join "," (t :: l)).
  by rewrite !str_all_app, Hs, IH.
Qed.

Lemma dec_Z_not_nul z : str_all not_nul (dec_Z z) = true.
Proof.
  assert (∀ d, str_all not_nul (DecimalString.NilEmpty.string_of_uint d) = true) as Hd.
  { induction d; [done|..]; cbn [DecimalString.NilEmpty.string_of_uint str_all]; by rewrite IHd. }
  destruct (dec_Z_cases z) as (d & _ & _ & [[-> _]|[-> _]]); [apply Hd|].
  cbn [str_all]. by rewrite Hd.
Qed.

Lemma quoted_not_nul s : str_all not_nul (quoted escape_bytes s) = true.
Proof. unfold quoted. cbn [str_all]. by rewrite str_all_app, escape_not_nul. Qed.

Lemma render_not_nul v : str_all not_nul (render escape_bytes v) = true.
Proof.
  induction v as [|[]|z|s|l IH|m IH] using json_ind; cbn [render]; try done.
  - apply dec_Z_not_nul.
  - apply quoted_not_nul.
  - rewrite !str_all_app, join_not_nul; [done|]. by apply Forall_map.
  - rewrite !str_all_app, join_not_nul; [done|]. apply Forall_map.
    eapply Forall_impl; [done|]. intros kv Hkv. cbn beta in *.
    by rewrite (str_all_app _ (quoted _ _)), quoted_not_nul, str_all_app, Hkv.
Qed.

Lemma config_json_nul_free topic broker demux service stats flush :
  str_all not_nul (config_json topic broker demux service stats flush) = true.
Proof. rewrite config_json_render. apply render_not_nul. Qed.

(** The document never contains a NUL byte: the escaper turns one into a [\u0000]
    escape, so the C string [build] makes of the document always exists. *)
Theorem config_json_no_nul topic broker demux service stats flush :
  str_all not_nul (config_json topic broker demux service stats flush) = true.
Proof. apply config_json_nul_free. Qed.

Context {NL : NexusLaws}.

(** A timing setting is rounded up to whole milliseconds, so a non-zero [Duration]
    never reaches the engine as zero: the text an [Options] timing setter records is
    [0], and the text a [DemuxConfig] or bandwidth interval puts on the wire is [0ms],
    only for the zero duration. *)
Theorem duration_text_zero_iff d :
  duration_ok d →
  (ms d = "0" ↔ total_nanos d = 0%N) ∧ (duration_value d = JStr "0ms" ↔ total_nanos d = 0%N).
Proof.
  intros Hd. rewrite <-(duration_ms_ceil_zero_iff d Hd).
  assert (∀ n, dec_N n = "0" ↔ n = 0%N) as Hz.
  { intros n. split; [|by intros ->]. apply (dec_N_inj n 0). }
  split; [apply Hz|]. unfold duration_value. split; [|by intros ->].
  intros [= Hms]. apply Hz. change "0ms" with ("0" +:+ "ms") in Hms.
  by apply sapp_inv_tail in Hms.
Qed.
End wire_theorems.

(** ** Duplicate keys *)
Definition kmap (l : list (string * string)) : gmap string string := list_to_map (reverse l).

Lemma kmap_snoc l kv : kmap (l ++ [kv]) = <[kv.1 := kv.2]> (kmap l).
Proof. unfold kmap. rewrite reverse_app. by destruct kv. Qed.

Lemma upsert_keys k v l :
  (upsert k v l).*1 = if decide (k ∈ l.*1) then l.*1 else l.*1 ++ [k].
Proof.
  induction l as [|[k' v'] l IH]; csimpl; [done|].
  destruct (decide (k' = k)) as [->|Hk]; csimpl.
  - by rewrite decide_True by set_solver.
  - rewrite IH. repeat case_decide; try done; set_solver.
Qed.

Lemma upsert_nodup k v l : NoDup l.*1 → NoDup (upsert k v l).*1.
Proof.
  intros Hl. rewrite upsert_keys. case_decide; [done|]. apply NoDup_app.
  split_and!; [done| |apply NoDup_singleton]. set_solver.
Qed.

Lemma upsert_elem k v l kv :
  NoDup l.*1 → kv ∈ upsert k v l ↔ (kv = (k, v) ∨ (kv ∈ l ∧ kv.1 ≠ k)).
Proof.
  induction l as [|[k' v'] l IH]; csimpl; intros Hl.
  - rewrite list_elem_of_singleton. set_solver.
  - apply NoDup_cons in Hl as [Hk' Hl]. destruct (decide (k' = k)) as [->|Hk]; csimpl.
    + rewrite !elem_of_cons. split; [intros [->|Hin]; [by left|right]|].
      * split; [by right|]. intros E. apply Hk'. rewrite <-E. by apply list_elem_of_fmap_2.
      * intros [->|[[->|Hin] Hne]]; [by left|done|by right].
    + rewrite !elem_of_cons, IH by done. split; [|naive_solver].
      intros [->|[->|[Hin Hne]]]; [right|by left|right]; auto.
Qed.

Notation dedup_pairs := (foldl (λ deduped kv, upsert kv.1 kv.2 deduped) []).

Lemma dedup_pairs_snoc l kv : dedup_pairs (l ++ [kv]) = upsert kv.1 kv.2 (dedup_pairs l).
Proof. by rewrite foldl_app. Qed.

Lemma dedup_pairs_nodup l : NoDup (dedup_pairs l).*1.
Proof.
  induction l as [|kv l IH] using rev_ind; [constructor|].
  rewrite dedup_pairs_snoc. by apply upsert_nodup.
Qed.

Lemma dedup_pairs_map l : list_to_map (dedup_pairs l) = kmap l.
Proof.
  induction l as [|kv l IH] using rev_ind; [done|].
  rewrite dedup_pairs_snoc, kmap_snoc, <-IH. apply map_eq. intros k.
  apply option_eq. intros v. rewrite lookup_insert.
  rewrite <-elem_of_list_to_map by (apply upsert_nodup, dedup_pairs_nodup).
  rewrite upsert_elem by apply dedup_pairs_nodup. case_decide as Hk.
  - subst. split; [intros [[= ->]|[_ ?]]; done|intros [= ->]; by left].
  - rewrite <-elem_of_list_to_map by apply dedup_pairs_nodup. simpl.
    split; [intros [[= ? ?]|[? _]]; congruence|]. intros Hin. right. split; [done|congruence].
Qed.

(** Keys in the order of their first write. *)
Fixpoint first_keys (seen l : list string) : list string :=
  match l with
  | [] => seen
  | k :: l => first_keys (if decide (k ∈ seen) then seen else seen ++ [k]) l
  end.

Lemma foldl_upsert_keys l d :
  (foldl (λ deduped kv, upsert kv.1 kv.2 deduped) d l).*1 = first_keys d.*1 l.*1.
Proof.
  revert d. induction l as [|kv l IH]; intros d; csimpl; [done|].
  by rewrite IH, upsert_keys.
Qed.

(** Duplicate option keys: the emitted pairs hold every key once, in the order of
    its first write, with the value of its last write; as a map they are the layering of
    all writes in call order. *)
Theorem deduped_last_write_wins b :
  NoDup (BrokerConfig_deduped_kafka_config b).*1 ∧
  list_to_map (BrokerConfig_deduped_kafka_config b) = kmap (bc_kafka_config b) ∧
  (BrokerConfig_deduped_kafka_config b).*1 = first_keys [] (bc_kafka_config b).*1.
Proof.
  unfold BrokerConfig_deduped_kafka_config.
  split_and!; [apply dedup_pairs_nodup|apply dedup_pairs_map|apply foldl_upsert_keys].
Qed.

Lemma kmap_app l k : kmap (l ++ k) = kmap k ∪ kmap l.
Proof. unfold kmap. by rewrite reverse_app, list_to_map_app. Qed.

Lemma kmap_dom l : dom (kmap l) = list_to_set l.*1.
Proof.
  apply set_eq. intros k. unfold kmap. rewrite dom_list_to_map_L, fmap_reverse.
  rewrite !elem_of_list_to_set. by rewrite elem_of_reverse.
Qed.

(** C16: nothing configured is lost between the two styles: for a builder [validate]
    accepts, the option map that reaches the wire is the recorded pairs' map together
    with the security section's map, and the two have no key in common. *)
Theorem validated_options_reach_the_wire (o : Options) :
  Options_validate o = inr tt →
  let wire := BrokerConfig_deduped_kafka_config (BrokerConfig_adapter_options BrokerConfig_new o) in
  list_to_map wire = kmap (opt_entries o) ∪ kmap (security_part o) ∧
  kmap (opt_entries o) ##ₘ kmap (security_part o).
Proof.
  intros Hv. cbv zeta.
  assert (kmap (opt_entries o) ##ₘ kmap (security_part o)) as Hd.
  { apply map_disjoint_dom. rewrite !kmap_dom, security_part_eq.
    pose proof (Options_validated_disjoint o Hv). set_solver. }
  split; [|done]. unfold BrokerConfig_deduped_kafka_config, BrokerConfig_adapter_options.
  cbn [bc_kafka_config BrokerConfig_new ao_entries Options_AdapterOptions].
  rewrite dedup_pairs_map, app_nil_l, Options_entries_eq, kmap_app, <-security_part_eq.
  by rewrite map_union_comm.
Qed.

(** ** Deferred validation *)
Definition first_failure {A} `{AdapterOptions A} (l : list A) : option string :=
  foldr (λ o r, match ao_validate o with inl message => Some message | inr _ => r end) None l.

(** Validation failures are deferred, never lost: after any sequence of option
    builders the recorded error is the first failing builder's message (an earlier error
    stays), and none exactly when every builder validated. *)
Theorem deferred_error_is_first {A} `{AdapterOptions A} (b : BrokerConfig) (l : list A) :
  BrokerConfig_deferred_error (foldl BrokerConfig_adapter_options b l)
  = match BrokerConfig_deferred_error b with
    | Some e => Some e
    | None => first_failure l
    end.
Proof.
  revert b. induction l as [|o l IH]; intros b; simpl.
  - by destruct (BrokerConfig_deferred_error b).
  - rewrite IH. unfold BrokerConfig_adapter_options, BrokerConfig_deferred_error. simpl.
    by destruct (bc_deferred_error b), (ao_validate o).
Qed.

Section witnesses.
#[local] Existing Instance nexus_ref.

Lemma duration_text_zero_iff_witness :
  duration_ok (from_micros 1) ∧ ¬ (ms (from_micros 1) = "0").
Proof.
  split; [split; reflexivity|]. intros H.
  apply (duration_text_zero_iff (NL := nexus_ref_laws) (from_micros 1)) in H;
    [discriminate H|split; reflexivity].
Defined.

Lemma validated_options_reach_the_wire_witness :
  let o := Options_kafka_option (Options_sasl_plain (Options_tls Options_new) "u" "p")
             "isolation.level" "read_committed" in
  list_to_map (BrokerConfig_deduped_kafka_config (BrokerConfig_adapter_options BrokerConfig_new o))
  = kmap (opt_entries o) ∪ kmap (security_part o).
Proof.
  apply (validated_options_reach_the_wire
    (Options_kafka_option (Options_sasl_plain (Options_tls Options_new) "u" "p")
       "isolation.level" "read_committed")). reflexivity.
Defined.
End witnesses.
