(* ===== verification/Ffi.v ===== *)
(** * The C boundary: memory, [repr(C)] layout and the raw structs of src/src/ffi.rs

    Memory is a partial map from addresses to bytes: an access to an address that is not
    mapped is undefined behaviour and gives [None]; so is, in Effects.v, a typed access
    through a pointer that is not [aligned]. Scalars are little-endian, the byte
    order of every target the crate's build supports. The layout of a [repr(C)] struct is
    the C algorithm (each field at the next multiple of its alignment, the size rounded up
    to the largest one); the structs of ffi.rs are its instances, and so are the structs of
    the C preamble of bridge/main.go, which [assert_layout] of src/abi-check compares. *)
From Stdlib Require Import ZArith NArith Ascii.
From Stdlib Require String.
From stdpp Require Import base tactics option list gmap strings.
From S2P Require Import Prelude Text.
#[local] Open Scope Z_scope.

(** ** Byte-addressed memory *)
Notation mem := (gmap Z ascii).

Fixpoint load_bytes (m : mem) (p : Z) (n : nat) : option string :=
  match n with
  | O => Some ""
  | S n => b ← m !! p; s ← load_bytes m (p + 1) n; Some (String b s)
  end.

Fixpoint store_bytes (m : mem) (p : Z) (s : string) : option mem :=
  match s with
  | "" => Some m
  | String b s => match m !! p with
                  | Some _ => store_bytes (<[p := b]> m) (p + 1) s
                  | None => None
                  end
  end.

(** [len] bytes from [p] are mapped. *)
Definition mapped (m : mem) (p len : Z) : Prop := ∀ a, p ≤ a < p + len → is_Some (m !! a).
(** The two memories differ at most inside [p, p+len). *)
Definition same_outside (p len : Z) (m m' : mem) : Prop :=
  ∀ a, ¬ (p ≤ a < p + len) → m' !! a = m !! a.

Lemma load_bytes_length m p n s : load_bytes m p n = Some s → String.length s = n.
Proof.
  revert p s. induction n as [|n IH]; intros p s H; simpl in H; [by simplify_eq|].
  apply bind_Some in H as (b & _ & H). apply bind_Some in H as (s' & H & [= <-]).
  simpl. by rewrite (IH _ _ H).
Qed.

Lemma load_bytes_mapped m p n : mapped m p (Z.of_nat n) → is_Some (load_bytes m p n).
Proof.
  revert p. induction n as [|n IH]; intros p H; [by eexists|]. simpl.
  destruct (H p ltac:(lia)) as [b ->]. simpl.
  destruct (IH (p + 1)) as [s ->]; [intros a ?; apply H; lia|]. by eexists.
Qed.

Lemma mapped_load_bytes m p n s : load_bytes m p n = Some s → mapped m p (Z.of_nat n).
Proof.
  revert p s. induction n as [|n IH]; intros p s H a Ha; [lia|]. simpl in H.
  apply bind_Some in H as (b & Hb & H). apply bind_Some in H as (s' & H & [= <-]).
  destruct (decide (a = p)) as [->|]; [by eexists|]. apply (IH _ _ H). lia.
Qed.

Lemma load_bytes_ext m m' p n :
  (∀ a, p ≤ a < p + Z.of_nat n → m' !! a = m !! a) → load_bytes m' p n = load_bytes m p n.
Proof.
  revert p. induction n as [|n IH]; intros p H; [done|]. simpl.
  rewrite (H p) by lia. rewrite (IH (p + 1)); [done|]. intros a Ha. apply H. lia.
Qed.

Lemma store_bytes_dom m p s m' a : store_bytes m p s = Some m' → is_Some (m' !! a) ↔ is_Some (m !! a).
Proof.
  revert m p. induction s as [|b s IH]; intros m p H; simpl in H; [by simplify_eq|].
  destruct (m !! p) as [b'|] eqn:E; [|done].
  rewrite (IH _ _ H), lookup_insert_is_Some. destruct (decide (p = a)) as [->|]; [|naive_solver].
  rewrite E. naive_solver.
Qed.

Lemma store_bytes_frame m p s m' :
  store_bytes m p s = Some m' → same_outside p (Z.of_nat (String.length s)) m m'.
Proof.
  revert m p. induction s as [|b s IH]; intros m p H a Ha; simpl in H; [by simplify_eq|].
  destruct (m !! p) as [b'|]; [|done]. simpl in Ha.
  rewrite (IH _ _ H) by lia. rewrite lookup_insert_ne; [done|lia].
Qed.

Lemma store_bytes_mapped m p s :
  mapped m p (Z.of_nat (String.length s)) → is_Some (store_bytes m p s).
Proof.
  revert m p. induction s as [|b s IH]; intros m p H; simpl; [by eexists|].
  destruct (H p) as [b' Hb]; [simpl; lia|]. rewrite Hb. apply IH.
  intros a Ha. apply lookup_insert_is_Some. destruct (decide (p = a)); [by left|right].
  split; [done|]. apply H. simpl. lia.
Qed.

Lemma load_store_same m p s m' :
  store_bytes m p s = Some m' → load_bytes m' p (String.length s) = Some s.
Proof.
  revert m p. induction s as [|b s IH]; intros m p H; simpl in *; [done|].
  destruct (m !! p) as [b'|]; [|done]. rewrite (IH _ _ H).
  rewrite (store_bytes_frame _ _ _ _ H) by lia. by rewrite lookup_insert_eq.
Qed.

Lemma load_store_disjoint m p s m' q n :
  store_bytes m p s = Some m' →
  q + Z.of_nat n ≤ p ∨ p + Z.of_nat (String.length s) ≤ q →
  load_bytes m' q n = load_bytes m q n.
Proof.
  intros H Hd. apply load_bytes_ext. intros a Ha. apply (store_bytes_frame _ _ _ _ H). lia.
Qed.

(** ** C scalars *)
Inductive cty := CI8 | CInt | CI32 | CI64 | CPtr.
#[export] Instance cty_eq_dec : EqDecision cty.
Proof. solve_decision. Defined.

(** Sizes on a 64-bit target, where the alignment of a scalar is its size. *)
Definition cty_size (t : cty) : Z :=
  match t with CI8 => 1 | CInt | CI32 => 4 | CI64 | CPtr => 8 end.
Definition cty_in (t : cty) (z : Z) : Prop :=
  match t with CPtr => in_u 64 z | _ => in_s (8 * cty_size t) z end.

Fixpoint le_bytes (n : nat) (z : Z) : string :=
  match n with
  | O => ""
  | S n => String (ascii_of_N (Z.to_N (z mod 256))) (le_bytes n (z / 256))
  end.
Fixpoint le_val (s : string) : Z :=
  match s with "" => 0 | String b s => Z.of_N (N_of_ascii b) + 256 * le_val s end.

Definition c_put (t : cty) (z : Z) : string := le_bytes (Z.to_nat (cty_size t)) z.
Definition c_get (t : cty) (s : string) : Z :=
  match t with CPtr => le_val s | _ => wrap_s (8 * cty_size t) (le_val s) end.

Definition read_scalar (m : mem) (p : Z) (t : cty) : option Z :=
  c_get t <$> load_bytes m p (Z.to_nat (cty_size t)).
Definition write_scalar (m : mem) (p : Z) (t : cty) (z : Z) : option mem :=
  store_bytes m p (c_put t z).

Lemma le_bytes_length n z : String.length (le_bytes n z) = n.
Proof. revert z. induction n as [|n IH]; intros z; simpl; [done|]. by rewrite IH. Qed.

Lemma c_put_length t z : String.length (c_put t z) = Z.to_nat (cty_size t).
Proof. apply le_bytes_length. Qed.

Lemma le_val_bytes n z : le_val (le_bytes n z) = wrap_u (8 * Z.of_nat n) z.
Proof.
  revert z. induction n as [|n IH]; intros z.
  { unfold wrap_u. cbn [le_bytes le_val]. by rewrite Z.mod_1_r. }
  cbn [le_bytes le_val]. rewrite IH, N_ascii_embedding.
  - rewrite Z2N.id by (apply Z.mod_pos_bound; lia). unfold wrap_u.
    replace (8 * Z.of_nat (S n)) with (8 + 8 * Z.of_nat n) by lia.
    rewrite Z.pow_add_r by lia. rewrite (Z.rem_mul_r z (2 ^ 8)) by lia. done.
  - pose proof (Z.mod_pos_bound z 256 ltac:(lia)). lia.
Qed.

Lemma le_val_range s : in_u (8 * Z.of_nat (String.length s)) (le_val s).
Proof.
  induction s as [|b s [Hl Hu]]; [by split|]. cbn [le_val String.length]. unfold in_u.
  replace (8 * Z.of_nat (S (String.length s))) with (8 + 8 * Z.of_nat (String.length s)) by lia.
  rewrite Z.pow_add_r by lia. change (2 ^ 8) with 256. pose proof (N_ascii_bounded b). lia.
Qed.

(** A scalar written by one side is the scalar the other side reads. *)
Lemma c_get_put t z : cty_in t z → c_get t (c_put t z) = z.
Proof.
  intros H. unfold c_get, c_put. rewrite le_val_bytes.
  rewrite Z2Nat.id by (destruct t; simpl; lia). destruct t; simpl in *;
    first [by apply wrap_s_u | by apply wrap_u_small].
Qed.

Lemma read_write_scalar m p t z m' :
  cty_in t z → write_scalar m p t z = Some m' → read_scalar m' p t = Some z.
Proof.
  intros Hz H. unfold read_scalar. rewrite <-(c_put_length t z).
  unfold write_scalar in H. rewrite (load_store_same _ _ _ _ H). simpl. by rewrite c_get_put.
Qed.

(** ** [repr(C)] layout *)
Definition align_up (off a : Z) : Z := (off + a - 1) / a * a.

Fixpoint repr_c_go (off : Z) (fs : list cty) : list Z * Z :=
  match fs with
  | [] => ([], off)
  | t :: fs =>
    let o := align_up off (cty_size t) in
    let '(os, e) := repr_c_go (o + cty_size t) fs in (o :: os, e)
  end.
Definition repr_c_offsets (fs : list cty) : list Z := (repr_c_go 0 fs).1.
Definition repr_c_align (fs : list cty) : Z := foldr (λ t a, Z.max (cty_size t) a) 1 fs.
Definition repr_c_size (fs : list cty) : Z := align_up (repr_c_go 0 fs).2 (repr_c_align fs).

(** A struct at [p] with the given field values: what a C writer leaves in memory.
    Padding is unspecified. *)
Definition struct_at (m : mem) (p : Z) (fs : list cty) (vs : list Z) : Prop :=
  length vs = length fs ∧
  ∀ i t o v, fs !! i = Some t → repr_c_offsets fs !! i = Some o → vs !! i = Some v →
    cty_in t v ∧ load_bytes m (p + o) (Z.to_nat (cty_size t)) = Some (c_put t v).

(** Reading a struct field by field. *)
Fixpoint read_fields (m : mem) (p : Z) (fs : list cty) (os : list Z) : option (list Z) :=
  match fs, os with
  | t :: fs, o :: os =>
    v ← read_scalar m (p + o) t; vs ← read_fields m p fs os; Some (v :: vs)
  | _, _ => Some []
  end.
Definition read_struct (m : mem) (p : Z) (fs : list cty) : option (list Z) :=
  read_fields m p fs (repr_c_offsets fs).

Lemma align_up_spec off a : 0 < a → off ≤ align_up off a < off + a ∧ (a | align_up off a).
Proof.
  intros Ha. unfold align_up. pose proof (Z.div_mod (off + a - 1) a ltac:(lia)).
  pose proof (Z.mod_pos_bound (off + a - 1) a Ha). split; [lia|]. by exists ((off + a - 1) / a).
Qed.

Lemma cty_size_pos t : 0 < cty_size t.
Proof. by destruct t. Qed.

Lemma repr_c_go_length off fs : length (repr_c_go off fs).1 = length fs.
Proof.
  revert off. induction fs as [|t fs IH]; intros off; [done|]. cbn [repr_c_go].
  specialize (IH (align_up off (cty_size t) + cty_size t)).
  destruct (repr_c_go _ fs) as [os e]. simpl in *. lia.
Qed.

Lemma read_fields_at m p fs os vs :
  length vs = length fs → length os = length fs →
  (∀ i t o v, fs !! i = Some t → os !! i = Some o → vs !! i = Some v →
    cty_in t v ∧ load_bytes m (p + o) (Z.to_nat (cty_size t)) = Some (c_put t v)) →
  read_fields m p fs os = Some vs.
Proof.
  revert os vs. induction fs as [|t fs IH]; intros [|o os] [|v vs] Hv Ho H; try done.
  simpl. destruct (H 0%nat t o v eq_refl eq_refl eq_refl) as [Hin Hl].
  unfold read_scalar. rewrite Hl. simpl. rewrite c_get_put by done.
  rewrite (IH os vs); [done|by injection Hv|by injection Ho|].
  intros i. apply (H (S i)).
Qed.

(** A struct written with the C layout is read back field for field. *)
Lemma read_struct_at m p fs vs : struct_at m p fs vs → read_struct m p fs = Some vs.
Proof.
  intros [Hlen H]. apply read_fields_at; [done|apply repr_c_go_length|done].
Qed.

Lemma repr_c_go_mono off fs : 0 ≤ off → off ≤ (repr_c_go off fs).2.
Proof.
  revert off. induction fs as [|t fs IH]; intros off Ho; [done|]. cbn [repr_c_go].
  pose proof (align_up_spec off (cty_size t) (cty_size_pos t)). pose proof (cty_size_pos t).
  specialize (IH (align_up off (cty_size t) + cty_size t)).
  destruct (repr_c_go _ fs) as [os e]. simpl in *. lia.
Qed.

(** Field [i] lies at an aligned offset inside [off, end), after every earlier field. *)
Lemma repr_c_go_fields off fs i t o :
  0 ≤ off → fs !! i = Some t → (repr_c_go off fs).1 !! i = Some o →
  (cty_size t | o) ∧ off ≤ o ∧ o + cty_size t ≤ (repr_c_go off fs).2 ∧
  (∀ j t' o', (i < j)%nat → fs !! j = Some t' → (repr_c_go off fs).1 !! j = Some o' →
    o + cty_size t ≤ o').
Proof.
  revert off i t o. induction fs as [|t0 fs IH]; intros off i t o Hoff Ht Ho; [done|].
  cbn [repr_c_go] in *.
  pose proof (align_up_spec off (cty_size t0) (cty_size_pos t0)) as [Ha Hd].
  pose proof (cty_size_pos t0) as Hp. set (off' := align_up off (cty_size t0) + cty_size t0) in *.
  pose proof (repr_c_go_mono off' fs ltac:(lia)) as Hm.
  pose proof (IH off') as IH'. destruct (repr_c_go off' fs) as [os e]. simpl in *.
  destruct i as [|i]; simpl in *.
  - simplify_eq. split_and!; [done|lia|lia|].
    intros [|j] t' o' Hj Ht' Ho'; [lia|]. simpl in *.
    destruct (IH' j t' o' ltac:(lia) Ht' Ho') as (_ & ? & _). lia.
  - destruct (IH' i t o ltac:(lia) Ht Ho) as (? & ? & ? & Hl). split_and!; [done|lia|done|].
    intros [|j] t' o' Hj Ht' Ho'; [lia|]. simpl in *. eapply Hl; [|done..]. lia.
Qed.

Lemma repr_c_align_div fs t : t ∈ fs → (cty_size t | repr_c_align fs).
Proof.
  assert (∀ a b : Z, (a = 1 ∨ a = 4 ∨ a = 8) → (b = 1 ∨ b = 4 ∨ b = 8) →
    (a | Z.max a b) ∧ (b | Z.max a b) ∧ (Z.max a b = 1 ∨ Z.max a b = 4 ∨ Z.max a b = 8)) as Hmax.
  { intros a b [->|[->| ->]] [->|[->| ->]]; split_and!;
      try (apply (Z.mod_divide _ _); [lia|reflexivity]); lia. }
  assert (∀ t, cty_size t = 1 ∨ cty_size t = 4 ∨ cty_size t = 8) as Hs by (intros []; simpl; lia).
  assert (∀ fs, repr_c_align fs = 1 ∨ repr_c_align fs = 4 ∨ repr_c_align fs = 8) as Ha.
  { clear fs t. induction fs as [|t fs IH]; [by left|]. simpl.
    destruct (Hmax _ _ (Hs t) IH) as (_ & _ & ?). done. }
  induction 1 as [t fs|t t' fs H IH]; simpl.
  - by apply (Hmax (cty_size t) (repr_c_align fs) (Hs t) (Ha fs)).
  - etrans; [done|]. by apply (Hmax (cty_size t') (repr_c_align fs) (Hs t') (Ha fs)).
Qed.

(** ** The structs of ffi.rs *)
Definition c_char_ptr := CPtr.
Definition HeaderRaw : list cty := [CPtr; CInt; CPtr; CInt].
Definition BrokerInfoRaw : list cty := [CPtr; CInt; CPtr; CInt; CPtr; CInt; CPtr; CInt].
Definition PartitionBandwidthRaw : list cty :=
  [CI64; CI64; CI64; CI64; CI64; CI64; CI32; CPtr; CInt; CPtr; CInt].

(** [FFI contract version the crate is built for.] *)
Definition LLINGR_ABI_VERSION : Z := 1.

(** Element [i] of a C array of structs. *)
Definition array_elem (fs : list cty) (p : Z) (i : nat) : Z := p + Z.of_nat i * repr_c_size fs.
Fixpoint read_array (m : mem) (p : Z) (fs : list cty) (n : nat) : option (list (list Z)) :=
  match n with
  | O => Some []
  | S n =>
    x ← read_struct m p fs;
    xs ← read_array m (p + repr_c_size fs) fs n;
    Some (x :: xs)
  end.
(** [p] is a multiple of the alignment [a]. *)
Definition aligned (p a : Z) : bool := p mod a =? 0.
Definition elems_written (m : mem) (p : Z) (fs : list cty) (vss : list (list Z)) : Prop :=
  ∀ i vs, vss !! i = Some vs → struct_at m (array_elem fs p i) fs vs.
(** A C array of structs: aligned, one struct after another. *)
Definition array_at (m : mem) (p : Z) (fs : list cty) (vss : list (list Z)) : Prop :=
  aligned p (repr_c_align fs) = true ∧ elems_written m p fs vss.

Lemma read_array_at m p fs vss : elems_written m p fs vss → read_array m p fs (length vss) = Some vss.
Proof.
  revert p. induction vss as [|vs vss IH]; intros p H; [done|]. simpl.
  pose proof (H 0%nat vs eq_refl) as H0. unfold array_elem in H0.
  replace (p + Z.of_nat 0 * repr_c_size fs) with p in H0 by lia.
  rewrite (read_struct_at _ _ _ _ H0). simpl. rewrite IH; [done|].
  intros i vs' Hi. specialize (H (S i) vs' Hi). unfold array_elem in *.
  by replace (p + repr_c_size fs + Z.of_nat i * repr_c_size fs)
    with (p + Z.of_nat (S i) * repr_c_size fs) by lia.
Qed.

(** Executable checks of [struct_at] and [array_at], for concrete memories. *)
#[export] Instance cty_in_dec t z : Decision (cty_in t z).
Proof. unfold cty_in. destruct t; apply _. Defined.

Fixpoint fields_check (m : mem) (p : Z) (fs : list cty) (os vs : list Z) : bool :=
  match fs, os, vs with
  | t :: fs, o :: os, v :: vs =>
    bool_decide (cty_in t v) &&
    bool_decide (load_bytes m (p + o) (Z.to_nat (cty_size t)) = Some (c_put t v)) &&
    fields_check m p fs os vs
  | [], [], [] => true
  | _, _, _ => false
  end.

Lemma fields_check_sound m p fs os vs :
  fields_check m p fs os vs = true →
  length vs = length fs ∧
  ∀ i t o v, fs !! i = Some t → os !! i = Some o → vs !! i = Some v →
    cty_in t v ∧ load_bytes m (p + o) (Z.to_nat (cty_size t)) = Some (c_put t v).
Proof.
  revert os vs. induction fs as [|t fs IH]; intros [|o os] [|v vs] H; simpl in H; try done.
  apply andb_true_iff in H as [[Hin%bool_decide_eq_true Hl%bool_decide_eq_true]%andb_true_iff H].
  destruct (IH _ _ H) as [Hlen Hf]. split; [simpl; by rewrite Hlen|].
  intros [|i] t' o' v' Ht Ho Hv; [by simplify_eq/=|]. by apply (Hf i).
Qed.

Fixpoint elems_check (m : mem) (p : Z) (fs : list cty) (vss : list (list Z)) : bool :=
  match vss with
  | [] => true
  | vs :: vss =>
    fields_check m p fs (repr_c_offsets fs) vs && elems_check m (p + repr_c_size fs) fs vss
  end.
Definition array_check (m : mem) (p : Z) (fs : list cty) (vss : list (list Z)) : bool :=
  aligned p (repr_c_align fs) && elems_check m p fs vss.

Lemma elems_check_sound m p fs vss : elems_check m p fs vss = true → elems_written m p fs vss.
Proof.
  revert p. induction vss as [|vs vss IH]; intros p H; [by intros [|]|].
  simpl in H. apply andb_true_iff in H as [H1%fields_check_sound H2%IH].
  intros [|i] vs' Hi; simpl in Hi; unfold array_elem in *.
  - simplify_eq. by replace (p + Z.of_nat 0 * repr_c_size fs) with p by lia.
  - specialize (H2 i vs' Hi). unfold array_elem in H2.
    by replace (p + Z.of_nat (S i) * repr_c_size fs)
      with (p + repr_c_size fs + Z.of_nat i * repr_c_size fs) by lia.
Qed.

Lemma array_check_sound m p fs vss : array_check m p fs vss = true → array_at m p fs vss.
Proof. intros [? ?%elems_check_sound]%andb_true_iff. done. Qed.

(** The memory that holds the given byte blocks. *)
Fixpoint block_mem (p : Z) (s : string) : mem :=
  match s with "" => ∅ | String b s => <[p := b]> (block_mem (p + 1) s) end.
Definition blocks_mem (l : list (Z * string)) : mem :=
  foldr (λ b m, block_mem b.1 b.2 ∪ m) ∅ l.

(** ** The layout assertions of src/abi-check/src/lib.rs *)
Definition assert_layout (ours theirs : list cty) : bool :=
  bool_decide (repr_c_size ours = repr_c_size theirs) &&
  bool_decide (repr_c_align ours = repr_c_align theirs) &&
  bool_decide (repr_c_offsets ours = repr_c_offsets theirs).

(** The structs of the C preamble of bridge/main.go. *)
Definition llingr_header : list cty := [CPtr; CInt; CPtr; CInt].
Definition llingr_broker_info : list cty := [CPtr; CInt; CPtr; CInt; CPtr; CInt; CPtr; CInt].
Definition llingr_partition_bandwidth : list cty :=
  [CI64; CI64; CI64; CI64; CI64; CI64; CI32; CPtr; CInt; CPtr; CInt].

Definition layout_asserts : bool :=
  assert_layout HeaderRaw llingr_header &&
  assert_layout BrokerInfoRaw llingr_broker_info &&
  assert_layout PartitionBandwidthRaw llingr_partition_bandwidth.

(** ** Properties *)

(** [repr(C)] layout is sound for every struct: each field lies at an offset that its
    alignment divides, inside the struct, fields do not overlap and keep their order, and
    the size is a multiple of every field's alignment, so the elements of an array are
    aligned too. *)
Theorem repr_c_layout_sound fs i t o :
  fs !! i = Some t → repr_c_offsets fs !! i = Some o →
  (cty_size t | o) ∧ 0 ≤ o ∧ o + cty_size t ≤ repr_c_size fs ∧ (cty_size t | repr_c_size fs) ∧
  (∀ j t' o', (i < j)%nat → fs !! j = Some t' → repr_c_offsets fs !! j = Some o' →
    o + cty_size t ≤ o').
Proof.
  intros Ht Ho. destruct (repr_c_go_fields 0 fs i t o ltac:(lia) Ht Ho) as (? & ? & ? & ?).
  assert (cty_size t | repr_c_align fs) as Hd by eauto using repr_c_align_div, list_elem_of_lookup_2.
  assert (0 < repr_c_align fs).
  { clear. induction fs; simpl; lia. }
  pose proof (align_up_spec (repr_c_go 0 fs).2 (repr_c_align fs) ltac:(done)) as [? Hs].
  fold (repr_c_size fs) in Hs. split_and!; [done|done|unfold repr_c_size; lia|by etrans|done].
Qed.
Lemma repr_c_layout_sound_witness :
  HeaderRaw !! 2%nat = Some CPtr ∧ repr_c_offsets HeaderRaw !! 2%nat = Some 16 ∧ (8 | 16).
Proof.
  split_and!; [reflexivity|reflexivity|].
  apply (repr_c_layout_sound HeaderRaw 2%nat CPtr 16); reflexivity.
Defined.

(** The [repr(C)] structs have exactly the offsets, sizes and alignments that the unit
    tests of ffi.rs pin, they pass the layout assertions of abi-check against the structs
    of bridge/main.go, and the contract version is 1. *)
Theorem repr_c_layouts_match_the_bridge :
  repr_c_offsets HeaderRaw = [0; 8; 16; 24] ∧ repr_c_size HeaderRaw = 32 ∧
  repr_c_align HeaderRaw = 8 ∧
  repr_c_offsets BrokerInfoRaw = [0; 8; 16; 24; 32; 40; 48; 56] ∧ repr_c_size BrokerInfoRaw = 64 ∧
  repr_c_offsets PartitionBandwidthRaw = [0; 8; 16; 24; 32; 40; 48; 56; 64; 72; 80] ∧
  repr_c_size PartitionBandwidthRaw = 88 ∧
  layout_asserts = true ∧ LLINGR_ABI_VERSION = 1.
Proof. repeat split; reflexivity. Qed.

(** The layout assertions do not pin field types: widening the trailing [value_len] of
    the C header to 64 bits passes [assert_layout], yet a C writer's value is then not the
    value the Rust struct reads. *)
Theorem assert_layout_misses_widths :
  ∃ theirs m p vs,
    theirs ≠ HeaderRaw ∧ assert_layout HeaderRaw theirs = true ∧
    struct_at m p theirs vs ∧ (∃ vs', read_struct m p HeaderRaw = Some vs' ∧ vs' ≠ vs).
Proof.
  set (img := c_put CPtr 0 +:+ c_put CI64 0 +:+ c_put CPtr 0 +:+ c_put CI64 (2 ^ 32)).
  set (m := (list_to_map (imap (λ i b, (Z.of_nat i, b)) (String.list_ascii_of_string img)) : mem)).
  exists [CPtr; CInt; CPtr; CI64], m, 0, [0; 0; 0; 2 ^ 32].
  split_and!; [done|by vm_compute| |].
  - split; [done|]. intros [|[|[|[|i]]]] t o v; intros [= <-] [= <-] [= <-];
      split; try (by vm_compute); unfold cty_in, in_s, in_u; simpl; lia.
  - exists [0; 0; 0; 0]. split; [by vm_compute|done].
Qed.
