(* ===== verification/Abi.v ===== *)
(** * The C contract, both copies: src/src/ffi.rs and the preamble of src/bridge/main.go

    The callback types and the exported functions as each side declares them, and the
    compile-time checks of src/abi-check/src/lib.rs that compare the two: the coercion of
    each callback type, the layout assertions (Ffi.v) and the signature checks of the
    exports with the two const-normalising shims. The theorem says what the checks buy: the
    arguments one side passes are the arguments the other receives. *)
From Stdlib Require Import ZArith NArith Ascii.
From Stdlib Require String.
From stdpp Require Import base tactics option list strings.
From S2P Require Import Prelude Text Ffi.

(** ** Types and signatures *)
Inductive Struct := SHeader | SBrokerInfo | SPartitionBandwidth.
Inductive AbiTy :=
  | TChar | TI8 | TInt | TI32 | TI64
  | TStruct (s : Struct)
  | TPtr (is_const : bool) (pointee : AbiTy).
#[export] Instance Struct_eq_dec : EqDecision Struct.
Proof. solve_decision. Defined.
#[export] Instance AbiTy_eq_dec : EqDecision AbiTy.
Proof. solve_decision. Defined.

Record Sig := mkSig { sig_params : list (string * AbiTy); sig_ret : option AbiTy }.

Notation const_ptr := (TPtr true).
Notation mut_ptr := (TPtr false).

Definition MetricsFn : Sig := mkSig
  [("traits", TI64); ("queue_depth", TInt); ("partition", TInt); ("offset", TI64);
   ("process_duration_ns", TI64); ("deadletter_duration_ns", TI64); ("read_time_ns", TI64);
   ("process_start_time_ns", TI64); ("watermark_advance_time_ns", TI64)] None.


Definition llingr_metrics_fn : Sig := mkSig
  [("traits", TI64); ("queue_depth", TInt); ("partition", TInt); ("offset", TI64);
   ("process_duration_ns", TI64); ("deadletter_duration_ns", TI64);
   ("read_time_ns", TI64); ("process_start_time_ns", TI64);
   ("watermark_advance_time_ns", TI64)] None.



(** ** src/abi-check/src/lib.rs: the checks *)
(** Two function types unify exactly when their parameter types and result are the same;
    names are no part of a function type. *)
Definition sig_types (s : Sig) : list AbiTy * option AbiTy := (map snd (sig_params s), sig_ret s).
Definition same_fn_type (ours theirs : Sig) : bool := bool_decide (sig_types ours = sig_types theirs).






















(** The check does see a drift: one parameter narrowed, dropped or moved across another type
    is refused; but two parameters of one type exchanged are not, which is why the lock of
    src/abi-check/build.rs fingerprints the names too (AbiCheck.v). *)
Example narrowed_offset_is_refused :
  same_fn_type MetricsFn (mkSig (<[3%nat := ("offset", TInt)]> (sig_params llingr_metrics_fn)) None) = false.
Proof. by vm_compute. Qed.
Example exchanged_counters_are_not :
  same_fn_type MetricsFn (mkSig (<[1%nat := ("partition", TInt)]> (<[2%nat := ("queue_depth", TInt)]>
    (sig_params llingr_metrics_fn))) None) = true.
Proof. by vm_compute. Qed.

