(* ===== verification/Effects.v ===== *)
(** * Panics, unwinding and user handlers

    The effects a callback runs with: a state monad over a [World] (memory, the published
    handler set, stderr, and the state [US] of the application's own handlers) whose
    outcomes are a value, a panic that is unwinding, an abort of the process, and undefined
    behaviour. User code is a function from [US] to [US] and a result; it may panic, and the
    payload of its panic may panic again when it is dropped. *)
From Stdlib Require Import ZArith NArith.
From stdpp Require Import base tactics option list gmap strings.
From S2P Require Import Prelude Nexus Ffi.

(** ** User code *)
Section user_code.
Context {US : Type}.

(** [Box<dyn Any + Send>]: what matters of a payload is what its [Drop] does. *)
Inductive Payload := mkPayload (drop : US → US * option Payload).
Definition Payload_drop (p : Payload) : US → US * option Payload := match p with mkPayload d => d end.

(** A call into user code returns or panics. *)
Inductive UserRes (A : Type) := UDone (a : A) | UPanic (p : Payload).
Definition UserCall (A : Type) : Type := US → US * UserRes A.

(** The handlers' boxed error: its [Display] and its [Drop] are user code too. *)
Record UserError := mkUserError {
  err_to_string : UserCall string;
  err_drop : UserCall unit;
}.
End user_code.
Arguments Payload : clear implicits.
Arguments UserRes : clear implicits.
Arguments UserCall : clear implicits.
Arguments UserError : clear implicits.
Arguments UDone {US A} a.
Arguments UPanic {US A} p.

(** The handler set of src/src/engine.rs, one field per callback ([_prometheus_exporter]
    is never read by a callback and is modelled with the engine). *)
Record Handlers {NX : Nexus} (US : Type) := mkHandlers {
  topic : string;
  process : Message → UserCall US (Traits + UserError US);
  dead_letter : option (Message → string → UserCall US (unit + UserError US));
  metrics : option (MessageMetrics → UserCall US unit);
  shutdown : option (string → UserCall US unit);
  log : option (LogLevel → string → UserCall US unit);
  bandwidth : option (BandwidthMetrics → UserCall US unit);
}.
Arguments mkHandlers {NX US}.
Arguments topic {NX US} _.
Arguments process {NX US} _.
Arguments dead_letter {NX US} _.
Arguments metrics {NX US} _.
Arguments shutdown {NX US} _.
Arguments log {NX US} _.
Arguments bandwidth {NX US} _.

(** What a callback can observe or change. [w_stderr] is [None] when stderr is closed. *)
Record World {NX : Nexus} (US : Type) := mkWorld {
  w_mem : mem;
  w_handlers : option (Handlers US);
  w_stderr : option (list string);
  w_user : US;
}.
Arguments mkWorld {NX US}.
Arguments w_mem {NX US} _.
Arguments w_handlers {NX US} _.
Arguments w_stderr {NX US} _.
Arguments w_user {NX US} _.

Section effects.
Context {NX : Nexus} {US : Type}.

Definition set_mem (m : mem) (w : World US) : World US :=
  mkWorld m (w_handlers w) (w_stderr w) (w_user w).
Definition set_user (u : US) (w : World US) : World US :=
  mkWorld (w_mem w) (w_handlers w) (w_stderr w) u.
Definition set_stderr (l : option (list string)) (w : World US) : World US :=
  mkWorld (w_mem w) (w_handlers w) l (w_user w).

(** ** The monad *)
Inductive Res (A : Type) :=
  | Ret (a : A) (w : World US)
  | Panic (p : Payload US) (w : World US)
  | Abort_ (w : World US)
  | UB.
Arguments Ret {A}.
Arguments Panic {A}.
Arguments Abort_ {A}.
Arguments UB {A}.
Definition M (A : Type) : Type := World US → Res A.

Definition ret {A} (a : A) : M A := λ w, Ret a w.
Definition mbind_ {A B} (k : A → M B) (e : M A) : M B := λ w,
  match e w with
  | Ret a w => k a w
  | Panic p w => Panic p w
  | Abort_ w => Abort_ w
  | UB => UB
  end.
Definition lift {A} (f : World US → option (A * World US)) : M A := λ w,
  match f w with Some (a, w) => Ret a w | None => UB end.

(** Calling user code. *)
Definition user {A} (c : UserCall US A) : M A := λ w,
  let '(u, r) := c (w_user w) in
  match r with
  | UDone a => Ret a (set_user u w)
  | UPanic p => Panic p (set_user u w)
  end.

(** [std::panic::catch_unwind] *)
Definition catch_unwind {A} (e : M A) : M (A + Payload US) := λ w,
  match e w with
  | Ret a w => Ret (inl a) w
  | Panic p w => Ret (inr p) w
  | Abort_ w => Abort_ w
  | UB => UB
  end.

(** A panic that reaches the frame of an [extern "C"] function aborts the process. *)
Definition extern_C {A} (e : M A) : M A := λ w,
  match e w with Panic _ w => Abort_ w | r => r end.

(** Run [e], then drop a local whose [Drop] is [d]: on the way out of a panic a second
    panic aborts. *)
Definition with_drop {A} (e : M A) (d : UserCall US unit) : M A := λ w,
  match e w with
  | Ret a w => mbind_ (λ _, ret a) (user d) w
  | Panic p w => match user d w with Ret _ w => Panic p w | Panic _ w => Abort_ w | _ => UB end
  | r => r
  end.

(** [drop(payload)] *)
Definition drop_payload (p : Payload US) : M () := λ w,
  let '(u, r) := Payload_drop p (w_user w) in
  match r with None => Ret tt (set_user u w) | Some p' => Panic p' (set_user u w) end.

(** ** Memory and the published handlers *)
Definition load (p : Z) (n : nat) : M string :=
  lift (λ w, s ← load_bytes (w_mem w) p n; Some (s, w)).
Definition store (p : Z) (s : string) : M () :=
  lift (λ w, m ← store_bytes (w_mem w) p s; Some (tt, set_mem m w)).
(** [*p = z]; like [slice::from_raw_parts] on structs it is undefined on a pointer that is
    not aligned for its type. *)
Definition store_scalar (p : Z) (t : cty) (z : Z) : M () :=
  lift (λ w,
    if aligned p (cty_size t) then m ← write_scalar (w_mem w) p t z; Some (tt, set_mem m w) else None).
Definition load_array (p : Z) (fs : list cty) (n : nat) : M (list (list Z)) :=
  lift (λ w,
    if aligned p (repr_c_align fs) then l ← read_array (w_mem w) p fs n; Some (l, w) else None).
End effects.
Arguments Ret {NX US A}.
Arguments Panic {NX US A}.
Arguments Abort_ {NX US A}.
Arguments UB {NX US A}.
Arguments Res {NX} US A.
Arguments M {NX} US A.

Declare Scope eff_scope.
Delimit Scope eff_scope with eff.
Notation "x <- e ;; k" := (mbind_ (λ x, k) e)
  (at level 100, e at next level, right associativity) : eff_scope.
Notation "e ;;; k" := (mbind_ (λ _, k) e)
  (at level 100, right associativity) : eff_scope.
#[export] Hint Unfold ret mbind_ lift : eff.

(** ** Reasoning *)
Section laws.
Context {NX : Nexus} {US : Type}.
Implicit Types w : World US.

Lemma bind_ret {A B} (k : A → M US B) e w a w' : e w = Ret a w' → mbind_ k e w = k a w'.
Proof. intros H. unfold mbind_. by rewrite H. Qed.

Lemma bind_panic {A B} (k : A → M US B) e w p w' : e w = Panic p w' → mbind_ k e w = Panic p w'.
Proof. intros H. unfold mbind_. by rewrite H. Qed.

(** Dropping a payload changes only the user's state, whatever its [Drop] does. *)
Lemma catch_drop_payload (p : Payload US) w :
  ∃ u r, catch_unwind (drop_payload p) w = Ret r (set_user u w).
Proof.
  unfold catch_unwind, drop_payload. destruct (Payload_drop p (w_user w)) as [u [p'|]]; eauto.
Qed.

Lemma user_cases {A} (c : UserCall US A) w :
  (∃ u a, c (w_user w) = (u, UDone a) ∧ user c w = Ret a (set_user u w)) ∨
  (∃ u p, c (w_user w) = (u, UPanic p) ∧ user c w = Panic p (set_user u w)).
Proof. unfold user. destruct (c (w_user w)) as [u [a|p]]; naive_solver. Qed.

Lemma load_at p n s w : load_bytes (w_mem w) p n = Some s → load p n w = Ret s w.
Proof. intros H. unfold load, lift. by rewrite H. Qed.
Lemma store_at p s m w : store_bytes (w_mem w) p s = Some m → store p s w = Ret tt (set_mem m w).
Proof. intros H. unfold store, lift. by rewrite H. Qed.
Lemma store_scalar_at p t z m w :
  aligned p (cty_size t) = true → write_scalar (w_mem w) p t z = Some m →
  store_scalar p t z w = Ret tt (set_mem m w).
Proof. intros Ha H. unfold store_scalar, lift. by rewrite Ha, H. Qed.
Lemma load_array_at p fs l w :
  array_at (w_mem w) p fs l → load_array p fs (length l) w = Ret l w.
Proof. intros [Ha H%read_array_at]. unfold load_array, lift. by rewrite Ha, H. Qed.

Lemma set_user_user u v w : set_user u (set_user v w) = set_user u w.
Proof. done. Qed.
Lemma set_user_id w : set_user (w_user w) w = w.
Proof. by destruct w. Qed.
End laws.
