(* ===== verification/Trampolines.v ===== *)
(** * The callback trampolines: src/src/trampolines.rs

    Every [extern "C"] function the Go bridge calls, as an effectful program of Effects.v:
    the pointers are addresses, reading through them loads bytes of the world's memory, the
    handlers are arbitrary user code. [CallScope] is a zero-sized lifetime token and has no
    run-time content. The unsafe contract of each function is a predicate on memory
    ([message_at], [bytes_at], [array_at], [out_ok]). *)
From Stdlib Require Import ZArith NArith Ascii.
From Stdlib Require String.
From stdpp Require Import base tactics option list gmap strings.
From S2P Require Import Prelude Text Nexus Ffi Effects.
#[local] Open Scope Z_scope.
#[local] Open Scope eff_scope.

(** The record arguments that the process and dead-letter callbacks share. *)
Record RecordArgs := mkRecordArgs {
  a_key : Z; a_key_len : Z; a_value : Z; a_value_len : Z;
  a_partition : Z; a_offset : Z; a_ts_kind : Z; a_ts_millis : Z;
  a_headers : Z; a_header_count : Z;
}.
(** The out-parameters of the process callback. *)
Record OutArgs := mkOutArgs { traits_out : Z; err_buf : Z; err_cap : Z; err_len_out : Z }.

(** [decode_timestamp] *)
Definition decode_timestamp (kind millis : Z) : Timestamp :=
  match kind with 1 => CreateTime millis | 2 => LogAppendTime millis | _ => NotAvailable end.

(** The loop [while n > 0 && !s.is_char_boundary(n) { n -= 1; }] *)
Fixpoint boundary_down (s : string) (n : nat) : nat :=
  match n with
  | O => O
  | S n' => if is_char_boundary s n then n else boundary_down s n'
  end.

Section trampolines.
Context {NX : Nexus} {US : Type}.
Notation M := (M US).

Definition write_c_err (buf cap len_out : Z) (s : string) : M () :=
  if (buf =? 0) || (len_out =? 0) || (cap <=? 0) then ret tt
  else
    let n := boundary_down s (Nat.min (String.length s) (Z.to_nat cap)) in
    store buf (str_take n s);;;
    store_scalar len_out CInt (wrap_s 32 (Z.of_nat n)).

(** [report]: a failed write is discarded. *)
Definition report (msg : string) : M () := λ w,
  Ret tt (set_stderr ((λ l, l ++ [msg]) <$> w_stderr w) w).

(** [drop_panic_payload]: a second payload is leaked. *)
Definition drop_panic_payload (payload : Payload US) : M () :=
  r <- catch_unwind (drop_payload payload);;
  match r with inl tt => ret tt | inr nested => ret tt end.

(** [handlers()] *)
Definition handlers : M (option (Handlers US)) := λ w, Ret (w_handlers w) w.

Definition borrow_bytes (ptr len : Z) : M string :=
  if (ptr =? 0) || (len <=? 0) then ret "" else load ptr (Z.to_nat len).

(** A value slot: a negative length is a null value. *)
Definition borrow_value (ptr len : Z) : M (option string) :=
  if len <? 0 then ret None else v <- borrow_bytes ptr len;; ret (Some v).

Fixpoint map_M {A B} (f : A → M B) (l : list A) : M (list B) :=
  match l with
  | [] => ret []
  | x :: l => y <- f x;; ys <- map_M f l;; ret (y :: ys)
  end.

Definition borrow_header (raw : list Z) : M Header :=
  match raw with
  | [key; key_len; value; value_len] =>
    k <- borrow_bytes key key_len;;
    v <- borrow_value value value_len;;
    ret (mkHeader (default "" (from_utf8 k)) v)
  | _ => λ _, UB
  end.

Definition borrow_headers (headers count : Z) : M (list Header) :=
  if (headers =? 0) || (count <=? 0) then ret []
  else
    raws <- load_array headers HeaderRaw (Z.to_nat count);;
    map_M borrow_header raws.

(** The message a callback builds from its arguments. *)
Definition borrow_message (a : RecordArgs) (topic : string) : M Message :=
  header_views <- borrow_headers (a_headers a) (a_header_count a);;
  key <- borrow_bytes (a_key a) (a_key_len a);;
  value <- borrow_value (a_value a) (a_value_len a);;
  ret (mkMessage (Some key) value topic (wrap_s 32 (a_partition a)) (a_offset a)
         (decode_timestamp (a_ts_kind a) (a_ts_millis a)) header_views).

(** The closure of [process_trampoline]: return code, traits, error text. *)
Definition process_body (a : RecordArgs) : M (Z * Z * option string) :=
  h <- handlers;;
  match h with
  | None => ret (-1, 0, None)
  | Some h =>
    msg <- borrow_message a (topic h);;
    r <- user (process h msg);;
    match r with
    | inl traits => ret (0, Traits_raw traits, None)
    | inr e => with_drop (text <- user (err_to_string e);; ret (1, 0, Some text)) (err_drop e)
    end
  end.

Definition process_trampoline (a : RecordArgs) (o : OutArgs) : M Z :=
  extern_C (
    (if err_len_out o =? 0 then ret tt else store_scalar (err_len_out o) CInt 0);;;
    result <- catch_unwind (process_body a);;
    match result with
    | inl (rc, traits, err_text) =>
      (if (rc =? 0) && negb (traits_out o =? 0)
       then store_scalar (traits_out o) CI64 (wrap_s 64 traits) else ret tt);;;
      match err_text with
      | Some text => write_c_err (err_buf o) (err_cap o) (err_len_out o) text
      | None => ret tt
      end;;;
      ret rc
    | inr payload =>
      drop_panic_payload payload;;;
      report "llingr: panic in process callback (caught at FFI boundary)";;;
      write_c_err (err_buf o) (err_cap o) (err_len_out o) "panic in process callback";;;
      ret 1
    end).

Definition deadletter_body (a : RecordArgs) (error_msg error_len : Z) : M Z :=
  h <- handlers;;
  match h with
  | None => ret (-1)
  | Some h =>
    error_bytes <- borrow_bytes error_msg error_len;;
    let error_str := from_utf8_lossy error_bytes in
    msg <- borrow_message a (topic h);;
    result <- match dead_letter h with
              | Some dl => user (dl msg error_str)
              | None => ret (inl tt)
              end;;
    match result with
    | inl tt => ret 0
    | inr e => with_drop (ret 1) (err_drop e)
    end
  end.

Definition deadletter_trampoline (a : RecordArgs) (error_msg error_len : Z) : M Z :=
  extern_C (
    result <- catch_unwind (deadletter_body a error_msg error_len);;
    match result with
    | inl rc => ret rc
    | inr payload =>
      drop_panic_payload payload;;;
      report "llingr: panic in dead letter callback (caught at FFI boundary)";;;
      ret 1
    end).

(** [if let Err(payload) = catch_unwind(..) { drop_panic_payload(payload); }], the shape
    of the callbacks without a result. *)
Definition contained (body : M ()) : M () :=
  r <- catch_unwind body;;
  match r with inl tt => ret tt | inr payload => drop_panic_payload payload end.

(** Calling an optional handler of the published set. *)
Definition with_handler {H} (field : Handlers US → option H) (call : H → UserCall US ()) : M () :=
  h <- handlers;;
  match h with
  | Some h => match field h with Some f => user (call f) | None => ret tt end
  | None => ret tt
  end.

Definition metrics_trampoline (traits queue_depth partition offset process_duration_ns
    deadletter_duration_ns read_time_ns process_start_time_ns watermark_advance_time_ns : Z) : M () :=
  extern_C (contained (
    let metrics_ := mkMetrics (Traits_from_raw (wrap_u 64 traits)) (wrap_s 32 queue_depth)
      (wrap_s 32 partition) offset process_duration_ns deadletter_duration_ns read_time_ns
      process_start_time_ns watermark_advance_time_ns in
    with_handler metrics (λ mh, mh metrics_))).

Definition shutdown_trampoline (reason reason_len : Z) : M () :=
  extern_C (contained (
    reason_str <-
      (if (reason =? 0) || (reason_len <=? 0) then ret "unknown"
       else b <- borrow_bytes reason reason_len;; ret (from_utf8_lossy b));;
    with_handler shutdown (λ sh, sh reason_str))).

Definition owned_str (ptr len : Z) : M string :=
  b <- borrow_bytes ptr len;; ret (from_utf8_lossy b).

Definition owned_broker (raw : list Z) : M BrokerInfo :=
  match raw with
  | [id; id_len; host; host_len; port; port_len; rack; rack_len] =>
    id <- owned_str id id_len;;
    host <- owned_str host host_len;;
    port <- owned_str port port_len;;
    rack <- owned_str rack rack_len;;
    ret (mkBrokerInfo id host port rack)
  | _ => λ _, UB
  end.

Definition owned_partition (raw : list Z) : M PartitionBandwidth :=
  match raw with
  | [ts; received; transmitted; count; compressed; uncompressed; id;
     leader; leader_len; compression; compression_len] =>
    leader <- owned_str leader leader_len;;
    compression <- owned_str compression compression_len;;
    ret (mkPartitionBandwidth ts received transmitted count compressed uncompressed id
           leader compression)
  | _ => λ _, UB
  end.

Definition owned_array {A} (fs : list cty) (f : list Z → M A) (ptr count : Z) : M (list A) :=
  if (ptr =? 0) || (count <=? 0) then ret []
  else raws <- load_array ptr fs (Z.to_nat count);; map_M f raws.

Definition bandwidth_trampoline (ts_unix_ns stats_interval_ms metrics_id metrics_id_len
    topic_ topic_len group group_len brokers broker_count partitions partition_count : Z) : M () :=
  extern_C (
    brokers <- owned_array BrokerInfoRaw owned_broker brokers broker_count;;
    partitions <- owned_array PartitionBandwidthRaw owned_partition partitions partition_count;;
    metrics_id <- owned_str metrics_id metrics_id_len;;
    topic_ <- owned_str topic_ topic_len;;
    group <- owned_str group group_len;;
    let packet := mkBandwidthMetrics ts_unix_ns stats_interval_ms metrics_id topic_ group
      brokers partitions in
    contained (with_handler bandwidth (λ bh, bh packet))).

Definition log_trampoline (level msg msg_len : Z) : M () :=
  extern_C (contained (
    b <- borrow_bytes msg msg_len;;
    let text := from_utf8_lossy b in
    with_handler log (λ lh, lh (LogLevel_from_raw level) text))).
End trampolines.
