(* ===== verification/TrampolinesProps.v ===== *)
(** * The contracts of the callback trampolines

    The unsafe contracts the Go bridge must keep, as predicates on memory; what each
    trampoline does under them, for every handler set. *)
From Stdlib Require Import ZArith NArith Ascii.
From Stdlib Require String.
From stdpp Require Import base tactics option list gmap strings.
From S2P Require Import Prelude Text Nexus Ffi Effects Trampolines.
#[local] Open Scope Z_scope.

(** ** What the bridge leaves in memory *)
Definition bytes_at (m : mem) (ptr len : Z) (s : string) : Prop :=
  if (ptr =? 0) || (len <=? 0) then s = "" else load_bytes m ptr (Z.to_nat len) = Some s.

Definition value_at (m : mem) (ptr len : Z) (v : option string) : Prop :=
  if len <? 0 then v = None else ∃ s, v = Some s ∧ bytes_at m ptr len s.

Definition header_at (m : mem) (raw : list Z) (h : Header) : Prop :=
  match raw with
  | [key; key_len; value; value_len] =>
    ∃ k, bytes_at m key key_len k ∧ h_key h = default "" (from_utf8 k) ∧
         value_at m value value_len (h_value h)
  | _ => False
  end.

(** A C array of structs whose elements represent the values [xs]. *)
Definition elems_at {A} (fs : list cty) (R : mem → list Z → A → Prop)
    (m : mem) (ptr count : Z) (xs : list A) : Prop :=
  if (ptr =? 0) || (count <=? 0) then xs = []
  else ∃ raws, length raws = Z.to_nat count ∧ array_at m ptr fs raws ∧ Forall2 (R m) raws xs.

Definition message_at (m : mem) (a : RecordArgs) (topic : string) (msg : Message) : Prop :=
  ∃ hs key value,
    elems_at HeaderRaw header_at m (a_headers a) (a_header_count a) hs ∧
    bytes_at m (a_key a) (a_key_len a) key ∧
    value_at m (a_value a) (a_value_len a) value ∧
    msg = mkMessage (Some key) value topic (wrap_s 32 (a_partition a)) (a_offset a)
            (decode_timestamp (a_ts_kind a) (a_ts_millis a)) hs.

(** A string argument that the trampolines decode lossily. *)
Definition text_at (m : mem) (ptr len : Z) (t : string) : Prop :=
  ∃ b, bytes_at m ptr len b ∧ t = from_utf8_lossy b.

Definition broker_at (m : mem) (raw : list Z) (b : BrokerInfo) : Prop :=
  match raw with
  | [id; id_len; host; host_len; port; port_len; rack; rack_len] =>
    text_at m id id_len (broker_id b) ∧ text_at m host host_len (broker_host b) ∧
    text_at m port port_len (broker_port b) ∧ text_at m rack rack_len (broker_rack b)
  | _ => False
  end.
Definition partition_at (m : mem) (raw : list Z) (p : PartitionBandwidth) : Prop :=
  match raw with
  | [ts; received; transmitted; count; compressed; uncompressed; id;
     leader; leader_len; compression; compression_len] =>
    pb_ts_unix_ns p = ts ∧ pb_received_bytes p = received ∧ pb_transmitted_bytes p = transmitted ∧
    pb_received_message_count p = count ∧ pb_compressed_bytes p = compressed ∧
    pb_uncompressed_bytes p = uncompressed ∧ pb_id p = id ∧
    text_at m leader leader_len (pb_leader p) ∧
    text_at m compression compression_len (pb_compression p)
  | _ => False
  end.

(** ** The out-parameters *)
Definition in_region (p len a : Z) : Prop := p ≠ 0 ∧ p ≤ a < p + len.
Definition out_region (o : OutArgs) (a : Z) : Prop :=
  in_region (traits_out o) 8 a ∨ in_region (err_len_out o) 4 a ∨
  in_region (err_buf o) (err_cap o) a.
(** Each non-null pointer is writable and aligned for its type, and the three regions are
    disjoint. *)
Record out_ok (m : mem) (o : OutArgs) : Prop := {
  out_mapped a : out_region o a → is_Some (m !! a);
  out_aligned_traits : aligned (traits_out o) (cty_size CI64) = true;
  out_aligned_len : aligned (err_len_out o) (cty_size CInt) = true;
  out_cap : in_s 32 (err_cap o);
  out_disj_tl a : in_region (traits_out o) 8 a → in_region (err_len_out o) 4 a → False;
  out_disj_tb a : in_region (traits_out o) 8 a → in_region (err_buf o) (err_cap o) a → False;
  out_disj_lb a : in_region (err_len_out o) 4 a → in_region (err_buf o) (err_cap o) a → False;
}.

(** The record lies in memory [m] outside the out-parameters. *)
Definition record_at (m : mem) (o : OutArgs) (a : RecordArgs) (topic : string) (msg : Message) : Prop :=
  ∃ m_in, m_in ⊆ m ∧ (∀ x, out_region o x → m_in !! x = None) ∧ message_at m_in a topic msg.

(** ** Memory lemmas *)
Lemma load_bytes_mono m m' p n s : m ⊆ m' → load_bytes m p n = Some s → load_bytes m' p n = Some s.
Proof.
  intros Hm H. rewrite <-H. apply load_bytes_ext. intros a Ha.
  destruct (mapped_load_bytes _ _ _ _ H a Ha) as [b Hb]. rewrite Hb. by eapply lookup_weaken.
Qed.

Lemma bytes_at_mono m m' p len s : m ⊆ m' → bytes_at m p len s → bytes_at m' p len s.
Proof. intros Hm. unfold bytes_at. case_match; eauto using load_bytes_mono. Qed.

Lemma value_at_mono m m' p len v : m ⊆ m' → value_at m p len v → value_at m' p len v.
Proof. intros Hm. unfold value_at. case_match; [done|]. naive_solver eauto using bytes_at_mono. Qed.

Lemma header_at_mono m m' raw h : m ⊆ m' → header_at m raw h → header_at m' raw h.
Proof.
  intros Hm. unfold header_at. repeat case_match; try done.
  intros (k & ? & ? & ?). exists k. eauto using bytes_at_mono, value_at_mono.
Qed.

Lemma elems_at_mono {A} fs (R : mem → list Z → A → Prop) m m' p n xs :
  (∀ raw x, R m raw x → R m' raw x) → m ⊆ m' → elems_at fs R m p n xs → elems_at fs R m' p n xs.
Proof.
  intros HR Hm. unfold elems_at. case_match; [done|].
  intros (raws & ? & [Hp Ha] & HF). exists raws. split_and!; [done| |by eapply Forall2_impl].
  split; [done|]. intros i vs Hi. destruct (Ha i vs Hi) as [? Hf]. split; [done|].
  intros j t o v Ht Ho Hv. destruct (Hf j t o v Ht Ho Hv). eauto using load_bytes_mono.
Qed.

Lemma message_at_mono m m' a t msg : m ⊆ m' → message_at m a t msg → message_at m' a t msg.
Proof.
  intros Hm (hs & key & value & ? & ? & ? & ->). exists hs, key, value.
  split_and!; eauto using bytes_at_mono, value_at_mono, elems_at_mono, header_at_mono.
Qed.

Lemma submap_same_outside (m_in m m' : mem) (R : Z → Prop) :
  m_in ⊆ m → (∀ x, R x → m_in !! x = None) → (∀ x, ¬ R x → m' !! x = m !! x) → m_in ⊆ m'.
Proof.
  intros Hm HR Hf. apply map_subseteq_spec. intros x b Hx.
  rewrite Hf; [by eapply lookup_weaken|]. intros Hr. by rewrite (HR x Hr) in Hx.
Qed.

(** A record outside the out-parameters survives writes to them. *)
Lemma record_at_stable m m' o a t msg :
  record_at m o a t msg → (∀ x, ¬ out_region o x → m' !! x = m !! x) → record_at m' o a t msg.
Proof.
  intros (m_in & ? & ? & ?) Hf. exists m_in. split_and!; [|done..]. by eapply submap_same_outside.
Qed.

(** ** Reading the arguments *)
Section reading.
Context {NX : Nexus} {US : Type}.
Implicit Types w : World US.

Lemma borrow_bytes_at p len s w : bytes_at (w_mem w) p len s → borrow_bytes p len w = Ret s w.
Proof.
  unfold bytes_at, borrow_bytes. case_match; [by intros ->|]. apply load_at.
Qed.

Lemma borrow_value_at p len v w : value_at (w_mem w) p len v → borrow_value p len w = Ret v w.
Proof.
  unfold value_at, borrow_value. case_match; [by intros ->|].
  intros (s & -> & H'). by rewrite (bind_ret _ _ _ _ _ (borrow_bytes_at _ _ _ _ H')).
Qed.

Lemma borrow_header_at raw h w : header_at (w_mem w) raw h → borrow_header raw w = Ret h w.
Proof.
  unfold header_at, borrow_header. repeat case_match; try done.
  intros (k & Hk & Hkey & Hv). destruct h as [hk hv]; simpl in *; subst hk.
  rewrite (bind_ret _ _ _ _ _ (borrow_bytes_at _ _ _ _ Hk)).
  by rewrite (bind_ret _ _ _ _ _ (borrow_value_at _ _ _ _ Hv)).
Qed.

Lemma map_M_at {A} (R : list Z → A → Prop) (f : list Z → M US A) raws xs w :
  (∀ raw x, R raw x → f raw w = Ret x w) → Forall2 R raws xs → map_M f raws w = Ret xs w.
Proof.
  intros Hf. induction 1 as [|raw x raws xs Hx HF IH]; [done|]. cbn [map_M].
  rewrite (bind_ret _ _ _ _ _ (Hf _ _ Hx)). by rewrite (bind_ret _ _ _ _ _ IH).
Qed.

Lemma owned_array_at {A} fs (R : mem → list Z → A → Prop) (f : list Z → M US A) p n xs w :
  (∀ raw x, R (w_mem w) raw x → f raw w = Ret x w) →
  elems_at fs R (w_mem w) p n xs → owned_array fs f p n w = Ret xs w.
Proof.
  intros Hf. unfold elems_at, owned_array. case_match; [by intros ->|].
  intros (raws & Hl & Ha & HF). rewrite <-Hl.
  rewrite (bind_ret _ _ _ _ _ (load_array_at _ _ _ _ Ha)).
  by apply (map_M_at (R (w_mem w))).
Qed.

Lemma borrow_headers_at p n hs w :
  elems_at HeaderRaw header_at (w_mem w) p n hs → borrow_headers p n w = Ret hs w.
Proof. apply (owned_array_at _ header_at). intros. by apply borrow_header_at. Qed.

Lemma borrow_message_at a t msg w :
  message_at (w_mem w) a t msg → borrow_message a t w = Ret msg w.
Proof.
  intros (hs & key & value & Hh & Hk & Hv & ->). unfold borrow_message.
  rewrite (bind_ret _ _ _ _ _ (borrow_headers_at _ _ _ _ Hh)).
  rewrite (bind_ret _ _ _ _ _ (borrow_bytes_at _ _ _ _ Hk)).
  by rewrite (bind_ret _ _ _ _ _ (borrow_value_at _ _ _ _ Hv)).
Qed.

Lemma owned_str_at p len t w : text_at (w_mem w) p len t → owned_str p len w = Ret t w.
Proof.
  intros (b & Hb & ->). unfold owned_str. by rewrite (bind_ret _ _ _ _ _ (borrow_bytes_at _ _ _ _ Hb)).
Qed.

Lemma owned_broker_at raw b w : broker_at (w_mem w) raw b → owned_broker raw w = Ret b w.
Proof.
  unfold broker_at, owned_broker. repeat case_match; try done.
  intros (Hx1 & Hx2 & Hx3 & Hx4). destruct b; simpl in *.
  by do 4 (erewrite bind_ret by (by apply owned_str_at)).
Qed.

Lemma owned_partition_at raw p w : partition_at (w_mem w) raw p → owned_partition raw w = Ret p w.
Proof.
  unfold partition_at, owned_partition. repeat case_match; try done.
  intros (? & ? & ? & ? & ? & ? & ? & Hx1 & Hx2). destruct p; simpl in *; subst.
  by do 2 (erewrite bind_ret by (by apply owned_str_at)).
Qed.
End reading.

(** ** The error text *)
(** [n] is the longest prefix length of [s] that fits [cap] and ends at a char boundary. *)
Definition longest_boundary (s : string) (cap : Z) (n : nat) : Prop :=
  (n ≤ String.length s)%nat ∧ Z.of_nat n ≤ Z.max 0 cap ∧ is_char_boundary s n = true ∧
  ∀ j, (j ≤ String.length s)%nat → Z.of_nat j ≤ cap → is_char_boundary s j = true → (j ≤ n)%nat.

Lemma boundary_down_spec s k :
  (boundary_down s k ≤ k)%nat ∧ is_char_boundary s (boundary_down s k) = true ∧
  ∀ j, (j ≤ k)%nat → is_char_boundary s j = true → (j ≤ boundary_down s k)%nat.
Proof.
  induction k as [|k (IH1 & IH2 & IH3)]; [split_and!; [done|done|lia]|].
  cbn [boundary_down]. destruct (is_char_boundary s (S k)) eqn:E; [split_and!; [done|done|lia]|].
  split_and!; [lia|done|]. intros j Hj Hb. destruct (decide (j = S k)) as [->|]; [by rewrite E in Hb|].
  apply IH3; [lia|done].
Qed.

Lemma boundary_down_longest s cap :
  0 < cap → longest_boundary s cap (boundary_down s (Nat.min (String.length s) (Z.to_nat cap))).
Proof.
  intros Hc. destruct (boundary_down_spec s (Nat.min (String.length s) (Z.to_nat cap))) as (? & ? & Hl).
  split_and!; [lia|lia|done|]. intros j ? ? ?. apply Hl; [lia|done].
Qed.

(** What the bridge finds after a failure with the text [s], [n] bytes of it in the
    buffer. *)
Definition err_reported (m : mem) (o : OutArgs) (s : string) (n : nat) : Prop :=
  if bool_decide (err_len_out o = 0) then n = 0%nat
  else
    read_scalar m (err_len_out o) CInt = Some (Z.of_nat n) ∧
    if bool_decide (err_buf o = 0) || bool_decide (err_cap o ≤ 0) then n = 0%nat
    else longest_boundary s (err_cap o) n ∧ load_bytes m (err_buf o) n = Some (str_take n s).
(** Memory changed at most in the length slot and the [n] bytes of text. *)
Definition err_frame (m m' : mem) (o : OutArgs) (n : nat) : Prop :=
  ∀ x, ¬ in_region (err_len_out o) 4 x → ¬ in_region (err_buf o) (Z.of_nat n) x → m' !! x = m !! x.

Lemma out_ok_stable m m' o :
  out_ok m o → (∀ x, is_Some (m !! x) → is_Some (m' !! x)) → out_ok m' o.
Proof. intros [] Hd. split; eauto. Qed.

Lemma store_bytes_keeps m p s m' x :
  store_bytes m p s = Some m' → is_Some (m !! x) → is_Some (m' !! x).
Proof. intros H. by rewrite (store_bytes_dom _ _ _ _ x H). Qed.

(** A scalar store into a mapped region. *)
Lemma write_scalar_at m p t z :
  mapped m p (cty_size t) →
  ∃ m', write_scalar m p t z = Some m' ∧ (∀ x, is_Some (m !! x) → is_Some (m' !! x)) ∧
    same_outside p (cty_size t) m m' ∧ (cty_in t z → read_scalar m' p t = Some z).
Proof.
  intros Hm. unfold write_scalar.
  assert (Z.of_nat (String.length (c_put t z)) = cty_size t) as Hl.
  { rewrite c_put_length. pose proof (cty_size_pos t). lia. }
  destruct (store_bytes_mapped m p (c_put t z)) as [m' Hs]; [by rewrite Hl|].
  exists m'. split_and!; [done|intros x; by apply store_bytes_keeps with (s := c_put t z) (p := p)| |].
  - rewrite <-Hl. by eapply store_bytes_frame.
  - intros Hin. by eapply read_write_scalar.
Qed.

Lemma read_scalar_ext m m' p t :
  (∀ x, p ≤ x < p + cty_size t → m' !! x = m !! x) → read_scalar m' p t = read_scalar m p t.
Proof.
  intros H. unfold read_scalar. rewrite (load_bytes_ext m m'); [done|].
  intros a Ha. apply H. pose proof (cty_size_pos t). lia.
Qed.

Lemma err_reported_cap m o s n : err_reported m o s n → Z.of_nat n ≤ Z.max 0 (err_cap o).
Proof.
  unfold err_reported. case_bool_decide; [intros ->; lia|]. intros [_ He].
  case_match; [subst n; lia|]. by destruct He as [(_ & ? & _) _].
Qed.

Section writing.
Context {NX : Nexus} {US : Type}.
Implicit Types w : World US.

(** The first statement of [process_trampoline]. *)
Lemma zero_err_len o w :
  out_ok (w_mem w) o →
  ∃ m', (if err_len_out o =? 0 then ret tt else store_scalar (err_len_out o) CInt 0) w =
          Ret tt (set_mem m' w) ∧ out_ok m' o ∧
        (∀ x, ¬ in_region (err_len_out o) 4 x → m' !! x = w_mem w !! x) ∧
        (err_len_out o ≠ 0 → read_scalar m' (err_len_out o) CInt = Some 0).
Proof.
  intros Ho. destruct (err_len_out o =? 0) eqn:E.
  - apply Z.eqb_eq in E. exists (w_mem w). split_and!; [by destruct w|done|done|done].
  - apply Z.eqb_neq in E. destruct (write_scalar_at (w_mem w) (err_len_out o) CInt 0)
      as (m' & Hw & Hd & Hf & Hr).
    { intros x Hx. apply (out_mapped _ _ Ho). right; left. done. }
    exists m'. split_and!; [by apply store_scalar_at; [apply Ho|]|by eapply out_ok_stable| |].
    + intros x Hx. apply Hf. intros ?. by apply Hx.
    + intros _. apply Hr. by vm_compute.
Qed.

Lemma write_c_err_at o s w :
  out_ok (w_mem w) o → (err_len_out o ≠ 0 → read_scalar (w_mem w) (err_len_out o) CInt = Some 0) →
  ∃ m' n, write_c_err (err_buf o) (err_cap o) (err_len_out o) s w = Ret tt (set_mem m' w) ∧
    err_reported m' o s n ∧ err_frame (w_mem w) m' o n ∧ Z.of_nat n ≤ Z.max 0 (err_cap o).
Proof.
  intros Ho Hz. unfold write_c_err, err_reported.
  destruct (Z.eqb_spec (err_len_out o) 0) as [Hl|Hl].
  { exists (w_mem w), 0%nat. rewrite Hl, orb_true_r, bool_decide_eq_true_2 by done.
    split_and!; [by destruct w|done|by intros ?|lia]. }
  rewrite (bool_decide_eq_false_2 (_ = 0) Hl), orb_false_r. specialize (Hz Hl).
  destruct (Z.eqb_spec (err_buf o) 0) as [Hb|Hb].
  { exists (w_mem w), 0%nat. rewrite (bool_decide_eq_true_2 (err_buf o = 0)) by done.
    split_and!; [by destruct w|done|done|by intros ?|lia]. }
  destruct (Z.leb_spec (err_cap o) 0) as [Hc|Hc].
  { exists (w_mem w), 0%nat. rewrite (bool_decide_eq_true_2 (_ ≤ _)), !orb_true_r by done.
    split_and!; [by destruct w|done|done|by intros ?|lia]. }
  rewrite !bool_decide_eq_false_2 by (done || lia). simpl.
  pose proof (boundary_down_longest s (err_cap o) Hc) as Hn.
  set (n := boundary_down s _) in *. clearbody n. pose proof Hn as (Hn1 & Hn2 & _ & _).
  assert (String.length (str_take n s) = n) as Hlen by (rewrite slen_take; lia).
  destruct (store_bytes_mapped (w_mem w) (err_buf o) (str_take n s)) as [m1 Hm1].
  { intros x Hx. apply (out_mapped _ _ Ho). right; right. split; [done|]. lia. }
  destruct (write_scalar_at m1 (err_len_out o) CInt (Z.of_nat n)) as (m2 & Hw & _ & Hf & Hr).
  { intros x Hx. eapply store_bytes_keeps; [done|]. apply (out_mapped _ _ Ho). by right; left. }
  pose proof (store_bytes_frame _ _ _ _ Hm1) as Hf1. rewrite Hlen in Hf1.
  pose proof (out_cap _ _ Ho) as [_ Hcap].
  assert (in_s 32 (Z.of_nat n)) as Hin by (unfold in_s in *; lia).
  exists m2, n. split_and!; [|by apply Hr|done| | |lia].
  - erewrite bind_ret by (by apply store_at). rewrite wrap_s_small by (done || lia).
    by erewrite store_scalar_at by (done || apply Ho).
  - rewrite <-Hlen at 1. rewrite <-(load_store_same _ _ _ _ Hm1). apply load_bytes_ext.
    intros x Hx. apply Hf. intros ?. apply (out_disj_lb _ _ Ho x); split; (done || lia).
  - intros x Hx1 Hx2. unfold same_outside in Hf, Hf1.
    rewrite Hf by (intros ?; by apply Hx1). apply Hf1. intros ?. by apply Hx2.
Qed.
End writing.

(** ** What a handler does with a message *)
Section outcomes.
Context {NX : Nexus} {US : Type}.

(** The process callback's closure as the application sees it: success with the raw
    traits, a failure text, a panic, or a panic in [Display] whose unwinding meets a
    panicking [Drop] of the error ([PDouble]), which Rust turns into an abort. *)
Inductive Outcome := POk (raw : Z) | PErr (text : string) | PPanic (p : Payload US) | PDouble.

Definition settle (o : Outcome) (e : UserError US) (u : US) : US * Outcome :=
  match err_drop e u, o with
  | (u, UDone _), o => (u, o)
  | (u, UPanic _), PPanic _ => (u, PDouble)
  | (u, UPanic p), _ => (u, PPanic p)
  end.

Definition run_process (h : Handlers US) (msg : Message) (u : US) : US * Outcome :=
  match process h msg u with
  | (u, UPanic p) => (u, PPanic p)
  | (u, UDone (inl t)) => (u, POk (Traits_raw t))
  | (u, UDone (inr e)) =>
    match err_to_string e u with
    | (u, UDone text) => settle (PErr text) e u
    | (u, UPanic p) => settle (PPanic p) e u
    end
  end.

Definition run_dead_letter (h : Handlers US) (msg : Message) (reason : string) (u : US) : US * Outcome :=
  match dead_letter h with
  | None => (u, POk 0)
  | Some dl =>
    match dl msg reason u with
    | (u, UPanic p) => (u, PPanic p)
    | (u, UDone (inl _)) => (u, POk 0)
    | (u, UDone (inr e)) => settle (PErr "") e u
    end
  end.

(** The user state after a panic is caught and its payload dropped. *)
Definition after_drop (p : Payload US) (u : US) : US := (Payload_drop p u).1.

(** The failures of the process callback that the bridge must report. *)
Definition failure_text (r : Outcome) : option string :=
  match r with
  | PErr text => Some text
  | PPanic _ => Some "panic in process callback"
  | _ => None
  end.

Implicit Types w : World US.

Lemma process_body_at h msg a w u r :
  w_handlers w = Some h → message_at (w_mem w) a (topic h) msg →
  run_process h msg (w_user w) = (u, r) →
  process_body a w =
    match r with
    | POk raw => Ret (0, raw, None) (set_user u w)
    | PErr text => Ret (1, 0, Some text) (set_user u w)
    | PPanic p => Panic p (set_user u w)
    | PDouble => Abort_ (set_user u w)
    end.
Proof.
  intros Hh Hm Hr. unfold process_body.
  erewrite bind_ret by (unfold handlers; by rewrite Hh). cbn iota.
  erewrite bind_ret by (by apply borrow_message_at).
  unfold run_process, settle in Hr. unfold with_drop, mbind_, user, ret. simpl.
  repeat (case_match; simplify_eq/=; try done).
Qed.

Lemma drop_panic_payload_at p w :
  drop_panic_payload p w = Ret tt (set_user (after_drop p (w_user w)) w).
Proof.
  unfold drop_panic_payload, after_drop, catch_unwind, drop_payload, mbind_.
  destruct (Payload_drop p (w_user w)) as [u [p'|]]; done.
Qed.

(** Everything the process trampoline does once the record is readable. *)
Lemma process_trampoline_at h msg a o w u r :
  w_handlers w = Some h → record_at (w_mem w) o a (topic h) msg → out_ok (w_mem w) o →
  run_process h msg (w_user w) = (u, r) →
  match r with
  | PDouble => ∃ w', process_trampoline a o w = Abort_ w'
  | _ => ∃ m' w',
    process_trampoline a o w = Ret (match r with POk _ => 0 | _ => 1 end) (set_mem m' w') ∧
    w' = match r with
         | PPanic p => set_user (after_drop p u)
             (set_stderr ((λ l, l ++ ["llingr: panic in process callback (caught at FFI boundary)"])
                <$> w_stderr w) w)
         | _ => set_user u w
         end ∧
    (∀ x, ¬ out_region o x → m' !! x = w_mem w !! x) ∧
    match r with
    | POk raw =>
      (traits_out o ≠ 0 → read_scalar m' (traits_out o) CI64 = Some (wrap_s 64 raw)) ∧
      (err_len_out o ≠ 0 → read_scalar m' (err_len_out o) CInt = Some 0)
    | _ => ∀ text, failure_text r = Some text →
           ∃ n, err_reported m' o text n ∧ err_frame (w_mem w) m' o n
    end
  end.
Proof.
  intros Hh Hrec Ho Hr. unfold process_trampoline.
  destruct (zero_err_len o w Ho) as (m0 & Hz & Ho0 & Hf0 & Hz0).
  assert (∀ x, ¬ out_region o x → m0 !! x = w_mem w !! x) as Hf0'.
  { intros x Hx. apply Hf0. intros ?. apply Hx. by right; left. }
  destruct (record_at_stable _ m0 _ _ _ _ Hrec Hf0') as (m_in & Hin & _ & Hmsg).
  apply (message_at_mono _ m0 _ _ _ Hin) in Hmsg.
  pose proof (process_body_at h msg a (set_mem m0 w) u r Hh Hmsg Hr) as Hb.
  unfold extern_C. erewrite bind_ret by done. clear Hz.
  set (w1 := set_user u (set_mem m0 w)) in *.
  assert (∀ w2 text, w_mem w2 = m0 → ∃ m',
    write_c_err (err_buf o) (err_cap o) (err_len_out o) text w2 = Ret tt (set_mem m' w2) ∧
    (∀ x, ¬ out_region o x → m' !! x = w_mem w !! x) ∧
    (∃ n, err_reported m' o text n ∧ err_frame (w_mem w) m' o n)) as Herr.
  { intros w2 text <-. destruct (write_c_err_at o text w2 Ho0 Hz0) as (m' & n & ? & ? & Hf & Hn).
    assert (err_frame (w_mem w) m' o n) as Hf'.
    { intros x Hx1 Hx2. rewrite <-Hf0 by done. by apply Hf. }
    exists m'. split_and!; [done| |by exists n]. intros x Hx. apply Hf'; intros Hr'; apply Hx.
    - by right; left.
    - right; right. destruct Hr' as [? ?]. split; [done|]. lia. }
  destruct r as [raw|text|p|].
  - erewrite (bind_ret _ (catch_unwind _)) by (unfold catch_unwind; by rewrite Hb).
    destruct (Z.eqb_spec (traits_out o) 0) as [Ht|Ht].
    + exists m0, (set_user u w). split_and!; [done|done|done|done|done].
    + destruct (write_scalar_at m0 (traits_out o) CI64 (wrap_s 64 raw)) as (m' & Hw & _ & Hf & Hrd).
      { intros x Hx. apply (out_mapped _ _ Ho0). by left. }
      exists m', (set_user u w). split_and!; [|done| | |].
      * simpl. erewrite bind_ret by (apply store_scalar_at; [apply Ho|done]). done.
      * intros x Hx. rewrite <-Hf0' by done. apply Hf. intros ?. apply Hx. by left.
      * intros _. apply Hrd. apply wrap_s_range. lia.
      * intros Hl. rewrite <-(Hz0 Hl). apply read_scalar_ext. intros x Hx. apply Hf.
        intros Hx'. apply (out_disj_tl _ _ Ho x); done.
  - erewrite (bind_ret _ (catch_unwind _)) by (unfold catch_unwind; by rewrite Hb). simpl.
    destruct (Herr w1 text eq_refl) as (m' & Hw & ? & ?).
    exists m', (set_user u w). split_and!; [|done|done|by intros ? [= <-]].
    erewrite bind_ret by done. erewrite bind_ret by done. done.
  - erewrite (bind_ret _ (catch_unwind _)) by (unfold catch_unwind; by rewrite Hb). cbn iota.
    erewrite bind_ret by apply drop_panic_payload_at.
    erewrite bind_ret by done.
    edestruct Herr as (m' & Hw & ? & ?); [|erewrite bind_ret by exact Hw].
    { done. }
    exists m'. eexists. split_and!; [|done|done|by intros ? [= <-]]. done.
  - eexists. unfold mbind_ at 1, catch_unwind. by rewrite Hb.
Qed.
End outcomes.

Section callbacks.
Context {NX : Nexus} {US : Type}.
Implicit Types (w : World US) (h : Handlers US).

(** Calling an optional handler inside [contained]: the user state afterwards. *)
Definition run_optional {H} (f : option H) (call : H → UserCall US ()) (u : US) : US :=
  match f with
  | None => u
  | Some f => match call f u with (u, UDone _) => u | (u, UPanic p) => after_drop p u end
  end.
Definition run_published {H} (w : World US) (field : Handlers US → option H)
    (call : H → UserCall US ()) : World US :=
  set_user (run_optional (w_handlers w ≫= field) call (w_user w)) w.

Lemma contained_with_handler {H} (field : Handlers US → option H) call w :
  contained (with_handler field call) w = Ret tt (run_published w field call).
Proof.
  unfold contained, with_handler, run_published, run_optional.
  unfold catch_unwind, mbind_ at 1, mbind_ at 1, handlers, user.
  destruct (w_handlers w) as [h|]; simpl; [|by rewrite set_user_id].
  destruct (field h) as [f|]; simpl; [|by rewrite set_user_id].
  destruct (call f (w_user w)) as [u [[]|p]]; [done|]. by rewrite drop_panic_payload_at.
Qed.

Lemma contained_bind {A H} (e : M US A) (field : Handlers US → option H) call w a :
  e w = Ret a w →
  contained (mbind_ (λ x, with_handler field (call x)) e) w = Ret tt (run_published w field (call a)).
Proof.
  intros He. rewrite <-contained_with_handler. unfold contained, mbind_ at 1, catch_unwind.
  erewrite bind_ret by done. done.
Qed.

Lemma extern_contained_bind {A H} (e : M US A) (field : Handlers US → option H) call w a :
  e w = Ret a w →
  extern_C (contained (mbind_ (λ x, with_handler field (call x)) e)) w =
    Ret tt (run_published w field (call a)).
Proof. intros He. unfold extern_C. by erewrite contained_bind. Qed.

Lemma log_trampoline_at level p len b w :
  bytes_at (w_mem w) p len b →
  log_trampoline level p len w =
    Ret tt (run_published w log (λ lh, lh (LogLevel_from_raw level) (from_utf8_lossy b))).
Proof.
  intros Hb. refine (extern_contained_bind (borrow_bytes p len) log
    (λ b lh, lh (LogLevel_from_raw level) (from_utf8_lossy b)) w b _).
  by apply borrow_bytes_at.
Qed.

Lemma shutdown_trampoline_at p len b w :
  bytes_at (w_mem w) p len b →
  shutdown_trampoline p len w =
    Ret tt (run_published w shutdown (λ sh,
      sh (if (p =? 0) || (len <=? 0) then "unknown" else from_utf8_lossy b))).
Proof.
  intros Hb. unfold shutdown_trampoline.
  refine (extern_contained_bind _ shutdown (λ reason sh, sh reason) w _ _).
  case_match; [done|]. by erewrite bind_ret by (by apply borrow_bytes_at).
Qed.

Lemma deadletter_body_at h msg a em el reason w u r :
  w_handlers w = Some h → message_at (w_mem w) a (topic h) msg → text_at (w_mem w) em el reason →
  run_dead_letter h msg reason (w_user w) = (u, r) →
  deadletter_body a em el w =
    match r with
    | POk _ => Ret 0 (set_user u w)
    | PErr _ => Ret 1 (set_user u w)
    | PPanic p => Panic p (set_user u w)
    | PDouble => Abort_ (set_user u w)
    end ∧ r ≠ PDouble.
Proof.
  intros Hh Hm (b & Hb & ->) Hr. unfold deadletter_body.
  erewrite bind_ret by (unfold handlers; by rewrite Hh). cbn iota.
  erewrite bind_ret by (by apply borrow_bytes_at). cbv zeta.
  erewrite bind_ret by (by apply borrow_message_at).
  unfold run_dead_letter, settle in Hr. unfold with_drop, mbind_, user, ret. simpl.
  repeat (case_match; simplify_eq/=; try done); by rewrite set_user_id.
Qed.

(** C1: The process callback never lets a panic or undefined behaviour out of its
    [extern "C"] frame: over a readable record and writable out-parameters it returns 0
    when the handler succeeded and 1 otherwise, writes nothing outside the
    out-parameters, and the process is aborted in exactly one case, an error whose
    [Display] panics and whose [Drop] panics again during that unwinding. *)
Theorem process_trampoline_contained h msg a o w :
  w_handlers w = Some h → record_at (w_mem w) o a (topic h) msg → out_ok (w_mem w) o →
  let r := (run_process h msg (w_user w)).2 in
  (r = PDouble ∧ ∃ w', process_trampoline a o w = Abort_ w') ∨
  (r ≠ PDouble ∧ ∃ rc w', process_trampoline a o w = Ret rc w' ∧
     (rc = 0 ∧ (∃ raw, r = POk raw) ∨ rc = 1 ∧ is_Some (failure_text r)) ∧
     w_handlers w' = w_handlers w ∧
     ∀ x, ¬ out_region o x → w_mem w' !! x = w_mem w !! x).
Proof.
  intros Hh Hrec Ho. destruct (run_process h msg (w_user w)) as [u r] eqn:E. simpl.
  pose proof (process_trampoline_at h msg a o w u r Hh Hrec Ho E) as H.
  destruct r; [right|right|right|by left]; split; [done| |done| |done| ];
    destruct H as (m' & w' & Ht & -> & Hf & _); do 2 eexists; split_and!; eauto.
Qed.

(** C9: On success the callback returns 0, advances only the user state, reports no
    error text, and stores traits that come back unchanged: cast to u64, as the metrics
    callback does with the value the bridge hands it, they are the handler's raw traits,
    the top bit included. *)
Theorem process_trampoline_success {NL : NexusLaws} h msg a o w u t :
  w_handlers w = Some h → record_at (w_mem w) o a (topic h) msg → out_ok (w_mem w) o →
  process h msg (w_user w) = (u, UDone (inl t)) →
  ∃ m', process_trampoline a o w = Ret 0 (set_mem m' (set_user u w)) ∧
    (err_len_out o ≠ 0 → read_scalar m' (err_len_out o) CInt = Some 0) ∧
    (traits_out o ≠ 0 → ∃ z, read_scalar m' (traits_out o) CI64 = Some z ∧
      wrap_u 64 z = Traits_raw t ∧
      ∀ qd p off d1 d2 t1 t2 t3 w2, metrics_trampoline z qd p off d1 d2 t1 t2 t3 w2 =
        Ret tt (run_published w2 metrics (λ mh, mh (mkMetrics (Traits_from_raw (Traits_raw t))
          (wrap_s 32 qd) (wrap_s 32 p) off d1 d2 t1 t2 t3)))).
Proof.
  intros Hh Hrec Ho Ht.
  assert (run_process h msg (w_user w) = (u, POk (Traits_raw t))) as E
    by (unfold run_process; by rewrite Ht).
  destruct (process_trampoline_at h msg a o w _ _ Hh Hrec Ho E) as (m' & w' & Hrun & -> & _ & Hto & Hel).
  exists m'. split_and!; [done|done|]. intros Hnz. exists (wrap_s 64 (Traits_raw t)).
  assert (wrap_u 64 (wrap_s 64 (Traits_raw t)) = Traits_raw t) as Hw.
  { apply wrap_u_s; [done|]. apply Traits_raw_u64. }
  split_and!; [by apply Hto|done|]. intros. unfold metrics_trampoline, extern_C.
  by rewrite Hw, contained_with_handler.
Qed.

(** The world a failed call leaves, memory aside: the user state after the handler, and
    for a panic its payload dropped and one line on stderr. *)
Definition failed_world (r : Outcome) (u : US) w : World US :=
  match r with
  | PPanic p => set_user (after_drop p u)
      (set_stderr ((λ l, l ++ ["llingr: panic in process callback (caught at FFI boundary)"]) <$> w_stderr w) w)
  | _ => set_user u w
  end.

(** C8: On a failure, a handler error or a panic, the callback returns 1; the error buffer
    then holds the longest prefix of the error text that fits [err_cap] and ends at a char
    boundary, the length slot holds its length, and nothing else changes: not a byte of
    memory outside those, so neither the traits slot nor the rest of the error buffer, and
    of the process only what the handler did and, for a panic, the dropped payload and one
    line on stderr. What was written is valid UTF-8 whenever the text is. *)
Theorem process_trampoline_failure h msg a o w u r text :
  w_handlers w = Some h → record_at (w_mem w) o a (topic h) msg → out_ok (w_mem w) o →
  run_process h msg (w_user w) = (u, r) → failure_text r = Some text →
  ∃ m' n, process_trampoline a o w = Ret 1 (set_mem m' (failed_world r u w)) ∧
    err_reported m' o text n ∧ err_frame (w_mem w) m' o n ∧
    (∀ x, in_region (traits_out o) 8 x → m' !! x = w_mem w !! x) ∧
    (utf8_valid text = true → utf8_valid (str_take n text) = true).
Proof.
  intros Hh Hrec Ho Hr Htext.
  pose proof (process_trampoline_at h msg a o w u r Hh Hrec Ho Hr) as H.
  assert (∃ m' n, process_trampoline a o w = Ret 1 (set_mem m' (failed_world r u w)) ∧
    err_reported m' o text n ∧ err_frame (w_mem w) m' o n) as (m' & n & Ht & He & Hf).
  { destruct r; try done; destruct H as (m' & w' & Ht & -> & _ & He);
      destruct (He text Htext) as (n & ? & ?); by exists m', n. }
  exists m', n. split_and!; [done..| |].
  - intros x Hx. apply Hf; [intros ?; by apply (out_disj_tl _ _ Ho x)|].
    intros [? ?]. apply (out_disj_tb _ _ Ho x Hx). split; [done|].
    pose proof (err_reported_cap _ _ _ _ He). lia.
  - intros Hv. unfold err_reported in He. case_bool_decide; [by subst n|]. destruct He as [_ He].
    case_match; [by subst n|]. destruct He as [(_ & _ & Hb & _) _]. by apply utf8_valid_take.
Qed.

(** A bandwidth packet as the bridge lays it out. *)
Record PacketArgs := mkPacketArgs {
  k_ts : Z; k_interval : Z; k_id : Z; k_id_len : Z; k_topic : Z; k_topic_len : Z;
  k_group : Z; k_group_len : Z; k_brokers : Z; k_broker_count : Z; k_partitions : Z; k_partition_count : Z;
}.
Definition call_bandwidth (k : PacketArgs) : M US () :=
  bandwidth_trampoline (k_ts k) (k_interval k) (k_id k) (k_id_len k) (k_topic k) (k_topic_len k)
    (k_group k) (k_group_len k) (k_brokers k) (k_broker_count k) (k_partitions k) (k_partition_count k).
Definition packet_at (m : mem) (k : PacketArgs) (b : BandwidthMetrics) : Prop :=
  elems_at BrokerInfoRaw broker_at m (k_brokers k) (k_broker_count k) (bm_brokers b) ∧
  elems_at PartitionBandwidthRaw partition_at m (k_partitions k) (k_partition_count k) (bm_partitions b) ∧
  text_at m (k_id k) (k_id_len k) (bm_metrics_id b) ∧ text_at m (k_topic k) (k_topic_len k) (bm_topic b) ∧
  text_at m (k_group k) (k_group_len k) (bm_consumer_group b) ∧
  bm_ts_unix_ns b = k_ts k ∧ bm_stats_interval_ms b = k_interval k.

Lemma bandwidth_trampoline_at k b w :
  packet_at (w_mem w) k b → call_bandwidth k w = Ret tt (run_published w bandwidth (λ bh, bh b)).
Proof.
  destruct b as [ts iv id t g bs ps]. intros (Hb & Hp & Hm & Ht & Hg & Hts & Hiv). simpl in *; subst.
  unfold call_bandwidth, bandwidth_trampoline, extern_C.
  erewrite bind_ret by (eapply owned_array_at; [|exact Hb]; intros; by apply owned_broker_at).
  erewrite bind_ret by (eapply owned_array_at; [|exact Hp]; intros; by apply owned_partition_at).
  erewrite bind_ret by (by apply owned_str_at).
  erewrite bind_ret by (by apply owned_str_at).
  erewrite bind_ret by (by apply owned_str_at). cbv zeta. by rewrite contained_with_handler.
Qed.

(** C11: Before a handler set is published every callback is inert: the process and
    dead-letter callbacks return -1, the metrics, shutdown, log and bandwidth callbacks
    return, nothing is printed and the user state does not move, whatever the record
    arguments are, and no memory is written but the four bytes of the error length. *)
Theorem callbacks_inert_before_publication a o em el t1 t2 t3 t4 t5 t6 t7 t8 t9 reason rlen b lvl k packet w :
  w_handlers w = None → out_ok (w_mem w) o →
  bytes_at (w_mem w) reason rlen b → packet_at (w_mem w) k packet →
  (∃ m', process_trampoline a o w = Ret (-1) (set_mem m' w) ∧
     ∀ x, ¬ in_region (err_len_out o) 4 x → m' !! x = w_mem w !! x) ∧
  deadletter_trampoline a em el w = Ret (-1) w ∧
  metrics_trampoline t1 t2 t3 t4 t5 t6 t7 t8 t9 w = Ret tt w ∧
  shutdown_trampoline reason rlen w = Ret tt w ∧
  log_trampoline lvl reason rlen w = Ret tt w ∧
  call_bandwidth k w = Ret tt w.
Proof.
  intros Hh Ho Hb Hk.
  assert (∀ H (field : Handlers US → option H) call, run_published w field call = w) as Hp.
  { intros. unfold run_published, run_optional. rewrite Hh. apply set_user_id. }
  split_and!.
  - destruct (zero_err_len o w Ho) as (m' & Hz & _ & Hf & _). exists m'. split; [|done].
    unfold process_trampoline, extern_C. erewrite bind_ret by done.
    unfold mbind_ at 1, catch_unwind, process_body, mbind_ at 1, handlers.
    simpl. by rewrite Hh.
  - unfold deadletter_trampoline, deadletter_body, extern_C, catch_unwind, mbind_, handlers.
    by rewrite Hh.
  - unfold metrics_trampoline, extern_C. by rewrite contained_with_handler, Hp.
  - by rewrite (shutdown_trampoline_at _ _ _ _ Hb), Hp.
  - by rewrite (log_trampoline_at _ _ _ _ _ Hb), Hp.
  - by rewrite (bandwidth_trampoline_at _ _ _ Hk), Hp.
Qed.

(** C10: The dead-letter callback never unwinds, aborts or writes memory: it hands the
    handler the record and the reason decoded lossily (valid UTF-8, and the bytes
    themselves when they were valid), returns 0 exactly when the handler succeeded, and
    1 when it failed or panicked. *)
Theorem deadletter_trampoline_contract h msg a em el b w u r :
  w_handlers w = Some h → message_at (w_mem w) a (topic h) msg → bytes_at (w_mem w) em el b →
  run_dead_letter h msg (from_utf8_lossy b) (w_user w) = (u, r) →
  utf8_valid (from_utf8_lossy b) = true ∧ (utf8_valid b = true → from_utf8_lossy b = b) ∧
  match r with
  | POk _ => deadletter_trampoline a em el w = Ret 0 (set_user u w)
  | PErr _ => deadletter_trampoline a em el w = Ret 1 (set_user u w)
  | PPanic p => deadletter_trampoline a em el w =
      Ret 1 (set_user (after_drop p u) (set_stderr
        ((λ l, l ++ ["llingr: panic in dead letter callback (caught at FFI boundary)"])
           <$> w_stderr w) w))
  | PDouble => False
  end.
Proof.
  intros Hh Hm Hb Hr.
  assert (text_at (w_mem w) em el (from_utf8_lossy b)) as Ht by (by exists b).
  destruct (deadletter_body_at h msg a em el _ w u r Hh Hm Ht Hr) as [Hbody Hnd].
  split; [apply from_utf8_lossy_valid|]. split; [apply from_utf8_lossy_id|].
  destruct r as [| |p|]; [| | |by destruct Hnd];
    unfold deadletter_trampoline, extern_C; unfold mbind_ at 1, catch_unwind; rewrite Hbody;
    [done|done|].
  by erewrite bind_ret by apply drop_panic_payload_at.
Qed.

(** C24: A log line and the shutdown reason reach their handlers exactly once as valid
    UTF-8, decoded lossily from the bytes the bridge passed, with the engine's level and
    with "unknown" for an absent reason; neither callback unwinds, whatever the handler
    does. *)
Theorem log_and_shutdown_delivered level p len b w :
  bytes_at (w_mem w) p len b →
  let reason := if (p =? 0) || (len <=? 0) then "unknown" else from_utf8_lossy b in
  utf8_valid (from_utf8_lossy b) = true ∧ utf8_valid reason = true ∧
  log_trampoline level p len w =
    Ret tt (run_published w log (λ lh, lh (LogLevel_from_raw level) (from_utf8_lossy b))) ∧
  shutdown_trampoline p len w = Ret tt (run_published w shutdown (λ sh, sh reason)).
Proof.
  intros Hb reason. split; [apply from_utf8_lossy_valid|].
  split; [subst reason; case_match; [by vm_compute|apply from_utf8_lossy_valid]|]. split.
  - by apply log_trampoline_at.
  - by apply shutdown_trampoline_at.
Qed.

(** C22: A bandwidth packet reaches its handler whole: every broker and partition of the
    two C arrays, in order, with the counters as written and every string decoded
    lossily; an absent array is the empty list; the callback never unwinds. *)
Theorem bandwidth_packet_delivered ts iv mid midl tp tpl gp gpl bp bn pp pn smid stp sgp brokers parts w :
  elems_at BrokerInfoRaw broker_at (w_mem w) bp bn brokers →
  elems_at PartitionBandwidthRaw partition_at (w_mem w) pp pn parts →
  text_at (w_mem w) mid midl smid → text_at (w_mem w) tp tpl stp → text_at (w_mem w) gp gpl sgp →
  bandwidth_trampoline ts iv mid midl tp tpl gp gpl bp bn pp pn w =
    Ret tt (run_published w bandwidth
      (λ bh, bh (mkBandwidthMetrics ts iv smid stp sgp brokers parts))).
Proof.
  intros. apply (bandwidth_trampoline_at (mkPacketArgs ts iv mid midl tp tpl gp gpl bp bn pp pn)
    (mkBandwidthMetrics ts iv smid stp sgp brokers parts)). by split_and!.
Qed.

(** What the bridge writes for one record header. *)
Definition header_written (m : mem) (raw : list Z) (key : string) (value : option string) : Prop :=
  match raw with
  | [k; kl; v; vl] =>
    kl = Z.of_nat (String.length key) ∧ bytes_at m k kl key ∧
    match value with
    | None => vl = -1
    | Some s => vl = Z.of_nat (String.length s) ∧ bytes_at m v vl s
    end
  | _ => False
  end.

(** C23: The record headers round-trip: when the bridge has written a list of (key bytes,
    value) pairs, the views handed to the handler are that list, in order, repeated keys
    included, with a null value kept apart from an empty one, and every key as it was
    written when its bytes are UTF-8 and empty when they are not. *)
Theorem headers_round_trip (hs : list (string * option string)) raws p w :
  p ≠ 0 → array_at (w_mem w) p HeaderRaw raws →
  Forall2 (λ raw hd, header_written (w_mem w) raw hd.1 hd.2) raws hs →
  borrow_headers p (Z.of_nat (length hs)) w =
    Ret (map (λ hd, mkHeader (if utf8_valid hd.1 then hd.1 else "") hd.2) hs) w.
Proof.
  intros Hp Ha HF. apply borrow_headers_at. unfold elems_at.
  destruct (Z.eqb_spec p 0) as [|_]; [done|]. simpl.
  destruct (Z.leb_spec (Z.of_nat (length hs)) 0) as [Hl|Hl].
  { destruct hs; [done|]. simpl in Hl. lia. }
  exists raws. split_and!; [apply Forall2_length in HF; lia|done|].
  clear -HF. induction HF as [|raw [key value] raws hs Hw HF IH]; [constructor|].
  constructor; [|exact IH]. clear IH HF. destruct raw as [|k [|kl [|v [|vl [|]]]]]; try done.
  destruct Hw as (-> & Hb & Hv). simpl in *. exists key. split_and!; [done| |].
  - unfold from_utf8. by destruct (utf8_valid key).
  - unfold value_at. simpl. destruct value as [s|]; [|by subst vl].
    destruct Hv as [-> Hv]. destruct (Z.ltb_spec (Z.of_nat (String.length s)) 0); [lia|].
    by exists s.
Qed.
End callbacks.
