(* ===== verification/TrampolinesWitness.v ===== *)
(** * The trampoline contracts at a concrete call

    A memory as the bridge lays it out for one record, handlers that succeed, fail, panic,
    or fail with an error whose [Display] and [Drop] both panic, and each contract of
    TrampolinesProps.v applied there. *)
From Stdlib Require Import ZArith NArith Ascii.
From Stdlib Require String.
From stdpp Require Import base tactics option list gmap strings.
From S2P Require Import Prelude Text Nexus Ffi Effects Trampolines TrampolinesProps.
#[local] Open Scope Z_scope.
#[local] Existing Instance nexus_ref.
#[local] Existing Instance nexus_ref_laws.

(** The record's memory: key at 100, value at 120, two headers at 200 whose key is at 300. *)
Definition pad4 : string := String "000" (String "000" (String "000" (String "000" ""))).
Definition hdr_img (k kl v vl : Z) : string :=
  c_put CPtr k +:+ c_put CInt kl +:+ pad4 +:+ c_put CPtr v +:+ c_put CInt vl +:+ pad4.
Definition rec_mem : mem :=
  blocks_mem [(100, "key"); (120, "bad"); (200, hdr_img 300 1 0 (-1) +:+ hdr_img 300 1 0 0); (300, "h")].
(** The out-parameters: traits at 1000, error length at 1008, a 3-byte error buffer at 1100. *)
Definition zeros (n : nat) : string := String.string_of_list_ascii (replicate n "000"%char).
Definition all_mem : mem := rec_mem ∪ blocks_mem [(1000, zeros 8); (1008, zeros 4); (1100, zeros 3)].
Definition args0 : RecordArgs := mkRecordArgs 100 3 120 3 7 42 1 1700000000000 200 2.
Definition outs0 : OutArgs := mkOutArgs 1000 1100 3 1008.
Definition msg0 : Message :=
  mkMessage (Some "key") (Some "bad") "orders" 7 42 (CreateTime 1700000000000)
    [mkHeader "h" None; mkHeader "h" (Some "")].

Definition plain_payload : Payload nat := mkPayload (λ u, (u, None)).
Definition bomb_payload : Payload nat := mkPayload (λ u, (u, Some plain_payload)).
(** "a", the three bytes of the euro sign, "b": a 3-byte buffer takes "a" only. *)
Definition euro_text : string := String "a" (String "226" (String "130" (String "172" "b"))).
Definition plain_error : UserError nat := mkUserError (λ u, (u, UDone euro_text)) (λ u, (u, UDone tt)).
Definition bad_error : UserError nat :=
  mkUserError (λ u, (u, UPanic plain_payload)) (λ u, (u, UPanic plain_payload)).
Definition handlers_of (p : Message → UserCall nat (Z + UserError nat)) : Handlers nat :=
  mkHandlers "orders" p
    (Some (λ _ _ u, (S u, UDone (inr plain_error)))) (Some (λ _ u, (S u, UPanic bomb_payload)))
    (Some (λ _ u, (S u, UDone tt))) (Some (λ _ _ u, (S u, UDone tt))) (Some (λ _ u, (S u, UDone tt))).
Definition ok_handlers : Handlers nat := handlers_of (λ _ u, (S u, UDone (inl (2 ^ 63 + 1)))).
Definition err_handlers : Handlers nat := handlers_of (λ _ u, (S u, UDone (inr plain_error))).
Definition panic_handlers : Handlers nat := handlers_of (λ _ u, (S u, UPanic bomb_payload)).
Definition double_handlers : Handlers nat := handlers_of (λ _ u, (S u, UDone (inr bad_error))).
Definition world_of (h : option (Handlers nat)) : World nat := mkWorld all_mem h (Some []) 0%nat.

Lemma rec_mem_low x b : rec_mem !! x = Some b → x < 1000.
Proof.
  assert (map_Forall (λ k _, k < 1000) rec_mem) as H by (apply (bool_decide_unpack _); by vm_compute).
  apply H.
Qed.

Lemma rec_message : message_at rec_mem args0 "orders" msg0.
Proof.
  exists [mkHeader "h" None; mkHeader "h" (Some "")], "key", (Some "bad").
  split_and!; [|by vm_compute|by exists "bad"|by vm_compute].
  exists [[300; 1; 0; -1]; [300; 1; 0; 0]]. split_and!; [done| |].
  - apply array_check_sound. by vm_compute.
  - repeat constructor; (exists "h"; split_and!; [by vm_compute|by vm_compute|]);
      [by vm_compute|by exists ""].
Qed.

Lemma rec_record : record_at all_mem outs0 args0 "orders" msg0.
Proof.
  exists rec_mem. split_and!; [apply map_union_subseteq_l| |apply rec_message].
  intros x Hx. destruct (rec_mem !! x) as [b|] eqn:E; [|done]. apply rec_mem_low in E.
  exfalso. unfold out_region, in_region in Hx. simpl in Hx. lia.
Qed.

Lemma outs0_ok : out_ok all_mem outs0.
Proof.
  split.
  - intros a [[_ H]|[[_ H]|[_ H]]]; simpl in H.
    + eapply (mapped_load_bytes all_mem 1000 8 (zeros 8)); [by vm_compute|lia].
    + eapply (mapped_load_bytes all_mem 1008 4 (zeros 4)); [by vm_compute|lia].
    + eapply (mapped_load_bytes all_mem 1100 3 (zeros 3)); [by vm_compute|lia].
  - by vm_compute.
  - by vm_compute.
  - by vm_compute.
  - intros a [_ ?] [_ ?]. simpl in *. lia.
  - intros a [_ ?] [_ ?]. simpl in *. lia.
  - intros a [_ ?] [_ ?]. simpl in *. lia.
Qed.

Lemma process_trampoline_contained_witness :
  (∃ w', process_trampoline args0 outs0 (world_of (Some double_handlers)) = Abort_ w') ∧
  ∃ rc w', process_trampoline args0 outs0 (world_of (Some panic_handlers)) = Ret rc w'.
Proof.
  split.
  - destruct (process_trampoline_contained double_handlers msg0 args0 outs0
      (world_of (Some double_handlers)) eq_refl rec_record outs0_ok) as [[_ H]|[H _]];
      [exact H|by destruct H].
  - destruct (process_trampoline_contained panic_handlers msg0 args0 outs0
      (world_of (Some panic_handlers)) eq_refl rec_record outs0_ok) as [[H _]|[_ (rc & w' & H & _)]];
      [discriminate H|by exists rc, w'].
Defined.

Lemma process_trampoline_success_witness :
  ∃ m z, process_trampoline args0 outs0 (world_of (Some ok_handlers)) =
    Ret 0 (set_mem m (set_user 1%nat (world_of (Some ok_handlers)))) ∧
  read_scalar m 1000 CI64 = Some z ∧ wrap_u 64 z = 2 ^ 63 + 1.
Proof.
  destruct (process_trampoline_success ok_handlers msg0 args0 outs0 (world_of (Some ok_handlers))
    1%nat (2 ^ 63 + 1) eq_refl rec_record outs0_ok eq_refl) as (m & H & _ & Ht).
  destruct (Ht ltac:(done)) as (z & Hz & Hw & _). exists m, z. split; [exact H|]. by split.
Defined.

Lemma process_trampoline_failure_witness :
  ∃ m n, process_trampoline args0 outs0 (world_of (Some err_handlers)) =
      Ret 1 (set_mem m (set_user 1%nat (world_of (Some err_handlers)))) ∧
    err_reported m outs0 euro_text n ∧ err_frame all_mem m outs0 n.
Proof.
  destruct (process_trampoline_failure err_handlers msg0 args0 outs0 (world_of (Some err_handlers))
    1%nat (PErr euro_text) euro_text eq_refl rec_record outs0_ok eq_refl eq_refl) as (m & n & H & He & Hf & _).
  by exists m, n.
Defined.

(** An empty packet: every array and string absent. *)
Definition no_packet : PacketArgs := mkPacketArgs 10 20 0 0 0 0 0 0 0 0 0 0.

Lemma callbacks_inert_before_publication_witness :
  deadletter_trampoline args0 0 0 (world_of None) = Ret (-1) (world_of None) ∧
  log_trampoline 3 100 3 (world_of None) = Ret tt (world_of None) ∧
  call_bandwidth no_packet (world_of None) = Ret tt (world_of None).
Proof.
  destruct (callbacks_inert_before_publication args0 outs0 0 0 0 0 0 0 0 0 0 0 0 100 3 "key" 3
    no_packet (mkBandwidthMetrics 10 20 "" "" "" [] []) (world_of None) eq_refl outs0_ok ltac:(by vm_compute))
    as (_ & Hd & _ & _ & Hl & Hk); [|by split_and!].
  split_and!; try done; by exists "".
Defined.

Lemma deadletter_trampoline_contract_witness :
  deadletter_trampoline args0 120 3 (world_of (Some ok_handlers)) =
    Ret 1 (set_user 1%nat (world_of (Some ok_handlers))).
Proof.
  apply (deadletter_trampoline_contract ok_handlers msg0 args0 120 3 "bad"
    (world_of (Some ok_handlers)) 1%nat (PErr "") eq_refl
    (message_at_mono _ _ _ _ _ (map_union_subseteq_l _ _) rec_message)
    ltac:(by vm_compute) eq_refl).
Defined.

Lemma log_and_shutdown_delivered_witness :
  log_trampoline 3 100 3 (world_of (Some ok_handlers)) =
    Ret tt (set_user 1%nat (world_of (Some ok_handlers))).
Proof.
  apply (log_and_shutdown_delivered 3 100 3 "key" (world_of (Some ok_handlers)) ltac:(by vm_compute)).
Defined.

(** A packet with one broker and one partition. *)
Definition broker_img : string :=
  hdr_img 5100 1 5100 1 +:+ hdr_img 5110 4 0 0.
Definition partition_img : string :=
  str_concat (map (c_put CI64) [1; 2; 3; 4; 5; 6]) +:+ c_put CI32 9 +:+ pad4 +:+ hdr_img 5100 1 5120 3.
Definition packet_mem : mem :=
  blocks_mem [(5000, broker_img); (5200, partition_img); (5100, "1"); (5110, "9092"); (5120, "lz4")].
Definition packet_world : World nat := mkWorld packet_mem (Some ok_handlers) None 0%nat.
Definition broker0 : BrokerInfo := mkBrokerInfo "1" "1" "9092" "".
Definition partition0 : PartitionBandwidth := mkPartitionBandwidth 1 2 3 4 5 6 9 "1" "lz4".

Lemma bandwidth_packet_delivered_witness :
  bandwidth_trampoline 10 20 0 0 5120 3 5110 4 5000 1 5200 1 packet_world =
    Ret tt (run_published packet_world bandwidth
      (λ bh, bh (mkBandwidthMetrics 10 20 "" "lz4" "9092" [broker0] [partition0]))).
Proof.
  apply (bandwidth_packet_delivered (US := nat)).
  - exists [[5100; 1; 5100; 1; 5110; 4; 0; 0]]. split_and!; [done|apply array_check_sound; by vm_compute|].
    repeat constructor; eexists; (split; [by vm_compute|by vm_compute]).
  - exists [[1; 2; 3; 4; 5; 6; 9; 5100; 1; 5120; 3]].
    split_and!; [done|apply array_check_sound; by vm_compute|].
    repeat constructor; eexists; (split; [by vm_compute|by vm_compute]).
  - exists "". split; by vm_compute.
  - exists "lz4". split; by vm_compute.
  - exists "9092". split; by vm_compute.
Defined.

(** A third header whose key is the lone byte 255. *)
Definition bad_key : string := String "255" "".
Definition header_mem : mem :=
  blocks_mem [(200, hdr_img 300 1 0 (-1) +:+ hdr_img 300 1 0 0 +:+ hdr_img 310 1 300 1); (300, "h"); (310, bad_key)].

Lemma headers_round_trip_witness :
  borrow_headers 200 3 (mkWorld header_mem (Some ok_handlers) None 0%nat) =
    Ret [mkHeader "h" None; mkHeader "h" (Some ""); mkHeader "" (Some "h")]
      (mkWorld header_mem (Some ok_handlers) None 0%nat).
Proof.
  apply (headers_round_trip [("h", None); ("h", Some ""); (bad_key, Some "h")]
    [[300; 1; 0; -1]; [300; 1; 0; 0]; [310; 1; 300; 1]] 200 (mkWorld header_mem (Some ok_handlers) None 0%nat)).
  - done.
  - apply array_check_sound. by vm_compute.
  - repeat constructor; by vm_compute.
Defined.
