(* ===== verification/Logging.v ===== *)
(** * The engine log router: src/src/logging.rs

    The [log] facade is process-global and installed by the application: its dispatch is a
    parameter, a call of user code that is given the record the [log] macros build. *)
From Stdlib Require Import ZArith Ascii.
From Stdlib Require String.
From stdpp Require Import base tactics option list gmap strings.
From S2P Require Import Prelude Text Nexus Ffi Effects.

(** [log::Level] *)
Inductive Level := Debug | Info | Warn | Error.
#[export] Instance Level_eq_dec : EqDecision Level.
Proof. solve_decision. Defined.

(** What a [log] macro hands the installed logger. *)
Record LogRecord := mkLogRecord { rec_level : Level; rec_target : string; rec_args : string }.

Definition LOG_TARGET : string := "llingr".

Section router.
Context {US : Type} (dispatch : LogRecord → UserCall US unit).

(** [<LogRouter as LogHandler>::log] *)
Definition LogRouter_log (level : LogLevel) (message : string) : UserCall US unit :=
  match level with
  | LogDebug => dispatch (mkLogRecord Debug LOG_TARGET message)
  | LogInfo => dispatch (mkLogRecord Info LOG_TARGET message)
  | LogWarn => dispatch (mkLogRecord Warn LOG_TARGET message)
  | LogError => dispatch (mkLogRecord Error LOG_TARGET message)
  end.
End router.

(** The bridge's level numbers. *)
Definition raw_level (l : Level) : Z :=
  match l with Debug => 0 | Info => 1 | Warn => 2 | Error => 3 end%Z.

Lemma LogLevel_raw_cases `{NexusLaws} {US} (dispatch : LogRecord → UserCall US unit) l msg :
  LogRouter_log dispatch (LogLevel_from_raw (raw_level l)) msg = dispatch (mkLogRecord l LOG_TARGET msg).
Proof. rewrite LogLevel_from_raw_spec. by destruct l. Qed.
