(* ===== verification/MetricsSink.v ===== *)
(** * The Prometheus telemetry: src/src/metrics.rs

    prometheus_client is a dependency: the shared state its families update is the type
    [Store] of the class [Prom], with the operations the sinks call and what the crate
    documents of them ([PromLaws]); [prom_ref] is a concrete instance. A time series is a
    metric name with its label set; the label structs are records, as in the source. The
    sinks are handlers in the sense of Effects.v with the store as the user state, so the
    engine installs them as the callbacks' handlers. An i64 subtraction that overflows
    panics where overflow checks are on and wraps where they are off: [overflow_checks]. *)
From Stdlib Require Import ZArith Ascii.
From Stdlib Require String.
From Stdlib.Floats Require Import SpecFloat.
From stdpp Require Import base tactics option list gmap strings.
From S2P Require Import Prelude Text Nexus Ffi Effects.
#[local] Open Scope Z_scope.

(** ** binary64 *)
Definition f64_of_Z (z : Z) : spec_float := binary_normalize 53 1024 z 0 false.
Definition f64_div (a b : spec_float) : spec_float := SFdiv 53 1024 a b.
(** The literal n/d, correctly rounded. *)
Definition f64_lit (n d : Z) : spec_float := f64_div (f64_of_Z n) (f64_of_Z d).

(** ** Constants *)
Definition OPENMETRICS_CONTENT_TYPE : string :=
  "application/openmetrics-text; version=1.0.0; charset=utf-8".
Definition NAMESPACE : string := "llingr".
Definition MESSAGE_SUBSYSTEM : string := "engine".
Definition BANDWIDTH_SUBSYSTEM : string := "bandwidth".
Definition UNKNOWN_COMPRESSION : string := "unknown".

(** ** Label sets *)
Record MessageLabels := mkMessageLabels {
  ml_topic : string; ml_consumer_group : string; ml_service : string; ml_team : string;
  ml_partition : Z;
}.
Record PartitionLabels := mkPartitionLabels {
  pl_topic : string; pl_consumer_group : string; pl_service : string; pl_team : string;
  pl_partition : Z;
}.
Record CompressionLabels := mkCompressionLabels {
  cl_topic : string; cl_consumer_group : string; cl_service : string; cl_team : string;
  cl_partition : Z; cl_compression : string;
}.
Record TopologyLabels := mkTopologyLabels {
  tl_topic : string; tl_consumer_group : string; tl_service : string; tl_team : string;
}.
Record BrokerInfoLabels := mkBrokerInfoLabels {
  bl_topic : string; bl_consumer_group : string; bl_service : string; bl_team : string;
  bl_broker_id : string; bl_broker_host : string; bl_broker_port : string; bl_broker_rack : string;
}.
Inductive Labels :=
  | LMessage (l : MessageLabels)
  | LPartition (l : PartitionLabels)
  | LCompression (l : CompressionLabels)
  | LTopology (l : TopologyLabels)
  | LBroker (l : BrokerInfoLabels).
#[export] Instance MessageLabels_eq_dec : EqDecision MessageLabels.
Proof. solve_decision. Defined.
#[export] Instance PartitionLabels_eq_dec : EqDecision PartitionLabels.
Proof. solve_decision. Defined.
#[export] Instance CompressionLabels_eq_dec : EqDecision CompressionLabels.
Proof. solve_decision. Defined.
#[export] Instance TopologyLabels_eq_dec : EqDecision TopologyLabels.
Proof. solve_decision. Defined.
#[export] Instance BrokerInfoLabels_eq_dec : EqDecision BrokerInfoLabels.
Proof. solve_decision. Defined.
#[export] Instance Labels_eq_dec : EqDecision Labels.
Proof. solve_decision. Defined.

(** A family's series: the registered name and the labels. *)
Definition Series : Type := string * Labels.

(** ** The registry: what is registered, in order *)
Inductive Kind := KCounter | KGauge | KFloatGauge | KHistogram (start factor : spec_float) (length : nat).
Record Registered := mkRegistered {
  reg_prefix : list string; reg_name : string; reg_help : string; reg_kind : Kind;
}.
Definition Registry : Type := list Registered.

(** ** The dependency *)
Class Prom := {
  Store : Type;
  counter_inc_by : Series → Z → Store → Store;
  gauge_set : Series → Z → Store → Store;
  fgauge_set : Series → spec_float → Store → Store;
  observe : Series → spec_float → Store → Store;
  counter_of : Store → Series → Z;
  gauge_of : Store → Series → option Z;
  fgauge_of : Store → Series → option spec_float;
  observed : Store → Series → list spec_float;
  encode : Registry → Store → string;
}.

(** Families are independent of each other; a counter is a u64 cell that only grows, up to
    its wrap-around; a gauge holds the last value set; a histogram records each
    observation. *)
Class PromLaws {PR : Prom} := {
  counter_of_u64 st s : in_u 64 (counter_of st s);
  counter_of_inc s n st s' :
    counter_of (counter_inc_by s n st) s' =
      if decide (s = s') then wrap_u 64 (counter_of st s + n) else counter_of st s';
  counter_of_gauge s v st s' : counter_of (gauge_set s v st) s' = counter_of st s';
  counter_of_fgauge s v st s' : counter_of (fgauge_set s v st) s' = counter_of st s';
  counter_of_observe s v st s' : counter_of (observe s v st) s' = counter_of st s';
  gauge_of_inc s n st s' : gauge_of (counter_inc_by s n st) s' = gauge_of st s';
  gauge_of_set s v st s' :
    gauge_of (gauge_set s v st) s' = if decide (s = s') then Some v else gauge_of st s';
  gauge_of_fgauge s v st s' : gauge_of (fgauge_set s v st) s' = gauge_of st s';
  gauge_of_observe s v st s' : gauge_of (observe s v st) s' = gauge_of st s';
  observed_inc s n st s' : observed (counter_inc_by s n st) s' = observed st s';
  observed_gauge s v st s' : observed (gauge_set s v st) s' = observed st s';
  observed_fgauge s v st s' : observed (fgauge_set s v st) s' = observed st s';
  observed_observe s v st s' :
    observed (observe s v st) s' =
      if decide (s = s') then observed st s ++ [v] else observed st s';
}.

(** A concrete client: four tables. *)
Record prom_store := mkPromStore {
  ps_counters : Series → Z; ps_gauges : Series → option Z;
  ps_fgauges : Series → option spec_float; ps_hists : Series → list spec_float;
}.
Definition upd {A} (f : Series → A) (s : Series) (a : A) : Series → A :=
  λ s', if decide (s = s') then a else f s'.
Definition prom_empty : prom_store := mkPromStore (λ _, 0) (λ _, None) (λ _, None) (λ _, []).
Definition prom_ref : Prom := {|
  Store := prom_store;
  counter_inc_by s n st := mkPromStore (upd (ps_counters st) s (wrap_u 64 (ps_counters st s + n)))
    (ps_gauges st) (ps_fgauges st) (ps_hists st);
  gauge_set s v st := mkPromStore (ps_counters st) (upd (ps_gauges st) s (Some v))
    (ps_fgauges st) (ps_hists st);
  fgauge_set s v st := mkPromStore (ps_counters st) (ps_gauges st)
    (upd (ps_fgauges st) s (Some v)) (ps_hists st);
  observe s v st := mkPromStore (ps_counters st) (ps_gauges st) (ps_fgauges st)
    (upd (ps_hists st) s (ps_hists st s ++ [v]));
  counter_of st s := wrap_u 64 (ps_counters st s); gauge_of := ps_gauges; fgauge_of := ps_fgauges; observed := ps_hists;
  encode reg st := str_concat (map reg_name reg);
|}.
Lemma prom_ref_laws : @PromLaws prom_ref.
Proof.
  split; try done.
  - intros st s. by apply wrap_u_range.
  - intros s n st s'. simpl. unfold upd. case_decide; [|done]. subst. unfold wrap_u.
    by rewrite Z.mod_mod, Zplus_mod_idemp_l by lia.
Qed.

(** [Metrics], the activation type: its mode. A registry-mode slot is the identity of the
    shared [OnceLock]. *)
Inductive Metrics := Serve (addr path : string) | RegistryMode (slot : nat).
Record MetricsHandle := mkMetricsHandle { handle_slot : nat }.
(** The contents of the [OnceLock]s. *)
Notation Slots := (gmap nat Registry).

Definition Metrics_serve (addr path : string) : Metrics := Serve addr path.
(** [Metrics::registry] allocates a fresh empty slot. *)
Definition Metrics_registry (fresh : nat) : Metrics * MetricsHandle :=
  (RegistryMode fresh, mkMetricsHandle fresh).

Record MessageOptions := mkMessageOptions {
  mo_topic : string; mo_consumer_group : string; mo_service : string; mo_team : string;
}.
Definition MessageOptions_new : MessageOptions := mkMessageOptions "" "" "" "".
Definition MessageOptions_topic (t : string) (o : MessageOptions) : MessageOptions :=
  mkMessageOptions t (mo_consumer_group o) (mo_service o) (mo_team o).
Definition MessageOptions_consumer_group (g : string) (o : MessageOptions) : MessageOptions :=
  mkMessageOptions (mo_topic o) g (mo_service o) (mo_team o).
Definition MessageOptions_service (name team : string) (o : MessageOptions) : MessageOptions :=
  mkMessageOptions (mo_topic o) (mo_consumer_group o) name team.

Record BandwidthOptions := mkBandwidthOptions { bo_service : string; bo_team : string }.
Definition BandwidthOptions_new : BandwidthOptions := mkBandwidthOptions "" "".
Definition BandwidthOptions_service (name team : string) (o : BandwidthOptions) : BandwidthOptions :=
  mkBandwidthOptions name team.

(** The sinks: the identity labels. The family handles are the registered names. *)
Record MessageSink := mkMessageSink {
  ms_topic : string; ms_consumer_group : string; ms_service : string; ms_team : string;
}.
Record BandwidthSink := mkBandwidthSink { bs_service : string; bs_team : string }.

Definition process_buckets : Kind := KHistogram (f64_lit 1 1000) (f64_of_Z 2) 15.
Definition queue_wait_buckets : Kind := KHistogram (f64_lit 1 10000) (f64_of_Z 2) 18.

Definition register (prefix : list string) (r : string * string * Kind) : Registered :=
  mkRegistered prefix r.1.1 r.1.2 r.2.

Definition MessageSink_register (registry : Registry) (o : MessageOptions) : Registry * MessageSink :=
  (registry ++ map (register [NAMESPACE; MESSAGE_SUBSYSTEM])
    [("processed", "Total number of messages processed", KCounter);
     ("errored", "Total number of messages that resulted in processing errors", KCounter);
     ("panicked", "Total number of messages where processing panicked", KCounter);
     ("dead_lettered", "Total number of messages sent to dead letter queue", KCounter);
     ("duplicate", "Total number of duplicate messages detected", KCounter);
     ("used_overflow",
      "Total messages that used guard channel overflow during worker acquisition", KCounter);
     ("queue_depth", "Current queue depth for buffering implementations", KGauge);
     ("current_offset", "Current offset being processed per partition", KGauge);
     ("process_duration_seconds", "Time spent processing messages", process_buckets);
     ("dead_letter_duration_seconds", "Time spent writing to dead letter queue", process_buckets);
     ("queue_wait_duration_seconds",
      "Time messages spent waiting in queue before processing", queue_wait_buckets)],
   mkMessageSink (mo_topic o) (mo_consumer_group o) (mo_service o) (mo_team o)).

Definition BandwidthSink_register (registry : Registry) (o : BandwidthOptions) : Registry * BandwidthSink :=
  (registry ++ map (register [NAMESPACE; BANDWIDTH_SUBSYSTEM])
    [("received_bytes", "Total bytes received by llingr consumer instances", KCounter);
     ("transmitted_bytes", "Total bytes transmitted by llingr consumer instances", KCounter);
     ("received_messages", "Total messages received by llingr consumer instances", KCounter);
     ("compressed_bytes",
      "Total compressed (wire) bytes received; zero when compression visibility is unavailable",
      KCounter);
     ("uncompressed_bytes",
      "Total uncompressed (decompressed) bytes received; zero when compression visibility is unavailable",
      KCounter);
     ("broker_count", "Number of brokers in the cluster at last collection", KGauge);
     ("partition_count", "Number of assigned partitions at last collection", KGauge);
     ("stats_interval_seconds", "Configured collection cadence in seconds", KFloatGauge);
     ("last_collection_timestamp_seconds",
      "Unix timestamp of the most recent bandwidth collection", KGauge);
     ("broker_info", "Broker topology at last collection (info metric, always 1.0)", KGauge)],
   mkBandwidthSink (bo_service o) (bo_team o)).

Definition MessageSink_labels (s : MessageSink) (partition : Z) : MessageLabels :=
  mkMessageLabels (ms_topic s) (ms_consumer_group s) (ms_service s) (ms_team s) partition.

(** An i64 subtraction: [None] is an overflow panic. *)
Definition i64_sub (overflow_checks : bool) (a b : Z) : option Z :=
  if decide (in_s 64 (a - b)) then Some (a - b)
  else if overflow_checks then None else Some (wrap_s 64 (a - b)).

Definition overflow_panic {US} : Payload US := mkPayload (λ u, (u, None)).

Section sinks.
Context {NX : Nexus} {PR : Prom} (overflow_checks : bool).

Definition when {A} (b : bool) (f : A → A) (a : A) : A := if b then f a else a.

(** [<MessageSink as MetricsHandler>::handle]: everything before the queue wait. *)
Definition MessageSink_record (s : MessageSink) (m : MessageMetrics) (st : Store) : Store :=
  let labels := LMessage (MessageSink_labels s (m_partition m)) in
  let traits := m_traits m in
  let st := counter_inc_by ("processed", labels) 1 st in
  let st := when (has_process_error traits) (counter_inc_by ("errored", labels) 1) st in
  let st := when (has_process_panic traits) (counter_inc_by ("panicked", labels) 1) st in
  let st := when (has_dead_letter traits) (counter_inc_by ("dead_lettered", labels) 1) st in
  let st := when (has_duplicate traits) (counter_inc_by ("duplicate", labels) 1) st in
  let st := when (has_used_overflow traits) (counter_inc_by ("used_overflow", labels) 1) st in
  let st := gauge_set ("queue_depth", labels) (m_queue_depth m) st in
  let st := gauge_set ("current_offset", labels) (m_offset m) st in
  let st := when (0 <? m_process_duration_ns m) (observe ("process_duration_seconds", labels)
              (f64_div (f64_of_Z (m_process_duration_ns m)) (f64_of_Z (10 ^ 9)))) st in
  when (0 <? m_deadletter_duration_ns m) (observe ("dead_letter_duration_seconds", labels)
    (f64_div (f64_of_Z (m_deadletter_duration_ns m)) (f64_of_Z (10 ^ 9)))) st.

Definition MessageSink_handle (s : MessageSink) (m : MessageMetrics) : UserCall Store unit := λ st,
  let labels := LMessage (MessageSink_labels s (m_partition m)) in
  let st := MessageSink_record s m st in
  if negb (m_read_time_ns m =? 0) && negb (m_process_start_time_ns m =? 0) then
    match i64_sub overflow_checks (m_process_start_time_ns m) (m_read_time_ns m) with
    | None => (st, UPanic overflow_panic)
    | Some wait_ns =>
      (when (0 <? wait_ns) (observe ("queue_wait_duration_seconds", labels)
         (f64_div (f64_of_Z wait_ns) (f64_of_Z (10 ^ 9)))) st, UDone tt)
    end
  else (st, UDone tt).

Definition BandwidthSink_compression_labels (s : BandwidthSink) (m : BandwidthMetrics)
    (p : PartitionBandwidth) : CompressionLabels :=
  mkCompressionLabels (bm_topic m) (bm_consumer_group m) (bs_service s) (bs_team s) (pb_id p)
    (if String.eqb (pb_compression p) "" then UNKNOWN_COMPRESSION else pb_compression p).

Definition BandwidthSink_partition_labels (s : BandwidthSink) (m : BandwidthMetrics)
    (p : PartitionBandwidth) : PartitionLabels :=
  mkPartitionLabels (bm_topic m) (bm_consumer_group m) (bs_service s) (bs_team s) (pb_id p).

(** The body of the broker loop. *)
Definition BandwidthSink_broker (s : BandwidthSink) (m : BandwidthMetrics) (st : Store) (b : BrokerInfo) : Store :=
  gauge_set ("broker_info", LBroker (mkBrokerInfoLabels (bm_topic m) (bm_consumer_group m)
    (bs_service s) (bs_team s) (broker_id b) (broker_host b) (broker_port b) (broker_rack b))) 1 st.

(** The body of the partition loop. *)
Definition BandwidthSink_partition (s : BandwidthSink) (m : BandwidthMetrics) (st : Store)
    (p : PartitionBandwidth) : Store :=
  let labels := LPartition (BandwidthSink_partition_labels s m p) in
  let clabels := LCompression (BandwidthSink_compression_labels s m p) in
  let add := λ name l (v : Z) st, when (0 <? v) (counter_inc_by (name, l) (wrap_u 64 v)) st in
  let st := add "received_bytes" labels (pb_received_bytes p) st in
  let st := add "transmitted_bytes" labels (pb_transmitted_bytes p) st in
  let st := add "received_messages" labels (pb_received_message_count p) st in
  let st := add "compressed_bytes" clabels (pb_compressed_bytes p) st in
  add "uncompressed_bytes" clabels (pb_uncompressed_bytes p) st.

(** [<BandwidthSink as BandwidthMetricsHandler>::handle] *)
Definition BandwidthSink_handle (s : BandwidthSink) (m : BandwidthMetrics) : UserCall Store unit := λ st,
  let topology := LTopology (mkTopologyLabels (bm_topic m) (bm_consumer_group m) (bs_service s) (bs_team s)) in
  let st := gauge_set ("broker_count", topology) (wrap_s 64 (Z.of_nat (length (bm_brokers m)))) st in
  let st := gauge_set ("partition_count", topology) (wrap_s 64 (Z.of_nat (length (bm_partitions m)))) st in
  let st := fgauge_set ("stats_interval_seconds", topology)
              (f64_div (f64_of_Z (bm_stats_interval_ms m)) (f64_of_Z 1000)) st in
  let st := when (negb (bm_ts_unix_ns m =? 0)) (gauge_set ("last_collection_timestamp_seconds", topology)
              (Z.quot (bm_ts_unix_ns m) 1000000000)) st in
  let st := foldl (BandwidthSink_broker s m) st (bm_brokers m) in
  (foldl (BandwidthSink_partition s m) st (bm_partitions m), UDone tt).

(** ** Activation *)
Definition scrape (registry : Registry) (st : Store) : string := encode registry st.

Definition MetricsHandle_scrape (h : MetricsHandle) (slots : Slots) (st : Store) : string :=
  match slots !! handle_slot h with Some registry => scrape registry st | None => "" end.
End sinks.

(** ** The scrape endpoint *)
Record ExporterHandle := mkExporterHandle {
  ex_stop : bool; ex_unblocked : nat; ex_join : option (); ex_addr : string; ex_path : string;
  ex_registry : Registry;
}.

Definition ExporterHandle_shutdown (h : ExporterHandle) : ExporterHandle :=
  mkExporterHandle true (S (ex_unblocked h)) None (ex_addr h) (ex_path h) (ex_registry h).

(** [Server::http(addr)] is a parameter: [Some e] is a bind error and its text. *)
Definition serve_exposition (bind : string → option string) (registry : Registry) (addr path : string) :
    ExporterHandle + string :=
  match bind addr with
  | Some e => inr e
  | None => inl (mkExporterHandle false 0 (Some tt) addr path registry)
  end.

Record RealisedMetrics := mkRealisedMetrics {
  message_sink : MessageSink; bandwidth_sink : BandwidthSink; exporter : option ExporterHandle;
}.

(** [OnceLock::set]: the first value stays. *)
Definition once_set (slot : nat) (r : Registry) (slots : Slots) : Slots :=
  match slots !! slot with Some _ => slots | None => <[slot := r]> slots end.

Definition Metrics_realise (bind : string → option string) (m : Metrics)
    (topic consumer_group service team : string) (slots : Slots) : Slots * (RealisedMetrics + string) :=
  let '(registry, ms) := MessageSink_register []
    (MessageOptions_service service team
      (MessageOptions_consumer_group consumer_group (MessageOptions_topic topic MessageOptions_new))) in
  let '(registry, bs) := BandwidthSink_register registry
    (BandwidthOptions_service service team BandwidthOptions_new) in
  match m with
  | Serve addr path =>
    match serve_exposition bind registry addr path with
    | inl h => (slots, inl (mkRealisedMetrics ms bs (Some h)))
    | inr e => (slots, inr ("metrics endpoint failed to bind " +:+ addr +:+ ": " +:+ e))
    end
  | RegistryMode slot => (once_set slot registry slots, inl (mkRealisedMetrics ms bs None))
  end.

(** What [recv_timeout] returns. *)
Inductive Event {PR : Prom} :=
  | EvRequest (is_get : bool) (url : string) (now : Store)
  | EvTimeout
  | EvClosed.

(** tiny_http is a dependency: its responses and what the endpoint calls of them. The laws
    are its documented builders: a text response is a 200 with that body, a status code
    replaces the status only, a Content-Type header replaces the content type only. What
    content type a text response has by default is the library's. *)
Class Http := {
  Response : Type;
  from_string : string → Response;
  with_status_code : Z → Response → Response;
  with_content_type : string → Response → Response;
  status : Response → Z;
  body : Response → string;
  content_type : Response → option string;
}.
Class HttpLaws `{!Http} := {
  status_from_string s : status (from_string s) = 200;
  body_from_string s : body (from_string s) = s;
  status_with_status_code z r : status (with_status_code z r) = z;
  body_with_status_code z r : body (with_status_code z r) = body r;
  content_type_with_status_code z r : content_type (with_status_code z r) = content_type r;
  status_with_content_type t r : status (with_content_type t r) = status r;
  body_with_content_type t r : body (with_content_type t r) = body r;
  content_type_with_content_type t r : content_type (with_content_type t r) = Some t;
}.
Definition http_ref : Http := {|
  Response := Z * string * option string;
  from_string s := (200, s, Some "text/plain; charset=UTF-8");
  with_status_code z r := (z, r.1.2, r.2);
  with_content_type t r := (r.1.1, r.1.2, Some t);
  status r := r.1.1; body r := r.1.2; content_type r := r.2;
|}.
Lemma http_ref_laws : @HttpLaws http_ref.
Proof. by split. Qed.

(** [url.split('?').next().unwrap_or("")] *)
Fixpoint before_query (url : string) : string :=
  match url with
  | "" => ""
  | String c url => if Ascii.eqb c "?" then "" else String c (before_query url)
  end.

Section serve_loop.
Context {PR : Prom} {HT : Http} (registry : Registry) (path : string).

Definition serve_response (is_get : bool) (url : string) (now : Store) : Response :=
  let request_path := before_query url in
  if negb is_get then with_status_code 405 (from_string "")
  else if String.eqb request_path path
  then with_content_type OPENMETRICS_CONTENT_TYPE (from_string (scrape registry now))
  else with_status_code 404 (from_string "").

(** The server thread: per iteration, the stop flag as loaded and what was received. The
    result is the responses sent and whether the thread has ended. *)
Fixpoint serve_loop (iterations : list (bool * Event)) : list Response * bool :=
  match iterations with
  | [] => ([], false)
  | (stop, ev) :: iterations =>
    if stop then ([], true)
    else match ev with
         | EvRequest is_get url now =>
           let '(rs, ended) := serve_loop iterations in
           (serve_response is_get url now :: rs, ended)
         | EvTimeout => serve_loop iterations
         | EvClosed => ([], true)
         end
  end.
End serve_loop.
