(* ===== verification/MetricsProps.v ===== *)
(** * What the Prometheus sinks and the scrape endpoint promise

    The counters count, for every sequence of packets; the latency histograms observe
    exactly the positive durations; the endpoint answers each request once; the activation
    publishes the registry it built. *)
From Stdlib Require Import ZArith Ascii.
From Stdlib Require String.
From Stdlib.Floats Require Import SpecFloat.
From stdpp Require Import base tactics option list gmap strings.
From S2P Require Import Prelude Text Nexus Ffi Effects MetricsSink.
#[local] Open Scope Z_scope.

(** Handling a sequence of packets. A panicking handler keeps what it recorded. *)
Definition run_sink {P S} (handle : P → UserCall S unit) (packets : list P) (st : S) : S :=
  foldl (λ st p, (handle p st).1) st packets.

Lemma run_sink_cons {P S} (handle : P → UserCall S unit) p ps st :
  run_sink handle (p :: ps) st = run_sink handle ps (handle p st).1.
Proof. done. Qed.

Definition b2z (b : bool) : Z := if b then 1 else 0.

Section counting.
Context {NX : Nexus} {PR : Prom} {PL : PromLaws} (overflow_checks : bool).

(** The six message counters and the condition each counts. *)
Definition message_counters : list (string * (Traits → bool)) :=
  [("processed", λ _, true); ("errored", has_process_error); ("panicked", has_process_panic);
   ("dead_lettered", has_dead_letter); ("duplicate", has_duplicate);
   ("used_overflow", has_used_overflow)].

Definition packet_counts (cond : Traits → bool) (partition : Z) (m : MessageMetrics) : bool :=
  bool_decide (m_partition m = partition) && cond (m_traits m).

Lemma counter_of_wrap st s : wrap_u 64 (counter_of st s) = counter_of st s.
Proof. apply wrap_u_small, counter_of_u64. Qed.

Lemma counter_of_when b s n st s' :
  counter_of (when b (counter_inc_by s n) st) s' =
    if decide (s = s') then wrap_u 64 (counter_of st s + (if b then n else 0)) else counter_of st s'.
Proof.
  unfold when. destruct b; [apply counter_of_inc|]. case_decide; [|done]. subst.
  by rewrite Z.add_0_r, counter_of_wrap.
Qed.
Lemma counter_of_when_observe b s v st s' :
  counter_of (when b (observe s v) st) s' = counter_of st s'.
Proof. unfold when. destruct b; [apply counter_of_observe|done]. Qed.

Lemma counter_of_queue_wait s m st series :
  counter_of (MessageSink_handle overflow_checks s m st).1 series =
    counter_of (MessageSink_record s m st) series.
Proof.
  unfold MessageSink_handle. case_match; [|done]. case_match; [|done]. simpl.
  apply counter_of_when_observe.
Qed.

Lemma series_decide {A} (n n' : string) (L : Labels) (a b : A) :
  (if decide ((n, L) = (n', L)) then a else b) = if String.eqb n n' then a else b.
Proof.
  destruct (String.eqb_spec n n') as [->|Hn]; [by rewrite decide_True|].
  rewrite decide_False; [done|]. intros [= ?]. by apply Hn.
Qed.

Lemma labels_eq_iff s p q :
  LMessage (MessageSink_labels s p) = LMessage (MessageSink_labels s q) ↔ p = q.
Proof. unfold MessageSink_labels. naive_solver. Qed.

(** One packet moves each of its partition's counters by its condition. *)
Lemma message_counter_step s m st name cond p :
  (name, cond) ∈ message_counters →
  counter_of (MessageSink_handle overflow_checks s m st).1 (name, LMessage (MessageSink_labels s p)) =
    wrap_u 64 (counter_of st (name, LMessage (MessageSink_labels s p)) + b2z (packet_counts cond p m)).
Proof.
  intros Hin. rewrite counter_of_queue_wait. unfold MessageSink_record, packet_counts.
  rewrite !counter_of_when_observe, !counter_of_gauge, !counter_of_when, !counter_of_inc.
  unfold b2z.
  destruct (decide (m_partition m = p)) as [->|Hp].
  - rewrite bool_decide_eq_true_2 by done.
    set (L := LMessage _). unfold message_counters in Hin.
    repeat (apply elem_of_cons in Hin as [Hin|Hin];
      [injection Hin as -> ->; by rewrite !series_decide; simpl|]).
    by apply not_elem_of_nil in Hin.
  - rewrite bool_decide_eq_false_2 by done.
    assert (∀ n n' : string, (n, LMessage (MessageSink_labels s (m_partition m))) ≠
      (n', LMessage (MessageSink_labels s p))) as Hne
      by (intros n n' [= _ ?]; by apply Hp).
    rewrite !decide_False by apply Hne. simpl. by rewrite Z.add_0_r, counter_of_wrap.
Qed.

(** The number of packets of one partition that meet a condition. *)
Definition packets_counted (cond : Traits → bool) (partition : Z) (ms : list MessageMetrics) : Z :=
  foldr (λ m n, b2z (packet_counts cond partition m) + n) 0 ms.

(** The two message gauges and the field each shows. *)
Definition message_gauges : list (string * (MessageMetrics → Z)) :=
  [("queue_depth", m_queue_depth); ("current_offset", m_offset)].
(** What a gauge shows after a sequence of packets: the field of the partition's last one. *)
Definition last_shown (value : MessageMetrics → Z) (partition : Z) (ms : list MessageMetrics) (before : option Z) : option Z :=
  match last (filter (λ m, m_partition m = partition) ms) with Some m => Some (value m) | None => before end.

Lemma gauge_of_when_inc b s n st s' : gauge_of (when b (counter_inc_by s n) st) s' = gauge_of st s'.
Proof. unfold when. destruct b; [apply gauge_of_inc|done]. Qed.
Lemma gauge_of_when_observe b s v st s' : gauge_of (when b (observe s v) st) s' = gauge_of st s'.
Proof. unfold when. destruct b; [apply gauge_of_observe|done]. Qed.

(** One packet sets its partition's gauges. *)
Lemma message_gauge_step s m st name value p :
  (name, value) ∈ message_gauges →
  gauge_of (MessageSink_handle overflow_checks s m st).1 (name, LMessage (MessageSink_labels s p)) =
    if decide (m_partition m = p) then Some (value m)
    else gauge_of st (name, LMessage (MessageSink_labels s p)).
Proof.
  intros Hin.
  assert (∀ series, gauge_of (MessageSink_handle overflow_checks s m st).1 series =
    gauge_of (MessageSink_record s m st) series) as ->.
  { intros series. unfold MessageSink_handle. case_match; [|done]. case_match; [|done]. apply gauge_of_when_observe. }
  unfold MessageSink_record. rewrite !gauge_of_when_observe, !gauge_of_set, !gauge_of_when_inc, gauge_of_inc.
  destruct (decide (m_partition m = p)) as [->|Hp].
  - rewrite !series_decide. unfold message_gauges in Hin.
    repeat (apply elem_of_cons in Hin as [Hin|Hin]; [by injection Hin as -> ->|]). by apply not_elem_of_nil in Hin.
  - rewrite !decide_False; [done|..]; intros [= _ ?]; by apply Hp.
Qed.

Lemma last_shown_cons value p m ms g :
  last_shown value p (m :: ms) g =
    last_shown value p ms (if decide (m_partition m = p) then Some (value m) else g).
Proof.
  unfold last_shown. rewrite filter_cons. case_decide; [|done]. rewrite last_cons.
  by destruct (last (filter _ ms)).
Qed.

(** C19: The message counters count and the gauges follow: after any sequence of packets,
    starting from any store, each of the six counters of a partition has grown by exactly
    the number of the partition's packets whose traits report its condition (all packets,
    for [processed]), modulo 2^64, and the queue depth and the offset shown for a partition
    are those of its last packet, untouched when it had none, even when handling some
    packet panicked. *)
Theorem message_counters_count s (ms : list MessageMetrics) st p :
  (∀ name cond, (name, cond) ∈ message_counters →
     counter_of (run_sink (MessageSink_handle overflow_checks s) ms st)
       (name, LMessage (MessageSink_labels s p)) =
     wrap_u 64 (counter_of st (name, LMessage (MessageSink_labels s p)) + packets_counted cond p ms)) ∧
  (∀ name value, (name, value) ∈ message_gauges →
     gauge_of (run_sink (MessageSink_handle overflow_checks s) ms st)
       (name, LMessage (MessageSink_labels s p)) =
     last_shown value p ms (gauge_of st (name, LMessage (MessageSink_labels s p)))).
Proof.
  split.
  - intros name cond Hin. revert st. induction ms as [|m ms IH]; intros st.
    { simpl. by rewrite Z.add_0_r, counter_of_wrap. }
    rewrite run_sink_cons, IH, (message_counter_step _ _ _ _ _ _ Hin). unfold wrap_u. simpl.
    rewrite Zplus_mod_idemp_l. f_equal. lia.
  - intros name value Hin. revert st. induction ms as [|m ms IH]; intros st; [done|].
    by rewrite run_sink_cons, IH, last_shown_cons, (message_gauge_step _ _ _ _ _ _ Hin).
Qed.

(** The series a packet observes are those of its own partition. *)
Definition queue_wait (m : MessageMetrics) : Z := m_process_start_time_ns m - m_read_time_ns m.
Definition stamped (m : MessageMetrics) : bool :=
  negb (m_read_time_ns m =? 0) && negb (m_process_start_time_ns m =? 0).

Definition seconds (ns : Z) : spec_float := f64_div (f64_of_Z ns) (f64_of_Z (10 ^ 9)).

Lemma observed_when b s v st s' :
  observed (when b (observe s v) st) s' =
    observed st s' ++ (if b && bool_decide (s = s') then [v] else []).
Proof.
  unfold when. destruct b; simpl; [|by rewrite app_nil_r]. rewrite observed_observe.
  case_decide; [subst; by rewrite bool_decide_eq_true_2|].
  by rewrite bool_decide_eq_false_2, app_nil_r.
Qed.
Lemma observed_when_inc b s n st s' : observed (when b (counter_inc_by s n) st) s' = observed st s'.
Proof. unfold when. destruct b; [apply observed_inc|done]. Qed.

Lemma observed_record s m st name p :
  observed (MessageSink_record s m st) (name, LMessage (MessageSink_labels s p)) =
    observed st (name, LMessage (MessageSink_labels s p)) ++
    (if bool_decide (m_partition m = p) then
       (if (0 <? m_process_duration_ns m) && String.eqb "process_duration_seconds" name
        then [seconds (m_process_duration_ns m)] else []) ++
       (if (0 <? m_deadletter_duration_ns m) && String.eqb "dead_letter_duration_seconds" name
        then [seconds (m_deadletter_duration_ns m)] else [])
     else []).
Proof.
  unfold MessageSink_record. rewrite !observed_when, !observed_gauge, !observed_when_inc, observed_inc.
  assert (∀ n : string, bool_decide ((n, LMessage (MessageSink_labels s (m_partition m))) =
    (name, LMessage (MessageSink_labels s p))) = bool_decide (m_partition m = p) && String.eqb n name) as Hd.
  { intros n. destruct (String.eqb_spec n name) as [->|Hn].
    - rewrite andb_true_r. apply bool_decide_ext. split; [by intros [= ?]|by intros ->].
    - rewrite andb_false_r. apply bool_decide_eq_false_2. intros [= ? _]. by apply Hn. }
  rewrite !Hd, <-app_assoc. f_equal. destruct (bool_decide (m_partition m = p)); simpl; [done|].
  by rewrite !andb_false_r.
Qed.

(** C31: Latencies: the process and dead-letter histograms observe a packet's duration,
    in seconds as a binary64 quotient, exactly when it is positive; the queue wait is
    observed exactly when both timestamps are set and their difference, wrapped to i64, is
    positive, except that in a build with overflow checks a difference outside i64 panics
    before anything is observed. Two clock readings that are not negative never overflow:
    the difference is then the exact one and the handler returns in every build. *)
Theorem message_latencies s m st name :
  let series := (name, LMessage (MessageSink_labels s (m_partition m))) in
  let '(st', r) := MessageSink_handle overflow_checks s m st in
  let overflows := negb (bool_decide (in_s 64 (queue_wait m))) in
  r = (if stamped m && overflows && overflow_checks then UPanic overflow_panic else UDone tt) ∧
  observed st' series = observed st series ++
    (if (0 <? m_process_duration_ns m) && String.eqb "process_duration_seconds" name
     then [seconds (m_process_duration_ns m)] else []) ++
    (if (0 <? m_deadletter_duration_ns m) && String.eqb "dead_letter_duration_seconds" name
     then [seconds (m_deadletter_duration_ns m)] else []) ++
    (if stamped m && negb (overflows && overflow_checks) && (0 <? wrap_s 64 (queue_wait m))
        && String.eqb "queue_wait_duration_seconds" name
     then [seconds (wrap_s 64 (queue_wait m))] else []) ∧
  (0 ≤ m_process_start_time_ns m < 2 ^ 63 → 0 ≤ m_read_time_ns m < 2 ^ 63 →
     overflows = false ∧ wrap_s 64 (queue_wait m) = queue_wait m).
Proof.
  intros series. unfold MessageSink_handle.
  pose proof (observed_record s m st name (m_partition m)) as Ho.
  rewrite bool_decide_eq_true_2 in Ho by done. fold series in Ho.
  assert (0 ≤ m_process_start_time_ns m < 2 ^ 63 → 0 ≤ m_read_time_ns m < 2 ^ 63 →
    in_s 64 (queue_wait m)) as Hok by (unfold in_s, queue_wait; simpl; lia).
  assert (∀ st' w, observed st' series = observed (MessageSink_record s m st) series →
    observed (when (0 <? w) (observe ("queue_wait_duration_seconds", LMessage (MessageSink_labels s (m_partition m)))
      (seconds w)) st') series = observed (MessageSink_record s m st) series ++
      (if (0 <? w) && String.eqb "queue_wait_duration_seconds" name then [seconds w] else [])) as Hw.
  { intros st' w Hst. rewrite observed_when, Hst. do 2 f_equal. unfold series.
    destruct (String.eqb_spec "queue_wait_duration_seconds" name) as [<-|Hn].
    - by rewrite bool_decide_eq_true_2.
    - rewrite bool_decide_eq_false_2 by (intros [= ?]; by apply Hn). done. }
  unfold stamped. destruct (negb (m_read_time_ns m =? 0) && negb (m_process_start_time_ns m =? 0)); cbn [andb].
  - unfold i64_sub. fold (queue_wait m). destruct (decide (in_s 64 (queue_wait m))) as [Hin|Hin].
    + rewrite (bool_decide_eq_true_2 _ Hin), (wrap_s_small 64 (queue_wait m)) by done.
      cbn [negb andb]. split_and!; [done| |done]. by rewrite Hw, Ho, <-!app_assoc.
    + rewrite (bool_decide_eq_false_2 _ Hin). destruct overflow_checks; cbn [negb andb];
        (split_and!; [done| |intros; by destruct Hin; apply Hok]).
      * by rewrite Ho, app_nil_r.
      * by rewrite Hw, Ho, <-!app_assoc.
  - split_and!; [done|by rewrite Ho, app_nil_r|]. intros ? ?.
    assert (in_s 64 (queue_wait m)) as Hin by auto.
    split; [by rewrite (bool_decide_eq_true_2 _ Hin)|by apply wrap_s_small].
Qed.

(** The queue-wait subtraction is the only panic of the message sink, and it needs
    overflow checks, both timestamps set and a difference outside i64; without overflow
    checks the difference wraps and the handler returns. *)
Theorem message_sink_panics_iff s m st :
  (∃ p, (MessageSink_handle overflow_checks s m st).2 = UPanic p) ↔
  overflow_checks = true ∧ stamped m = true ∧ ¬ in_s 64 (queue_wait m).
Proof.
  unfold MessageSink_handle, stamped, queue_wait, i64_sub.
  destruct (negb (m_read_time_ns m =? 0) && negb (m_process_start_time_ns m =? 0)); [|naive_solver].
  case_decide; [naive_solver|]. destruct overflow_checks; naive_solver.
Qed.

(** ** Bandwidth *)
(** The five bandwidth counters, the field each adds up, and its labels. *)
Definition bandwidth_counters : list (string * (PartitionBandwidth → Z) * bool) :=
  [("received_bytes", pb_received_bytes, false); ("transmitted_bytes", pb_transmitted_bytes, false);
   ("received_messages", pb_received_message_count, false);
   ("compressed_bytes", pb_compressed_bytes, true); ("uncompressed_bytes", pb_uncompressed_bytes, true)].

Definition bandwidth_labels (s : BandwidthSink) (m : BandwidthMetrics) (compressed : bool)
    (p : PartitionBandwidth) : Labels :=
  if compressed then LCompression (BandwidthSink_compression_labels s m p)
  else LPartition (BandwidthSink_partition_labels s m p).

(** The positive deltas that one packet has for one label set. *)
Definition partition_delta (s : BandwidthSink) (m : BandwidthMetrics) (field : PartitionBandwidth → Z)
    (compressed : bool) (L : Labels) (p : PartitionBandwidth) : Z :=
  if bool_decide (bandwidth_labels s m compressed p = L) then Z.max 0 (field p) else 0.
Definition packet_delta s m field compressed L : Z :=
  foldr (λ p n, partition_delta s m field compressed L p + n) 0 (bm_partitions m).

Lemma series_decide_labels {A} (n : string) (L L' : Labels) (a b : A) :
  (if decide ((n, L) = (n, L')) then a else b) = if decide (L = L') then a else b.
Proof. repeat case_decide; naive_solver. Qed.

Lemma partition_counter_step s m st p name field compressed L :
  (name, field, compressed) ∈ bandwidth_counters → in_s 64 (field p) →
  counter_of (BandwidthSink_partition s m st p) (name, L) =
    wrap_u 64 (counter_of st (name, L) + partition_delta s m field compressed L p).
Proof.
  intros Hin Hf. unfold BandwidthSink_partition, partition_delta. rewrite !counter_of_when.
  assert (∀ (L' : Labels) (n n' : string) (x y : Z), n ≠ n' → (if decide ((n, L') = (n', L)) then x else y) = y) as Hne.
  { intros L' n n' x y Hn. rewrite decide_False; [done|]. intros [= ? _]. by apply Hn. }
  assert (∀ (v : Z) st' L', in_s 64 v → (if decide (L' = L) then
      wrap_u 64 (counter_of st' (name, L') + (if 0 <? v then wrap_u 64 v else 0)) else counter_of st' (name, L)) =
    wrap_u 64 (counter_of st' (name, L) + if bool_decide (L' = L) then Z.max 0 v else 0)) as Heq.
  { intros v st' L' [_ Hv]. case_decide as E.
    - subst. rewrite bool_decide_eq_true_2 by done. do 2 f_equal. destruct (Z.ltb_spec 0 v); [|lia].
      rewrite wrap_u_small; [lia|]. unfold in_u. simpl in *. lia.
    - rewrite bool_decide_eq_false_2 by done. by rewrite Z.add_0_r, counter_of_wrap. }
  unfold bandwidth_counters in Hin.
  repeat (apply elem_of_cons in Hin as [Hin|Hin];
    [injection Hin as -> -> ->; rewrite ?series_decide_labels, ?Hne by done; by apply Heq|]).
  by apply not_elem_of_nil in Hin.
Qed.

Lemma bandwidth_counter_step s m st name field compressed L :
  (name, field, compressed) ∈ bandwidth_counters → Forall (λ p, in_s 64 (field p)) (bm_partitions m) →
  counter_of (BandwidthSink_handle s m st).1 (name, L) =
    wrap_u 64 (counter_of st (name, L) + packet_delta s m field compressed L).
Proof.
  intros Hin HF. unfold BandwidthSink_handle, packet_delta. simpl.
  set (topology := LTopology _).
  assert (∀ bs st, counter_of (foldl (BandwidthSink_broker s m) st bs) (name, L) = counter_of st (name, L)) as Hb.
  { clear -PL. induction bs as [|b bs IH]; intros st; simpl; [done|]. rewrite IH. apply counter_of_gauge. }
  assert (∀ st', counter_of st' (name, L) = counter_of st (name, L) →
    counter_of (foldl (BandwidthSink_partition s m) st' (bm_partitions m)) (name, L) =
    wrap_u 64 (counter_of st (name, L) + foldr (λ p n, partition_delta s m field compressed L p + n) 0 (bm_partitions m))) as Hp.
  { intros st' <-. revert st'. induction HF as [|p ps Hp HF IH]; intros st'; simpl.
    - by rewrite Z.add_0_r, counter_of_wrap.
    - rewrite IH, (partition_counter_step _ _ _ _ _ _ _ _ Hin Hp). unfold wrap_u.
      rewrite Zplus_mod_idemp_l. f_equal. lia. }
  apply Hp. rewrite Hb. unfold when.
  case_match; rewrite ?counter_of_gauge, counter_of_fgauge, !counter_of_gauge; done.
Qed.

(** C20: The bandwidth counters add up: after any sequence of packets each of the five
    counters has grown, for every label set, by the sum of the positive deltas of the
    partitions with those labels, modulo 2^64; zero and negative deltas add nothing and
    an empty compression name counts as "unknown". *)
Theorem bandwidth_counters_add_up s (ms : list BandwidthMetrics) st name field compressed L :
  (name, field, compressed) ∈ bandwidth_counters →
  Forall (λ m, Forall (λ p, in_s 64 (field p)) (bm_partitions m)) ms →
  counter_of (run_sink (BandwidthSink_handle s) ms st) (name, L) =
    wrap_u 64 (counter_of st (name, L) + foldr (λ m n, packet_delta s m field compressed L + n) 0 ms).
Proof.
  intros Hin HF. revert st. induction HF as [|m ms Hm HF IH]; intros st.
  { simpl. by rewrite Z.add_0_r, counter_of_wrap. }
  rewrite run_sink_cons, IH, (bandwidth_counter_step _ _ _ _ _ _ _ Hin Hm). unfold wrap_u. simpl.
  rewrite Zplus_mod_idemp_l. f_equal. lia.
Qed.
End counting.

Section endpoint.
Context {PR : Prom} {HT : Http}.

(** The iterations the server thread lives through: up to the stop flag or the close. *)
Fixpoint live_requests (iterations : list (bool * Event)) : list (bool * string * Store) :=
  match iterations with
  | [] => []
  | (true, _) :: _ => []
  | (false, EvClosed) :: _ => []
  | (false, EvTimeout) :: its => live_requests its
  | (false, EvRequest g u now) :: its => (g, u, now) :: live_requests its
  end.

(** The reference routing: method first, then the path up to any query. *)
Definition route (path : string) (is_get : bool) (url : string) : Z :=
  if is_get
  then if bool_decide (url = path ∨ String.prefix (path +:+ "?") url = true) then 200 else 404
  else 405.

Lemma before_query_split url :
  ∃ rest, url = before_query url +:+ rest ∧ (rest = "" ∨ ∃ q, rest = String "?" q).
Proof.
  induction url as [|c url (rest & IH & Hr)]; [exists ""; by auto|]. cbn [before_query].
  destruct (Ascii.eqb_spec c "?") as [->|Hc].
  - exists (String "?" url). eauto.
  - exists rest. split; [by rewrite sapp_cons, <-IH|done].
Qed.

Lemma before_query_free path : str_all (λ c, negb (Ascii.eqb c "?")) path = true →
  ∀ rest, rest = "" ∨ (∃ q, rest = String "?" q) → before_query (path +:+ rest) = path.
Proof.
  induction path as [|c path IH]; intros Hp rest Hr.
  - destruct Hr as [->|[q ->]]; done.
  - cbn [str_all] in Hp. apply andb_true_iff in Hp as [Hc Hp]. rewrite sapp_cons. cbn [before_query].
    apply negb_true_iff in Hc. by rewrite Hc, IH.
Qed.

Lemma serve_response_route `{!HttpLaws} registry path is_get url now :
  str_all (λ c, negb (Ascii.eqb c "?")) path = true →
  status (serve_response registry path is_get url now) = route path is_get url.
Proof.
  intros Hp. unfold serve_response, route. destruct is_get; [|apply status_with_status_code]. simpl.
  destruct (String.eqb_spec (before_query url) path) as [Hb|Hb].
  - rewrite bool_decide_eq_true_2; [by rewrite status_with_content_type, status_from_string|].
    destruct (before_query_split url) as (rest & Hu & [->|[q ->]]); rewrite Hu, Hb.
    + left. apply sapp_nil_r.
    + right. apply prefix_spec. exists q. by rewrite sapp_assoc.
  - rewrite bool_decide_eq_false_2; [by rewrite status_with_status_code|]. intros [->|[u ->]%prefix_spec].
    + apply Hb. rewrite <-(sapp_nil_r path) at 1. apply before_query_free; auto.
    + apply Hb. rewrite sapp_assoc. apply before_query_free; eauto.
Qed.

(** C32: The scrape endpoint answers every request it receives before it stops exactly
    once and in order, and nothing after: for a configured path without a question mark,
    405 for any method but GET, 200 with the current exposition and the OpenMetrics content
    type for that path with or without a query string, 404 for any other path; the two
    refusals are empty text responses, with whatever content type tiny_http gives those. *)
Theorem serve_loop_answers {HL : HttpLaws} registry path iterations :
  str_all (λ c, negb (Ascii.eqb c "?")) path = true →
  Forall2 (λ '(is_get, url, now) r,
      status r = route path is_get url ∧
      (status r = 200 → body r = scrape registry now ∧ content_type r = Some OPENMETRICS_CONTENT_TYPE) ∧
      (status r ≠ 200 → body r = "" ∧ content_type r = content_type (from_string "")))
    (live_requests iterations) (serve_loop registry path iterations).1.
Proof.
  intros Hp. induction iterations as [|[[] ev] its IH]; [constructor|constructor|].
  destruct ev as [g u now| |]; simpl; [|done|constructor].
  destruct (serve_loop registry path its) as [rs e]. simpl in *. constructor; [|done].
  split; [by apply serve_response_route|].
  unfold serve_response. destruct g; simpl; [|by rewrite status_with_status_code, body_with_status_code,
    content_type_with_status_code, body_from_string].
  case_match.
  - by rewrite status_with_content_type, status_from_string, body_with_content_type,
      body_from_string, content_type_with_content_type.
  - by rewrite status_with_status_code, body_with_status_code, content_type_with_status_code, body_from_string.
Qed.

(** The endpoint's thread ends: once the stop flag is raised, or the server closed,
    the loop returns at the next iteration whatever else is pending, and shutting the
    handle down twice (a stop followed by the drop) raises the flag, leaves nothing to
    join and changes nothing else. *)
Theorem endpoint_stops registry path before ev after h :
  (serve_loop registry path (before ++ (true, ev) :: after)).2 = true ∧
  (serve_loop registry path (before ++ (true, ev) :: after)).1 = (serve_loop registry path before).1 ∧
  ex_stop (ExporterHandle_shutdown h) = true ∧ ex_join (ExporterHandle_shutdown h) = None ∧
  ex_join (ExporterHandle_shutdown (ExporterHandle_shutdown h)) = ex_join (ExporterHandle_shutdown h).
Proof.
  split_and!; try done.
  - induction before as [|[[] e] before IH]; simpl; [done|done|].
    destruct e; [|done|done]. by destruct (serve_loop registry path (before ++ _)).
  - induction before as [|[[] e] before IH]; simpl; [done|done|].
    destruct e; [|done|done].
    destruct (serve_loop registry path (before ++ _)), (serve_loop registry path before).
    simpl in *. by rewrite IH.
Qed.

(** The full names under which the series are exposed. *)
Definition full_name (r : Registered) : string := str_join "_" (reg_prefix r ++ [reg_name r]).

(** C40: Realising the metrics registers the eleven message series and the ten bandwidth
    series under distinct names, stamps both sinks with the consumer's identity, and then
    either publishes that registry to the caller's handle, whose exposition was empty
    until then, or binds the endpoint; a bind failure publishes nothing and names the
    address. *)
Theorem realise_publishes bind m topic group service team slots now :
  let '(slots', r) := Metrics_realise bind m topic group service team slots in
  match r with
  | inl rm =>
    message_sink rm = mkMessageSink topic group service team ∧
    bandwidth_sink rm = mkBandwidthSink service team ∧
    ∃ registry, length registry = 21%nat ∧ NoDup (map full_name registry) ∧
      match m with
      | Serve addr path => slots' = slots ∧ bind addr = None ∧
          ∃ h, exporter rm = Some h ∧ ex_registry h = registry ∧ ex_path h = path ∧ ex_stop h = false
      | RegistryMode slot => exporter rm = None ∧
          (slots !! slot = None →
            MetricsHandle_scrape (mkMetricsHandle slot) slots now = "" ∧
            MetricsHandle_scrape (mkMetricsHandle slot) slots' now = scrape registry now) ∧
          (∀ other, other ≠ slot → slots' !! other = slots !! other)
      end
  | inr e => slots' = slots ∧ ∃ addr path err, m = Serve addr path ∧ bind addr = Some err ∧
      e = "metrics endpoint failed to bind " +:+ addr +:+ ": " +:+ err
  end.
Proof.
  unfold Metrics_realise. cbn [MessageSink_register BandwidthSink_register].
  set (registry := (_ ++ _ : Registry)).
  assert (length registry = 21%nat ∧ NoDup (map full_name registry)) as [Hlen Hnd].
  { split; [done|]. apply (bool_decide_unpack _). by vm_compute. }
  clearbody registry. destruct m as [addr path|slot].
  - unfold serve_exposition. destruct (bind addr) as [e|] eqn:Hb; [naive_solver|].
    split_and!; [done..|]. exists registry. split_and!; [done..|]. by eexists.
  - split_and!; [done..|]. exists registry. split_and!; [done..| |].
    + intros Hs. unfold MetricsHandle_scrape, once_set. simpl. by rewrite Hs, lookup_insert_eq.
    + intros other Ho. unfold once_set. case_match; [done|]. by rewrite lookup_insert_ne.
Qed.
End endpoint.

(** ** Witnesses *)
#[local] Existing Instance nexus_ref.
#[local] Existing Instance prom_ref.
#[local] Existing Instance prom_ref_laws.
#[local] Existing Instance http_ref.
#[local] Existing Instance http_ref_laws.

Definition prom_start : @Store prom_ref := prom_empty.
Definition sink0 : MessageSink := mkMessageSink "orders" "g" "svc" "team".
Definition packet (traits partition read start : Z) : MessageMetrics :=
  mkMetrics traits 0 partition 5 1500000000 0 read start 0.

Lemma message_counters_count_witness :
  counter_of (run_sink (MessageSink_handle true sink0) [packet 1 7 0 0; packet 5 7 10 30; packet 1 8 0 0] prom_start)
    ("errored", LMessage (MessageSink_labels sink0 7)) = 2.
Proof.
  rewrite (proj1 (message_counters_count true sink0 [packet 1 7 0 0; packet 5 7 10 30; packet 1 8 0 0] prom_start 7)
    "errored" has_process_error); [by vm_compute|].
  right. left.
Defined.

(** Two ordinary clock readings: the difference is exact and even a checked build returns. *)
Lemma message_latencies_witness :
  (MessageSink_handle true sink0 (packet 1 7 30 10) prom_start).2 = UDone tt ∧
  wrap_s 64 (queue_wait (packet 1 7 30 10)) = queue_wait (packet 1 7 30 10).
Proof.
  pose proof (message_latencies true sink0 (packet 1 7 30 10) prom_start "queue_wait_duration_seconds") as H.
  cbv zeta in H. destruct (MessageSink_handle true sink0 (packet 1 7 30 10) prom_start) as [st' r].
  destruct H as (Hr & _ & Hin). destruct Hin as [Ho Hw]; [by split; vm_compute|by split; vm_compute|].
  split; [|exact Hw]. rewrite Ho, andb_false_r in Hr. exact Hr.
Defined.

Definition packet_bw (d : Z) : BandwidthMetrics :=
  mkBandwidthMetrics 0 60000 "" "orders" "g" []
    [mkPartitionBandwidth 0 d 0 0 0 0 3 "" ""; mkPartitionBandwidth 0 10 0 0 0 0 3 "" "lz4"].

Lemma bandwidth_counters_add_up_witness :
  counter_of (run_sink (BandwidthSink_handle (mkBandwidthSink "svc" "team")) [packet_bw 5; packet_bw (-7)] prom_start)
    ("received_bytes", LPartition (mkPartitionLabels "orders" "g" "svc" "team" 3)) = 25.
Proof.
  rewrite (bandwidth_counters_add_up (mkBandwidthSink "svc" "team") [packet_bw 5; packet_bw (-7)] prom_start
    "received_bytes" pb_received_bytes false); [by vm_compute|left|].
  repeat constructor; by vm_compute.
Defined.

Lemma serve_loop_answers_witness :
  Forall2 (λ '(is_get, url, now) r, status r = route "/metrics" is_get url)
    [(true, "/metrics?x=1", prom_start)]
    (serve_loop [] "/metrics" [(false, EvRequest true "/metrics?x=1" prom_start); (true, EvTimeout)]).1.
Proof.
  pose proof (serve_loop_answers [] "/metrics"
    [(false, EvRequest true "/metrics?x=1" prom_start); (true, EvTimeout)] eq_refl) as H.
  eapply Forall2_impl; [exact H|]. intros [[g u] n] r Hr. exact (proj1 Hr).
Defined.
