(* ===== verification/Engine.v ===== *)
(** * The engine: src/src/engine.rs

    [Builder] and its setters, [build] as a transition of the process-wide state (the init
    guard, the published handler set, the callbacks registered with the bridge, the metrics
    slots and bound endpoints), and the methods of [Llingr] over the bridge's C API. The Go
    bridge is a parameter: [Bridge] gives its ABI version and what [llingr_init] logs and
    answers. The lock makes one [build] atomic; EngineConcurrency.v models the threads. *)
From Stdlib Require Import ZArith NArith Ascii.
From Stdlib Require String.
From stdpp Require Import base tactics option list gmap strings.
From S2P Require Import Prelude Text Json Nexus Options Config Ffi Effects Logging MetricsSink.

(** ** Errors *)
Record LlingrError := mkLlingrError { le_message : string; le_code : Z }.
#[export] Instance LlingrError_eq_dec : EqDecision LlingrError.
Proof. solve_decision. Defined.

Definition LlingrError_new (code : Z) (message : string) : LlingrError := mkLlingrError message code.
Definition LlingrError_code (e : LlingrError) : Z := le_code e.
(** [Display] *)
Definition LlingrError_fmt (e : LlingrError) : string :=
  "llingr error " +:+ dec_Z (le_code e) +:+ ": " +:+ le_message e.

Definition INIT_ERR_CAP : nat := 1024.

Definition abi_mismatch_error (expected reported : Z) : LlingrError :=
  LlingrError_new (-1) ("llingr ABI mismatch: crate expects " +:+ dec_Z expected
    +:+ ", library reports " +:+ dec_Z reported +:+ " (rebuild libllingr to match this crate)").

(** [init_failure_text]: [None] is the panic of slicing [err_buf] past its end. *)
Definition init_failure_text (rc : Z) (err_buf : string) (err_len : Z) : option string :=
  if (0 <? err_len)%Z then
    if (err_len <=? Z.of_nat (String.length err_buf))%Z
    then Some (from_utf8_lossy (str_take (Z.to_nat err_len) err_buf))
    else None
  else
    Some (match rc with
          | -1 => "already initialised"
          | -2 => "invalid configuration JSON"
          | -3 => "missing required config (brokers, topic, or consumer_group)"
          | -4 => "failed to create adapter or connect to broker"
          | -5 => "invalid adapter or engine option"
          | _ => "unknown initialisation error"
          end%Z).

Definition run_result (rc : Z) : unit + LlingrError :=
  match rc with
  | 0 => inl tt
  | -1 => inr (LlingrError_new rc "engine not initialised")
  | -2 => inr (LlingrError_new rc "subscribe failed")
  | -3 => inr (LlingrError_new rc "engine panicked (recovered at FFI boundary)")
  | _ => inr (LlingrError_new rc "unknown runtime error")
  end%Z.

(** ** Snapshots over the FFI *)
(** [CStr::from_ptr(p)]: the bytes up to the NUL; [None] reads unmapped memory. The fuel
    bounds the string's length. *)
Fixpoint read_cstr (fuel : nat) (m : mem) (p : Z) : option string :=
  match fuel with
  | O => None
  | S fuel =>
    b ← m !! p;
    if Ascii.eqb b "000" then Some "" else s ← read_cstr fuel m (p + 1); Some (String b s)
  end.

(** The result and the pointers handed back to [llingr_free_string]; [None] is undefined
    behaviour. *)
Definition take_snapshot_json (fuel : nat) (m : mem) (ptr : Z) : option ((string + LlingrError) * list Z) :=
  if (ptr =? 0)%Z then Some (inr (LlingrError_new (-1) "engine not initialised"), [])
  else
    bytes ← read_cstr fuel m ptr;
    Some (inl (from_utf8_lossy bytes), [ptr]).

Fixpoint remove_one (x : string) (l : list string) : list string :=
  match l with
  | [] => []
  | y :: l => if decide (x = y) then l else y :: remove_one x l
  end.

Section engine.
Context {NX : Nexus} {PR : Prom}.
(** The application's own state next to the metric store. *)
Context {A : Type}.
Notation US := (A * Store)%type.
Context (overflow_checks : bool) (dispatch : LogRecord → UserCall US unit).

(** ** Builder *)
Record Builder := mkBuilder {
  b_topic : string;
  b_broker : BrokerConfig;
  b_demux : DemuxConfig;
  b_service : option (string * string);
  b_bandwidth_stats_interval : option Duration;
  b_bandwidth_flush_interval : option Duration;
  b_metrics : option Metrics;
  b_process : Message → UserCall US (Traits + UserError US);
  b_dead_letter : Message → string → UserCall US (unit + UserError US);
  b_shutdown : option (string → UserCall US unit);
}.

Definition Builder_new (topic : string) (process : Message → UserCall US (Traits + UserError US))
    (dead_letter : Message → string → UserCall US (unit + UserError US)) : Builder :=
  mkBuilder topic BrokerConfig_new DemuxConfig_new None None None None process dead_letter None.

Definition with_broker (self : Builder) (b : BrokerConfig) : Builder :=
  mkBuilder (b_topic self) b (b_demux self) (b_service self) (b_bandwidth_stats_interval self)
    (b_bandwidth_flush_interval self) (b_metrics self) (b_process self) (b_dead_letter self) (b_shutdown self).
Definition Builder_brokers (self : Builder) (brokers : string) : Builder :=
  with_broker self (BrokerConfig_brokers (b_broker self) brokers).
Definition Builder_consumer_group (self : Builder) (group : string) : Builder :=
  with_broker self (BrokerConfig_consumer_group (b_broker self) group).
Definition Builder_options (self : Builder) (o : Options) : Builder :=
  with_broker self (BrokerConfig_adapter_options (b_broker self) o).
Definition Builder_demux (self : Builder) (config : DemuxConfig) : Builder :=
  mkBuilder (b_topic self) (b_broker self) config (b_service self) (b_bandwidth_stats_interval self)
    (b_bandwidth_flush_interval self) (b_metrics self) (b_process self) (b_dead_letter self) (b_shutdown self).
Definition Builder_service (self : Builder) (name team : string) : Builder :=
  mkBuilder (b_topic self) (b_broker self) (b_demux self) (Some (name, team)) (b_bandwidth_stats_interval self)
    (b_bandwidth_flush_interval self) (b_metrics self) (b_process self) (b_dead_letter self) (b_shutdown self).
Definition Builder_metrics (self : Builder) (metrics : Metrics) : Builder :=
  mkBuilder (b_topic self) (b_broker self) (b_demux self) (b_service self) (b_bandwidth_stats_interval self)
    (b_bandwidth_flush_interval self) (Some metrics) (b_process self) (b_dead_letter self) (b_shutdown self).
Definition Builder_bandwidth_stats_interval (self : Builder) (d : Duration) : Builder :=
  mkBuilder (b_topic self) (b_broker self) (b_demux self) (b_service self) (Some d)
    (b_bandwidth_flush_interval self) (b_metrics self) (b_process self) (b_dead_letter self) (b_shutdown self).
Definition Builder_bandwidth_flush_interval (self : Builder) (d : Duration) : Builder :=
  mkBuilder (b_topic self) (b_broker self) (b_demux self) (b_service self) (b_bandwidth_stats_interval self)
    (Some d) (b_metrics self) (b_process self) (b_dead_letter self) (b_shutdown self).
Definition Builder_shutdown (self : Builder) (handler : string → UserCall US unit) : Builder :=
  mkBuilder (b_topic self) (b_broker self) (b_demux self) (b_service self) (b_bandwidth_stats_interval self)
    (b_bandwidth_flush_interval self) (b_metrics self) (b_process self) (b_dead_letter self) (Some handler).

(** ** The process-wide state *)
(** [Handlers] with the exporter the set keeps alive. *)
Record HandlerSet := mkHandlerSet { hs_handlers : Handlers US; hs_exporter : option ExporterHandle }.

Inductive Callback := OnProcess | OnDeadLetter | OnMetrics | OnShutdown | OnLog | OnBandwidth.
#[export] Instance Callback_eq_dec : EqDecision Callback.
Proof. solve_decision. Defined.
(** One [llingr_on_*] call: the bridge copies its set and fills one slot ([setCallback] of
    bridge/main.go). Nothing ever empties a slot, a failed [llingr_init] included; a
    successful one seals the set, and [build] registers nothing after it. *)
Definition setCallback (set : list Callback) (cb : Callback) : list Callback :=
  if decide (cb ∈ set) then set else set ++ [cb].

Record Proc := mkProc {
  p_inited : bool;                   (* *INIT_LOCK *)
  p_handlers : option HandlerSet;    (* HANDLERS *)
  p_registered : list Callback;      (* the slots of the bridge's callbackSet that are set *)
  p_slots : Slots;                   (* the registry-mode OnceLocks *)
  p_bound : list string;             (* addresses held by live exporters *)
  p_user : US;
}.

(** The Go bridge: the version the library reports and the reply of [llingr_init] to a
    document and its length: the log lines it emits (level, bytes), the return code, the
    error buffer and the error length. *)
Record InitReply := mkInitReply {
  ir_log : list (Z * string); ir_rc : Z; ir_buf : string; ir_len : Z;
}.
Record Bridge := mkBridge {
  br_abi_version : Z;
  br_init : string → Z → InitReply;
}.

(** Binding an address: the operating system's answer, given the addresses in use. *)
Context (os_bind : list string → string → option string).

Inductive BuildResult := Built | Failed (e : LlingrError) | BuildPanicked.

(** A store-only handler as a handler of the whole user state. *)
Fixpoint lift_payload (p : Payload Store) : Payload US :=
  match p with
  | mkPayload d => mkPayload (λ u,
      match d u.2 with
      | (st, None) => ((u.1, st), None)
      | (st, Some p) => ((u.1, st), Some (lift_payload p))
      end)
  end.
Definition lift_store {R} (c : UserCall Store R) : UserCall US R := λ u,
  match c u.2 with
  | (st, UDone r) => ((u.1, st), UDone r)
  | (st, UPanic p) => ((u.1, st), UPanic (lift_payload p))
  end.

(** Dropping a handler set drops its exporter, which stops its server and frees the
    address. *)
Definition release (ex : option ExporterHandle) (bound : list string) : list string :=
  match ex with
  | Some h => remove_one (ex_addr h) bound
  | None => bound
  end.
Definition hold (ex : option ExporterHandle) (bound : list string) : list string :=
  match ex with Some h => ex_addr h :: bound | None => bound end.

Definition make_handlers (self : Builder) (realised : option RealisedMetrics) : Handlers US :=
  mkHandlers (b_topic self) (b_process self) (Some (b_dead_letter self))
    ((λ r m, lift_store (MessageSink_handle overflow_checks (message_sink r) m)) <$> realised)
    (b_shutdown self)
    (Some (LogRouter_log dispatch))
    ((λ r m, lift_store (BandwidthSink_handle (bandwidth_sink r) m)) <$> realised).

Definition callbacks (bandwidth_enabled : bool) : list Callback :=
  [OnProcess; OnDeadLetter; OnMetrics; OnShutdown; OnLog] ++
  (if bandwidth_enabled then [OnBandwidth] else []).
Definition register_callbacks (bandwidth_enabled : bool) (set : list Callback) : list Callback :=
  foldl setCallback set (callbacks bandwidth_enabled).

(** A log line the bridge emits on the init thread ([emitLog] of bridge/main.go): dropped
    unless a log callback is registered, else through the log trampoline to the published
    set's handler; a panic of the logger stays inside the trampoline. *)
Definition deliver_log (s : Proc) (u : US) (line : Z * string) : US :=
  if decide (OnLog ∈ p_registered s) then
    match p_handlers s ≫= (λ hs, log (hs_handlers hs)) with
    | Some lh =>
      match lh (LogLevel_from_raw line.1) (from_utf8_lossy line.2) u with
      | (u, UDone _) => u
      | (u, UPanic p) => (Payload_drop p u).1
      end
    | None => u
    end
  else u.

Definition set_p_user (u : US) (s : Proc) : Proc :=
  mkProc (p_inited s) (p_handlers s) (p_registered s) (p_slots s) (p_bound s) u.

(** [self.metrics.take()] and the realisation. *)
Definition build_metrics (self : Builder) (s : Proc) : Proc * (option RealisedMetrics + LlingrError) :=
  match b_metrics self with
  | None => (s, inl None)
  | Some metrics =>
    let '(service, team) := default ("", "") (b_service self) in
    match Metrics_realise (os_bind (p_bound s)) metrics (b_topic self)
            (BrokerConfig_consumer_group_value (b_broker self)) service team (p_slots s) with
    | (slots, inl r) =>
      (mkProc (p_inited s) (p_handlers s) (p_registered s) slots (hold (exporter r) (p_bound s)) (p_user s),
       inl (Some r))
    | (slots, inr e) => (s, inr (LlingrError_new (-6) e))
    end
  end.

(** Registration and [llingr_init], with the rollback of a failed init. *)
Definition build_init (br : Bridge) (json : string) (bandwidth_enabled : bool) (s : Proc) : Proc * BuildResult :=
  let s := mkProc (p_inited s) (p_handlers s) (register_callbacks bandwidth_enabled (p_registered s))
             (p_slots s) (p_bound s) (p_user s) in
  let reply := br_init br json (wrap_s 32 (Z.of_nat (String.length json))) in
  let s := set_p_user (foldl (deliver_log s) (p_user s) (ir_log reply)) s in
  if negb (ir_rc reply =? 0)%Z then
    let published := p_handlers s in
    let s := mkProc (p_inited s) None (p_registered s) (p_slots s)
               (release (published ≫= hs_exporter) (p_bound s)) (p_user s) in
    match init_failure_text (ir_rc reply) (ir_buf reply) (ir_len reply) with
    | Some text => (s, Failed (LlingrError_new (ir_rc reply) text))
    | None => (s, BuildPanicked)
    end
  else
    (mkProc true (p_handlers s) (p_registered s) (p_slots s) (p_bound s) (p_user s), Built).

(** [HANDLERS.swap] and the guard against a set that is already published. *)
Definition build_publish (br : Bridge) (self : Builder) (json : string)
    (realised : option RealisedMetrics) (s : Proc) : Proc * BuildResult :=
  let set := mkHandlerSet (make_handlers self realised) (realised ≫= exporter) in
  match p_handlers s with
  | Some _ =>
    (mkProc (p_inited s) (p_handlers s) (p_registered s) (p_slots s)
       (release (hs_exporter set) (p_bound s)) (p_user s),
     Failed (LlingrError_new (-1) "handler set already published"))
  | None =>
    build_init br json (bool_decide (is_Some realised))
      (mkProc (p_inited s) (Some set) (p_registered s) (p_slots s) (p_bound s) (p_user s))
  end.

Definition build_json (self : Builder) : string :=
  config_json (b_topic self) (b_broker self) (b_demux self) (b_service self)
    (b_bandwidth_stats_interval self) (b_bandwidth_flush_interval self).

(** [Builder::build] *)
Definition build (br : Bridge) (self : Builder) (s : Proc) : Proc * BuildResult :=
  match BrokerConfig_deferred_error (b_broker self) with
  | Some message => (s, Failed (LlingrError_new (-5) message))
  | None =>
    if negb (br_abi_version br =? LLINGR_ABI_VERSION)%Z
    then (s, Failed (abi_mismatch_error LLINGR_ABI_VERSION (br_abi_version br)))
    else if p_inited s
    then (s, Failed (LlingrError_new (-1) "only one llingr instance per process"))
    else
      let json := build_json self in
      if negb (str_all not_nul json)
      then (s, Failed (LlingrError_new (-2) "configuration contains an interior NUL byte"))
      else
        match build_metrics self s with
        | (s, inr e) => (s, Failed e)
        | (s, inl realised) => build_publish br self json realised s
        end
  end.

(** A process before its first build. *)
Definition fresh (u : US) : Proc := mkProc false None [] ∅ [] u.

(** Successive builds (the lock serialises them), each with the bridge it meets. *)
Fixpoint build_all (l : list (Bridge * Builder)) (s : Proc) : Proc * list BuildResult :=
  match l with
  | [] => (s, [])
  | (br, b) :: l =>
    let '(s, r) := build br b s in
    let '(s, rs) := build_all l s in (s, r :: rs)
  end.

(** ** [Llingr] *)
(** The C calls the methods make. *)
Inductive FfiCall := CallRun | CallStop | CallEmergencyStop (reason : string) (len : Z).
Definition Llingr_run (rc : Z) : list FfiCall * (unit + LlingrError) := ([CallRun], run_result rc).
Definition Llingr_stop : list FfiCall := [CallStop].
Definition Llingr_stopper : list FfiCall := [CallStop].
Definition request_emergency_stop (reason : string) : list FfiCall :=
  [CallEmergencyStop reason (wrap_s 32 (Z.of_nat (String.length reason)))].
Definition Llingr_emergency_stop (reason : string) : list FfiCall := request_emergency_stop reason.
Definition Llingr_snapshot_json := take_snapshot_json.

(** [Llingr::snapshot]: [from_json] is the snapshot parser with its error's text. *)
Definition Llingr_snapshot {T} (from_json : string → T + string) (fuel : nat) (m : mem) (ptr : Z) :
    option ((T + LlingrError) * list Z) :=
  '(r, freed) ← take_snapshot_json fuel m ptr;
  Some (match r with
        | inr e => inr e
        | inl json =>
          match from_json json with
          | inl t => inl t
          | inr e => inr (LlingrError_new (-2) ("snapshot document did not parse: " +:+ e))
          end
        end, freed).
End engine.
Arguments Builder {NX PR} A.
Arguments Proc {NX PR} A.
Arguments HandlerSet {NX PR} A.
