(* ===== verification/EngineProps.v ===== *)
(** * What building an engine promises

    The process-wide state is consistent after every build, successful or not: a failed
    build can be retried, at most one succeeds, and the dead branches are dead. *)
From Stdlib Require Import ZArith NArith Ascii.
From Stdlib Require String.
From stdpp Require Import base tactics option list gmap strings.
From S2P Require Import Prelude Text Json Nexus Options Config Ffi Effects Logging MetricsSink Engine.

Section build.
Context {NX : Nexus} {PR : Prom} {A : Type}.
Notation US := (A * Store)%type.
Context (overflow_checks : bool) (dispatch : LogRecord → UserCall US unit).
Context (os_bind : list string → string → option string).
Notation build := (build overflow_checks dispatch os_bind).
Notation build_all := (build_all overflow_checks dispatch os_bind).
Notation build_init := (build_init (A := A)).
Implicit Types (s : Proc A) (b : Builder A) (br : Bridge).

(** The lock's flag and the published set agree. *)
Definition proc_wf s : Prop := p_inited s = true ↔ is_Some (p_handlers s).

(** Registration only adds. *)
Lemma elem_setCallback set cb x : x ∈ setCallback set cb ↔ x ∈ set ∨ x = cb.
Proof. unfold setCallback. case_decide; set_solver. Qed.
Lemma elem_register bw set x : x ∈ register_callbacks bw set ↔ x ∈ set ∨ x ∈ callbacks bw.
Proof.
  unfold register_callbacks. generalize (callbacks bw) as l. intros l. revert set.
  induction l as [|cb l IH]; intros set; [set_solver|]. cbn [foldl].
  rewrite IH, elem_setCallback. set_solver.
Qed.
Lemma log_registered bw set : OnLog ∈ register_callbacks bw set.
Proof. apply elem_register. right. unfold callbacks. set_solver. Qed.

Lemma release_hold ex bound : release ex (hold ex bound) = bound.
Proof. destruct ex as [h|]; [|done]. simpl. by rewrite decide_True. Qed.

(** What the outcome of [build_init] on a freshly published set is. *)
Lemma build_init_cases br json bw s :
  p_inited s = false →
  let '(s', r) := build_init br json bw s in
  let reply := br_init br json (wrap_s 32 (Z.of_nat (String.length json))) in
  p_registered s' = register_callbacks bw (p_registered s) ∧ p_slots s' = p_slots s ∧
  (ir_rc reply = 0%Z ∧ r = Built ∧ p_inited s' = true ∧ p_handlers s' = p_handlers s ∧ p_bound s' = p_bound s ∨
   ir_rc reply ≠ 0%Z ∧ p_inited s' = false ∧ p_handlers s' = None ∧
     p_bound s' = release (p_handlers s ≫= hs_exporter) (p_bound s) ∧
     r = match init_failure_text (ir_rc reply) (ir_buf reply) (ir_len reply) with
         | Some text => Failed (LlingrError_new (ir_rc reply) text)
         | None => BuildPanicked
         end).
Proof.
  intros Hi. unfold build_init. cbn zeta. set (reply := br_init br json _).
  destruct (Z.eqb_spec (ir_rc reply) 0) as [E|E]; simpl.
  - split_and!; [done|done|]. left. by split_and!.
  - destruct (init_failure_text _ _ _); (split_and!; [done|done|]); right; by split_and!.
Qed.

Lemma wf_unpublished s : proc_wf s → p_inited s = false → p_handlers s = None.
Proof.
  intros [_ Hwf] Hi. destruct (p_handlers s); [|done]. by rewrite Hwf in Hi.
Qed.

Lemma build_metrics_ok b s s1 rm :
  build_metrics os_bind b s = (s1, inl rm) →
  p_inited s1 = p_inited s ∧ p_handlers s1 = p_handlers s ∧
  p_bound s1 = hold (rm ≫= exporter) (p_bound s) ∧ p_user s1 = p_user s ∧ p_registered s1 = p_registered s.
Proof.
  unfold build_metrics. destruct (b_metrics b) as [metrics|]; [|by intros [= <- <-]].
  destruct (default ("", "") (b_service b)) as [service team].
  destruct (Metrics_realise _ _ _ _ _ _ _) as [slots [rm'|e]]; by intros [= <- <-].
Qed.

Lemma build_metrics_err b s s1 e : build_metrics os_bind b s = (s1, inr e) → s1 = s.
Proof.
  unfold build_metrics. destruct (b_metrics b) as [metrics|]; [|done].
  destruct (default ("", "") (b_service b)) as [service team].
  destruct (Metrics_realise _ _ _ _ _ _ _) as [slots [rm'|e']]; by intros [= <- <-].
Qed.

(** [build] on a consistent state, by its decision table. *)
Lemma build_cases br b s :
  proc_wf s →
  let '(s', r) := build br b s in
  (∃ m, bc_deferred_error (b_broker b) = Some m ∧ s' = s ∧ r = Failed (LlingrError_new (-5) m)) ∨
  (bc_deferred_error (b_broker b) = None ∧ br_abi_version br ≠ LLINGR_ABI_VERSION ∧ s' = s ∧
     r = Failed (abi_mismatch_error LLINGR_ABI_VERSION (br_abi_version br))) ∨
  (bc_deferred_error (b_broker b) = None ∧ br_abi_version br = LLINGR_ABI_VERSION ∧ p_inited s = true ∧
     s' = s ∧ r = Failed (LlingrError_new (-1) "only one llingr instance per process")) ∨
  (bc_deferred_error (b_broker b) = None ∧ br_abi_version br = LLINGR_ABI_VERSION ∧ p_inited s = false ∧
     (∃ e, (build_metrics os_bind b s).2 = inr e ∧ s' = s ∧ r = Failed e)) ∨
  (bc_deferred_error (b_broker b) = None ∧ br_abi_version br = LLINGR_ABI_VERSION ∧ p_inited s = false ∧
     (∃ s1 rm, build_metrics os_bind b s = (s1, inl rm) ∧
        p_inited s1 = false ∧ p_handlers s1 = None ∧ p_bound s1 = hold (rm ≫= exporter) (p_bound s) ∧
        p_user s1 = p_user s ∧ p_registered s1 = p_registered s ∧
        (s', r) = build_init br (build_json b) (bool_decide (is_Some rm))
          (mkProc (p_inited s1)
             (Some (mkHandlerSet (make_handlers overflow_checks dispatch b rm) (rm ≫= exporter)))
             (p_registered s1) (p_slots s1) (p_bound s1) (p_user s1)))).
Proof.
  intros Hwf. destruct (build br b s) as [s' r] eqn:Eb. cbn iota.
  unfold Engine.build, BrokerConfig_deferred_error in Eb.
  destruct (bc_deferred_error (b_broker b)) as [m|]; [injection Eb as <- <-; left; eauto|right].
  destruct (Z.eqb_spec (br_abi_version br) LLINGR_ABI_VERSION) as [E|E]; cbn [negb] in Eb;
    [right|injection Eb as <- <-; left; by split_and!].
  destruct (p_inited s) eqn:Hi; [injection Eb as <- <-; left; by split_and!|right].
  assert (p_handlers s = None) as Hh by (by apply wf_unpublished).
  unfold build_json at 1 in Eb. rewrite config_json_nul_free in Eb. cbn [negb] in Eb.
  destruct (build_metrics os_bind b s) as [s1 [rm|e]] eqn:Em.
  - right. destruct (build_metrics_ok _ _ _ _ Em) as (Hi1 & Hh1 & Hb1 & Hu1 & Hr1).
    unfold build_publish in Eb. rewrite Hh1, Hh in Eb.
    split_and!; [done..|]. exists s1, rm. split_and!; congruence.
  - left. split_and!; [done..|]. exists e. injection Eb as <- <-.
    by rewrite (build_metrics_err _ _ _ _ Em).
Qed.

Lemma build_wf br b s s' r :
  proc_wf s → build br b s = (s', r) →
  proc_wf s' ∧ (r = Built → p_inited s = false ∧ p_inited s' = true) ∧
  (r ≠ Built → p_inited s' = p_inited s ∧ p_handlers s' = p_handlers s ∧ p_bound s' = p_bound s ∧
     (p_inited s = true → s' = s)).
Proof.
  intros Hwf E. pose proof (build_cases br b s Hwf) as Hc. rewrite E in Hc.
  destruct Hc as [(m & _ & -> & ->)|[(_ & _ & -> & ->)|[(_ & _ & Hi & -> & ->)|[(_ & _ & Hi & e & _ & -> & ->)|
    (_ & _ & Hi & s1 & rm & _ & Hi1 & Hh1 & Hb1 & Hu1 & _ & Hinit)]]]]; try done.
  assert (p_handlers s = None) as Hh by (by apply wf_unpublished).
  pose proof (build_init_cases br (build_json b) (bool_decide (is_Some rm))
    (mkProc (p_inited s1) (Some (mkHandlerSet (make_handlers overflow_checks dispatch b rm) (rm ≫= exporter)))
      (p_registered s1) (p_slots s1) (p_bound s1) (p_user s1)) Hi1) as Hc.
  rewrite <-Hinit in Hc. cbn zeta in Hc. simpl in Hc.
  destruct Hc as (_ & _ & [(_ & -> & Hi' & Hh' & _)|(_ & Hi' & Hh' & Hb' & Hr)]).
  - split_and!; [|done|done]. unfold proc_wf. rewrite Hi', Hh'. naive_solver.
  - rewrite Hb1, release_hold in Hb'. split_and!.
    + unfold proc_wf. rewrite Hi', Hh'. split; [done|]. by intros [].
    + intros ->. by case_match.
    + intros _. rewrite Hi', Hh', Hb', Hi, Hh. done.
Qed.

Lemma fresh_wf (u : US) : proc_wf (fresh u).
Proof. split; [done|]. by intros []. Qed.

Lemma build_all_cons br b l s :
  build_all ((br, b) :: l) s =
    let '(s1, r) := build br b s in let '(s2, rs) := build_all l s1 in (s2, r :: rs).
Proof. done. Qed.

Lemma build_inited br b s s' r :
  proc_wf s → p_inited s = true → build br b s = (s', r) → s' = s ∧ r ≠ Built.
Proof.
  intros Hwf Hi E. destruct (build_wf _ _ _ _ _ Hwf E) as (_ & Hb & Hf).
  assert (r ≠ Built) as Hr by (intros Hr; destruct (Hb Hr); congruence).
  split; [|done]. by apply Hf.
Qed.

Lemma build_all_inited l s s' rs :
  proc_wf s → p_inited s = true → build_all l s = (s', rs) → s' = s ∧ Built ∉ rs.
Proof.
  revert s s' rs. induction l as [|[br b] l IH]; intros s s' rs Hwf Hi E.
  { injection E as <- <-. split; [done|]. apply not_elem_of_nil. }
  rewrite build_all_cons in E.
  destruct (build br b s) as [s1 r] eqn:E1. destruct (build_inited _ _ _ _ _ Hwf Hi E1) as [-> Hr].
  destruct (build_all l s) as [s2 rs2] eqn:E2. injection E as <- <-.
  destruct (IH _ _ _ Hwf Hi E2) as [-> Hn]. split; [done|]. rewrite elem_of_cons. naive_solver.
Qed.

Lemma build_all_wf l s s' rs : proc_wf s → build_all l s = (s', rs) → proc_wf s'.
Proof.
  revert s s' rs. induction l as [|[br b] l IH]; intros s s' rs Hwf E; [by injection E as <- <-|].
  rewrite build_all_cons in E. destruct (build br b s) as [s1 r] eqn:E1.
  destruct (build_all l s1) as [s2 rs2] eqn:E2. injection E as <- <-.
  eapply IH; [|done]. by eapply build_wf.
Qed.

(** C7: A failed build leaves nothing behind: from any consistent process state, whatever
    failed (validation, the ABI, a second instance, the metrics bind, the bridge, even a
    panic while reading its error text), the init guard, the published handler set and
    the bound endpoints are what they were before, so the call can be retried. *)
Theorem failed_build_is_clean br b s s' r :
  proc_wf s → build br b s = (s', r) → r ≠ Built →
  proc_wf s' ∧ p_inited s' = p_inited s ∧ p_handlers s' = p_handlers s ∧ p_bound s' = p_bound s.
Proof. intros Hwf E Hr. pose proof (build_wf _ _ _ _ _ Hwf E) as (? & _ & Hf). naive_solver. Qed.

(** C6: At most one engine per process: over any sequence of builds in a fresh process at
    most one succeeds, and every later build fails and leaves the whole process state,
    the published handler set included, as that build left it. *)
Theorem at_most_one_engine l (u : US) s rs :
  build_all l (fresh u) = (s, rs) →
  (∀ i j, rs !! i = Some Built → rs !! j = Some Built → i = j) ∧
  (∀ l1 br b l2 s1 rs1, l = l1 ++ (br, b) :: l2 → build_all l1 (fresh u) = (s1, rs1) →
     (build br b s1).2 = Built → s = (build br b s1).1).
Proof.
  generalize (fresh_wf u). generalize (fresh u) as s0. intros s0 Hwf E. split.
  - revert s0 s rs Hwf E. induction l as [|[br b] l IH]; intros s0 s rs Hwf E.
    { injection E as <- <-. intros i j Hi. by rewrite lookup_nil in Hi. }
    rewrite build_all_cons in E. destruct (build br b s0) as [s1 r] eqn:E1.
    destruct (build_all l s1) as [s2 rs2] eqn:E2. injection E as <- <-.
    destruct (build_wf _ _ _ _ _ Hwf E1) as (Hwf1 & Hb & _).
    assert (r = Built → Built ∉ rs2) as Hlater.
    { intros Hr. destruct (Hb Hr) as [_ Hi1]. by eapply build_all_inited. }
    intros [|i] [|j] Hi Hj; simpl in *; [done| | |].
    + injection Hi as Hr. apply list_elem_of_lookup_2 in Hj. by destruct (Hlater Hr).
    + injection Hj as Hr. apply list_elem_of_lookup_2 in Hi. by destruct (Hlater Hr).
    + f_equal. by eapply IH.
  - intros l1 br b l2. revert l s0 s rs Hwf E.
    induction l1 as [|[br1 b1] l1 IH]; intros l s0 s rs Hwf E s1 rs1 -> E1 Hr.
    + injection E1 as <- <-. simpl in E. destruct (build br b s0) as [s1 r] eqn:Eb.
      destruct (build_all l2 s1) as [s2 rs2] eqn:E2. injection E as <- <-. simpl in *.
      destruct (build_wf _ _ _ _ _ Hwf Eb) as (Hwf1 & Hb & _). destruct (Hb Hr) as [_ Hi1].
      by apply (build_all_inited _ _ _ _ Hwf1 Hi1) in E2 as [-> _].
    + rewrite <-app_comm_cons, build_all_cons in E. rewrite build_all_cons in E1.
      destruct (build br1 b1 s0) as [s0' r0] eqn:E0.
      destruct (build_all (l1 ++ (br, b) :: l2) s0') as [s2 rs2] eqn:E2. injection E as <- <-.
      destruct (build_all l1 s0') as [s3 rs3] eqn:E3. injection E1 as <- <-.
      eapply IH; [|exact E2|done|exact E3|done]. by eapply build_wf.
Qed.

(** What a successful build publishes, and what it registers on top of the callbacks
    [before] it: the bandwidth handler exists exactly when metrics are configured. *)
Definition published_by b (before : list Callback) (s : Proc A) : Prop :=
  (∃ rm, p_handlers s = Some (mkHandlerSet (make_handlers overflow_checks dispatch b rm) (rm ≫= exporter)) ∧
     (is_Some rm ↔ is_Some (b_metrics b)) ∧
     (is_Some (bandwidth (make_handlers overflow_checks dispatch b rm)) ↔ is_Some (b_metrics b))) ∧
  (∀ cb, cb ∈ p_registered s ↔ cb ∈ before ∨ cb ≠ OnBandwidth ∨ is_Some (b_metrics b)).

(** The configuration can be built now: it is valid, the library matches, the endpoint
    (if any) binds. *)
Definition buildable br b s : Prop :=
  bc_deferred_error (b_broker b) = None ∧ br_abi_version br = LLINGR_ABI_VERSION ∧
  match b_metrics b with Some (Serve addr _) => os_bind (p_bound s) addr = None | _ => True end.

Lemma build_metrics_some b s s1 rm :
  build_metrics os_bind b s = (s1, inl rm) → is_Some rm ↔ is_Some (b_metrics b).
Proof.
  unfold build_metrics. destruct (b_metrics b) as [metrics|]; [|by intros [= <- <-]].
  destruct (default ("", "") (b_service b)) as [service team].
  destruct (Metrics_realise _ _ _ _ _ _ _) as [slots [rm'|e]]; intros [= <- <-]; naive_solver.
Qed.

Lemma build_metrics_buildable br b s : buildable br b s → ∃ s1 rm, build_metrics os_bind b s = (s1, inl rm).
Proof.
  intros (_ & _ & Hb). unfold build_metrics. destruct (b_metrics b) as [[addr path|slot]|]; [| |by eauto].
  - destruct (default ("", "") (b_service b)) as [service team].
    unfold Metrics_realise, serve_exposition. simpl. rewrite Hb. eauto.
  - destruct (default ("", "") (b_service b)) as [service team].
    unfold Metrics_realise. simpl. eauto.
Qed.

(** C21: A transient failure can be retried: after any sequence of failed builds in a fresh
    process, a build of a valid configuration whose endpoint binds and whose bridge
    initialisation answers 0 succeeds and publishes the builder's own handlers, with a
    bandwidth handler exactly when metrics are configured. All five other callbacks are
    then registered; the bandwidth callback is registered when metrics are configured or
    a failed build before had registered it, since the bridge never forgets one. *)
Theorem retry_succeeds l (u : US) s rs br b :
  build_all l (fresh u) = (s, rs) → Built ∉ rs → buildable br b s →
  ir_rc (br_init br (build_json b) (wrap_s 32 (Z.of_nat (String.length (build_json b))))) = 0%Z →
  ∃ s', build br b s = (s', Built) ∧ p_inited s' = true ∧ published_by b (p_registered s) s'.
Proof.
  intros E Hn Hb Hrc.
  assert (proc_wf s ∧ p_inited s = false) as [Hwf Hi].
  { clear Hb Hrc. revert E. generalize (fresh_wf u). assert (p_inited (fresh u) = false) as Hf by done.
    revert Hf. generalize (fresh u) as s0. intros s0. revert s0 rs Hn.
    induction l as [|[br1 b1] l IH]; intros s0 rs Hn Hf Hwf E; [by injection E as <- <-|].
    rewrite build_all_cons in E. destruct (build br1 b1 s0) as [s1 r] eqn:E1.
    destruct (build_all l s1) as [s2 rs2] eqn:E2. injection E as <- <-.
    rewrite elem_of_cons in Hn. destruct (build_wf _ _ _ _ _ Hwf E1) as (Hwf1 & _ & Hc).
    destruct (Hc ltac:(naive_solver)) as (Hi1 & _). eapply IH; [|by rewrite Hi1|done|done]. naive_solver. }
  destruct Hb as (Hd & Ha & Hbind).
  destruct (build br b s) as [s' r] eqn:Eb. exists s'.
  pose proof (build_cases br b s Hwf) as Hc. rewrite Eb in Hc.
  destruct (build_metrics_buildable br b s ltac:(done)) as (s1 & rm & Em).
  destruct Hc as [(? & ? & _)|[(_ & ? & _)|[(_ & _ & ? & _)|[(_ & _ & _ & e & He & _)|
    (_ & _ & _ & s1' & rm' & Em' & Hi1 & _ & _ & _ & Hreg1 & Hinit)]]]]; try congruence.
  { by rewrite Em in He. }
  rewrite Em in Em'. injection Em' as <- <-.
  pose proof (build_init_cases br (build_json b) (bool_decide (is_Some rm))
    (mkProc (p_inited s1) (Some (mkHandlerSet (make_handlers overflow_checks dispatch b rm) (rm ≫= exporter)))
      (p_registered s1) (p_slots s1) (p_bound s1) (p_user s1)) Hi1) as Hc.
  rewrite <-Hinit in Hc. cbn zeta in Hc. simpl in Hc.
  destruct Hc as (Hreg & _ & [(_ & -> & Hi' & Hh' & _)|(? & _)]); [|done].
  pose proof (build_metrics_some _ _ _ _ Em) as Hsome.
  split; [done|]. split; [done|]. split; [exists rm; split; [done|]; split; [done|]|].
  - rewrite <-Hsome. cbn. by rewrite fmap_is_Some.
  - intros cb. rewrite Hreg, elem_register, Hreg1, <-Hsome. apply or_iff_compat_l.
    unfold callbacks. destruct rm, cb; simpl; set_solver.
Qed.

(** [build] without its two defensive refusals. *)
Definition build_reference br b s : Proc A * BuildResult :=
  match bc_deferred_error (b_broker b) with
  | Some message => (s, Failed (LlingrError_new (-5) message))
  | None =>
    if negb (br_abi_version br =? LLINGR_ABI_VERSION)%Z
    then (s, Failed (abi_mismatch_error LLINGR_ABI_VERSION (br_abi_version br)))
    else if p_inited s
    then (s, Failed (LlingrError_new (-1) "only one llingr instance per process"))
    else match build_metrics os_bind b s with
         | (s1, inr e) => (s1, Failed e)
         | (s1, inl rm) =>
           build_init br (build_json b) (bool_decide (is_Some rm))
             (mkProc (p_inited s1)
               (Some (mkHandlerSet (make_handlers overflow_checks dispatch b rm) (rm ≫= exporter)))
               (p_registered s1) (p_slots s1) (p_bound s1) (p_user s1))
         end
  end.

(** Two defensive refusals of [build] are dead code: in every consistent state, so in
    every state a process reaches, building is the same function without the interior-NUL
    rejection and without the "already published" rejection, whatever bytes the
    configuration holds. *)
Theorem build_dead_branches br b s :
  proc_wf s → build br b s = build_reference br b s.
Proof.
  intros Hwf. unfold Engine.build, build_reference, BrokerConfig_deferred_error.
  destruct (bc_deferred_error (b_broker b)); [done|]. case_match; [done|].
  destruct (p_inited s) eqn:Hi; [done|]. unfold build_json at 1. rewrite config_json_nul_free.
  cbn [negb]. destruct (build_metrics os_bind b s) as [s1 [rm|e]] eqn:Em; [|done].
  destruct (build_metrics_ok _ _ _ _ Em) as (_ & Hh & _). unfold build_publish.
  by rewrite Hh, (wf_unpublished _ Hwf Hi).
Qed.

(** The log lines of the application's facade for the bridge's lines. *)
Definition facade_line (u : US) (line : Level * string) : US :=
  match dispatch (mkLogRecord line.1 LOG_TARGET (from_utf8_lossy line.2)) u with
  | (u, UDone _) => u
  | (u, UPanic p) => (Payload_drop p u).1
  end.

(** C38: Build-time engine logs reach the application: whether the build then succeeds or
    fails, every line the bridge emits inside [llingr_init] is dispatched to the [log]
    facade in order, once, at its own level and under the target "llingr", decoded
    lossily; nothing else touches the application's state. *)
Theorem build_logs_reach_the_facade {NL : NexusLaws} br b s lines :
  proc_wf s → p_inited s = false → buildable br b s →
  ir_log (br_init br (build_json b) (wrap_s 32 (Z.of_nat (String.length (build_json b))))) =
    map (λ l, (raw_level l.1, l.2)) lines →
  p_user (build br b s).1 = foldl facade_line (p_user s) lines.
Proof.
  intros Hwf Hi Hb Hl. pose proof (build_cases br b s Hwf) as Hc.
  destruct (build_metrics_buildable br b s Hb) as (s1 & rm & Em). destruct Hb as (Hd & Ha & _).
  destruct (build br b s) as [s' r]. simpl.
  destruct Hc as [(? & ? & _)|[(_ & ? & _)|[(_ & _ & ? & _)|[(_ & _ & _ & e & He & _)|
    (_ & _ & _ & s1' & rm' & Em' & _ & _ & _ & <- & _ & Hinit)]]]]; try congruence.
  { by rewrite Em in He. }
  rewrite Em in Em'. injection Em' as <- <-. unfold Engine.build_init in Hinit.
  set (reply := br_init br _ _) in *.
  assert (∀ (s0 : Proc A) u, p_handlers s0 = Some (mkHandlerSet (make_handlers overflow_checks dispatch b rm) (rm ≫= exporter)) →
    OnLog ∈ p_registered s0 → foldl (deliver_log s0) u (ir_log reply) = foldl facade_line u lines) as Hfold.
  { intros s0 u Hs0 Hreg. rewrite Hl. clear Hl Hinit. revert u.
    induction lines as [|[lvl msg] lines IH]; intros u; [done|]. simpl. rewrite IH. f_equal.
    unfold deliver_log, facade_line. rewrite decide_True, Hs0 by done. simpl. by rewrite LogLevel_raw_cases. }
  destruct (negb (ir_rc reply =? 0)%Z).
  - destruct (init_failure_text _ _ _); injection Hinit as -> ->; simpl;
      (apply Hfold; [done|apply log_registered]).
  - injection Hinit as -> ->. simpl. (apply Hfold; [done|apply log_registered]).
Qed.
End build.

(** The fallback texts, as the documentation lists them. *)
Definition init_code_texts : list (Z * string) :=
  [(-1, "already initialised"); (-2, "invalid configuration JSON");
   (-3, "missing required config (brokers, topic, or consumer_group)");
   (-4, "failed to create adapter or connect to broker"); (-5, "invalid adapter or engine option")]%Z.

(** C37: The reason of a failed initialisation: the bridge's text when it wrote one, decoded
    to valid UTF-8, never empty, and unchanged when it was valid; when it wrote none, the
    documented text of the code, whatever the buffer holds, and one common text for every
    code without a documented one; and reading it panics exactly when the bridge reports
    more bytes than the buffer has. *)
Theorem init_failure_text_spec rc buf len :
  (init_failure_text rc buf len = None ↔ (Z.of_nat (String.length buf) < len)%Z) ∧
  ((0 < len ≤ Z.of_nat (String.length buf))%Z → ∃ text, init_failure_text rc buf len = Some text ∧
     text = from_utf8_lossy (str_take (Z.to_nat len) buf) ∧ utf8_valid text = true ∧ text ≠ "" ∧
     (utf8_valid (str_take (Z.to_nat len) buf) = true → text = str_take (Z.to_nat len) buf)) ∧
  ((len ≤ 0)%Z →
     (∀ text, (rc, text) ∈ init_code_texts → init_failure_text rc buf len = Some text) ∧
     (rc ∉ init_code_texts.*1 → init_failure_text rc buf len = Some "unknown initialisation error")).
Proof.
  unfold init_failure_text. destruct (Z.ltb_spec 0 len) as [Hl|Hl].
  - split_and!; [| |lia].
    + destruct (Z.leb_spec len (Z.of_nat (String.length buf))); split; [done|lia|lia|done].
    + intros [_ Hc]. destruct (Z.leb_spec len (Z.of_nat (String.length buf))); [|lia].
      eexists. split_and!; [done|done|apply from_utf8_lossy_valid| |apply from_utf8_lossy_id].
      apply from_utf8_lossy_nonempty. intros E. apply (f_equal String.length) in E.
      rewrite slen_take in E. simpl in E. lia.
  - split_and!; [split; [done|lia]|lia|]. intros _. split.
    + intros text Hin. unfold init_code_texts in Hin.
      rewrite !elem_of_cons, elem_of_nil in Hin. by destruct_or! Hin; simplify_eq.
    + intros Hn. unfold init_code_texts in Hn. simpl in Hn.
      do 6 (case_match; try (exfalso; apply Hn; set_solver); try done).
Qed.

(** C36: The snapshot string crosses the boundary safely: for a document the bridge
    allocated at [ptr], the method reads exactly its bytes up to the NUL, decodes them to
    valid UTF-8 (unchanged when they were valid) and hands the pointer back exactly once;
    a NULL pointer is the "engine not initialised" error and frees nothing. *)
Theorem snapshot_read_and_freed_once (m : mem) ptr doc fuel :
  str_all not_nul doc = true → ptr ≠ 0%Z → String.length doc < fuel →
  load_bytes m ptr (S (String.length doc)) = Some (doc +:+ String "000" "") →
  take_snapshot_json fuel m ptr = Some (inl (from_utf8_lossy doc), [ptr]) ∧
  utf8_valid (from_utf8_lossy doc) = true ∧ (utf8_valid doc = true → from_utf8_lossy doc = doc) ∧
  take_snapshot_json fuel m 0 = Some (inr (LlingrError_new (-1) "engine not initialised"), []).
Proof.
  intros Hn Hp Hf Hl. split_and!; [|apply from_utf8_lossy_valid|apply from_utf8_lossy_id|done].
  unfold take_snapshot_json. destruct (Z.eqb_spec ptr 0) as [|_]; [done|].
  assert (read_cstr fuel m ptr = Some doc) as ->; [|done].
  clear Hp. revert ptr fuel Hf Hl. induction doc as [|c doc IH]; intros ptr fuel Hf Hl;
    (destruct fuel as [|fuel]; [simpl in Hf; lia|]); simpl in Hl; cbn [read_cstr].
  - apply bind_Some in Hl as (b & Hb & Hl). injection Hl as ->. by rewrite Hb.
  - apply bind_Some in Hl as (b & Hb & Hl). apply bind_Some in Hl as (s & Hs & [= -> ->]).
    rewrite Hb. simpl. cbn [str_all] in Hn. apply andb_true_iff in Hn as [Hc Hn].
    unfold not_nul in Hc. apply negb_true_iff in Hc. rewrite Hc.
    rewrite (IH Hn (ptr + 1)%Z fuel); [done|simpl in Hf; lia|exact Hs].
Qed.

Lemma run_result_ok rc : (∃ x, run_result rc = inl x) ↔ rc = 0%Z.
Proof.
  split; [|intros ->; by exists tt]. intros [x Hx]. unfold run_result in Hx. by repeat case_match.
Qed.

(** ** Witnesses *)
Section witnesses.
#[local] Existing Instance nexus_ref.
#[local] Existing Instance nexus_ref_laws.
#[local] Existing Instance prom_ref.

(** The application's state is the log records its facade captured. *)
Definition capture (r : LogRecord) : UserCall (list LogRecord * @Store prom_ref) unit :=
  λ u, ((u.1 ++ [r], u.2), UDone tt).
Definition start_user : list LogRecord * @Store prom_ref := ([], prom_empty).
Definition os0 (bound : list string) (addr : string) : option string :=
  if bool_decide (addr ∈ bound) then Some "Address already in use" else None.
Definition builder0 : Builder (list LogRecord) :=
  Builder_metrics (Builder_consumer_group (Builder_brokers
    (Builder_new "orders" (λ _ u, (u, UDone (inl 0%Z))) (λ _ _ u, (u, UDone (inl tt))))
    "localhost:9092") "g") (Metrics_serve "0.0.0.0:9464" "/metrics").
(** A broker that is unreachable once, and the same broker a moment later. *)
Definition bridge_down : Bridge :=
  mkBridge 1 (λ _ _, mkInitReply [(1%Z, "licence")] (-4) "dial tcp: refused" 17).
Definition bridge_up : Bridge := mkBridge 1 (λ _ _, mkInitReply [(2%Z, "slow")] 0 "" 0).
Notation build0 := (build true capture os0).
Notation build_all0 := (build_all true capture os0).
Definition after_down : Proc (list LogRecord) := (build0 bridge_down builder0 (fresh start_user)).1.

Lemma build_down_result :
  build0 bridge_down builder0 (fresh start_user) =
    (after_down, Failed (LlingrError_new (-4) "dial tcp: refused")).
Proof. unfold after_down. reflexivity. Qed.

Lemma failed_build_is_clean_witness :
  p_inited after_down = false ∧ p_handlers after_down = None ∧ p_bound after_down = [].
Proof.
  destruct (failed_build_is_clean true capture os0 bridge_down builder0 (fresh start_user) after_down _
    (fresh_wf _) build_down_result ltac:(discriminate)) as (_ & Hi & Hh & Hb).
  by split_and!.
Defined.

Lemma at_most_one_engine_witness :
  ∃ s rs, build_all0 [(bridge_down, builder0); (bridge_up, builder0); (bridge_up, builder0)] (fresh start_user) = (s, rs) ∧
    ∀ i j, rs !! i = Some Built → rs !! j = Some Built → i = j.
Proof.
  destruct (build_all0 [(bridge_down, builder0); (bridge_up, builder0); (bridge_up, builder0)] (fresh start_user))
    as [s rs] eqn:E.
  exists s, rs. split; [done|]. exact (proj1 (at_most_one_engine true capture os0 _ start_user s rs E)).
Defined.

Lemma retry_succeeds_witness :
  ∃ s', build0 bridge_up builder0 after_down = (s', Built) ∧ p_inited s' = true.
Proof.
  destruct (retry_succeeds true capture os0 [(bridge_down, builder0)] start_user after_down
    [Failed (LlingrError_new (-4) "dial tcp: refused")] bridge_up builder0 ltac:(reflexivity)) as (s' & H & Hi & _).
  - by intros ?%list_elem_of_singleton.
  - by split_and!.
  - reflexivity.
  - by exists s'.
Defined.

(** A build with metrics that fails, then one without that succeeds: the bandwidth callback
    stays registered, and finds no handler. *)
Definition builder_no_metrics : Builder (list LogRecord) :=
  Builder_new "orders" (λ _ u, (u, UDone (inl 0%Z))) (λ _ _ u, (u, UDone (inl tt))).
Lemma bandwidth_stays_registered :
  ∃ s, build0 bridge_up builder_no_metrics after_down = (s, Built) ∧ OnBandwidth ∈ p_registered s ∧
    bandwidth ∘ hs_handlers <$> p_handlers s = Some None.
Proof.
  eexists. split; [reflexivity|]. split; [|reflexivity]. apply (bool_decide_unpack _). by vm_compute.
Qed.

Lemma build_dead_branches_witness :
  build0 bridge_up builder0 (fresh start_user) =
    build_reference true capture os0 bridge_up builder0 (fresh start_user).
Proof. apply build_dead_branches. apply fresh_wf. Defined.

Lemma build_logs_reach_the_facade_witness :
  (p_user after_down).1 = [mkLogRecord Info "llingr" "licence"].
Proof.
  unfold after_down.
  rewrite (build_logs_reach_the_facade true capture os0 bridge_down builder0 (fresh start_user)
    [(Info, "licence")] (fresh_wf _) eq_refl); [reflexivity|by split_and!|reflexivity].
Defined.

Lemma snapshot_read_and_freed_once_witness :
  take_snapshot_json 10 (blocks_mem [(64%Z, "{}" +:+ String "000" "")]) 64 = Some (inl "{}", [64%Z]).
Proof.
  apply (snapshot_read_and_freed_once (blocks_mem [(64%Z, "{}" +:+ String "000" "")]) 64 "{}" 10).
  - reflexivity.
  - done.
  - simpl. lia.
  - by vm_compute.
Defined.
End witnesses.
