(* ===== verification/EngineRefinement.v ===== *)
(** * Interleaved builds refine the atomic [build]

    Engine.v gives [build] as one function of the process-wide state, as if the call were
    atomic. Here the same code runs in small steps: threads contend for INIT_LOCK, the
    metrics are realised, HANDLERS is swapped, the callbacks are registered, the bridge
    logs line by line, a failed init is rolled back in two steps, and between any two of
    these steps other threads build or deliver callbacks through the trampolines. The
    abstract specification is the machine whose only steps are a whole [build] and a whole
    callback; every interleaving produces a history that it produces too. *)
From Stdlib Require Import ZArith NArith Ascii.
From Stdlib Require String.
From stdpp Require Import base tactics option list gmap strings.
From S2P Require Import Prelude Text Json Nexus Options Config Ffi Effects Trampolines Logging MetricsSink Engine EngineProps.

Section machine.
Context {NX : Nexus} {PR : Prom} {A : Type}.
Notation US := (A * Store)%type.
Context (overflow_checks : bool) (dispatch : LogRecord → UserCall US unit).
Context (os_bind : list string → string → option string).
Notation build := (build overflow_checks dispatch os_bind).
Notation build_init := (build_init (A := A)).
Implicit Types (s : Proc A) (b : Builder A) (br : Bridge).

(** ** Callbacks *)
(** A call of the bridge into one of the six trampolines. *)
Inductive Invocation :=
  | InvProcess (a : RecordArgs) (o : OutArgs)
  | InvDeadLetter (a : RecordArgs) (error_msg error_len : Z)
  | InvMetrics (traits queue_depth partition offset process_duration_ns deadletter_duration_ns
      read_time_ns process_start_time_ns watermark_advance_time_ns : Z)
  | InvShutdown (reason reason_len : Z)
  | InvLog (level msg msg_len : Z)
  | InvBandwidth (ts_unix_ns stats_interval_ms metrics_id metrics_id_len topic_ topic_len
      group group_len brokers broker_count partitions partition_count : Z).

(** The trampoline it enters; a callback without a result returns 0. *)
Definition invoke (i : Invocation) : M US Z :=
  match i with
  | InvProcess a o => process_trampoline a o
  | InvDeadLetter a msg len => deadletter_trampoline a msg len
  | InvMetrics t q p o d dd r ps wm =>
      mbind_ (λ _, ret 0%Z) (metrics_trampoline t q p o d dd r ps wm)
  | InvShutdown reason len => mbind_ (λ _, ret 0%Z) (shutdown_trampoline reason len)
  | InvLog level msg len => mbind_ (λ _, ret 0%Z) (log_trampoline level msg len)
  | InvBandwidth ts iv mi mil t tl g gl b bc p pc =>
      mbind_ (λ _, ret 0%Z) (bandwidth_trampoline ts iv mi mil t tl g gl b bc p pc)
  end.

(** The callback [i] with handler set [hs] in a process whose applications are in state
    [u]: the memory the bridge passes and the standard error stream are the caller's. *)
Definition world_at (hs : HandlerSet A) (m : mem) (err : option (list string)) (u : US) : World US :=
  mkWorld m (Some (hs_handlers hs)) err u.

(** ** The stages of [build] between its steps *)
Inductive Stage :=
  | Checking                                            (* the lock is held *)
  | Realised (realised : option RealisedMetrics)        (* self.metrics realised *)
  | Swapped (realised : option RealisedMetrics) (previous : option (HandlerSet A))
  | Registered                                          (* the callbacks are registered *)
  | Initialising (reply : InitReply) (lines : list (Z * string))  (* inside llingr_init *)
  | RolledBack (reply : InitReply) (published : option (HandlerSet A)).

Definition the_set (b : Builder A) (realised : option RealisedMetrics) : HandlerSet A :=
  mkHandlerSet (make_handlers overflow_checks dispatch b realised) (realised ≫= exporter).
Definition set_handlers (h : option (HandlerSet A)) s : Proc A :=
  mkProc (p_inited s) h (p_registered s) (p_slots s) (p_bound s) (p_user s).
Definition set_inited (i : bool) s : Proc A :=
  mkProc i (p_handlers s) (p_registered s) (p_slots s) (p_bound s) (p_user s).
Definition set_registered (r : list Callback) s : Proc A :=
  mkProc (p_inited s) (p_handlers s) r (p_slots s) (p_bound s) (p_user s).
Definition set_bound (l : list string) s : Proc A :=
  mkProc (p_inited s) (p_handlers s) (p_registered s) (p_slots s) l (p_user s).
Definition init_reply br b : InitReply :=
  br_init br (build_json b) (wrap_s 32 (Z.of_nat (String.length (build_json b)))).
(** [Err(LlingrError::new(rc, init_failure_text(rc, ..)))] *)
Definition init_error (reply : InitReply) : BuildResult :=
  match init_failure_text (ir_rc reply) (ir_buf reply) (ir_len reply) with
  | Some text => Failed (LlingrError_new (ir_rc reply) text)
  | None => BuildPanicked
  end.

(** The checks [build] makes before it takes the lock. *)
Definition unlocked_refusal br b : option BuildResult :=
  match BrokerConfig_deferred_error (b_broker b) with
  | Some message => Some (Failed (LlingrError_new (-5) message))
  | None =>
    if negb (br_abi_version br =? LLINGR_ABI_VERSION)%Z
    then Some (Failed (abi_mismatch_error LLINGR_ABI_VERSION (br_abi_version br))) else None
  end.

(** ** The interleaved machine *)
Notation thread := nat (only parsing).
Record Sys := mkSys {
  sys_proc : Proc A;
  sys_lock : option (thread * Bridge * Builder A * Stage);  (* INIT_LOCK and its holder *)
  sys_running : bool;                                       (* run has been called *)
  sys_inflight : list (thread * HandlerSet A);              (* callbacks past their load *)
}.
Definition start (u : US) : Sys := mkSys (fresh u) None false [].

(** What the outside sees: a build that returns, a callback that returns. *)
Inductive Label :=
  | Returns (t : thread) (br : Bridge) (b : Builder A) (r : BuildResult)
  | Called (t : thread) (i : Invocation) (m : mem) (rc : Z) (m' : mem).

Definition at_stage (c : Sys) (s : Proc A) t br b (st : Stage) : Sys :=
  mkSys s (Some (t, br, b, st)) (sys_running c) (sys_inflight c).
Definition unlocked (c : Sys) (s : Proc A) : Sys :=
  mkSys s None (sys_running c) (sys_inflight c).

Inductive sys_step (c : Sys) : option Label → Sys → Prop :=
  | sys_refuse t br b r :
      unlocked_refusal br b = Some r → sys_step c (Some (Returns t br b r)) c
  | sys_lock_acquire t br b :
      unlocked_refusal br b = None → sys_lock c = None →
      sys_step c None (at_stage c (sys_proc c) t br b Checking)
  | sys_only_one t br b :
      sys_lock c = Some (t, br, b, Checking) → p_inited (sys_proc c) = true →
      sys_step c (Some (Returns t br b (Failed (LlingrError_new (-1) "only one llingr instance per process"))))
        (unlocked c (sys_proc c))
  | sys_nul t br b :
      sys_lock c = Some (t, br, b, Checking) → p_inited (sys_proc c) = false →
      str_all not_nul (build_json b) = false →
      sys_step c (Some (Returns t br b (Failed (LlingrError_new (-2) "configuration contains an interior NUL byte"))))
        (unlocked c (sys_proc c))
  | sys_realise_err t br b s e :
      sys_lock c = Some (t, br, b, Checking) → p_inited (sys_proc c) = false →
      str_all not_nul (build_json b) = true →
      build_metrics os_bind b (sys_proc c) = (s, inr e) →
      sys_step c (Some (Returns t br b (Failed e))) (unlocked c s)
  | sys_realise t br b s rm :
      sys_lock c = Some (t, br, b, Checking) → p_inited (sys_proc c) = false →
      str_all not_nul (build_json b) = true →
      build_metrics os_bind b (sys_proc c) = (s, inl rm) →
      sys_step c None (at_stage c s t br b (Realised rm))
  | sys_swap t br b rm :
      sys_lock c = Some (t, br, b, Realised rm) →
      sys_step c None (at_stage c (set_handlers (Some (the_set b rm)) (sys_proc c)) t br b
        (Swapped rm (p_handlers (sys_proc c))))
  | sys_restore t br b rm previous :
      sys_lock c = Some (t, br, b, Swapped rm (Some previous)) →
      sys_step c (Some (Returns t br b (Failed (LlingrError_new (-1) "handler set already published"))))
        (unlocked c (set_bound (release (rm ≫= exporter) (p_bound (sys_proc c)))
          (set_handlers (Some previous) (sys_proc c))))
  | sys_register t br b rm :
      sys_lock c = Some (t, br, b, Swapped rm None) →
      sys_step c None (at_stage c
        (set_registered (register_callbacks (bool_decide (is_Some rm)) (p_registered (sys_proc c)))
           (sys_proc c)) t br b Registered)
  | sys_call_init t br b :
      sys_lock c = Some (t, br, b, Registered) →
      sys_step c None (at_stage c (sys_proc c) t br b
        (Initialising (init_reply br b) (ir_log (init_reply br b))))
  | sys_init_log t br b reply line lines :
      sys_lock c = Some (t, br, b, Initialising reply (line :: lines)) →
      sys_step c None (at_stage c
        (set_p_user (deliver_log (sys_proc c) (p_user (sys_proc c)) line) (sys_proc c)) t br b
        (Initialising reply lines))
  | sys_init_ok t br b reply :
      sys_lock c = Some (t, br, b, Initialising reply []) → ir_rc reply = 0%Z →
      sys_step c (Some (Returns t br b Built)) (unlocked c (set_inited true (sys_proc c)))
  | sys_unpublish t br b reply :
      sys_lock c = Some (t, br, b, Initialising reply []) → ir_rc reply ≠ 0%Z →
      sys_step c None (at_stage c (set_handlers None (sys_proc c)) t br b
        (RolledBack reply (p_handlers (sys_proc c))))
  | sys_init_err t br b reply published :
      sys_lock c = Some (t, br, b, RolledBack reply published) →
      sys_step c (Some (Returns t br b (init_error reply)))
        (unlocked c (set_bound (release (published ≫= hs_exporter) (p_bound (sys_proc c))) (sys_proc c)))
  | sys_run :
      (* run() on the handle a successful build returned *)
      p_inited (sys_proc c) = true →
      sys_step c None (mkSys (sys_proc c) (sys_lock c) true (sys_inflight c))
  | sys_enter t hs :
      (* a thread of the bridge enters a trampoline and acquire-loads HANDLERS: a worker of
         a running engine, or an emergency stop that fires the shutdown callback before
         run() *)
      p_inited (sys_proc c) = true → p_handlers (sys_proc c) = Some hs →
      sys_step c None (mkSys (sys_proc c) (sys_lock c) (sys_running c) ((t, hs) :: sys_inflight c))
  | sys_return t hs before after i m err rc w :
      (* it runs with the set it loaded, whatever HANDLERS holds by then *)
      sys_inflight c = before ++ (t, hs) :: after →
      invoke i (world_at hs m err (p_user (sys_proc c))) = Ret rc w →
      sys_step c (Some (Called t i m rc (w_mem w)))
        (mkSys (set_p_user (w_user w) (sys_proc c)) (sys_lock c) (sys_running c) (before ++ after)).

(** ** The specification: builds and callbacks are atomic *)
Inductive atomic_step s : Label → Proc A → Prop :=
  | atomic_build t br b s' r : build br b s = (s', r) → atomic_step s (Returns t br b r) s'
  | atomic_call t hs i m err rc w :
      p_inited s = true → p_handlers s = Some hs →
      invoke i (world_at hs m err (p_user s)) = Ret rc w →
      atomic_step s (Called t i m rc (w_mem w)) (set_p_user (w_user w) s).

Inductive history (u : US) : list Label → Sys → Prop :=
  | history_start : history u [] (start u)
  | history_silent ls c c' : history u ls c → sys_step c None c' → history u ls c'
  | history_label ls c l c' : history u ls c → sys_step c (Some l) c' → history u (ls ++ [l]) c'.

Inductive atomic_history (u : US) : list Label → Proc A → Prop :=
  | atomic_start : atomic_history u [] (fresh u)
  | atomic_label ls s l s' :
      atomic_history u ls s → atomic_step s l s' → atomic_history u (ls ++ [l]) s'.

(** ** The simulation *)
(** What the holder of the lock still has to do, as the sequential code. *)
Definition finish (reply : InitReply) s : Proc A * BuildResult :=
  if negb (ir_rc reply =? 0)%Z
  then (set_bound (release (p_handlers s ≫= hs_exporter) (p_bound s)) (set_handlers None s), init_error reply)
  else (set_inited true s, Built).
Definition logged (lines : list (Z * string)) s : Proc A :=
  set_p_user (foldl (deliver_log s) (p_user s) lines) s.

Definition remaining br b (st : Stage) s : Proc A * BuildResult :=
  match st with
  | Checking => build br b s
  | Realised rm => build_publish overflow_checks dispatch br b (build_json b) rm s
  | Swapped rm (Some previous) =>
      (set_bound (release (rm ≫= exporter) (p_bound s)) (set_handlers (Some previous) s),
       Failed (LlingrError_new (-1) "handler set already published"))
  | Swapped rm None => build_init br (build_json b) (bool_decide (is_Some rm)) s
  | Registered => finish (init_reply br b) (logged (ir_log (init_reply br b)) s)
  | Initialising reply lines => finish reply (logged lines s)
  | RolledBack reply published =>
      (set_bound (release (published ≫= hs_exporter) (p_bound s)) s, init_error reply)
  end.

Definition lock_sim (c : Sys) s : Prop :=
  match sys_lock c with
  | None => sys_proc c = s
  | Some (_, br, b, Checking) => sys_proc c = s ∧ unlocked_refusal br b = None
  | Some (_, br, b, st) => p_inited s = false ∧ p_inited (sys_proc c) = false ∧
      remaining br b st (sys_proc c) = build br b s
  end.
Definition sim (c : Sys) s : Prop :=
  proc_wf s ∧ (sys_running c = true → p_inited s = true) ∧
  (∀ t hs, (t, hs) ∈ sys_inflight c → p_inited s = true ∧ p_handlers s = Some hs) ∧
  lock_sim c s.

(** Each step of the lock holder leaves the same sequential code to do. *)
Lemma remaining_unlocked_refusal br b r s : unlocked_refusal br b = Some r → build br b s = (s, r).
Proof.
  unfold unlocked_refusal, Engine.build. destruct (BrokerConfig_deferred_error _); [by intros [= <-]|].
  destruct (negb _); [by intros [= <-]|done].
Qed.

Lemma build_unrefused br b s :
  unlocked_refusal br b = None →
  build br b s =
    if p_inited s then (s, Failed (LlingrError_new (-1) "only one llingr instance per process"))
    else if negb (str_all not_nul (build_json b))
    then (s, Failed (LlingrError_new (-2) "configuration contains an interior NUL byte"))
    else match build_metrics os_bind b s with
         | (s, inr e) => (s, Failed e)
         | (s, inl realised) => build_publish overflow_checks dispatch br b (build_json b) realised s
         end.
Proof.
  unfold unlocked_refusal, Engine.build. destruct (BrokerConfig_deferred_error _); [done|].
  by destruct (negb _).
Qed.

Lemma remaining_swap br b rm s :
  remaining br b (Realised rm) s
  = remaining br b (Swapped rm (p_handlers s)) (set_handlers (Some (the_set b rm)) s).
Proof. simpl. unfold build_publish. by destruct (p_handlers s) eqn:E; simpl; rewrite ?E. Qed.

Lemma remaining_register br b rm s :
  remaining br b (Swapped rm None) s
  = remaining br b Registered
      (set_registered (register_callbacks (bool_decide (is_Some rm)) (p_registered s)) s).
Proof.
  simpl. unfold build_init, finish, init_error. cbn zeta. fold (init_reply br b).
  destruct (negb _); [|done]. by destruct (init_failure_text _ _ _).
Qed.

Lemma remaining_log br b reply line lines s :
  remaining br b (Initialising reply (line :: lines)) s
  = remaining br b (Initialising reply lines) (set_p_user (deliver_log s (p_user s) line) s).
Proof. done. Qed.

Lemma remaining_unpublish br b reply s :
  ir_rc reply ≠ 0%Z →
  remaining br b (Initialising reply []) s
  = remaining br b (RolledBack reply (p_handlers s)) (set_handlers None s).
Proof.
  intros E. simpl. unfold finish. apply Z.eqb_neq in E as ->. by destruct s.
Qed.

Lemma remaining_ok br b reply s :
  ir_rc reply = 0%Z → remaining br b (Initialising reply []) s = (set_inited true s, Built).
Proof. intros E. simpl. unfold finish. apply Z.eqb_eq in E as ->. by destruct s. Qed.

Lemma build_metrics_inited b s s1 r :
  build_metrics os_bind b s = (s1, r) → p_inited s1 = p_inited s.
Proof.
  destruct r as [rm|e]; intros E; [by apply build_metrics_ok in E as [-> _]|].
  by apply build_metrics_err in E as ->.
Qed.

(** A build that returns on a process that is not running moves the specification. *)
Lemma sim_return c s t br b s' r :
  sim c s → build br b s = (s', r) → p_inited s = false → sys_inflight c = [] →
  atomic_step s (Returns t br b r) s' ∧ sim (unlocked c s') s'.
Proof.
  intros (Hwf & Hrun & Hfl & _) E Hi Hn. split; [by constructor|].
  split_and!; simpl.
  - by eapply build_wf.
  - intros Hr. by rewrite Hrun in Hi.
  - rewrite Hn. intros t' hs []%elem_of_nil.
  - done.
Qed.

Lemma sim_idle c s : sim c s → p_inited s = false → sys_inflight c = [].
Proof.
  intros (_ & _ & Hfl & _) Hi. destruct (sys_inflight c) as [|[t hs] l] eqn:E; [done|].
  destruct (Hfl t hs) as [Hi' _]; [apply list_elem_of_here|congruence].
Qed.

Lemma sim_holder c s t br b st :
  sim c s → sys_lock c = Some (t, br, b, st) → st ≠ Checking →
  p_inited s = false ∧ p_inited (sys_proc c) = false ∧ remaining br b st (sys_proc c) = build br b s.
Proof. intros (_ & _ & _ & H) E Hst. unfold lock_sim in H. rewrite E in H. by destruct st. Qed.

Lemma sim_checking c s t br b :
  sim c s → sys_lock c = Some (t, br, b, Checking) → sys_proc c = s ∧ unlocked_refusal br b = None.
Proof. intros (_ & _ & _ & H) E. unfold lock_sim in H. by rewrite E in H. Qed.

(** The holder moves on: the specification waits. *)
Lemma sim_advance c s p t br b st :
  sim c s → p_inited s = false → p_inited p = false → st ≠ Checking →
  remaining br b st p = build br b s → sim (at_stage c p t br b st) s.
Proof.
  intros (Hwf & Hrun & Hfl & _) Hi Hp Hst E. split_and!; [done..|].
  unfold lock_sim. simpl. destruct st; [done|..]; by split_and!.
Qed.

(** On a running engine the holder of the lock, if any, has changed nothing yet. *)
Lemma sim_proc_inited c s : sim c s → p_inited s = true → sys_proc c = s.
Proof.
  intros (_ & _ & _ & H) Hi. unfold lock_sim in H.
  destruct (sys_lock c) as [[[[t br] b] []]|]; naive_solver congruence.
Qed.
Lemma sim_proc_built c s : sim c s → p_inited (sys_proc c) = true → p_inited s = true ∧ sys_proc c = s.
Proof.
  intros Hs Hr. assert (p_inited s = true) as Hi; [|split; [done|by apply sim_proc_inited]].
  destruct Hs as (_ & _ & _ & H). unfold lock_sim in H.
  destruct (sys_lock c) as [[[[t br] b] []]|]; naive_solver congruence.
Qed.

(** The facts the simulation has about the holder of the lock. *)
Ltac use_lock Hs :=
  match goal with
  | H : sys_lock _ = Some (_, _, _, Checking) |- _ =>
      destruct (sim_checking _ _ _ _ _ Hs H) as [E Hu]
  | H : sys_lock _ = Some (_, _, _, _) |- _ =>
      destruct (sim_holder _ _ _ _ _ _ Hs H ltac:(done)) as (Hi & Hp & E)
  end.

Lemma sim_silent c s c' : sim c s → sys_step c None c' → sim c' s.
Proof.
  intros Hs Hc. inversion Hc; subst.
  - destruct Hs as (? & ? & ? & Hl). unfold lock_sim in Hl. rewrite H0 in Hl. by split_and!.
  - use_lock Hs. subst s. 
    eapply sim_advance; [done|done| |done|].
    + by rewrite (build_metrics_inited _ _ _ _ H2).
    + by rewrite build_unrefused, H0, H1, H2 by done.
  - use_lock Hs.
    eapply sim_advance; [done..|]. by rewrite <-remaining_swap.
  - use_lock Hs.
    eapply sim_advance; [done..|]. by rewrite <-remaining_register.
  - use_lock Hs.
    by eapply sim_advance.
  - use_lock Hs.
    eapply sim_advance; [done..|]. by rewrite <-remaining_log.
  - use_lock Hs.
    eapply sim_advance; [done..|]. by rewrite <-remaining_unpublish.
  - destruct Hs as (Hwf & Hrun & Hfl & Hl). split_and!; [done| |done|done].
    intros _. unfold lock_sim in Hl. destruct (sys_lock c) as [[[[t br] b] st]|]; [|congruence].
    destruct st; naive_solver congruence.
  - destruct (sim_proc_built _ _ Hs H) as (Hi & E). destruct Hs as (Hwf & Hrun & Hfl & Hl).
    split_and!; [done..| |done]. intros t' hs' [[= -> ->]|?]%elem_of_cons; [|by eapply Hfl].
    split; [done|]. by rewrite <-E.
Qed.
(** A build that changed nothing returns. *)
Lemma sim_return_same c s : sim c s → sys_proc c = s → sim (unlocked c s) s.
Proof. intros (Hwf & Hrun & Hfl & _) E. by split_and!. Qed.

Lemma sim_callback c s t hs before after u :
  sim c s → sys_inflight c = before ++ (t, hs) :: after →
  p_inited s = true ∧ p_handlers s = Some hs ∧ sys_proc c = s ∧
  sim (mkSys (set_p_user u (sys_proc c)) (sys_lock c) (sys_running c) (before ++ after)) (set_p_user u s).
Proof.
  intros Hs E. assert (p_inited s = true ∧ p_handlers s = Some hs) as [Hi Hh].
  { destruct Hs as (_ & _ & Hfl & _). apply (Hfl t). rewrite E. set_solver. }
  pose proof (sim_proc_inited _ _ Hs Hi) as Ep. split_and!; [done..|].
  destruct Hs as (Hwf & Hrun & Hfl & Hl). split_and!; simpl; [done|done| |].
  - intros t' hs' Hin. apply (Hfl t'). rewrite E. set_solver.
  - unfold lock_sim in *. simpl. destruct (sys_lock c) as [[[[t' br] b] []]|]; naive_solver congruence.
Qed.

Lemma sim_label c s l c' :
  sim c s → sys_step c (Some l) c' → ∃ s', atomic_step s l s' ∧ sim c' s'.
Proof.
  intros Hs Hc. inversion Hc as [? ? ? ? Hr| |? ? ? ? Hin|? ? ? ? Hin Hnul|? ? ? ? ? ? Hin Hnul Hm| | | | | | | |? ? ? ? ? Hrc| | | |
    ? ? ? ? ? ? ? ? ? Hf Hw]; subst.
  - exists s. split; [|done]. constructor. by apply remaining_unlocked_refusal.
  - use_lock Hs. rewrite E in *. exists s. split; [|by apply sim_return_same].
    constructor. rewrite build_unrefused by done. by rewrite Hin.
  - use_lock Hs. rewrite E in *. exists s. split; [|by apply sim_return_same].
    constructor. rewrite build_unrefused by done. by rewrite Hin, Hnul.
  - use_lock Hs. rewrite E in *. pose proof (build_metrics_err _ _ _ _ _ Hm) as ->.
    exists s. split; [|by apply sim_return_same].
    constructor. rewrite build_unrefused by done. by rewrite Hin, Hnul, Hm.
  - use_lock Hs. symmetry in E. eexists. eapply sim_return; [done..|]. by eapply sim_idle.
  - use_lock Hs. rewrite remaining_ok in E by done. symmetry in E.
    eexists. eapply sim_return; [done..|]. by eapply sim_idle.
  - use_lock Hs. symmetry in E. eexists. eapply sim_return; [done..|]. by eapply sim_idle.
  - destruct (sim_callback _ _ _ _ _ _ (w_user w) Hs Hf) as (Hi & Hh & E & Hs').
    eexists. split; [|done]. eapply atomic_call; [done..|]. by rewrite <-E.
Qed.

Lemma history_sim u ls c :
  history u ls c → ∃ s, atomic_history u ls s ∧ sim c s.
Proof.
  induction 1 as [|ls c c' _ (s & Hs & Hsim) Hstep|ls c l c' _ (s & Hs & Hsim) Hstep].
  - exists (fresh u). split; [constructor|]. split_and!; [apply fresh_wf|done| |done].
    intros t hs []%elem_of_nil.
  - exists s. split; [done|]. by eapply sim_silent.
  - destruct (sim_label _ _ _ _ Hsim Hstep) as (s' & Ha & Hs'). exists s'.
    split; [by econstructor|done].
Qed.

(** C3: Concurrent builds are linearizable: every history of an interleaved execution
    (threads building, the bridge logging, workers entering and leaving the trampolines
    between any two steps) is a history of the machine whose builds and callbacks are
    atomic, with the same results in the same order; when no build holds the lock the
    process is in the state of that machine, and a callback in flight holds the set that
    machine has published. *)
Theorem builds_are_linearizable u ls c :
  history u ls c →
  ∃ s, atomic_history u ls s ∧ (sys_lock c = None → sys_proc c = s) ∧
    (∀ t hs, (t, hs) ∈ sys_inflight c → p_inited s = true ∧ p_handlers s = Some hs).
Proof.
  intros (s & Ha & Hs)%history_sim. exists s. split; [done|].
  destruct Hs as (_ & _ & Hfl & Hl). split; [|done]. intros E. unfold lock_sim in Hl. by rewrite E in Hl.
Qed.
End machine.

(** ** At a concrete interleaving *)
Section witnesses.
#[local] Existing Instance nexus_ref.
#[local] Existing Instance prom_ref.
Notation step0 := (sys_step true capture os0).
Notation history0 := (history true capture os0 start_user).

(** Thread 0 builds; thread 1 asks for a build with a bridge of another ABI in between;
    the engine runs, and a worker enters and leaves the log trampoline while thread 1
    holds the lock for a second instance. *)
Definition bridge_old : Bridge := mkBridge 0 (λ _ _, mkInitReply [] 0 "" 0).
Definition builder_plain : Builder (list LogRecord) :=
  Builder_new "orders" (λ _ u, (u, UDone (inl 0%Z))) (λ _ _ u, (u, UDone (inl tt))).

#[local] Ltac settle_in H :=
  unfold at_stage, unlocked, set_handlers, set_registered, set_p_user, set_inited, start, fresh in H;
  cbn [sys_proc sys_lock sys_running sys_inflight p_inited p_handlers p_registered p_slots p_bound
       p_user app] in H.
#[local] Tactic Notation "silently" uconstr(r) :=
  match goal with H : history _ _ _ _ ?ls ?c |- _ =>
    eapply history_silent in H; [|eapply r; reflexivity]; settle_in H end.
#[local] Tactic Notation "visibly" uconstr(r) :=
  match goal with H : history _ _ _ _ ?ls ?c |- _ =>
    eapply history_label in H; [|eapply r; reflexivity]; settle_in H end.

Lemma builds_are_linearizable_witness :
  ∃ ls c s, history0 ls c ∧ length ls = 4%nat ∧ sys_lock c = None ∧ sys_proc c = s ∧
    atomic_history true capture os0 start_user ls s.
Proof.
  pose proof (history_start true capture os0 start_user) as Hh.
  silently (sys_lock_acquire _ _ _ _ 0 bridge_up builder_plain).
  silently (sys_realise _ _ _ _ 0).
  silently (sys_swap _ _ _ _ 0).
  visibly (sys_refuse _ _ _ _ 1 bridge_old builder_plain).
  silently (sys_register _ _ _ _ 0).
  silently (sys_call_init _ _ _ _ 0).
  silently (sys_init_log _ _ _ _ 0).
  visibly (sys_init_ok _ _ _ _ 0).
  silently sys_run.
  silently (sys_enter _ _ _ _ 2).
  silently (sys_lock_acquire _ _ _ _ 1 bridge_up builder_plain).
  eapply history_label in Hh;
    [|eapply (sys_return _ _ _ _ 2 _ [] [] (InvLog 0 0 0) ∅ None); [reflexivity|reflexivity]].
  visibly (sys_only_one _ _ _ _ 1).
  destruct (builds_are_linearizable true capture os0 start_user _ _ Hh) as (s & Ha & Hs & _).
  eexists _, _, s. split_and!; [exact Hh|done|done|by apply Hs|done].
Defined.
End witnesses.
