(* ===== verification/EngineConcurrency.v ===== *)
(** * Publication of the handler set under concurrency

    The publication protocol of src/src/engine.rs as a step relation: builders contend for
    INIT_LOCK; the holder publishes a boxed handler set in HANDLERS before [llingr_init];
    the bridge calls the log trampoline on the init thread only until init has succeeded,
    and from then on any trampoline from any thread (its workers once [run] is called, an
    emergency stop even before); a failed init swaps the pointer back to null and frees the
    box, and a set that was already published is put back. A callback loads the pointer and uses it
    later, so the danger is a box freed in between. The steps of the bridge are its
    documented contract (the SAFETY notes of [handlers] and [HANDLERS]); everything else
    interleaves freely. *)
From Stdlib Require Import ZArith.
From stdpp Require Import base tactics option list gmap.
From S2P Require Import Prelude.

(** Threads and boxes are numbered. *)
Notation thread := nat (only parsing).
Notation box := nat (only parsing).

(** Where the holder of INIT_LOCK is in [build]. *)
Inductive Phase :=
  | Checking                       (* lock taken, nothing published *)
  | Swapped (b : box) (previous : option box)  (* HANDLERS swapped, previous not yet tested *)
  | Restored (b : box)             (* previous put back, box b not yet freed *)
  | Published (b : box)            (* HANDLERS swapped, llingr_init not yet called *)
  | Initialising (b : box)         (* inside llingr_init *)
  | InitFailed (b : box)           (* llingr_init returned an error *)
  | Unpublished (b : box).         (* HANDLERS swapped back to null, box not yet freed *)

Record State := mkState {
  lock : option (thread * Phase);     (* INIT_LOCK's holder *)
  inited : bool;                      (* *INIT_LOCK *)
  pointer : option box;               (* HANDLERS *)
  live : gset box;                    (* allocated, not freed *)
  next : box;                         (* boxes are never reused *)
  running : bool;                     (* run has been called *)
  inflight : list (thread * option box);  (* callbacks and the pointer each loaded *)
}.

Definition init_state : State := mkState None false None ∅ 0 false [].

Definition set_lock (l : option (thread * Phase)) (s : State) : State :=
  mkState l (inited s) (pointer s) (live s) (next s) (running s) (inflight s).
Definition set_inflight (l : list (thread * option box)) (s : State) : State :=
  mkState (lock s) (inited s) (pointer s) (live s) (next s) (running s) l.

Inductive step : State → State → Prop :=
  | step_acquire s t :
      lock s = None → step s (set_lock (Some (t, Checking)) s)
  | step_refuse s t :
      (* already inited, invalid configuration, a bind failure: nothing was published *)
      lock s = Some (t, Checking) → step s (set_lock None s)
  | step_swap s t :
      lock s = Some (t, Checking) → inited s = false →
      step s (mkState (Some (t, Swapped (next s) (pointer s))) (inited s) (Some (next s))
                ({[ next s ]} ∪ live s) (S (next s)) (running s) (inflight s))
  | step_publish s t b :
      lock s = Some (t, Swapped b None) → step s (set_lock (Some (t, Published b)) s)
  | step_restore s t b previous :
      lock s = Some (t, Swapped b (Some previous)) →
      step s (mkState (Some (t, Restored b)) (inited s) (Some previous) (live s) (next s) (running s) (inflight s))
  | step_drop s t b :
      lock s = Some (t, Restored b) →
      step s (mkState None (inited s) (pointer s) (live s ∖ {[ b ]}) (next s) (running s) (inflight s))
  | step_init s t b :
      lock s = Some (t, Published b) → step s (set_lock (Some (t, Initialising b)) s)
  | step_init_log s t b :
      (* a build-time log line: a synchronous callback on the init thread *)
      lock s = Some (t, Initialising b) → t ∉ (inflight s).*1 →
      step s (set_inflight ((t, pointer s) :: inflight s) s)
  | step_init_ok s t b :
      lock s = Some (t, Initialising b) → t ∉ (inflight s).*1 →
      step s (mkState None true (pointer s) (live s) (next s) (running s) (inflight s))
  | step_init_err s t b :
      lock s = Some (t, Initialising b) → t ∉ (inflight s).*1 →
      step s (set_lock (Some (t, InitFailed b)) s)
  | step_unpublish s t b :
      lock s = Some (t, InitFailed b) →
      step s (mkState (Some (t, Unpublished b)) (inited s) None (live s) (next s) (running s) (inflight s))
  | step_free s t b :
      lock s = Some (t, Unpublished b) →
      step s (mkState None (inited s) (pointer s) (live s ∖ {[ b ]}) (next s) (running s) (inflight s))
  | step_run s :
      inited s = true →
      step s (mkState (lock s) (inited s) (pointer s) (live s) (next s) true (inflight s))
  | step_callback s t :
      (* a thread of the bridge enters a trampoline and acquire-loads HANDLERS *)
      inited s = true → t ∉ (inflight s).*1 →
      (∀ p, lock s ≠ Some (t, p)) →
      step s (set_inflight ((t, pointer s) :: inflight s) s)
  | step_return s t p rest before :
      inflight s = before ++ (t, p) :: rest → step s (set_inflight (before ++ rest) s).

Inductive reachable : State → Prop :=
  | reach_init : reachable init_state
  | reach_step s s' : reachable s → step s s' → reachable s'.

(** Every callback that is running dereferences memory that is still allocated. *)
Definition no_use_after_free (s : State) : Prop :=
  ∀ t b, (t, Some b) ∈ inflight s → b ∈ live s.

(** The invariant. *)
Definition phase_ok (s : State) : Prop :=
  match lock s with
  | None | Some (_, Checking) =>
      (if inited s then ∃ b, pointer s = Some b ∧ live s = {[ b ]} else pointer s = None ∧ live s = ∅)
  | Some (_, Swapped b previous) =>
      inited s = false ∧ previous = None ∧ pointer s = Some b ∧ live s = {[ b ]}
  | Some (_, Restored b) => False
  | Some (_, Published b) | Some (_, Initialising b) | Some (_, InitFailed b) =>
      inited s = false ∧ pointer s = Some b ∧ live s = {[ b ]}
  | Some (_, Unpublished b) => inited s = false ∧ pointer s = None ∧ live s = {[ b ]}
  end.
Definition inv (s : State) : Prop :=
  phase_ok s ∧ no_use_after_free s ∧ (running s = true → inited s = true) ∧
  (inited s = false → ∀ t p, (t, p) ∈ inflight s →
     ∃ b, lock s = Some (t, Initialising b)).

Lemma elem_fst {A B} (x : A) (y : B) l : (x, y) ∈ l → x ∈ l.*1.
Proof. intros H. apply list_elem_of_fmap. by exists (x, y). Qed.

(** While a build is in progress and no callback of its thread is inside, none is. *)
Lemma no_callbacks s t b :
  inv s → inited s = false → lock s = Some (t, Initialising b) → t ∉ (inflight s).*1 → inflight s = [].
Proof.
  intros (_ & _ & _ & Hi) Hin Hl Ht. destruct (inflight s) as [|[t' p] l] eqn:E; [done|].
  destruct (Hi Hin t' p) as [b' Hb]; [left|]. rewrite Hl in Hb. injection Hb as <- _.
  destruct Ht. left.
Qed.

Lemma no_callbacks_phase s t ph :
  inv s → inited s = false → lock s = Some (t, ph) → (∀ b, ph ≠ Initialising b) → inflight s = [].
Proof.
  intros (_ & _ & _ & Hi) Hin Hl Hp. destruct (inflight s) as [|[t' p] l] eqn:E; [done|].
  destruct (Hi Hin t' p) as [b' Hb]; [left|]. rewrite Hl in Hb. injection Hb as _ ->. by destruct (Hp b').
Qed.

Lemma no_callbacks_unlocked s : inv s → inited s = false → lock s = None → inflight s = [].
Proof.
  intros (_ & _ & _ & Hi) Hin Hl. destruct (inflight s) as [|[t' p] l] eqn:E; [done|].
  destruct (Hi Hin t' p) as [b' Hb]; [left|]. by rewrite Hl in Hb.
Qed.

Lemma phase_inited_none s t b :
  inv s → (lock s = Some (t, Published b) ∨ lock s = Some (t, Initialising b) ∨
           lock s = Some (t, InitFailed b) ∨ lock s = Some (t, Unpublished b)) →
  inited s = false ∧ live s = {[ b ]}.
Proof.
  intros (Hp & _) Hl. unfold phase_ok in Hp.
  destruct Hl as [Hl|[Hl|[Hl|Hl]]]; rewrite Hl in Hp; naive_solver.
Qed.

Lemma phase_inited s : phase_ok s → inited s = true → ∃ b, pointer s = Some b ∧ live s = {[ b ]}.
Proof.
  unfold phase_ok. intros Hp Hi. rewrite Hi in Hp.
  destruct (lock s) as [[t []]|]; try done; by destruct Hp.
Qed.

Lemma inv_step s s' : inv s → step s s' → inv s'.
Proof.
  intros Hinv Hs. pose proof Hinv as (Hp & Hu & Hr & Hi). unfold phase_ok in Hp.
  destruct Hs as [s t Hl|s t Hl|s t Hl Hn|s t b Hl|s t b previous Hl|s t b Hl|s t b Hl|s t b Hl Ht|s t b Hl Ht|s t b Hl Ht|s t b Hl|s t b Hl|s Hin|
    s t Hrun Ht Hnl|s t p rest before Hin]; unfold inv, phase_ok, no_use_after_free; unfold no_use_after_free in Hu; simpl;
    rewrite ?Hl in Hp; rewrite ?Hl.
  - split_and!; [done..|]. intros Hf t' p Hin. rewrite (no_callbacks_unlocked s) in Hin by done. by apply not_elem_of_nil in Hin.
  - split_and!; [done..|]. intros Hf t' p Hin.
    rewrite (no_callbacks_phase s t Checking) in Hin by done. by apply not_elem_of_nil in Hin.
  - rewrite Hn in *. destruct Hp as [Hp ->]. split_and!; [done|done|done|set_solver| |done|].
    + intros t' b Hin. rewrite (no_callbacks_phase s t Checking) in Hin by done.
      by apply not_elem_of_nil in Hin.
    + intros _ t' p Hin. rewrite (no_callbacks_phase s t Checking) in Hin by done.
      by apply not_elem_of_nil in Hin.
  - destruct Hp as (Hn & _ & Hp). split_and!; [done|naive_solver..|]. intros Hf t' p Hin.
    rewrite (no_callbacks_phase s t (Swapped b None)) in Hin by done. by apply not_elem_of_nil in Hin.
  - by destruct Hp as (_ & ? & _).
  - done.
  - split_and!; [naive_solver..|]. intros Hf t' p Hin.
    rewrite (no_callbacks_phase s t (Published b)) in Hin by done. by apply not_elem_of_nil in Hin.
  - destruct Hp as (Hn & Hpt & Hlv). split_and!; [done|done|done| |done|].
    + intros t' b' [Heq|Hin]%elem_of_cons; [|by eapply Hu]. rewrite Hpt in Heq. set_solver.
    + intros _ t' p [[= -> ->]|Hin]%elem_of_cons; [by eexists|]. rewrite <-Hl. by eapply Hi.
  - destruct Hp as (Hn & Hpt & Hlv). split_and!; [by exists b|done|done|done].
  - destruct Hp as (Hn & Hpt & Hlv). split_and!; [done|done|done|done|done|].
    intros _ t' p Hin. rewrite (no_callbacks s t b) in Hin by done. by apply not_elem_of_nil in Hin.
  - destruct Hp as (Hn & Hpt & Hlv). split_and!; [done|done|done|done|done|].
    intros _ t' p Hin. rewrite (no_callbacks_phase s t (InitFailed b)) in Hin by done.
    by apply not_elem_of_nil in Hin.
  - destruct Hp as (Hn & Hpt & Hlv). rewrite Hn, Hpt, Hlv.
    rewrite (no_callbacks_phase s t (Unpublished b)) by done.
    split_and!; [done|set_solver|set_solver| |set_solver]. intros Hrun. by rewrite Hr in Hn.
  - split_and!; done.
  - destruct (phase_inited s) as (b0 & Hb0 & Hlv); [apply Hinv|done|].
    split_and!; [done| |done|intros Hf; congruence].
    intros t' b [Heq|Hin]%elem_of_cons; [|by eapply Hu].
    rewrite Hb0 in Heq. injection Heq as -> ->. rewrite Hlv. by apply elem_of_singleton.
  - split_and!; [done| |done|].
    + intros t' b Hb. apply (Hu t' b). rewrite Hin. set_solver.
    + intros Hf t' p' Hb. apply (Hi Hf t' p'). rewrite Hin. set_solver.
Qed.

Lemma reachable_inv s : reachable s → inv s.
Proof.
  induction 1 as [|s s' _ IH Hs]; [|by eapply inv_step].
  split_and!; [done| |done|].
  - intros t b Hin. by apply not_elem_of_nil in Hin.
  - intros _ t p Hin. by apply not_elem_of_nil in Hin.
Qed.

(** C2: No callback ever touches a freed handler set: in every reachable state, under every
    interleaving of builders, failed initialisations with their rollback, retries, [run]
    and worker callbacks, each callback that is inside a trampoline holds a null pointer or
    a set that is still allocated; at most one set is allocated at any time; once an engine
    is built, so also once it is running, the published pointer is that set; and a set that
    is already published is never replaced. *)
Theorem published_set_outlives_callbacks s :
  reachable s →
  no_use_after_free s ∧ size (live s) ≤ 1 ∧
  (running s = true → inited s = true) ∧
  (inited s = true → ∃ b, pointer s = Some b ∧ live s = {[ b ]}) ∧
  (∀ t b previous, lock s = Some (t, Swapped b previous) → previous = None).
Proof.
  intros Hs. destruct (reachable_inv s Hs) as (Hp & Hu & Hr & _). split; [done|].
  split_and!; [|done|by apply phase_inited|].
  - unfold phase_ok in Hp. assert (live s = ∅ ∨ ∃ b, live s = {[ b ]}) as [->|[b ->]]; [|by rewrite size_empty; lia|by rewrite size_singleton].
    destruct (lock s) as [[t []]|], (inited s); naive_solver.
  - intros t b previous Hl. unfold phase_ok in Hp. rewrite Hl in Hp. by destruct Hp as (_ & ? & _).
Qed.

(** A failed build by thread 1, a successful retry by thread 2, [run], and a worker that is
    inside a callback. *)
Definition demo_live0 : gset nat := {[ 0 ]} ∪ ∅.
Definition demo_live1 : gset nat := {[ 1 ]} ∪ demo_live0 ∖ {[ 0 ]}.
Definition demo_first (l : option (nat * Phase)) (p : option nat) : State :=
  mkState l false p demo_live0 1 false [].
Definition demo_second (l : option (nat * Phase)) (i : bool) (r : bool) (fl : list (nat * option nat)) : State :=
  mkState l i (Some 1) demo_live1 2 r fl.
Definition demo_between (l : option (nat * Phase)) : State :=
  mkState l false None (demo_live0 ∖ {[ 0 ]}) 1 false [].

Lemma demo_reachable : reachable (demo_second None true true [(7, Some 1)]).
Proof.
  assert (∀ t : nat, t ∉ ([] : list (nat * option nat)).*1) as Hnil by (intros t; apply not_elem_of_nil).
  eapply (reach_step (demo_second None true true [])); [|exact (step_callback (demo_second None true true []) 7 eq_refl (Hnil 7) ltac:(done))].
  eapply (reach_step (demo_second None true false [])); [|exact (step_run (demo_second None true false []) eq_refl)].
  eapply (reach_step (demo_second (Some (2, Initialising 1)) false false []));
    [|exact (step_init_ok (demo_second (Some (2, Initialising 1)) false false []) 2 1 eq_refl (Hnil 2))].
  eapply (reach_step (demo_second (Some (2, Published 1)) false false []));
    [|exact (step_init (demo_second (Some (2, Published 1)) false false []) 2 1 eq_refl)].
  eapply (reach_step (demo_second (Some (2, Swapped 1 None)) false false []));
    [|exact (step_publish (demo_second (Some (2, Swapped 1 None)) false false []) 2 1 eq_refl)].
  eapply (reach_step (demo_between (Some (2, Checking)))); [|exact (step_swap (demo_between (Some (2, Checking))) 2 eq_refl eq_refl)].
  eapply (reach_step (demo_between None)); [|exact (step_acquire (demo_between None) 2 eq_refl)].
  eapply (reach_step (demo_first (Some (1, Unpublished 0)) None)); [|exact (step_free (demo_first (Some (1, Unpublished 0)) None) 1 0 eq_refl)].
  eapply (reach_step (demo_first (Some (1, InitFailed 0)) (Some 0))); [|exact (step_unpublish (demo_first (Some (1, InitFailed 0)) (Some 0)) 1 0 eq_refl)].
  eapply (reach_step (demo_first (Some (1, Initialising 0)) (Some 0)));
    [|exact (step_init_err (demo_first (Some (1, Initialising 0)) (Some 0)) 1 0 eq_refl (Hnil 1))].
  eapply (reach_step (demo_first (Some (1, Published 0)) (Some 0))); [|exact (step_init (demo_first (Some (1, Published 0)) (Some 0)) 1 0 eq_refl)].
  eapply (reach_step (demo_first (Some (1, Swapped 0 None)) (Some 0)));
    [|exact (step_publish (demo_first (Some (1, Swapped 0 None)) (Some 0)) 1 0 eq_refl)].
  eapply (reach_step (set_lock (Some (1, Checking)) init_state)); [|exact (step_swap (set_lock (Some (1, Checking)) init_state) 1 eq_refl eq_refl)].
  eapply (reach_step init_state); [|exact (step_acquire init_state 1 eq_refl)].
  apply reach_init.
Qed.

Lemma published_set_outlives_callbacks_witness :
  no_use_after_free (demo_second None true true [(7, Some 1)]).
Proof. exact (proj1 (published_set_outlives_callbacks _ demo_reachable)). Defined.
