(* ===== verification/Snapshot.v ===== *)
(** * The snapshot document: src/src/snapshot.rs

    The structs derive serde's [Deserialize]: a struct is read from a JSON object whose
    members may come in any order, unknown members are skipped, a missing or repeated known
    member is an error (or from an array of exactly its fields), an integer must be in the
    range of its type. Reading the text is serde_json's, the parameter [from_str]. Numbers
    are integers, the only ones the engine's document holds. *)
From Stdlib Require Import ZArith NArith Ascii.
From Stdlib Require String.
From stdpp Require Import base tactics option list gmap strings.
From S2P Require Import Prelude Text Json.
#[local] Open Scope Z_scope.

(** ** The derived decoders *)
Definition members (names : list string) (v : json) : option (list (string * json)) :=
  match v with
  | JObj m => Some m
  | JArr l => if decide (length l = length names) then Some (zip names l) else None
  | _ => None
  end.

(** The value of a member that occurs exactly once. *)
Definition field (m : list (string * json)) (name : string) : option json :=
  match filter (λ kv, kv.1 = name) m with
  | [(_, v)] => Some v
  | _ => None
  end.

Definition dec_string (v : json) : option string := match v with JStr s => Some s | _ => None end.
Definition dec_bool (v : json) : option bool := match v with JBool b => Some b | _ => None end.
Definition dec_int (ok : Z → Prop) `{!∀ z, Decision (ok z)} (v : json) : option Z :=
  match v with JNum z => if decide (ok z) then Some z else None | _ => None end.
Definition dec_i64 : json → option Z := dec_int (in_s 64).
Definition dec_i32 : json → option Z := dec_int (in_s 32).
Definition dec_u32 : json → option Z := dec_int (in_u 32).
Fixpoint dec_list {A} (dec : json → option A) (l : list json) : option (list A) :=
  match l with
  | [] => Some []
  | v :: l => x ← dec v; xs ← dec_list dec l; Some (x :: xs)
  end.
Definition dec_vec {A} (dec : json → option A) (v : json) : option (list A) :=
  match v with JArr l => dec_list dec l | _ => None end.
Definition get {A} (m : list (string * json)) (name : string) (dec : json → option A) : option A :=
  v ← field m name; dec v.

(** ** The structs *)
Record Summary := mkSummary {
  topic_name : string; assigned_partition_count : Z; sum_total_processed : Z; last_rebalance_time : string;
}.
Record ThroughputWindow := mkThroughputWindow {
  from_time : string; to_time : string; processed_count : Z; dead_letter_count : Z;
}.
Record Throughput := mkThroughput {
  windows : list ThroughputWindow; thr_total_processed : Z; total_dead_lettered : Z;
  avg_process_duration : string; max_process_duration : string; avg_end_to_end_duration : string;
  max_end_to_end_duration : string; min_end_to_end_duration : string;
}.
Record PartitionOffsets := mkPartitionOffsets {
  partition : Z; committed_offset : Z; highest_ready_offset : Z; max_offset_seen : Z;
  gap_buffer_depth : Z; assigned : bool;
}.
Record PreCommits := mkPreCommits { partitions : list PartitionOffsets }.
Record Concurrency := mkConcurrency {
  guard_active : Z; guard_capacity : Z; overflow_active : Z; overflow_capacity : Z;
  commit_ingest_active : Z; commit_ingest_capacity : Z;
}.
Record Shard := mkShard { shard : Z; active_workers : Z; pooled_workers : Z }.
Record Snapshot := mkSnapshot {
  summary : Summary; throughput : Throughput; pre_commits : PreCommits; concurrency : Concurrency;
  shards : list Shard;
}.

(** [rename_all = "camelCase"] *)
Definition Summary_fields : list string :=
  ["topicName"; "assignedPartitionCount"; "totalProcessed"; "lastRebalanceTime"].
Definition ThroughputWindow_fields : list string :=
  ["fromTime"; "toTime"; "processedCount"; "deadLetterCount"].
Definition Throughput_fields : list string :=
  ["windows"; "totalProcessed"; "totalDeadLettered"; "avgProcessDuration"; "maxProcessDuration";
   "avgEndToEndDuration"; "maxEndToEndDuration"; "minEndToEndDuration"].
Definition PartitionOffsets_fields : list string :=
  ["partition"; "committedOffset"; "highestReadyOffset"; "maxOffsetSeen"; "gapBufferDepth"; "assigned"].
Definition PreCommits_fields : list string := ["partitions"].
Definition Concurrency_fields : list string :=
  ["guardActive"; "guardCapacity"; "overflowActive"; "overflowCapacity"; "commitIngestActive";
   "commitIngestCapacity"].
Definition Shard_fields : list string := ["shard"; "activeWorkers"; "pooledWorkers"].
Definition Snapshot_fields : list string := ["summary"; "throughput"; "preCommits"; "concurrency"; "shards"].

Definition dec_Summary (v : json) : option Summary :=
  m ← members Summary_fields v;
  a ← get m "topicName" dec_string;
  b ← get m "assignedPartitionCount" dec_i64;
  c ← get m "totalProcessed" dec_i64;
  d ← get m "lastRebalanceTime" dec_string;
  Some (mkSummary a b c d).

Definition dec_ThroughputWindow (v : json) : option ThroughputWindow :=
  m ← members ThroughputWindow_fields v;
  a ← get m "fromTime" dec_string;
  b ← get m "toTime" dec_string;
  c ← get m "processedCount" dec_u32;
  d ← get m "deadLetterCount" dec_u32;
  Some (mkThroughputWindow a b c d).

Definition dec_Throughput (v : json) : option Throughput :=
  m ← members Throughput_fields v;
  a ← get m "windows" (dec_vec dec_ThroughputWindow);
  b ← get m "totalProcessed" dec_i64;
  c ← get m "totalDeadLettered" dec_i64;
  d ← get m "avgProcessDuration" dec_string;
  e ← get m "maxProcessDuration" dec_string;
  f ← get m "avgEndToEndDuration" dec_string;
  g ← get m "maxEndToEndDuration" dec_string;
  h ← get m "minEndToEndDuration" dec_string;
  Some (mkThroughput a b c d e f g h).

Definition dec_PartitionOffsets (v : json) : option PartitionOffsets :=
  m ← members PartitionOffsets_fields v;
  a ← get m "partition" dec_i32;
  b ← get m "committedOffset" dec_i64;
  c ← get m "highestReadyOffset" dec_i64;
  d ← get m "maxOffsetSeen" dec_i64;
  e ← get m "gapBufferDepth" dec_i64;
  f ← get m "assigned" dec_bool;
  Some (mkPartitionOffsets a b c d e f).

Definition dec_PreCommits (v : json) : option PreCommits :=
  m ← members PreCommits_fields v;
  a ← get m "partitions" (dec_vec dec_PartitionOffsets);
  Some (mkPreCommits a).

Definition dec_Concurrency (v : json) : option Concurrency :=
  m ← members Concurrency_fields v;
  a ← get m "guardActive" dec_i64;
  b ← get m "guardCapacity" dec_i64;
  c ← get m "overflowActive" dec_i64;
  d ← get m "overflowCapacity" dec_i64;
  e ← get m "commitIngestActive" dec_i64;
  f ← get m "commitIngestCapacity" dec_i64;
  Some (mkConcurrency a b c d e f).

Definition dec_Shard (v : json) : option Shard :=
  m ← members Shard_fields v;
  a ← get m "shard" dec_i64;
  b ← get m "activeWorkers" dec_i64;
  c ← get m "pooledWorkers" dec_i64;
  Some (mkShard a b c).

Definition dec_Snapshot (v : json) : option Snapshot :=
  m ← members Snapshot_fields v;
  a ← get m "summary" dec_Summary;
  b ← get m "throughput" dec_Throughput;
  c ← get m "preCommits" dec_PreCommits;
  d ← get m "concurrency" dec_Concurrency;
  e ← get m "shards" (dec_vec dec_Shard);
  Some (mkSnapshot a b c d e).

(** [Snapshot::from_json] *)
Definition Snapshot_from_json (from_str : string → option json) (document : string) : option Snapshot :=
  v ← from_str document; dec_Snapshot v.

(** ** The engine's documents *)
Definition enc_Summary (s : Summary) : json :=
  JObj [("topicName", JStr (topic_name s)); ("assignedPartitionCount", JNum (assigned_partition_count s));
        ("totalProcessed", JNum (sum_total_processed s)); ("lastRebalanceTime", JStr (last_rebalance_time s))].
Definition enc_ThroughputWindow (w : ThroughputWindow) : json :=
  JObj [("fromTime", JStr (from_time w)); ("toTime", JStr (to_time w));
        ("processedCount", JNum (processed_count w)); ("deadLetterCount", JNum (dead_letter_count w))].
Definition enc_Throughput (t : Throughput) : json :=
  JObj [("windows", JArr (map enc_ThroughputWindow (windows t)));
        ("totalProcessed", JNum (thr_total_processed t)); ("totalDeadLettered", JNum (total_dead_lettered t));
        ("avgProcessDuration", JStr (avg_process_duration t)); ("maxProcessDuration", JStr (max_process_duration t));
        ("avgEndToEndDuration", JStr (avg_end_to_end_duration t));
        ("maxEndToEndDuration", JStr (max_end_to_end_duration t));
        ("minEndToEndDuration", JStr (min_end_to_end_duration t))].
Definition enc_PartitionOffsets (p : PartitionOffsets) : json :=
  JObj [("partition", JNum (partition p)); ("committedOffset", JNum (committed_offset p));
        ("highestReadyOffset", JNum (highest_ready_offset p)); ("maxOffsetSeen", JNum (max_offset_seen p));
        ("gapBufferDepth", JNum (gap_buffer_depth p)); ("assigned", JBool (assigned p))].
Definition enc_Concurrency (c : Concurrency) : json :=
  JObj [("guardActive", JNum (guard_active c)); ("guardCapacity", JNum (guard_capacity c));
        ("overflowActive", JNum (overflow_active c)); ("overflowCapacity", JNum (overflow_capacity c));
        ("commitIngestActive", JNum (commit_ingest_active c));
        ("commitIngestCapacity", JNum (commit_ingest_capacity c))].
Definition enc_Shard (s : Shard) : json :=
  JObj [("shard", JNum (shard s)); ("activeWorkers", JNum (active_workers s));
        ("pooledWorkers", JNum (pooled_workers s))].
Definition enc_PreCommits (p : PreCommits) : json :=
  JObj [("partitions", JArr (map enc_PartitionOffsets (partitions p)))].
Definition enc_Snapshot (s : Snapshot) : json :=
  JObj [("summary", enc_Summary (summary s)); ("throughput", enc_Throughput (throughput s));
        ("preCommits", enc_PreCommits (pre_commits s));
        ("concurrency", enc_Concurrency (concurrency s)); ("shards", JArr (map enc_Shard (shards s)))].

(** The values of the Rust types. *)
Definition snapshot_ok (s : Snapshot) : Prop :=
  in_s 64 (assigned_partition_count (summary s)) ∧ in_s 64 (sum_total_processed (summary s)) ∧
  in_s 64 (thr_total_processed (throughput s)) ∧ in_s 64 (total_dead_lettered (throughput s)) ∧
  Forall (λ w, in_u 32 (processed_count w) ∧ in_u 32 (dead_letter_count w)) (windows (throughput s)) ∧
  Forall (λ p, in_s 32 (partition p) ∧ in_s 64 (committed_offset p) ∧ in_s 64 (highest_ready_offset p) ∧
    in_s 64 (max_offset_seen p) ∧ in_s 64 (gap_buffer_depth p)) (partitions (pre_commits s)) ∧
  in_s 64 (guard_active (concurrency s)) ∧ in_s 64 (guard_capacity (concurrency s)) ∧
  in_s 64 (overflow_active (concurrency s)) ∧ in_s 64 (overflow_capacity (concurrency s)) ∧
  in_s 64 (commit_ingest_active (concurrency s)) ∧ in_s 64 (commit_ingest_capacity (concurrency s)) ∧
  Forall (λ h, in_s 64 (shard h) ∧ in_s 64 (active_workers h) ∧ in_s 64 (pooled_workers h)) (shards s).

(** A newer engine's document: extra members, under names the crate does not know, at any
    place of any object. *)
Definition known_fields : list string :=
  Snapshot_fields ++ Summary_fields ++ Throughput_fields ++ ThroughputWindow_fields ++ PreCommits_fields ++
  PartitionOffsets_fields ++ Concurrency_fields ++ Shard_fields.

Inductive extends : json → json → Prop :=
  | ext_same v : extends v v
  | ext_arr l l' : Forall2 extends l l' → extends (JArr l) (JArr l')
  | ext_obj m m' : members_ext m m' → extends (JObj m) (JObj m')
with members_ext : list (string * json) → list (string * json) → Prop :=
  | mext_nil : members_ext [] []
  | mext_keep k v v' m m' : extends v v' → members_ext m m' → members_ext ((k, v) :: m) ((k, v') :: m')
  | mext_extra k v m m' : k ∉ known_fields → members_ext m m' → members_ext m ((k, v) :: m').

(** A decoder that reads the same value from every extension. *)
Definition tolerant {A} (dec : json → option A) : Prop :=
  ∀ v v' a, extends v v' → dec v = Some a → dec v' = Some a.

(** ** Members *)
Lemma members_ext_refl m : members_ext m m.
Proof. induction m as [|[k v] m IH]; constructor; [constructor|done]. Qed.

Lemma members_extends names v v' m :
  extends v v' → members names v = Some m → ∃ m', members names v' = Some m' ∧ members_ext m m'.
Proof.
  intros [w|l l' Hl|ms ms' Hm] H.
  - exists m. split; [done|apply members_ext_refl].
  - simpl in *. rewrite <-(Forall2_length _ _ _ Hl). case_decide; [|done]. injection H as <-.
    eexists. split; [done|]. clear -Hl. revert names.
    induction Hl as [|x y l l' Hxy Hl IH]; intros [|n names]; simpl; constructor; auto.
  - injection H as <-. by exists ms'.
Qed.

Lemma filter_members_ext m m' name :
  name ∈ known_fields → members_ext m m' →
  Forall2 (λ a b, a.1 = b.1 ∧ extends a.2 b.2) (filter (λ kv, kv.1 = name) m) (filter (λ kv, kv.1 = name) m').
Proof.
  intros Hk. induction 1 as [|k v v' m m' Hv Hm IH|k v m m' Hn Hm IH]; [constructor| |].
  - rewrite !filter_cons. simpl. case_decide; [by constructor|done].
  - rewrite filter_cons. simpl. rewrite decide_False; [done|]. by intros ->.
Qed.

Lemma tolerant_get {A} (dec : json → option A) m m' name a :
  tolerant dec → name ∈ known_fields → members_ext m m' → get m name dec = Some a → get m' name dec = Some a.
Proof.
  intros Hd Hk Hm H. unfold get, field in *. pose proof (filter_members_ext _ _ _ Hk Hm) as HF.
  destruct HF as [|[k v] [k' v'] l l' [_ Hv] HF]; [done|].
  destruct HF; [|done]. simpl in *. by eapply Hd.
Qed.

Lemma tolerant_string : tolerant dec_string.
Proof. intros v v' a Hx H; destruct Hx; simpl in *; done. Qed.
Lemma tolerant_bool : tolerant dec_bool.
Proof. intros v v' a Hx H; destruct Hx; simpl in *; done. Qed.
Lemma tolerant_int ok `{!∀ z, Decision (ok z)} : tolerant (dec_int ok).
Proof. intros v v' a Hx Hz; destruct Hx; simpl in *; done. Qed.
Lemma tolerant_i64 : tolerant dec_i64.
Proof. apply tolerant_int. Qed.
Lemma tolerant_i32 : tolerant dec_i32.
Proof. apply tolerant_int. Qed.
Lemma tolerant_u32 : tolerant dec_u32.
Proof. apply tolerant_int. Qed.
Lemma tolerant_vec {A} (dec : json → option A) : tolerant dec → tolerant (dec_vec dec).
Proof.
  intros Hd v v' a Hext H. destruct Hext as [w|l l' Hl|m m' Hm]; [done| |done]. simpl in *.
  revert a H. induction Hl as [|x y l l' Hxy Hl IH]; intros a H; [done|]. simpl in *.
  apply bind_Some in H as (b & Hb & H). apply bind_Some in H as (bs & Hbs & [= <-]).
  by rewrite (Hd _ _ _ Hxy Hb), (IH _ Hbs).
Qed.
Create HintDb snapshot.
#[export] Hint Resolve tolerant_string tolerant_bool tolerant_i64 tolerant_i32 tolerant_u32 tolerant_vec : snapshot.

(** One struct after another: each field is read the same from the extended members. *)
Ltac tolerant_struct D :=
  intros v v' a Hext H; unfold D in *;
  apply bind_Some in H as (m & Hm & H);
  destruct (members_extends _ _ _ _ Hext Hm) as (m' & Hm' & Hmx); rewrite Hm'; simpl;
  repeat (let x := fresh "x" in let Hx := fresh "Hx" in
    apply bind_Some in H as (x & Hx & H);
    match type of Hx with get ?ms ?name ?dec = Some ?y =>
      rewrite (tolerant_get dec ms m' name y ltac:(eauto with snapshot)
        ltac:(apply (bool_decide_unpack _); by vm_compute) Hmx Hx)
    end; simpl);
  exact H.

Lemma tolerant_Summary : tolerant dec_Summary.
Proof. tolerant_struct dec_Summary. Qed.
Lemma tolerant_ThroughputWindow : tolerant dec_ThroughputWindow.
Proof. tolerant_struct dec_ThroughputWindow. Qed.
#[export] Hint Resolve tolerant_Summary tolerant_ThroughputWindow : snapshot.
Lemma tolerant_Throughput : tolerant dec_Throughput.
Proof. tolerant_struct dec_Throughput. Qed.
Lemma tolerant_PartitionOffsets : tolerant dec_PartitionOffsets.
Proof. tolerant_struct dec_PartitionOffsets. Qed.
#[export] Hint Resolve tolerant_PartitionOffsets : snapshot.
Lemma tolerant_PreCommits : tolerant dec_PreCommits.
Proof. tolerant_struct dec_PreCommits. Qed.
Lemma tolerant_Concurrency : tolerant dec_Concurrency.
Proof. tolerant_struct dec_Concurrency. Qed.
Lemma tolerant_Shard : tolerant dec_Shard.
Proof. tolerant_struct dec_Shard. Qed.
#[export] Hint Resolve tolerant_Throughput tolerant_PreCommits tolerant_Concurrency tolerant_Shard : snapshot.

(** ** Reading what was encoded *)
Lemma get_at {A} (dec : json → option A) m name v : field m name = Some v → get m name dec = dec v.
Proof. intros H. unfold get. by rewrite H. Qed.
Lemma dec_int_ok ok `{!∀ z, Decision (ok z)} z : ok z → dec_int ok (JNum z) = Some z.
Proof. intros Hz. simpl. by rewrite decide_True. Qed.

Ltac decode_struct D E :=
  unfold D, E; cbn [members mbind option_bind];
  repeat (erewrite get_at by reflexivity; cbn [dec_string dec_bool];
          try (unfold dec_i64, dec_i32, dec_u32; rewrite dec_int_ok by done); cbn [mbind option_bind]);
  done.

Lemma dec_enc_Summary s :
  in_s 64 (assigned_partition_count s) → in_s 64 (sum_total_processed s) → dec_Summary (enc_Summary s) = Some s.
Proof. intros. destruct s; simpl in *. decode_struct dec_Summary enc_Summary. Qed.

Lemma dec_vec_map {A} (dec : json → option A) (enc : A → json) (P : A → Prop) l :
  (∀ x, P x → dec (enc x) = Some x) → Forall P l → dec_vec dec (JArr (map enc l)) = Some l.
Proof.
  intros Hd. simpl. induction 1 as [|x l Hx Hl IH]; [done|]. simpl. by rewrite Hd, IH.
Qed.

Lemma dec_enc_ThroughputWindow w :
  in_u 32 (processed_count w) ∧ in_u 32 (dead_letter_count w) → dec_ThroughputWindow (enc_ThroughputWindow w) = Some w.
Proof. intros []. destruct w; simpl in *. decode_struct dec_ThroughputWindow enc_ThroughputWindow. Qed.

Lemma dec_enc_PartitionOffsets p :
  in_s 32 (partition p) ∧ in_s 64 (committed_offset p) ∧ in_s 64 (highest_ready_offset p) ∧
    in_s 64 (max_offset_seen p) ∧ in_s 64 (gap_buffer_depth p) →
  dec_PartitionOffsets (enc_PartitionOffsets p) = Some p.
Proof.
  intros (? & ? & ? & ? & ?). destruct p; simpl in *. decode_struct dec_PartitionOffsets enc_PartitionOffsets.
Qed.

Lemma dec_enc_Shard h :
  in_s 64 (shard h) ∧ in_s 64 (active_workers h) ∧ in_s 64 (pooled_workers h) → dec_Shard (enc_Shard h) = Some h.
Proof. intros (? & ? & ?). destruct h; simpl in *. decode_struct dec_Shard enc_Shard. Qed.

Lemma dec_enc_Concurrency c :
  in_s 64 (guard_active c) → in_s 64 (guard_capacity c) → in_s 64 (overflow_active c) →
  in_s 64 (overflow_capacity c) → in_s 64 (commit_ingest_active c) → in_s 64 (commit_ingest_capacity c) →
  dec_Concurrency (enc_Concurrency c) = Some c.
Proof. intros. destruct c; simpl in *. decode_struct dec_Concurrency enc_Concurrency. Qed.

Lemma dec_enc_Throughput t :
  in_s 64 (thr_total_processed t) → in_s 64 (total_dead_lettered t) →
  Forall (λ w, in_u 32 (processed_count w) ∧ in_u 32 (dead_letter_count w)) (windows t) →
  dec_Throughput (enc_Throughput t) = Some t.
Proof.
  intros. destruct t; simpl in *. unfold dec_Throughput, enc_Throughput; cbn [members mbind option_bind].
  repeat (erewrite get_at by reflexivity). unfold dec_i64. simpl windows. simpl thr_total_processed.
  simpl total_dead_lettered. rewrite !dec_int_ok by done.
  by rewrite (dec_vec_map dec_ThroughputWindow _ _ _ dec_enc_ThroughputWindow).
Qed.

Lemma dec_enc_PreCommits p :
  Forall (λ p, in_s 32 (partition p) ∧ in_s 64 (committed_offset p) ∧ in_s 64 (highest_ready_offset p) ∧
    in_s 64 (max_offset_seen p) ∧ in_s 64 (gap_buffer_depth p)) (partitions p) →
  dec_PreCommits (enc_PreCommits p) = Some p.
Proof.
  intros. unfold dec_PreCommits, enc_PreCommits. cbn [members mbind option_bind].
  erewrite get_at by reflexivity.
  rewrite (dec_vec_map dec_PartitionOffsets _ _ _ dec_enc_PartitionOffsets) by done. by destruct p.
Qed.

Lemma tolerant_Snapshot : tolerant dec_Snapshot.
Proof. tolerant_struct dec_Snapshot. Qed.

Lemma dec_enc_Snapshot s : snapshot_ok s → dec_Snapshot (enc_Snapshot s) = Some s.
Proof.
  intros (H1 & H2 & H3 & H4 & Hw & Hp & H5 & H6 & H7 & H8 & H9 & H10 & Hs).
  unfold dec_Snapshot, enc_Snapshot. cbn [members mbind option_bind].
  repeat (erewrite get_at by reflexivity).
  rewrite dec_enc_Summary, dec_enc_Throughput, dec_enc_Concurrency by done. cbn [mbind option_bind].
  rewrite dec_enc_PreCommits by done. cbn [mbind option_bind].
  rewrite (dec_vec_map dec_Shard _ _ _ dec_enc_Shard) by done. cbn [mbind option_bind].
  by destruct s.
Qed.

(** C30: The snapshot document round-trips: every snapshot whose integers fit their Rust
    types is read back, field for field, from the document the engine writes for it, and
    from every document a newer engine may write by adding members the crate does not know
    at any place of any object. *)
Theorem Snapshot_round_trip s v' :
  snapshot_ok s → extends (enc_Snapshot s) v' → dec_Snapshot v' = Some s.
Proof.
  intros Hs Hext. by apply (tolerant_Snapshot _ _ _ Hext), dec_enc_Snapshot.
Qed.

(** A lost section is an error: a document that parses as a snapshot is an object in
    which each of the five sections occurs exactly once, or an array of the five; a
    document missing one, or repeating one, is refused rather than defaulted. *)
Theorem Snapshot_sections_required v s :
  dec_Snapshot v = Some s →
  ∃ m, members Snapshot_fields v = Some m ∧
    ∀ name, name ∈ Snapshot_fields → length (filter (λ kv, kv.1 = name) m) = 1%nat.
Proof.
  unfold dec_Snapshot. intros H. apply bind_Some in H as (m & Hm & H). exists m. split; [done|].
  assert (∀ A (d : json → option A) n x, get m n d = Some x → length (filter (λ kv, kv.1 = n) m) = 1%nat) as Hg.
  { intros A d n x Hx. unfold get, field in Hx. by destruct (filter _ m) as [|[k w] []]. }
  repeat (let x := fresh "x" in let Hx := fresh "Hx" in apply bind_Some in H as (x & Hx & H); apply Hg in Hx).
  intros name Hn. unfold Snapshot_fields in Hn.
  repeat (apply elem_of_cons in Hn as [->|Hn]; [done|]). by apply not_elem_of_nil in Hn.
Qed.

(** ** Witnesses *)
Definition demo_snapshot : Snapshot :=
  mkSnapshot (mkSummary "orders" 12 5000000123 "2026-07-16T14:30:05.123Z")
    (mkThroughput [mkThroughputWindow "a" "b" 1451 2] 5000000123 7 "1.517ms" "92ms" "3ms" "2m30s" "0s")
    (mkPreCommits [mkPartitionOffsets 3 9000000001 9000000005 9000000042 4 true])
    (mkConcurrency 17 250 1 50 42 2000) [mkShard 0 5 11].
Lemma demo_snapshot_ok : snapshot_ok demo_snapshot.
Proof. repeat split; repeat constructor; by vm_compute. Qed.

Lemma Snapshot_round_trip_witness :
  ∃ m, enc_Snapshot demo_snapshot = JObj m ∧
    dec_Snapshot (JObj (("futureTopLevel", JBool true) :: m)) = Some demo_snapshot.
Proof.
  eexists. split; [reflexivity|]. apply (Snapshot_round_trip demo_snapshot); [exact demo_snapshot_ok|].
  apply ext_obj, mext_extra; [|apply members_ext_refl]. apply (bool_decide_unpack _). by vm_compute.
Defined.

Lemma Snapshot_sections_required_witness :
  ∃ m, members Snapshot_fields (enc_Snapshot demo_snapshot) = Some m ∧
    ∀ name, name ∈ Snapshot_fields → length (filter (λ kv, kv.1 = name) m) = 1%nat.
Proof.
  apply (Snapshot_sections_required _ demo_snapshot). by vm_compute.
Defined.
