(* ===== verification/StrTypes.v ===== *)
(** * Every text the crate builds or hands over is a [str]

    In the model a [str] is a byte string, so its type invariant, valid UTF-8, is a
    theorem: the configuration document is a [str] when the builder was given [str]s, and
    every text a handler is shown is one whatever bytes the bridge left in memory. Decoded
    integers fit their Rust types. *)
From Stdlib Require Import ZArith NArith Ascii.
From Stdlib Require String.
From stdpp Require Import base tactics option list gmap strings.
From S2P Require Import Prelude Text Json Nexus Options Config Ffi Effects Trampolines Snapshot.

(** [s] is a value of type [str]. *)
Definition is_str (s : string) : Prop := utf8_valid s = true.
Definition str_pair (kv : string * string) : Prop := is_str kv.1 ∧ is_str kv.2.
Create HintDb str_ty.

Lemma is_str_app s t : is_str s → is_str t → is_str (s +:+ t).
Proof. intros Hs Ht. unfold is_str. by rewrite utf8_valid_app. Qed.
Lemma is_str_ascii s : str_all is_ascii s = true → is_str s.
Proof. apply utf8_valid_ascii. Qed.
Lemma is_str_join sep l : is_str sep → Forall is_str l → is_str (str_join sep l).
Proof.
  intros Hsep. induction 1 as [|s l Hs Hl IH]; [done|].
  destruct l as [|t l]; [done|]. by repeat apply is_str_app.
Qed.
#[export] Hint Resolve is_str_app is_str_join : str_ty.
#[export] Hint Extern 1 (is_str _) => (apply is_str_ascii; reflexivity) : str_ty.

Lemma dec_Z_ascii z : str_all is_ascii (dec_Z z) = true.
Proof.
  assert (∀ d, str_all is_ascii (DecimalString.NilEmpty.string_of_uint d) = true) as Hd.
  { induction d; [done|..]; cbn [DecimalString.NilEmpty.string_of_uint str_all]; by rewrite IHd. }
  destruct (dec_Z_cases z) as (d & _ & _ & [[-> _]|[-> _]]); [apply Hd|].
  cbn [str_all]. by rewrite Hd.
Qed.
Lemma is_str_dec_Z z : is_str (dec_Z z).
Proof. apply is_str_ascii, dec_Z_ascii. Qed.
Lemma is_str_dec_N n : is_str (dec_N n).
Proof. rewrite <-dec_Z_of_N. apply is_str_dec_Z. Qed.
#[export] Hint Resolve is_str_dec_Z is_str_dec_N : str_ty.

(** ** The document *)
Lemma escape_char_str c : utf8_char c = true → is_str (json_escape_char c).
Proof.
  intros Hc. assert (is_str c) as Hs by (unfold is_str; by rewrite <-(sapp_nil_r c), utf8_valid_cons).
  destruct c as [|b [|b' c]]; [done| |done]. clear Hs.
  destruct b as [[][][][][][][][]]; try (by vm_compute in Hc); by vm_compute.
Qed.

Lemma escape_str s : is_str s → is_str (escape_bytes s).
Proof.
  revert s. apply utf8_valid_ind; [done|]. intros c r Hc _ IH.
  rewrite escape_bytes_app. apply is_str_app; [|done].
  pose proof (escape_chunk _ _ _ (utf8_step_char c "" Hc)) as E. cbn [chunk_bytes] in E.
  rewrite <-E. by apply escape_char_str.
Qed.

(** Every text in a JSON value is a [str]. *)
Fixpoint json_str (v : json) : Prop :=
  match v with
  | JNull | JBool _ | JNum _ => True
  | JStr s => is_str s
  | JArr l => foldr (λ v P, json_str v ∧ P) True l
  | JObj m => foldr (λ kv P, is_str kv.1 ∧ json_str kv.2 ∧ P) True m
  end.

Lemma quoted_str s : is_str s → is_str (quoted escape_bytes s).
Proof.
  intros Hs. unfold quoted. change (String quote (escape_bytes s +:+ String quote ""))
    with (String quote "" +:+ (escape_bytes s +:+ String quote "")).
  apply is_str_app; [done|]. apply is_str_app; [by apply escape_str|done].
Qed.
#[export] Hint Resolve quoted_str escape_str : str_ty.

Lemma render_str v : json_str v → is_str (render escape_bytes v).
Proof.
  induction v as [|[]|z|s|l IH|m IH] using json_ind; cbn [render json_str]; intros Hv;
    auto with str_ty.
  - apply is_str_app; [done|]. apply is_str_app; [|done]. apply is_str_join; [done|].
    induction IH as [|v l Hl _ IHl]; [constructor|]. destruct Hv as [Hv Hvl].
    constructor; [by apply Hl|by apply IHl].
  - apply is_str_app; [done|]. apply is_str_app; [|done]. apply is_str_join; [done|].
    induction IH as [|[k v] m Hm _ IHm]; [constructor|]. destruct Hv as (Hk & Hv & Hvl).
    constructor; [|by apply IHm]. simpl in *. apply is_str_app; [by apply quoted_str|].
    apply is_str_app; [done|by apply Hm].
Qed.

Definition fields_str (m : list (string * json)) : Prop := json_str (JObj m).
Lemma fields_str_app m n : fields_str m → fields_str n → fields_str (m ++ n).
Proof. induction m as [|kv m IH]; [done|]. intros (? & ? & ?) ?. split_and!; [done..|]. by apply IH. Qed.
Lemma fields_str_strs l : Forall str_pair l → fields_str (str_fields l).
Proof. by induction 1 as [|kv l [] _ IH]. Qed.
Lemma fields_str_opt name v : is_str name → (∀ j, v = Some j → json_str j) → fields_str (opt_field name v).
Proof. intros Hn Hv. destruct v as [j|]; [|done]. split_and!; [done| |done]. by apply Hv. Qed.
Lemma fields_str_section name m : is_str name → fields_str m → fields_str (section_field name m).
Proof. intros Hn Hm. by destruct m. Qed.
#[export] Hint Resolve fields_str_app fields_str_strs fields_str_opt fields_str_section : str_ty.

Section document.
Context {NX : Nexus}.

Lemma int_field_str name (v : option N) : is_str name → fields_str (opt_field name (int_value <$> v)).
Proof. intros Hn. apply fields_str_opt; [done|]. by destruct v; intros j; [intros [= <-]|]. Qed.
Lemma duration_field_str name (v : option Duration) :
  is_str name → fields_str (opt_field name (duration_value <$> v)).
Proof.
  intros Hn. apply fields_str_opt; [done|]. destruct v; intros j; [intros [= <-]|done].
  simpl. auto with str_ty.
Qed.
#[local] Hint Resolve int_field_str duration_field_str : str_ty.
#[local] Hint Extern 1 (is_str (String _ _)) => (apply is_str_ascii; reflexivity) : str_ty.

Lemma demux_doc_str c : fields_str (demux_doc c).
Proof.
  unfold demux_doc. repeat (apply fields_str_app; [apply int_field_str || apply duration_field_str; by apply is_str_ascii|]).
  apply duration_field_str. by apply is_str_ascii.
Qed.
Lemma bandwidth_doc_str stats flush : fields_str (bandwidth_doc stats flush).
Proof. unfold bandwidth_doc. apply fields_str_app; apply duration_field_str; by apply is_str_ascii. Qed.

Definition broker_str (b : BrokerConfig) : Prop :=
  is_str (bc_brokers b) ∧ is_str (bc_consumer_group b) ∧ Forall str_pair (bc_kafka_config b).

Lemma upsert_str k v l : is_str k → is_str v → Forall str_pair l → Forall str_pair (upsert k v l).
Proof.
  intros Hk Hv. induction 1 as [|kv l Hkv Hl IH]; simpl; [by repeat constructor|].
  case_decide; constructor; try done. by destruct Hkv.
Qed.
Lemma deduped_str b : broker_str b → Forall str_pair (BrokerConfig_deduped_kafka_config b).
Proof.
  intros (_ & _ & H). unfold BrokerConfig_deduped_kafka_config.
  assert (Forall str_pair []) as Hn by constructor. revert Hn. generalize (@nil (string * string)).
  induction H as [|kv l [Hk Hv] _ IH]; intros acc Hacc; simpl; [done|]. by apply IH, upsert_str.
Qed.

Lemma config_doc_str topic b demux service stats flush :
  is_str topic → broker_str b → (∀ s, service = Some s → str_pair s) →
  json_str (config_doc topic b demux service stats flush).
Proof.
  intros Ht Hb Hs. pose proof (deduped_str b Hb) as Hd. destruct Hb as (Hbr & Hg & _).
  unfold config_doc. change (fields_str (str_fields [("adapter", "franz"); ("brokers", bc_brokers b);
      ("topic", topic); ("consumer_group", bc_consumer_group b)]
    ++ section_field "kafka_config" (str_fields (BrokerConfig_deduped_kafka_config b))
    ++ opt_field "service" ((λ s, JObj (str_fields [("name", s.1); ("team", s.2)])) <$> service)
    ++ section_field "demux" (demux_doc demux)
    ++ section_field "bandwidth" (bandwidth_doc stats flush))).
  repeat apply fields_str_app.
  - apply fields_str_strs. by repeat constructor.
  - apply fields_str_section; [done|]. by apply fields_str_strs.
  - apply fields_str_opt; [done|]. destruct service as [s|]; intros j; [intros [= <-]|done].
    destruct (Hs s eq_refl). by split_and!.
  - apply fields_str_section; [done|]. apply demux_doc_str.
  - apply fields_str_section; [done|]. apply bandwidth_doc_str.
Qed.
End document.

(** ** The options *)
Definition opt_texts (v : option string) : list string := match v with Some s => [s] | None => [] end.
Definition pair_texts (l : list (string * string)) : list string := l.*1 ++ l.*2.
Definition sasl_texts (s : Sasl) : list string :=
  match s with
  | UserPass _ u p => [u; p]
  | AwsMskIam r p a n => opt_texts r ++ opt_texts p ++ opt_texts a ++ opt_texts n
  | OauthbearerOidc t i c sc e => [t; i; c] ++ opt_texts sc ++ pair_texts e
  | GcpIam p f => opt_texts p ++ opt_texts f
  end.

Lemma pair_texts_str l : Forall is_str (pair_texts l) ↔ Forall str_pair l.
Proof.
  unfold pair_texts. rewrite Forall_app, !Forall_fmap. induction l as [|kv l IH]; [by split|].
  rewrite !Forall_cons. unfold str_pair at 1. simpl in *. naive_solver.
Qed.
Lemma opt_pair_str k v : is_str k → Forall is_str (opt_texts v) → Forall str_pair (opt_pair k v).
Proof. destruct v; simpl; [|constructor]. rewrite !Forall_singleton. by split. Qed.
#[export] Hint Resolve opt_pair_str : str_ty.

Lemma sasl_entries_str s : Forall is_str (sasl_texts s) → Forall str_pair (sasl_entries s).
Proof.
  destruct s as [m u p|r p a n|t i c sc e|p f]; cbn [sasl_texts sasl_entries];
    rewrite ?Forall_app, ?Forall_cons; unfold str_pair; cbn [fst snd].
  - intros (? & ? & _). split_and!; try done. by destruct m.
  - intros (? & ? & ? & ?). split_and!; try done; by apply opt_pair_str.
  - intros ((? & ? & ? & _) & ? & He%pair_texts_str). split_and!; try done; [by apply opt_pair_str|].
    destruct e as [|kv e]; [constructor|]. rewrite Forall_singleton. split; [done|].
    apply is_str_join; [done|]. apply Forall_map. eapply Forall_impl; [exact He|].
    intros [k v] [Hk Hv]. simpl in *. apply is_str_app; [done|]. by apply is_str_app.
  - intros (? & ?). split_and!; try done; by apply opt_pair_str.
Qed.

Section options.
Context {NX : Nexus}.

Definition options_str (o : Options) : Prop :=
  Forall str_pair (opt_entries o) ∧ Forall str_pair (opt_ssl_entries o) ∧
  (∀ s, opt_sasl o = Some s → Forall is_str (sasl_texts s)).

Lemma entries_str o : options_str o → Forall str_pair (Options_entries o).
Proof.
  intros (He & Hs & Hsasl). rewrite Options_entries_eq. apply Forall_app. split; [done|].
  unfold security_entries. destruct (opt_tls o), (opt_sasl o) as [s|]; try constructor; simpl;
    rewrite ?Forall_app; try (split; [done|]); try (by repeat constructor); by apply sasl_entries_str, Hsasl.
Qed.

(** The texts a setter call passes. *)
Definition setter_texts (s : Setter) : list string :=
  match s with
  | SAutoOffsetReset r => [AutoOffsetReset_as_str r]
  | SClientId x | SGroupInstanceId x | SRack x | STlsCaLocation x | STlsCaPem x | SAwsRegion x
  | SAwsProfile x | SOauthbearerScope x | SGcpPrincipal x | SGcpCredentialsFile x => [x]
  | STlsClientCertificate x y | STlsClientCertificatePem x y | SSaslPlain x y
  | SSaslScramSha256 x y | SSaslScramSha512 x y | SKafkaOption x y => [x; y]
  | SAwsAssumeRole a n => a :: opt_texts n
  | SSaslOauthbearerOidc t i c => [t; i; c]
  | SOauthbearerExtensions l | SKafkaOptions l => pair_texts l
  | _ => []
  end.

Lemma push_str o k v : options_str o → is_str k → is_str v → options_str (Options_push o k v).
Proof.
  intros (He & Hs & Hsasl) Hk Hv. split_and!; [|done|done]. apply Forall_app. by repeat constructor.
Qed.
Lemma push_ssl_str o k v : options_str o → is_str k → is_str v → options_str (Options_push_ssl o k v).
Proof.
  intros (He & Hs & Hsasl) Hk Hv. split_and!; [done| |done]. apply Forall_app. by repeat constructor.
Qed.
Lemma set_sasl_str o s : options_str o → Forall is_str (sasl_texts s) → options_str (set_sasl o s).
Proof. intros (He & Hs & _) H. split_and!; [done..|]. by intros ? [= <-]. Qed.
Lemma tls_str o : options_str o → options_str (Options_tls o).
Proof. done. Qed.
Lemma strategies_str l : is_str (str_join "," (map BalanceStrategy_wire_name l)).
Proof. apply is_str_join; [done|]. apply Forall_map, Forall_true. by intros []. Qed.
#[local] Hint Resolve push_str push_ssl_str set_sasl_str tls_str strategies_str is_str_dec_N : str_ty.

(** A steering setter keeps the mechanism's other texts. *)
Lemma steer_str o s s' :
  options_str o → opt_sasl o = Some s →
  (Forall is_str (sasl_texts s) → Forall is_str (sasl_texts s')) → options_str (set_sasl o s').
Proof. intros Ho E H. apply set_sasl_str; [done|]. apply H. by apply Ho. Qed.

Ltac steer o :=
  unfold Options_aws_region, Options_aws_profile, Options_aws_assume_role,
    Options_oauthbearer_scope, Options_oauthbearer_extensions, Options_gcp_principal,
    Options_gcp_credentials_file;
  destruct (opt_sasl o) as [[]|] eqn:E; try done;
  eapply steer_str; [done|exact E|]; cbn [sasl_texts opt_texts];
  rewrite ?Forall_app, ?Forall_cons.

Lemma apply_setter_str o s :
  options_str o → Forall is_str (setter_texts s) → options_str (apply_setter o s).
Proof.
  intros Ho Hs. destruct s; cbn [apply_setter setter_texts] in *;
    rewrite ?Forall_cons in Hs;
    try (by apply push_str; naive_solver);
    try (by repeat apply push_ssl_str; naive_solver);
    try (by apply set_sasl_str; [|simpl; repeat constructor; naive_solver]);
    try (by apply push_str; [|apply is_str_ascii|apply is_str_dec_N]);
    try done.
  - apply push_str; [done|done|by destruct level].
  - apply push_str; [done|done|apply strategies_str].
  - steer o; naive_solver.
  - steer o; naive_solver.
  - steer o; naive_solver.
  - steer o; naive_solver.
  - steer o; naive_solver.
  - steer o; naive_solver.
  - steer o; naive_solver.
  - rewrite kafka_options_eq. destruct Ho as (He & ? & ?). split_and!; [|done..].
    apply Forall_app. split; [done|]. by apply pair_texts_str.
Qed.
End options.

Section chains.
Context {NX : Nexus}.

Lemma run_setters_str l :
  Forall (λ s, Forall is_str (setter_texts s)) l → options_str (run_setters l).
Proof.
  intros Hl. unfold run_setters. assert (options_str Options_new) as Hn by (by repeat constructor).
  revert Hn. generalize Options_new. induction Hl as [|s l Hls _ IH]; intros o Ho; simpl; [done|].
  by apply IH, apply_setter_str.
Qed.

(** C5: Keys and values of every entry a chain of option setters emits are [str]s, and so is
    the document handed to the bridge: for every chain, whose texts are [str]s as their
    Rust types demand, and every topic, broker list, group and service identity, the
    hand-written escaper, the deduplication and the number formatting never split a
    character. *)
Theorem config_document_is_str (l : list Setter) topic brokers group demux service stats flush :
  is_str topic → is_str brokers → is_str group → Forall (λ s, Forall is_str (setter_texts s)) l →
  (∀ s, service = Some s → is_str s.1 ∧ is_str s.2) →
  Forall (λ kv, is_str kv.1 ∧ is_str kv.2) (Options_entries (run_setters l)) ∧
  is_str (config_json topic
    (BrokerConfig_adapter_options
      (BrokerConfig_consumer_group (BrokerConfig_brokers BrokerConfig_new brokers) group)
      (run_setters l)) demux service stats flush).
Proof.
  intros Ht Hb Hg Hl Hs. pose proof (entries_str _ (run_setters_str l Hl)) as He. split; [exact He|].
  rewrite config_json_render. by apply render_str, config_doc_str.
Qed.
End chains.

(** ** What the callbacks hand to the handlers *)
Section callbacks.
Context {NX : Nexus} {US : Type}.
Implicit Types w : World US.

(** [e] only reads, and its results satisfy [P]. *)
Definition yields {A} (e : M US A) (P : A → Prop) : Prop := ∀ w,
  match e w with Ret a w' => w' = w ∧ P a | UB => True | _ => False end.

Lemma yields_ret {A} (a : A) (P : A → Prop) : P a → yields (ret a) P.
Proof. by intros Ha w. Qed.
Lemma yields_bind {A B} (e : M US A) (k : A → M US B) (P : A → Prop) (Q : B → Prop) :
  yields e P → (∀ a, P a → yields (k a) Q) → yields (mbind_ k e) Q.
Proof.
  intros He Hk w. specialize (He w). unfold mbind_. destruct (e w) as [a w1| | |]; try done.
  destruct He as [-> Ha]. by apply Hk.
Qed.
Lemma yields_map_M {A B} (f : A → M US B) (P : B → Prop) l :
  (∀ x, x ∈ l → yields (f x) P) → yields (map_M f l) (Forall P).
Proof.
  induction l as [|x l IH]; intros Hf; [by apply yields_ret|]. cbn [map_M].
  eapply yields_bind; [apply Hf; left|]. intros y Hy.
  eapply yields_bind; [apply IH; intros; apply Hf; by right|].
  intros ys Hys. apply yields_ret. by constructor.
Qed.
Lemma yields_borrow_bytes p n : yields (borrow_bytes p n) (λ _, True).
Proof.
  unfold borrow_bytes. case_match; [by apply yields_ret|]. intros w. unfold load, lift.
  by destruct (load_bytes _ _ _).
Qed.

(** The fields of a struct read from memory have their C types. *)
Lemma read_scalar_typed m p t z : read_scalar m p t = Some z → cty_in t z.
Proof.
  intros (s & Hl & ->)%fmap_Some. apply load_bytes_length in Hl.
  destruct t; try (by apply wrap_s_range). simpl in *. pose proof (le_val_range s) as H. by rewrite Hl in H.
Qed.
Lemma read_fields_typed m p fs os vs :
  length os = length fs → read_fields m p fs os = Some vs → Forall2 cty_in fs vs.
Proof.
  revert os vs. induction fs as [|t fs IH]; intros [|o os] vs Ho H; simpl in *; simplify_eq; [constructor|].
  apply bind_Some in H as (v & Hv & H). apply bind_Some in H as (vs' & Hvs & [= <-]).
  constructor; [by eapply read_scalar_typed|by eapply IH].
Qed.
Lemma read_array_typed m p fs n l : read_array m p fs n = Some l → Forall (Forall2 cty_in fs) l.
Proof.
  revert p l. induction n as [|n IH]; intros p l H; simpl in H; simplify_eq; [constructor|].
  apply bind_Some in H as (x & Hx & H). apply bind_Some in H as (xs & Hxs & [= <-]).
  constructor; [|by eapply IH]. eapply read_fields_typed; [apply repr_c_go_length|exact Hx].
Qed.
Lemma yields_load_array p fs n : yields (load_array p fs n) (Forall (Forall2 cty_in fs)).
Proof.
  intros w. unfold load_array, lift. destruct (aligned _ _); [|done].
  destruct (read_array _ _ _ _) as [l|] eqn:E; [|done]. split; [done|by eapply read_array_typed].
Qed.
Lemma yields_borrow_value p n : yields (borrow_value p n) (λ v, v = None ↔ (n < 0)%Z).
Proof.
  unfold borrow_value. destruct (Z.ltb_spec n 0); [by apply yields_ret|].
  eapply yields_bind; [apply yields_borrow_bytes|]. intros s _. apply yields_ret. split; [done|lia].
Qed.
Lemma yields_owned_str p n : yields (owned_str p n) is_str.
Proof.
  eapply yields_bind; [apply yields_borrow_bytes|]. intros s _. apply yields_ret, from_utf8_lossy_valid.
Qed.
Lemma yields_ub {A} (P : A → Prop) : yields (λ _ : World US, UB) P.
Proof. by intros w. Qed.
Lemma yields_array {A} fs (f : list Z → M US A) (P : A → Prop) p n :
  (∀ raw, Forall2 cty_in fs raw → yields (f raw) P) → yields (owned_array fs f p n) (Forall P).
Proof.
  intros Hf. unfold owned_array. case_match; [by apply yields_ret|].
  eapply yields_bind; [apply yields_load_array|]. intros raws Hraws. apply yields_map_M.
  intros raw Hin. apply Hf. rewrite Forall_forall in Hraws. by apply Hraws.
Qed.

Lemma from_utf8_str s : is_str (default "" (from_utf8 s)).
Proof. unfold from_utf8. destruct (utf8_valid s) eqn:E; [exact E|done]. Qed.

(** The Rust types of what the handlers take. *)
Definition timestamp_typed (t : Timestamp) : Prop :=
  match t with NotAvailable => True | CreateTime m | LogAppendTime m => in_s 64 m end.
Definition message_typed (msg : Message) : Prop :=
  is_str (msg_topic msg) ∧ in_s 32 (msg_partition msg) ∧ in_s 64 (msg_offset msg) ∧
  timestamp_typed (msg_timestamp msg) ∧ Forall (λ h, is_str (h_key h)) (msg_headers msg).
Definition metrics_typed (m : MessageMetrics) : Prop :=
  (∃ raw, in_u 64 raw ∧ m_traits m = Traits_from_raw raw) ∧ in_s 32 (m_queue_depth m) ∧ in_s 32 (m_partition m) ∧
  Forall (in_s 64) [m_offset m; m_process_duration_ns m; m_deadletter_duration_ns m; m_read_time_ns m;
    m_process_start_time_ns m; m_watermark_advance_time_ns m].
Definition broker_typed (b : BrokerInfo) : Prop :=
  is_str (broker_id b) ∧ is_str (broker_host b) ∧ is_str (broker_port b) ∧ is_str (broker_rack b).
Definition partition_typed (p : PartitionBandwidth) : Prop :=
  Forall (in_s 64) [pb_ts_unix_ns p; pb_received_bytes p; pb_transmitted_bytes p;
    pb_received_message_count p; pb_compressed_bytes p; pb_uncompressed_bytes p] ∧
  in_s 32 (pb_id p) ∧ is_str (pb_leader p) ∧ is_str (pb_compression p).
Definition bandwidth_typed (b : BandwidthMetrics) : Prop :=
  in_s 64 (bm_ts_unix_ns b) ∧ in_s 64 (bm_stats_interval_ms b) ∧ is_str (bm_metrics_id b) ∧
  is_str (bm_topic b) ∧ is_str (bm_consumer_group b) ∧ Forall broker_typed (bm_brokers b) ∧
  Forall partition_typed (bm_partitions b).

Lemma yields_borrow_header raw : yields (borrow_header raw) (λ h, is_str (h_key h)).
Proof.
  destruct raw as [|k [|kl [|v [|vl [|? ?]]]]]; try apply yields_ub.
  eapply yields_bind; [apply yields_borrow_bytes|]. intros kb _.
  eapply yields_bind; [apply yields_borrow_value|]. intros vb _. apply yields_ret, from_utf8_str.
Qed.
Lemma yields_owned_broker raw : yields (owned_broker raw) broker_typed.
Proof.
  destruct raw as [|? [|? [|? [|? [|? [|? [|? [|? [|? ?]]]]]]]]]; try apply yields_ub.
  do 4 (eapply yields_bind; [apply yields_owned_str|]; intros ? ?). by apply yields_ret.
Qed.
Lemma yields_owned_partition raw :
  Forall2 cty_in PartitionBandwidthRaw raw → yields (owned_partition raw) partition_typed.
Proof.
  intros H. unfold PartitionBandwidthRaw in H.
  repeat match goal with H : Forall2 _ (_ :: _) _ |- _ => apply Forall2_cons_inv_l in H as (? & ? & ? & H & ->) end.
  apply Forall2_nil_inv_l in H as ->. cbn [owned_partition].
  do 2 (eapply yields_bind; [apply yields_owned_str|]; intros ? ?). apply yields_ret.
  split_and!; simpl; [|done..]. repeat (constructor; [assumption|]). constructor.
Qed.

(** The C types of a record's integers. *)
Definition record_args_typed (a : RecordArgs) : Prop := in_s 64 (a_offset a) ∧ in_s 64 (a_ts_millis a).

Lemma yields_borrow_message a topic :
  is_str topic → record_args_typed a → yields (borrow_message a topic) message_typed.
Proof.
  intros Ht [Ho Hm]. unfold borrow_message. eapply (yields_bind _ _ (Forall (λ h, is_str (h_key h)))).
  { apply yields_array. intros raw _. apply yields_borrow_header. }
  intros hs Hhs. eapply yields_bind; [apply yields_borrow_bytes|]. intros key _.
  eapply yields_bind; [apply yields_borrow_value|]. intros value Hv. apply yields_ret.
  split_and!; simpl; [done|by apply wrap_s_range|done| |done].
  unfold decode_timestamp. by repeat case_match.
Qed.
End callbacks.

(** ** Snapshots *)
Lemma get_typed {A} (P : A → Prop) m n (d : json → option A) x :
  (∀ v y, d v = Some y → P y) → get m n d = Some x → P x.
Proof. intros Hd H. unfold get in H. apply bind_Some in H as (v & _ & H). by eapply Hd. Qed.
Lemma dec_int_typed (ok : Z → Prop) `{!∀ z, Decision (ok z)} v z : dec_int ok v = Some z → ok z.
Proof. unfold dec_int. destruct v; try done. case_decide; [by intros [= <-]|done]. Qed.
Lemma dec_i64_typed v z : dec_i64 v = Some z → in_s 64 z.
Proof. apply dec_int_typed. Qed.
Lemma dec_i32_typed v z : dec_i32 v = Some z → in_s 32 z.
Proof. apply dec_int_typed. Qed.
Lemma dec_u32_typed v z : dec_u32 v = Some z → in_u 32 z.
Proof. apply dec_int_typed. Qed.
Lemma dec_vec_typed {A} (P : A → Prop) (d : json → option A) v l :
  (∀ v y, d v = Some y → P y) → dec_vec d v = Some l → Forall P l.
Proof.
  intros Hd. destruct v as [| | | |js|]; try done. simpl. revert l.
  induction js as [|j js IH]; intros l H; simpl in H; [by simplify_eq|].
  apply bind_Some in H as (y & Hy & H). apply bind_Some in H as (ys & Hys & [= <-]).
  constructor; [by eapply Hd|by apply IH].
Qed.

(** Opens a decoded struct: each integer member has its type's range. *)
Ltac open_struct H :=
  apply bind_Some in H as (? & _ & H);
  repeat match type of H with
  | Some _ = Some _ => injection H as <-
  | _ => let x := fresh "x" in let Hx := fresh "Hx" in apply bind_Some in H as (x & Hx & H);
         try first [ apply (get_typed _ _ _ _ _ dec_i64_typed) in Hx
                   | apply (get_typed _ _ _ _ _ dec_i32_typed) in Hx
                   | apply (get_typed _ _ _ _ _ dec_u32_typed) in Hx ]
  end.

Definition window_ok (w : ThroughputWindow) : Prop := in_u 32 (processed_count w) ∧ in_u 32 (dead_letter_count w).
Definition offsets_ok (p : PartitionOffsets) : Prop :=
  in_s 32 (partition p) ∧ in_s 64 (committed_offset p) ∧ in_s 64 (highest_ready_offset p) ∧
  in_s 64 (max_offset_seen p) ∧ in_s 64 (gap_buffer_depth p).
Definition shard_ok (h : Shard) : Prop :=
  in_s 64 (shard h) ∧ in_s 64 (active_workers h) ∧ in_s 64 (pooled_workers h).

Lemma dec_window_typed v w : dec_ThroughputWindow v = Some w → window_ok w.
Proof. intros H. unfold dec_ThroughputWindow in H. open_struct H. by split_and!. Qed.
Lemma dec_offsets_typed v p : dec_PartitionOffsets v = Some p → offsets_ok p.
Proof. intros H. unfold dec_PartitionOffsets in H. open_struct H. by split_and!. Qed.
Lemma dec_shard_typed v h : dec_Shard v = Some h → shard_ok h.
Proof. intros H. unfold dec_Shard in H. open_struct H. by split_and!. Qed.

Lemma dec_summary_typed v s :
  dec_Summary v = Some s → in_s 64 (assigned_partition_count s) ∧ in_s 64 (sum_total_processed s).
Proof. intros H. unfold dec_Summary in H. open_struct H. by split_and!. Qed.
Lemma dec_throughput_typed v t :
  dec_Throughput v = Some t →
  in_s 64 (thr_total_processed t) ∧ in_s 64 (total_dead_lettered t) ∧ Forall window_ok (windows t).
Proof.
  intros H. unfold dec_Throughput in H. open_struct H. split_and!; [done..|].
  eapply get_typed; [|exact Hx]. intros w y. apply dec_vec_typed, dec_window_typed.
Qed.
Lemma dec_pre_commits_typed v p : dec_PreCommits v = Some p → Forall offsets_ok (partitions p).
Proof.
  intros H. unfold dec_PreCommits in H. open_struct H.
  eapply get_typed; [|exact Hx]. intros w y. apply dec_vec_typed, dec_offsets_typed.
Qed.
Lemma dec_concurrency_typed v c :
  dec_Concurrency v = Some c →
  in_s 64 (guard_active c) ∧ in_s 64 (guard_capacity c) ∧ in_s 64 (overflow_active c) ∧
  in_s 64 (overflow_capacity c) ∧ in_s 64 (commit_ingest_active c) ∧ in_s 64 (commit_ingest_capacity c).
Proof. intros H. unfold dec_Concurrency in H. open_struct H. by split_and!. Qed.

(** A decoded snapshot is well-typed: whatever document the parser is given, every
    integer of the snapshot it accepts is in the range of its Rust type, in every window,
    partition and shard; so nothing is silently truncated, and writing the snapshot out
    again gives a document that decodes to the same snapshot. *)
Theorem decoded_snapshot_is_typed from_str document s :
  Snapshot_from_json from_str document = Some s →
  snapshot_ok s ∧ dec_Snapshot (enc_Snapshot s) = Some s.
Proof.
  intros H. unfold Snapshot_from_json in H. apply bind_Some in H as (v & _ & H).
  assert (snapshot_ok s) as Hok; [|split; [done|]].
  { unfold dec_Snapshot in H. apply bind_Some in H as (m & _ & H).
    apply bind_Some in H as (a & Ha & H). apply (get_typed _ _ _ _ _ dec_summary_typed) in Ha.
    apply bind_Some in H as (b & Hb & H). apply (get_typed _ _ _ _ _ dec_throughput_typed) in Hb.
    apply bind_Some in H as (c & Hc & H). apply (get_typed _ _ _ _ _ dec_pre_commits_typed) in Hc.
    apply bind_Some in H as (d & Hd & H). apply (get_typed _ _ _ _ _ dec_concurrency_typed) in Hd.
    apply bind_Some in H as (e & He & H).
    apply (get_typed (Forall shard_ok)) in He; [|intros w y; apply dec_vec_typed, dec_shard_typed].
    injection H as <-. unfold snapshot_ok. simpl. naive_solver. }
  by apply dec_enc_Snapshot.
Qed.

(** ** Witnesses *)
Section witnesses.
#[local] Existing Instance nexus_ref.

(** "ü" in a password, a quote in the topic. *)
Definition umlaut : string := String "195" (String "188" "").
Definition demo_setters : list Setter := [SClientId "app"; STls; SSaslPlain umlaut "p"; SKafkaOption "x" umlaut].
Lemma config_document_is_str_witness :
  is_str (config_json ("orders" +:+ String "034" umlaut)
    (BrokerConfig_adapter_options
      (BrokerConfig_consumer_group (BrokerConfig_brokers BrokerConfig_new "b:9092") "g")
      (run_setters demo_setters)) DemuxConfig_new (Some (umlaut, "team")) None None).
Proof.
  apply config_document_is_str; [reflexivity|reflexivity|reflexivity| |].
  - repeat constructor.
  - intros s [= <-]. by split.
Defined.

Lemma decoded_snapshot_is_typed_witness :
  snapshot_ok demo_snapshot ∧ dec_Snapshot (enc_Snapshot demo_snapshot) = Some demo_snapshot.
Proof.
  apply (decoded_snapshot_is_typed (λ _, Some (enc_Snapshot demo_snapshot)) "{}"). by vm_compute.
Defined.
End witnesses.
