(* ===== verification/HandlerTypes.v ===== *)
(** * Handlers only ever see values of their types

    A program logic for the callbacks: [safe e Q] says that [e], run in a process whose
    application state satisfies an invariant [I] of the application's choice, keeps [I] in
    every outcome but undefined behaviour and returns values in [Q]. Its rules follow the
    combinators of Effects.v. A handler set is [well_behaved] when its code keeps [I] on
    arguments that inhabit the declared Rust types; nothing is asked of it on any others. *)
From Stdlib Require Import ZArith NArith Ascii.
From Stdlib Require String.
From stdpp Require Import base tactics option list gmap strings.
From S2P Require Import Prelude Text Json Nexus Options Config Ffi Effects Trampolines StrTypes.
#[local] Open Scope Z_scope.

Section logic.
Context {NX : Nexus} {US : Type}.
Context (h : Handlers US) (I : US → Prop).
Implicit Types w : World US.

(** ** The application's code *)
Definition payload_safe (p : Payload US) : Prop := ∀ u, I u → I (Payload_drop p u).1.
Definition call_safe {A} (c : UserCall US A) (Q : A → Prop) : Prop := ∀ u, I u →
  I (c u).1 ∧ match (c u).2 with UDone a => Q a | UPanic p => payload_safe p end.
Definition error_safe (e : UserError US) : Prop :=
  call_safe (err_to_string e) (λ _, True) ∧ call_safe (err_drop e) (λ _, True).
Definition result_safe {A} (r : A + UserError US) : Prop :=
  match r with inl _ => True | inr e => error_safe e end.
Definition optional {H} (f : option H) (P : H → Prop) : Prop := ∀ x, f = Some x → P x.

Definition well_behaved : Prop :=
  is_str (topic h) ∧
  (∀ msg, message_typed msg → call_safe (process h msg) result_safe) ∧
  optional (dead_letter h) (λ d, ∀ msg reason, message_typed msg → is_str reason →
    call_safe (d msg reason) result_safe) ∧
  optional (metrics h) (λ f, ∀ m, metrics_typed m → call_safe (f m) (λ _, True)) ∧
  optional (shutdown h) (λ f, ∀ reason, is_str reason → call_safe (f reason) (λ _, True)) ∧
  optional (log h) (λ f, ∀ level text, is_str text → call_safe (f level text) (λ _, True)) ∧
  optional (bandwidth h) (λ f, ∀ b, bandwidth_typed b → call_safe (f b) (λ _, True)).

(** ** The rules *)
(** [h] is published and the application's state satisfies the invariant. *)
Definition holds w : Prop := w_handlers w = Some h ∧ I (w_user w).
Definition outcome {A} (Q : A → Prop) (r : Res US A) : Prop :=
  match r with
  | Ret a w => holds w ∧ Q a
  | Panic p w => holds w ∧ payload_safe p
  | Abort_ w => holds w
  | UB => True
  end.
Definition safe {A} (e : M US A) (Q : A → Prop) : Prop := ∀ w, holds w → outcome Q (e w).

Lemma safe_ret {A} (a : A) (Q : A → Prop) : Q a → safe (ret a) Q.
Proof. by intros Ha w. Qed.
Lemma safe_bind {A B} (e : M US A) (k : A → M US B) (P : A → Prop) (Q : B → Prop) :
  safe e P → (∀ a, P a → safe (k a) Q) → safe (mbind_ k e) Q.
Proof.
  intros He Hk w Hw. specialize (He w Hw). unfold mbind_. destruct (e w); try done.
  destruct He as [Hw' Ha]. by apply Hk.
Qed.
Lemma safe_yields {A} (e : M US A) (P : A → Prop) : yields e P → safe e P.
Proof. intros He w Hw. specialize (He w). by destruct (e w); [destruct He as [-> ?]|..]. Qed.
Lemma safe_user {A} (c : UserCall US A) (Q : A → Prop) : call_safe c Q → safe (user c) Q.
Proof.
  intros Hc w [Hh Hu]. unfold user. specialize (Hc _ Hu). destruct (c (w_user w)) as [u [a|p]];
    destruct Hc as [Hi Hq]; by repeat split.
Qed.
Lemma safe_catch {A} (e : M US A) (Q : A → Prop) :
  safe e Q → safe (catch_unwind e) (λ r, match r with inl a => Q a | inr p => payload_safe p end).
Proof. intros He w Hw. specialize (He w Hw). unfold catch_unwind. by destruct (e w). Qed.
Lemma safe_extern {A} (e : M US A) (Q : A → Prop) : safe e Q → safe (extern_C e) Q.
Proof. intros He w Hw. specialize (He w Hw). unfold extern_C. destruct (e w); naive_solver. Qed.
Lemma safe_with_drop {A} (e : M US A) d (Q : A → Prop) :
  safe e Q → call_safe d (λ _, True) → safe (with_drop e d) Q.
Proof.
  intros He Hd w Hw. specialize (He w Hw). unfold with_drop. destruct (e w) as [a w1|p w1|w1|]; [| |done..].
  - destruct He as [Hw1 Ha]. apply (safe_bind (user d) _ (λ _, True) Q); [by apply safe_user| |done].
    intros _ _. by apply safe_ret.
  - destruct He as [Hw1 Hp]. pose proof (safe_user d _ Hd w1 Hw1) as Hr.
    unfold user in *. destruct (d (w_user w1)) as [u [[]|p']]; naive_solver.
Qed.
Lemma safe_drop_payload p : payload_safe p → safe (drop_panic_payload p) (λ _, True).
Proof.
  intros Hp w [Hh Hu]. specialize (Hp _ Hu). unfold drop_panic_payload, catch_unwind, drop_payload, mbind_.
  by destruct (Payload_drop p (w_user w)) as [u [p'|]].
Qed.
Lemma safe_report text : safe (report text) (λ _, True).
Proof. by intros w [Hh Hu]. Qed.
Lemma safe_handlers : safe handlers (λ r, r = Some h).
Proof. by intros w [Hh Hu]. Qed.
Lemma safe_lift (f : World US → option mem) :
  safe (lift (λ w, m ← f w; Some (tt, set_mem m w))) (λ _, True).
Proof. intros w [Hh Hu]. unfold lift. by destruct (f w). Qed.
Lemma safe_store p s : safe (store p s) (λ _, True).
Proof. apply safe_lift. Qed.
Lemma safe_store_scalar p t z : safe (store_scalar p t z) (λ _, True).
Proof.
  intros w [Hh Hu]. unfold store_scalar, lift. destruct (aligned _ _); [|done].
  by destruct (write_scalar _ _ _ _).
Qed.
Lemma safe_write_c_err buf cap len_out text : safe (write_c_err buf cap len_out text) (λ _, True).
Proof.
  unfold write_c_err. case_match; [by apply safe_ret|]. eapply safe_bind; [apply safe_store|].
  intros _ _. apply safe_store_scalar.
Qed.

Lemma safe_with_handler {H} (field : Handlers US → option H) call :
  optional (field h) (λ f, call_safe (call f) (λ _, True)) → safe (with_handler field call) (λ _, True).
Proof.
  intros Hf. eapply safe_bind; [apply safe_handlers|]. intros r ->.
  destruct (field h) as [f|]; [by apply safe_user, Hf|by apply safe_ret].
Qed.
Lemma safe_contained (e : M US ()) : safe e (λ _, True) → safe (contained e) (λ _, True).
Proof.
  intros He. eapply safe_bind; [by apply safe_catch|]. intros [[]|p] Hp; [by apply safe_ret|].
  by apply safe_drop_payload.
Qed.

(** ** The six callbacks *)
Context (Hh : well_behaved).

Lemma safe_process a o : record_args_typed a → safe (process_trampoline a o) (λ _, True).
Proof.
  destruct Hh as (Ht & Hp & _). intros Ha. apply safe_extern.
  eapply (safe_bind _ _ (λ _, True)); [case_match; [by apply safe_ret|apply safe_store_scalar]|]. intros _ _.
  eapply safe_bind.
  { apply (safe_catch _ (λ _, True)). eapply safe_bind; [apply safe_handlers|]. intros r ->.
    eapply safe_bind; [by apply safe_yields, yields_borrow_message|]. intros msg Hm.
    eapply safe_bind; [by apply safe_user, Hp|]. intros [t|e] He; [by apply safe_ret|].
    destruct He as [Hs Hd]. apply safe_with_drop; [|done].
    eapply safe_bind; [by apply safe_user|]. intros. by apply safe_ret. }
  intros [[[rc traits] text]|p] Hr.
  - eapply (safe_bind _ _ (λ _, True)); [case_match; [apply safe_store_scalar|by apply safe_ret]|]. intros _ _.
    eapply (safe_bind _ _ (λ _, True)); [case_match; [apply safe_write_c_err|by apply safe_ret]|].
    intros _ _. by apply safe_ret.
  - eapply safe_bind; [by apply safe_drop_payload|]. intros _ _.
    eapply safe_bind; [apply safe_report|]. intros _ _.
    eapply safe_bind; [apply safe_write_c_err|]. intros _ _. by apply safe_ret.
Qed.

Lemma safe_deadletter a p n : record_args_typed a → safe (deadletter_trampoline a p n) (λ _, True).
Proof.
  destruct Hh as (Ht & _ & Hd & _). intros Ha. apply safe_extern. eapply safe_bind.
  { apply (safe_catch _ (λ _, True)). eapply safe_bind; [apply safe_handlers|]. intros r ->.
    eapply safe_bind; [apply safe_yields, yields_borrow_bytes|]. intros reason _.
    eapply safe_bind; [by apply safe_yields, yields_borrow_message|]. intros msg Hm.
    eapply (safe_bind _ _ result_safe).
    { destruct (dead_letter h) as [d|] eqn:E; [|by apply safe_ret].
      apply safe_user. apply (Hd d eq_refl); [done|apply from_utf8_lossy_valid]. }
    intros [[]|e] He; [by apply safe_ret|]. apply safe_with_drop; [by apply safe_ret|apply He]. }
  intros [rc|q] Hq; [by apply safe_ret|].
  eapply safe_bind; [by apply safe_drop_payload|]. intros _ _.
  eapply safe_bind; [apply safe_report|]. intros _ _. by apply safe_ret.
Qed.

Lemma safe_metrics t q p o d dd r ps wm :
  Forall (in_s 64) [o; d; dd; r; ps; wm] → safe (metrics_trampoline t q p o d dd r ps wm) (λ _, True).
Proof.
  destruct Hh as (_ & _ & _ & Hm & _). intros Hi. apply safe_extern, safe_contained, safe_with_handler.
  intros f Hf. apply (Hm f Hf). split_and!; [|by apply wrap_s_range|by apply wrap_s_range|done].
  exists (wrap_u 64 t). split; [by apply wrap_u_range|done].
Qed.

Lemma safe_shutdown p n : safe (shutdown_trampoline p n) (λ _, True).
Proof.
  destruct Hh as (_ & _ & _ & _ & Hs & _). apply safe_extern, safe_contained.
  eapply (safe_bind _ _ is_str).
  - case_match; [by apply safe_ret|]. eapply safe_bind; [apply safe_yields, yields_borrow_bytes|].
    intros b _. apply safe_ret, from_utf8_lossy_valid.
  - intros reason Hr. apply safe_with_handler. intros f Hf. by apply (Hs f Hf).
Qed.

Lemma safe_log level p n : safe (log_trampoline level p n) (λ _, True).
Proof.
  destruct Hh as (_ & _ & _ & _ & _ & Hl & _). apply safe_extern, safe_contained.
  eapply safe_bind; [apply safe_yields, yields_borrow_bytes|]. intros b _.
  apply safe_with_handler. intros f Hf. apply (Hl f Hf), from_utf8_lossy_valid.
Qed.

Lemma safe_bandwidth ts iv mi mil t tl g gl bs bn ps pn :
  in_s 64 ts → in_s 64 iv → safe (bandwidth_trampoline ts iv mi mil t tl g gl bs bn ps pn) (λ _, True).
Proof.
  destruct Hh as (_ & _ & _ & _ & _ & _ & Hb). intros Hts Hiv. apply safe_extern.
  eapply safe_bind; [apply safe_yields, yields_array; intros; apply yields_owned_broker|]. intros brokers Hbs.
  eapply safe_bind; [apply safe_yields, yields_array; intros; by apply yields_owned_partition|]. intros parts Hps.
  do 3 (eapply safe_bind; [apply safe_yields, yields_owned_str|]; intros ? ?).
  apply safe_contained, safe_with_handler. intros f Hf. apply (Hb f Hf). by split_and!.
Qed.
End logic.

(** What the application's state is after a callback. *)
Definition user_after {NX : Nexus} {US A} (r : Res US A) (P : US → Prop) : Prop :=
  match r with Ret _ w | Panic _ w | Abort_ w => P (w_user w) | UB => True end.

Section callbacks.
Context {NX : Nexus} {US : Type}.

Lemma safe_user_after (h : Handlers US) (I : US → Prop) {A} (e : M US A) w :
  safe h I e (λ _, True) → w_handlers w = Some h → I (w_user w) → user_after (e w) I.
Proof.
  intros He Hh Hu. specialize (He w (conj Hh Hu)). unfold user_after. by destruct (e w) as [? ? | ? ? | ? |];
    [apply He|apply He|apply He|].
Qed.

(** C12: The values the six trampolines hand to the handlers inhabit the Rust types they are
    declared with, whatever bytes and lengths the bridge passes: an application that keeps
    an invariant, of its own choice, when its handlers are given well-typed arguments, and
    about which nothing is known for any other arguments, keeps it across every callback,
    however the handlers return or panic. Typed are the message (topic and header keys are
    [str]s, partition an i32, offset and timestamp i64s), the dead-letter reason, the log
    text and the shutdown reason ([str]s), the metrics (integer widths, traits from a u64)
    and the bandwidth packet with its brokers and partitions. *)
Theorem handlers_see_typed_values (h : Handlers US) (I : US → Prop) (w : World US) :
  well_behaved h I → w_handlers w = Some h → I (w_user w) →
  (∀ a o, record_args_typed a → user_after (process_trampoline a o w) I) ∧
  (∀ a p n, record_args_typed a → user_after (deadletter_trampoline a p n w) I) ∧
  (∀ t q p o d dd r ps wm, Forall (in_s 64) [o; d; dd; r; ps; wm] →
     user_after (metrics_trampoline t q p o d dd r ps wm w) I) ∧
  (∀ p n, user_after (shutdown_trampoline p n w) I) ∧
  (∀ level p n, user_after (log_trampoline level p n w) I) ∧
  (∀ ts iv mi mil t tl g gl bs bn ps pn, in_s 64 ts → in_s 64 iv →
     user_after (bandwidth_trampoline ts iv mi mil t tl g gl bs bn ps pn w) I).
Proof.
  intros Hb Hh Hu. split_and!; intros; eapply safe_user_after; try done;
    auto using safe_process, safe_deadletter, safe_metrics, safe_shutdown, safe_log, safe_bandwidth.
Qed.
End callbacks.

(** ** Recording handlers *)
Section witnesses.
#[local] Existing Instance nexus_ref.

(** Handlers that record the texts and partition numbers they are given, and then fail. *)
Definition quiet : Payload (list string) := mkPayload (λ u, (u, None)).
Definition recorder : Handlers (list string) :=
  mkHandlers "orders"
    (λ msg u, (u ++ msg_topic msg :: map h_key (msg_headers msg), UPanic quiet))
    (Some (λ msg reason u, (u ++ [reason], UPanic quiet))) None
    (Some (λ reason u, (u ++ [reason], UDone tt))) (Some (λ _ text u, (u ++ [text], UDone tt)))
    (Some (λ b u, (u ++ [bm_topic b], UPanic quiet))).
Definition all_str (u : list string) : Prop := Forall is_str u.

Lemma recorder_well_behaved : well_behaved recorder all_str.
Proof.
  assert (payload_safe all_str quiet) as Hq by (by intros u).
  split_and!; [done|..]; unfold optional; simpl.
  - intros msg (Ht & _ & _ & _ & Hk) u Hu. split; [|done]. apply Forall_app. split; [done|].
    constructor; [done|]. by apply Forall_map.
  - intros d [= <-] msg reason _ Hr u Hu. split; [|done]. apply Forall_app. by repeat constructor.
  - done.
  - intros d [= <-] reason Hr u Hu. split; [|done]. apply Forall_app. by repeat constructor.
  - intros d [= <-] level text Hr u Hu. split; [|done]. apply Forall_app. by repeat constructor.
  - intros d [= <-] b (_ & _ & _ & Ht & _) u Hu. split; [|done]. apply Forall_app. by repeat constructor.
Qed.

(** A log line that is not UTF-8 reaches the handler as U+FFFD. *)
Lemma handlers_see_typed_values_witness :
  user_after (log_trampoline 1 64 1 (mkWorld (blocks_mem [(64, String "255" "")]) (Some recorder) None [])) all_str.
Proof.
  apply (handlers_see_typed_values recorder all_str (mkWorld (blocks_mem [(64, String "255" "")]) (Some recorder) None [])
    recorder_well_behaved eq_refl (Forall_nil_2 _)).
Defined.
End witnesses.
