(* ===== verification/StrOps.v ===== *)
(** * The [str] methods the build scripts use

    Splitting, trimming and searching, by [char] where Rust works by [char]: whitespace is
    Unicode's White_Space. *)
From Stdlib Require Import ZArith NArith Ascii.
From Stdlib Require String.
From stdpp Require Import base tactics option list strings.
From S2P Require Import Prelude Text.

(** [char::is_whitespace], on the character's encoding. *)
Definition ws2 (a b : ascii) : string := String a (String b "").
Definition ws3 (a b c : ascii) : string := String a (String b (String c "")).
Definition unicode_ws : list string :=
  [ws2 "194" "133"; ws2 "194" "160"; ws3 "225" "154" "128";
   ws3 "226" "128" "128"; ws3 "226" "128" "129"; ws3 "226" "128" "130"; ws3 "226" "128" "131";
   ws3 "226" "128" "132"; ws3 "226" "128" "133"; ws3 "226" "128" "134"; ws3 "226" "128" "135";
   ws3 "226" "128" "136"; ws3 "226" "128" "137"; ws3 "226" "128" "138"; ws3 "226" "128" "168";
   ws3 "226" "128" "169"; ws3 "226" "128" "175"; ws3 "226" "129" "159"; ws3 "227" "128" "128"].
Definition ascii_ws (b : ascii) : bool := byte_in 9 13 b || Ascii.eqb b " ".
Definition is_whitespace (c : string) : bool :=
  match c with
  | String b "" => ascii_ws b
  | _ => existsb (String.eqb c) unicode_ws
  end.

Fixpoint drop_while (f : string → bool) (l : list string) : list string :=
  match l with [] => [] | c :: l' => if f c then drop_while f l' else l end.
Fixpoint take_while (f : string → bool) (l : list string) : list string :=
  match l with [] => [] | c :: l' => if f c then c :: take_while f l' else [] end.

Definition trim_start (s : string) : string := str_concat (drop_while is_whitespace (chars s)).
Definition trim_end (s : string) : string :=
  str_concat (reverse (drop_while is_whitespace (reverse (chars s)))).
Definition trim (s : string) : string := trim_end (trim_start s).

(** [s.split(f)] on characters: the pieces, empty ones included. *)
Fixpoint split_chars (f : string → bool) (cur : string) (l : list string) : list string :=
  match l with
  | [] => [cur]
  | c :: l => if f c then cur :: split_chars f "" l else split_chars f (cur +:+ c) l
  end.
Definition split_by (f : string → bool) (s : string) : list string := split_chars f "" (chars s).
Definition nonempty (s : string) : bool := negb (String.eqb s "").
Definition split_whitespace (s : string) : list string := List.filter nonempty (split_by is_whitespace s).
Definition is_char (b : ascii) (c : string) : bool := String.eqb c (String b "").

(** [s.lines()]: pieces ended by a newline, without it or a carriage return before it; a
    last empty piece is not a line. *)
Definition strip_cr (s : string) : string :=
  match reverse (String.list_ascii_of_string s) with
  | "013"%char :: l => String.string_of_list_ascii (reverse l)
  | _ => s
  end.
Fixpoint lines_go (cur : string) (s : string) : list string :=
  match s with
  | "" => if nonempty cur then [cur] else []
  | String b s => if Ascii.eqb b "010" then strip_cr cur :: lines_go "" s
                  else lines_go (cur +:+ String b "") s
  end.
Definition lines (s : string) : list string := lines_go "" s.

(** [s.strip_prefix(p)] *)
Fixpoint strip_prefix (p s : string) : option string :=
  match p, s with
  | "", _ => Some s
  | String a p, String b s => if Ascii.eqb a b then strip_prefix p s else None
  | _, "" => None
  end.
Definition starts_with (p s : string) : bool := bool_decide (is_Some (strip_prefix p s)).

(** What follows the first occurrence of [pat]: [&s[s.find(pat)? + pat.len()..]]. *)
Fixpoint after_first (pat s : string) : option string :=
  match strip_prefix pat s with
  | Some r => Some r
  | None => match s with "" => None | String _ s => after_first pat s end
  end.

(** [u64]'s and [u32]'s [parse]: ASCII digits after an optional plus sign, no overflow. *)
Definition digit (b : ascii) : bool := byte_in 48 57 b.
Fixpoint digits_val (acc : N) (s : string) : option N :=
  match s with
  | "" => Some acc
  | String b s => if digit b then digits_val (acc * 10 + (byte_val b - 48))%N s else None
  end.
Definition parse_uint (w : N) (s : string) : option N :=
  let s := match s with String "+" r => r | _ => s end in
  match s with
  | "" => None
  | _ => n ← digits_val 0 s; if (n <? 2 ^ w)%N then Some n else None
  end.

(** ** Lemmas *)
Lemma strip_prefix_spec p s r : strip_prefix p s = Some r ↔ s = p +:+ r.
Proof.
  split.
  - revert s. induction p as [|a p IH]; intros s H; simpl in H; [by injection H as ->|].
    destruct s as [|b s]; [done|]. destruct (Ascii.eqb_spec a b) as [->|]; [|done].
    by rewrite sapp_cons, <-(IH _ H).
  - intros ->. induction p as [|a p IH]; [done|]. rewrite sapp_cons. simpl. by rewrite Ascii.eqb_refl.
Qed.

(** ASCII text is its own list of characters. *)
Lemma chars_ascii_cons b s : is_ascii b = true → chars (String b s) = String b "" :: chars s.
Proof.
  intros H. unfold chars. rewrite chunks_unfold.
  change (String b s) with (String b "" +:+ s). by rewrite (utf8_step_char _ s (utf8_char_ascii b H)).
Qed.

(** Text without any whitespace character. *)
Definition solid (b : ascii) : bool := is_ascii b && negb (ascii_ws b).

Lemma solid_ascii b : solid b = true → is_ascii b = true.
Proof. intros H. by apply andb_true_iff in H as [? _]. Qed.

Lemma trim_start_solid b s : solid b = true → trim_start (String b s) = String b s.
Proof.
  intros H. unfold trim_start. rewrite chars_ascii_cons by by apply solid_ascii.
  cbn [drop_while is_whitespace]. apply andb_true_iff in H as [_ H%negb_true_iff]. rewrite H.
  cbn [str_concat foldr]. unfold str_concat. simpl. fold (str_concat (chars s)). by rewrite chars_concat.
Qed.

Lemma chars_ascii_app s t : str_all is_ascii s = true → chars (s +:+ t) = chars s ++ chars t.
Proof.
  induction s as [|b s IH]; intros H; [done|]. cbn [str_all] in H. apply andb_true_iff in H as [Hb H].
  rewrite sapp_cons, !chars_ascii_cons by done. by rewrite IH.
Qed.

Lemma str_all_impl (f g : ascii → bool) s :
  (∀ b, f b = true → g b = true) → str_all f s = true → str_all g s = true.
Proof.
  intros Hi. induction s as [|b s IH]; [done|]. cbn [str_all]. intros [Hb H]%andb_true_iff.
  by rewrite Hi, IH.
Qed.

Lemma str_all_app_bool f s t : str_all f (s +:+ t) = str_all f s && str_all f t.
Proof. induction s as [|b s IH]; [done|]. rewrite sapp_cons. cbn [str_all]. by rewrite IH, andb_assoc. Qed.

Lemma trim_end_solid s b : str_all is_ascii s = true → solid b = true → trim_end (s +:+ String b "") = s +:+ String b "".
Proof.
  intros Hs Hb. unfold trim_end.
  rewrite chars_ascii_app, chars_ascii_cons by eauto using solid_ascii.
  change (chars "") with (@nil string). rewrite reverse_app. cbn [reverse rev_append app].
  change (reverse [String b ""]) with [String b ""]. cbn [app drop_while is_whitespace].
  apply andb_true_iff in Hb as [_ Hb%negb_true_iff]. rewrite Hb.
  rewrite reverse_cons, reverse_involutive, str_concat_app, chars_concat. done.
Qed.

(** ** Decimal text *)
Definition uint_val (u : Decimal.uint) (acc : N) : N :=
  (fix go u acc := match u with
    | Decimal.Nil => acc
    | Decimal.D0 u => go u (acc * 10)
    | Decimal.D1 u => go u (acc * 10 + 1)
    | Decimal.D2 u => go u (acc * 10 + 2)
    | Decimal.D3 u => go u (acc * 10 + 3)
    | Decimal.D4 u => go u (acc * 10 + 4)
    | Decimal.D5 u => go u (acc * 10 + 5)
    | Decimal.D6 u => go u (acc * 10 + 6)
    | Decimal.D7 u => go u (acc * 10 + 7)
    | Decimal.D8 u => go u (acc * 10 + 8)
    | Decimal.D9 u => go u (acc * 10 + 9)
    end)%N u acc.

Lemma uint_val_pos u p : N.pos (Pos.of_uint_acc u p) = uint_val u (N.pos p).
Proof.
  revert p. induction u; intros p; cbn [Pos.of_uint_acc]; try done;
    rewrite IHu; unfold uint_val; fold uint_val; f_equal; lia.
Qed.

Lemma uint_val_of_uint u : N.of_uint u = uint_val u 0.
Proof.
  unfold N.of_uint. induction u; cbn [Pos.of_uint]; try done; by rewrite uint_val_pos.
Qed.

Lemma digits_val_uint u acc : digits_val acc (DecimalString.NilEmpty.string_of_uint u) = Some (uint_val u acc).
Proof.
  revert acc. induction u; intros acc; cbn [DecimalString.NilEmpty.string_of_uint digits_val]; try done;
    simpl; rewrite IHu; unfold uint_val; fold uint_val; do 2 f_equal; simpl; lia.
Qed.

Lemma dec_N_nilempty n : dec_N n = DecimalString.NilEmpty.string_of_uint (N.to_uint n) ∧ N.to_uint n ≠ Decimal.Nil.
Proof.
  assert (N.to_uint n ≠ Decimal.Nil) as H.
  { destruct n as [|p]; [done|]. apply DecimalPos.Unsigned.to_uint_nonnil. }
  split; [|done]. unfold dec_N. by destruct (N.to_uint n).
Qed.

Lemma dec_N_nonempty n : dec_N n ≠ "".
Proof. destruct (dec_N_nilempty n) as [-> H]. by destruct (N.to_uint n). Qed.

Lemma dec_N_digits n : str_all digit (dec_N n) = true.
Proof. destruct (dec_N_nilempty n) as [-> _]. by induction (N.to_uint n). Qed.

Lemma digits_val_dec n : digits_val 0 (dec_N n) = Some n.
Proof.
  destruct (dec_N_nilempty n) as [-> _].
  by rewrite digits_val_uint, <-uint_val_of_uint, DecimalN.Unsigned.of_to.
Qed.

(** Printing then parsing a number that fits gives it back. *)
Lemma parse_uint_dec w n : (n < 2 ^ w)%N → parse_uint w (dec_N n) = Some n.
Proof.
  intros Hn. unfold parse_uint. pose proof (digits_val_dec n) as Hd. pose proof (dec_N_digits n) as Ha.
  pose proof (dec_N_nonempty n) as Hne. destruct (dec_N n) as [|b s]; [done|].
  cbn [str_all] in Ha. apply andb_true_iff in Ha as [Hb _].
  destruct (Ascii.eqb_spec b "+") as [->|Hp]; [done|].
  assert (match String b s with String "+" r => r | _ => String b s end = String b s) as ->.
  { destruct b as [[] [] [] [] [] [] [] []]; try done. }
  rewrite Hd. simpl. by apply N.ltb_lt in Hn as ->.
Qed.

Lemma parse_uint_bound w s n : parse_uint w s = Some n → (n < 2 ^ w)%N.
Proof.
  unfold parse_uint. cbv zeta.
  generalize (match s with String "+" r => r | _ => s end). intros t H.
  destruct t as [|b t]; [done|]. apply bind_Some in H as (k & _ & H).
  destruct (N.ltb_spec k (2 ^ w)); [by injection H as <-|done].
Qed.

(** ** Trimming solid text *)
Lemma digit_solid b : digit b = true → solid b = true.
Proof. by destruct b as [[] [] [] [] [] [] [] []]. Qed.

Lemma trim_start_space s : trim_start (String " " s) = trim_start s.
Proof. unfold trim_start. by rewrite chars_ascii_cons. Qed.

Lemma str_snoc s : s ≠ "" → ∃ s' b, s = s' +:+ String b "".
Proof.
  induction s as [|a s IH]; [done|]. intros _. destruct s as [|c s]; [by exists "", a|].
  destruct IH as (s' & b & ->); [done|]. by exists (String a s'), b.
Qed.

Lemma trim_end_text s d : str_all is_ascii s = true → str_all solid d = true → d ≠ "" → trim_end (s +:+ d) = s +:+ d.
Proof.
  intros Hs Hd Hne. destruct (str_snoc d Hne) as (d' & b & ->).
  rewrite str_all_app_bool in Hd. apply andb_true_iff in Hd as [Hd' Hb].
  cbn [str_all] in Hb. rewrite andb_true_r in Hb.
  rewrite <-sapp_assoc. apply trim_end_solid; [|done].
  rewrite str_all_app_bool, Hs. simpl. eapply str_all_impl; [|exact Hd']. apply solid_ascii.
Qed.

Lemma trim_text a s d :
  solid a = true → str_all is_ascii s = true → str_all solid d = true → d ≠ "" →
  trim (String a s +:+ d) = String a s +:+ d.
Proof.
  intros Ha Hs Hd Hne. unfold trim. rewrite sapp_cons, trim_start_solid by done.
  rewrite <-sapp_cons. apply trim_end_text; [|done|done]. cbn [str_all]. by rewrite (solid_ascii _ Ha), Hs.
Qed.

Lemma trim_solid d : str_all solid d = true → d ≠ "" → trim d = d.
Proof.
  intros Hd Hne. unfold trim. destruct d as [|a d]; [done|]. pose proof Hd as Hd2.
  cbn [str_all] in Hd2. apply andb_true_iff in Hd2 as [Ha _].
  rewrite trim_start_solid by done. rewrite <-(sapp_nil_l (String a d)). by apply trim_end_text.
Qed.

Lemma trim_space_solid d : str_all solid d = true → d ≠ "" → trim (String " " d) = d.
Proof.
  intros Hd Hne. rewrite <-(trim_solid d Hd Hne) at 2. unfold trim. by rewrite trim_start_space.
Qed.

(** ** Lines *)
Definition no_newline (b : ascii) : bool := negb (Ascii.eqb b "010").
Lemma lines_go_line cur s r :
  str_all no_newline s = true →
  lines_go cur (s +:+ String "010" r) = strip_cr (cur +:+ s) :: lines_go "" r.
Proof.
  revert cur. induction s as [|b s IH]; intros cur H; [by rewrite sapp_nil_r|].
  cbn [str_all] in H. apply andb_true_iff in H as [Hb H]. rewrite sapp_cons. cbn [lines_go].
  unfold no_newline in Hb. apply negb_true_iff in Hb. rewrite Hb, IH by done.
  by rewrite sapp_assoc.
Qed.

Lemma list_ascii_snoc s b :
  String.list_ascii_of_string (s +:+ String b "") = String.list_ascii_of_string s ++ [b].
Proof. induction s as [|a s IH]; [done|]. rewrite sapp_cons. simpl. by rewrite IH. Qed.

Lemma strip_cr_snoc s b : b ≠ "013"%char → strip_cr (s +:+ String b "") = s +:+ String b "".
Proof.
  intros Hb. unfold strip_cr. rewrite list_ascii_snoc, reverse_app. simpl. destruct b as [[] [] [] [] [] [] [] []]; done.
Qed.

(** A line that keeps its end keeps it after any prefix that does. *)
Lemma strip_cr_app s d : strip_cr s = s → strip_cr d = d → strip_cr (s +:+ d) = s +:+ d.
Proof.
  intros Hs Hd. destruct (decide (d = "")) as [->|Hne]; [by rewrite sapp_nil_r|].
  destruct (str_snoc d Hne) as (r & b & ->). rewrite <-sapp_assoc. apply strip_cr_snoc. intros ->.
  unfold strip_cr in Hd. rewrite list_ascii_snoc, reverse_app in Hd.
  change (reverse ["013"%char]) with ["013"%char] in Hd. cbn [app] in Hd.
  rewrite reverse_involutive, String.string_of_list_ascii_of_string in Hd.
  apply (f_equal String.length) in Hd. rewrite slen_app in Hd. simpl in Hd. lia.
Qed.

Lemma strip_cr_text s d : str_all solid d = true → d ≠ "" → strip_cr (s +:+ d) = s +:+ d.
Proof.
  intros Hd Hne. destruct (str_snoc d Hne) as (d' & b & ->). rewrite <-sapp_assoc.
  apply strip_cr_snoc. rewrite str_all_app_bool in Hd. apply andb_true_iff in Hd as [_ Hb].
  cbn [str_all] in Hb. rewrite andb_true_r in Hb. by intros ->.
Qed.

Lemma solid_no_newline b : solid b = true → no_newline b = true.
Proof. by destruct b as [[] [] [] [] [] [] [] []]. Qed.

(** ** Splitting ASCII text *)
Lemma split_chars_word f cur w l :
  str_all is_ascii w = true → str_all (λ b, negb (f (String b ""))) w = true →
  split_chars f cur (chars w ++ l) = split_chars f (cur +:+ w) l.
Proof.
  revert cur. induction w as [|b w IH]; intros cur Ha Hf; [by rewrite sapp_nil_r|].
  cbn [str_all] in Ha, Hf. apply andb_true_iff in Ha as [Hb Ha]. apply andb_true_iff in Hf as [Hfb Hf].
  rewrite chars_ascii_cons by done. cbn [app split_chars]. apply negb_true_iff in Hfb. rewrite Hfb, IH by done.
  by rewrite sapp_assoc.
Qed.

Lemma split_by_last f w :
  str_all is_ascii w = true → str_all (λ b, negb (f (String b ""))) w = true → split_by f w = [w].
Proof.
  intros Ha Hf. unfold split_by. rewrite <-(app_nil_r (chars w)), split_chars_word by done. done.
Qed.

Lemma split_by_word f w b r :
  str_all is_ascii w = true → str_all (λ b, negb (f (String b ""))) w = true → is_ascii b = true →
  f (String b "") = true → split_by f (w +:+ String b r) = w :: split_by f r.
Proof.
  intros Ha Hf Hb Hfb. unfold split_by.
  rewrite chars_ascii_app, split_chars_word, chars_ascii_cons by done. cbn [split_chars].
  by rewrite Hfb, sapp_nil_l.
Qed.

Lemma solid_not_ws b : solid b = true → negb (is_whitespace (String b "")) = true.
Proof. intros H. by apply andb_true_iff in H as [_ H]. Qed.
