(* ===== verification/AbiScanner.v ===== *)
(** * The comment scanner: [strip_comments] of src/abi-check/build.rs

    The scanner is three nested [while] loops over byte indices. It is modelled as the machine
    the loops describe: a program counter (which loop's test is next), the index [i] and the
    output so far, one step per loop test, where an index outside the slice is the panic it is
    in Rust. The theorem runs it against a reference by structural recursion on the text: it
    never panics, stops within twice the length of the header and returns the reference's
    text. Indices stay below [len + 2], far from the width of [usize], and are [nat]. *)
From Stdlib Require Import ZArith NArith Ascii Lia.
From Stdlib Require String.
From stdpp Require Import base tactics option list strings.
From S2P Require Import Prelude Text StrOps.

(** ** The machine *)
(** [out.push(b as char)]: a byte is pushed as the code point of its value. *)
Definition push_byte (b : ascii) : string :=
  if is_ascii b then String b ""
  else String (ascii_of_N (0xC0 + byte_val b / 64)) (String (ascii_of_N (0x80 + byte_val b mod 64)) "").

Definition star : ascii := "*".
Definition slash : ascii := "/".
Definition line_feed : ascii := "010".

Inductive Scan :=
  | Top (i : nat) (out : string)       (* the test of the outer loop *)
  | InBlock (i : nat) (out : string)   (* the test of the block-comment loop *)
  | InLine (i : nat) (out : string)    (* the test of the line-comment loop *)
  | Finished (out : string)
  | IndexPanic.                        (* an index out of the slice *)

(** [b[i] == x && b[i + 1] == y]: the second index is read only after the first match. *)
Definition pair_at (b : list ascii) (i : nat) (x y : ascii) : option bool :=
  c ← b !! i; if Ascii.eqb c x then d ← b !! S i; Some (Ascii.eqb d y) else Some false.

Definition scan_top (b : list ascii) (i : nat) (out : string) : option Scan :=
  let two := (S i <? length b)%nat in
  block ← (if two then pair_at b i slash star else Some false);
  if (block : bool) then Some (InBlock (i + 2) out)
  else
    line ← (if two then pair_at b i slash slash else Some false);
    if (line : bool) then Some (InLine (i + 2) out)
    else c ← b !! i; Some (Top (i + 1) (out +:+ push_byte c)).

Definition scan_block (b : list ascii) (i : nat) (out : string) : option Scan :=
  if (S i <? length b)%nat then
    close ← pair_at b i star slash;
    if (close : bool) then Some (Top (i + 2) (out +:+ " ")) else Some (InBlock (i + 1) out)
  else Some (Top (i + 2) (out +:+ " ")).

Definition scan_line_comment (b : list ascii) (i : nat) (out : string) : option Scan :=
  if (i <? length b)%nat then
    c ← b !! i;
    if Ascii.eqb c line_feed then Some (Top i out) else Some (InLine (i + 1) out)
  else Some (Top i out).

Definition scan_step (b : list ascii) (st : Scan) : Scan :=
  default IndexPanic
    match st with
    | Top i out => if (i <? length b)%nat then scan_top b i out else Some (Finished out)
    | InBlock i out => scan_block b i out
    | InLine i out => scan_line_comment b i out
    | Finished out => Some (Finished out)
    | IndexPanic => None
    end.

Definition scan_steps (n : nat) (b : list ascii) : Scan := Nat.iter n (scan_step b) (Top 0 "").

Definition scan_bound (b : list ascii) : nat := 2 * length b + 1.
Definition strip_comments (src : string) : string :=
  let b := String.list_ascii_of_string src in
  match scan_steps (scan_bound b) b with Finished out => out | _ => "" end.

Example strip_block_comment : strip_comments "int/* a; b */x;" = "int x;". Proof. by vm_compute. Qed.
Example strip_open_block : strip_comments "a/*" = "a ". Proof. by vm_compute. Qed.
Example strip_lone_slash : strip_comments "a//b/" = "a". Proof. by vm_compute. Qed.

(** ** The reference *)
Fixpoint strip_code (s : string) : string :=
  match s with
  | String "/" (String "*" r) => strip_block r
  | String "/" (String "/" r) => strip_line r
  | String b r => push_byte b +:+ strip_code r
  | "" => ""
  end
with strip_block (s : string) : string :=
  match s with
  | String "*" (String "/" r) => " " +:+ strip_code r
  | String _ r => strip_block r
  | "" => " "
  end
with strip_line (s : string) : string :=
  match s with
  | String "010" r => String "010" (strip_code r)
  | String _ r => strip_line r
  | "" => ""
  end.

(** ** Comments *)
(** Text in which the scanner meets no comment opener, the end included. *)
Fixpoint no_comment (s : string) : bool :=
  match s with
  | "" => true
  | String "/" r => match r with String "/" _ | String "*" _ | "" => false | _ => no_comment r end
  | String _ r => no_comment r
  end.
(** Comment text: no closer inside, and no star at its end to form one. *)
Fixpoint no_close (s : string) : bool :=
  match s with
  | "" => true
  | String "*" r => match r with String "/" _ | "" => false | _ => no_close r end
  | String _ r => no_close r
  end.

Lemma strip_code_cons b r :
  b ≠ "/"%char → strip_code (String b r) = push_byte b +:+ strip_code r.
Proof. intros H. destruct b as [[] [] [] [] [] [] [] []]; done. Qed.
Lemma strip_code_slash b r :
  b ≠ "/"%char → b ≠ "*"%char → strip_code (String "/" (String b r)) = "/" +:+ strip_code (String b r).
Proof. intros H1 H2. destruct b as [[] [] [] [] [] [] [] []]; done. Qed.

Lemma strip_block_close c t : no_close c = true → strip_block (c +:+ "*/" +:+ t) = " " +:+ strip_code t.
Proof.
  induction c as [|b c IH]; intros H; [done|]. rewrite sapp_cons.
  destruct (Ascii.eqb_spec b "*") as [->|Hb].
  - destruct c as [|b' c]; [done|]. rewrite sapp_cons in *.
    destruct (Ascii.eqb_spec b' "/") as [->|Hb']; [done|].
    assert (no_close (String b' c) = true) as Hc.
    { revert H. simpl. destruct b' as [[] [] [] [] [] [] [] []]; try done. }
    rewrite <-(IH Hc). destruct b' as [[] [] [] [] [] [] [] []]; done.
  - assert (no_close c = true) as Hc.
    { revert H. destruct b as [[] [] [] [] [] [] [] []]; try done. }
    rewrite <-(IH Hc). destruct b as [[] [] [] [] [] [] [] []]; done.
Qed.

Lemma strip_code_app s t : no_comment s = true → strip_code (s +:+ t) = strip_code s +:+ strip_code t.
Proof.
  induction s as [|b s IH]; intros H; [done|]. rewrite sapp_cons.
  destruct (Ascii.eqb_spec b "/") as [->|Hb].
  - destruct s as [|b' s]; [done|]. rewrite sapp_cons in *.
    assert (b' ≠ "/"%char ∧ b' ≠ "*"%char ∧ no_comment (String b' s) = true) as (H1 & H2 & H3).
    { revert H. destruct b' as [[] [] [] [] [] [] [] []]; done. }
    rewrite !strip_code_slash, IH by done. done.
  - assert (no_comment s = true) as Hs.
    { revert H. destruct b as [[] [] [] [] [] [] [] []]; done. }
    rewrite !strip_code_cons, IH by done. by rewrite sapp_assoc.
Qed.

(** ** The machine runs the reference *)
Lemma strip_code_two c d r :
  strip_code (String c (String d r)) =
    if Ascii.eqb c slash && Ascii.eqb d star then strip_block r
    else if Ascii.eqb c slash && Ascii.eqb d slash then strip_line r
    else push_byte c +:+ strip_code (String d r).
Proof.
  destruct (Ascii.eqb_spec c slash) as [->|Hc]; [|by apply strip_code_cons].
  destruct (Ascii.eqb_spec d star) as [->|Hd]; [done|].
  destruct (Ascii.eqb_spec d slash) as [->|Hd']; [done|]. by apply strip_code_slash.
Qed.
Lemma strip_code_last c : strip_code (String c "") = push_byte c.
Proof. destruct c as [[] [] [] [] [] [] [] []]; done. Qed.
Lemma strip_block_two c d r :
  strip_block (String c (String d r)) =
    if Ascii.eqb c star && Ascii.eqb d slash then " " +:+ strip_code r else strip_block (String d r).
Proof.
  destruct (Ascii.eqb_spec c star) as [->|Hc].
  - destruct (Ascii.eqb_spec d slash) as [->|Hd]; [done|].
    destruct d as [[] [] [] [] [] [] [] []]; done.
  - destruct c as [[] [] [] [] [] [] [] []]; done.
Qed.
Lemma strip_block_last c : strip_block (String c "") = " ".
Proof. destruct c as [[] [] [] [] [] [] [] []]; done. Qed.
Lemma strip_line_one c r :
  strip_line (String c r) = if Ascii.eqb c line_feed then strip_code (String c r) else strip_line r.
Proof.
  destruct (Ascii.eqb_spec c line_feed) as [->|Hc]; [done|].
  destruct c as [[] [] [] [] [] [] [] []]; done.
Qed.

(** The text from an index on, what a state will have output in the end, and the loop tests
    it has left. *)
Definition rest (b : list ascii) (i : nat) : string := String.string_of_list_ascii (drop i b).
Definition scan_result (b : list ascii) (st : Scan) : option string :=
  match st with
  | Top i out => Some (out +:+ strip_code (rest b i))
  | InBlock i out => Some (out +:+ strip_block (rest b i))
  | InLine i out => Some (out +:+ strip_line (rest b i))
  | Finished out => Some out
  | IndexPanic => None
  end.
Definition scan_left (b : list ascii) (st : Scan) : nat :=
  match st with
  | Top i _ => 2 * (length b - i) + 1
  | InBlock i _ | InLine i _ => 2 * (length b - i) + 2
  | Finished _ | IndexPanic => 0
  end.

Lemma rest_cons b i c : b !! i = Some c → rest b i = String c (rest b (S i)).
Proof. intros H. unfold rest. by rewrite (drop_S _ _ _ H). Qed.
Lemma rest_nil b i : (length b ≤ i)%nat → rest b i = "".
Proof. intros H. unfold rest. by rewrite drop_ge. Qed.
Lemma rest_last b i c : b !! i = Some c → (length b ≤ S i)%nat → rest b i = String c "".
Proof. intros H Hl. by rewrite (rest_cons _ _ _ H), rest_nil. Qed.

(** One step keeps the final output, uses up a loop test and stays in bounds. *)
Lemma scan_step_sound b st out :
  scan_result b st = Some out →
  scan_result b (scan_step b st) = Some out ∧
  (scan_left b (scan_step b st) < scan_left b st ∨ scan_step b st = Finished out)%nat.
Proof.
  destruct st as [i o|i o|i o|o|]; intros [= <-]; unfold scan_step; cbn [default scan_result scan_left].
  - destruct (Nat.ltb_spec i (length b)) as [Hi|Hi].
    + destruct (lookup_lt_is_Some_2 b i Hi) as [c Hc]. unfold scan_top.
      destruct (Nat.ltb_spec (S i) (length b)) as [Hs|Hs].
      * destruct (lookup_lt_is_Some_2 b (S i) Hs) as [d Hd]. unfold pair_at. rewrite Hc, Hd.
        rewrite (rest_cons _ _ _ Hc), (rest_cons _ _ _ Hd), strip_code_two.
        cbn [mbind option_bind]. rewrite !Nat.add_succ_r, Nat.add_0_r, <-?(rest_cons _ _ _ Hd).
        destruct (Ascii.eqb c slash), (Ascii.eqb d star), (Ascii.eqb d slash);
          cbn [mbind option_bind default andb from_option id scan_result scan_left];
          rewrite ?sapp_assoc; (split; [done|left; lia]).
      * rewrite Hc, (rest_last _ _ _ Hc) by lia. rewrite Nat.add_1_r.
        cbn [mbind option_bind default from_option id scan_result scan_left].
        rewrite (rest_nil b (S i)) by lia. rewrite strip_code_last, sapp_nil_r. split; [done|left; lia].
    + cbn [default from_option id scan_result scan_left]. rewrite rest_nil by lia.
      rewrite sapp_nil_r. split; [done|by right].
  - unfold scan_block. destruct (Nat.ltb_spec (S i) (length b)) as [Hs|Hs].
    + destruct (lookup_lt_is_Some_2 b i ltac:(lia)) as [c Hc].
      destruct (lookup_lt_is_Some_2 b (S i) Hs) as [d Hd]. unfold pair_at. rewrite Hc, Hd.
      rewrite (rest_cons _ _ _ Hc), (rest_cons _ _ _ Hd), strip_block_two.
      cbn [mbind option_bind]. rewrite !Nat.add_succ_r, Nat.add_0_r, <-?(rest_cons _ _ _ Hd).
      destruct (Ascii.eqb c star), (Ascii.eqb d slash);
        cbn [mbind option_bind default andb from_option id scan_result scan_left];
        rewrite ?sapp_assoc; (split; [done|left; lia]).
    + cbn [default from_option id scan_result scan_left]. rewrite (rest_nil b (i + 2)) by lia.
      rewrite sapp_nil_r. split; [|left; lia]. do 2 f_equal.
      destruct (b !! i) as [c|] eqn:Hc.
      * rewrite (rest_last _ _ _ Hc) by lia. by rewrite strip_block_last.
      * apply lookup_ge_None in Hc. by rewrite rest_nil.
  - unfold scan_line_comment. destruct (Nat.ltb_spec i (length b)) as [Hi|Hi].
    + destruct (lookup_lt_is_Some_2 b i Hi) as [c Hc]. rewrite Hc, (rest_cons _ _ _ Hc), strip_line_one.
      rewrite Nat.add_1_r. cbn [mbind option_bind]. destruct (Ascii.eqb c line_feed);
        cbn [mbind option_bind default from_option id scan_result scan_left];
        rewrite <-?(rest_cons _ _ _ Hc); (split; [done|left; lia]).
    + cbn [default from_option id scan_result scan_left]. rewrite rest_nil by lia.
      split; [done|left; lia].
  - split; [done|by right].
Qed.

Lemma scan_iter b n st out :
  scan_result b st = Some out → (scan_left b st ≤ n)%nat → (0 < n)%nat →
  Nat.iter n (scan_step b) st = Finished out.
Proof.
  revert st. induction n as [|n IH]; intros st Hr Hn H0; [lia|].
  rewrite Nat.iter_succ_r. destruct (scan_step_sound b st out Hr) as [Hr' Hl].
  destruct (decide (n = 0%nat)) as [->|Hne].
  - destruct Hl as [Hl|Hl]; [|done]. cbn [Nat.iter nat_rect].
    destruct (scan_step b st) as [i o|i o|i o|o|]; cbn [scan_left scan_result] in *; try lia; by simplify_eq.
  - apply IH; [done| |lia]. destruct Hl as [Hl| ->]; [lia|cbn [scan_left]; lia].
Qed.

Lemma scan_finishes b out :
  out = strip_code (String.string_of_list_ascii b) → scan_steps (scan_bound b) b = Finished out.
Proof.
  intros ->. unfold scan_steps, scan_bound. apply scan_iter; [|simpl; lia|lia].
  cbn [scan_result]. by rewrite sapp_nil_l.
Qed.

Lemma strip_comments_eq src : strip_comments src = strip_code src.
Proof.
  unfold strip_comments. erewrite scan_finishes by done. by rewrite String.string_of_list_ascii_of_string.
Qed.

Lemma list_ascii_length s : length (String.list_ascii_of_string s) = String.length s.
Proof. induction s as [|c s IH]; [done|]. simpl. by rewrite IH. Qed.

Lemma scan_never_panics b n : scan_steps n b ≠ IndexPanic.
Proof.
  intros H. assert (scan_result b (scan_steps n b) = Some (strip_code (rest b 0))) as Hr.
  { clear H. unfold scan_steps. induction n as [|n IH]; [cbn; by rewrite sapp_nil_l|].
    by apply scan_step_sound. }
  by rewrite H in Hr.
Qed.

(** ** Headers as declarations and comments *)
(** A header is a sequence of pieces. A line comment's line feed belongs to the code that
    follows it, as in the scanner. *)
Inductive Piece :=
  | Code (text : string)
  | BlockComment (text : string)   (* between the opener and the closer *)
  | LineComment (text : string).   (* after the opener, up to the end of the line *)

Definition piece_text (p : Piece) : string :=
  match p with
  | Code s => s
  | BlockComment c => "/*" +:+ c +:+ "*/"
  | LineComment c => "//" +:+ c
  end.
Definition header_text (ps : list Piece) : string := str_concat (map piece_text ps).

Definition ends_line (ps : list Piece) : bool :=
  match ps with
  | [] | Code (String "010" _) :: _ => true
  | _ => false
  end.
Fixpoint pieces_ok (ps : list Piece) : bool :=
  match ps with
  | [] => true
  | Code s :: ps => no_comment s && pieces_ok ps
  | BlockComment c :: ps => no_close c && pieces_ok ps
  | LineComment c :: ps => str_all no_newline c && ends_line ps && pieces_ok ps
  end.

(** What is left of a header when the comments' texts are forgotten: the code, the places of
    the block comments ([None], each reads as a space), and nothing of a line comment. *)
Definition declarations (ps : list Piece) : list (option string) :=
  flat_map (λ p, match p with Code s => [Some s] | BlockComment _ => [None] | LineComment _ => [] end) ps.
Definition declaration_text (d : option string) : string :=
  match d with Some s => strip_code s | None => " " end.

Lemma strip_line_comment c t :
  str_all no_newline c = true → strip_line (c +:+ String "010" t) = strip_code (String "010" t).
Proof.
  induction c as [|b c IH]; intros H; [done|]. cbn [str_all] in H. apply andb_true_iff in H as [Hb Hc].
  rewrite sapp_cons, strip_line_one. unfold no_newline in Hb. change line_feed with "010"%char.
  destruct (Ascii.eqb b "010"); [done|]. by apply IH.
Qed.
Lemma strip_line_end c : str_all no_newline c = true → strip_line c = "".
Proof.
  induction c as [|b c IH]; intros H; [done|]. cbn [str_all] in H. apply andb_true_iff in H as [Hb Hc].
  rewrite strip_line_one. unfold no_newline in Hb. change line_feed with "010"%char.
  destruct (Ascii.eqb b "010"); [done|]. by apply IH.
Qed.

Lemma strip_line_pieces c ps :
  str_all no_newline c = true → ends_line ps = true →
  strip_line (c +:+ header_text ps) = strip_code (header_text ps).
Proof.
  intros Hc He. destruct ps as [|[[|b s]|d|d] ps]; try done.
  - unfold header_text. cbn. rewrite sapp_nil_r. by apply strip_line_end.
  - assert (b = "010"%char) as -> by (by destruct b as [[] [] [] [] [] [] [] []]).
    unfold header_text. cbn [map piece_text]. rewrite str_concat_cons, sapp_cons.
    by apply strip_line_comment.
Qed.

Lemma strip_pieces ps :
  pieces_ok ps = true → strip_code (header_text ps) = str_concat (map declaration_text (declarations ps)).
Proof.
  induction ps as [|p ps IH]; intros H; [done|]. unfold header_text in *. cbn [map]. rewrite str_concat_cons.
  destruct p as [s|c|c]; cbn [pieces_ok piece_text] in *; cbn [declarations flat_map].
  - apply andb_true_iff in H as [Hs H]. rewrite strip_code_app, IH by done.
    cbn [app map]. by rewrite str_concat_cons.
  - apply andb_true_iff in H as [Hc H]. rewrite sapp_assoc, sapp_assoc. change ("/*" +:+ ?t) with (String "/" (String "*" t)).
    change (strip_code (String "/" (String "*" ?t))) with (strip_block t).
    rewrite strip_block_close, IH by done. cbn [app map]. by rewrite str_concat_cons.
  - apply andb_true_iff in H as [H Hp]. apply andb_true_iff in H as [Hc He].
    change ("//" +:+ c) with (String "/" (String "/" c)). rewrite !sapp_cons.
    change (strip_code (String "/" (String "/" ?t))) with (strip_line t).
    fold (header_text ps). rewrite strip_line_pieces by done. cbn [app]. by apply IH.
Qed.

(** C29: The comment scanner terminates and never indexes out of the header: on every text its
    three nested loops stop within twice its length plus one loop tests, whatever the number
    of further steps allowed, and the text they leave is the one the structural reference
    gives. *)
Theorem strip_comments_terminates src n :
  let b := String.list_ascii_of_string src in
  scan_steps (2 * String.length src + 1 + n) b = Finished (strip_code src) ∧
  scan_steps n b ≠ IndexPanic ∧
  strip_comments src = strip_code src.
Proof.
  split_and!; [|apply scan_never_panics|apply strip_comments_eq].
  unfold scan_steps. apply scan_iter; [| |lia].
  - cbn [scan_result]. unfold rest. by rewrite drop_0, sapp_nil_l, String.string_of_list_ascii_of_string.
  - cbn [scan_left]. rewrite list_ascii_length. lia.
Qed.
