(* ===== verification/AbiCheck.v ===== *)
(** * The ABI lock: src/abi-check/build.rs

    The fingerprint of the C contract, the version constants and the lock file that makes a
    contract change without a version change fail the build: [lock_step] is the decision
    over the texts read, [main] the whole script over a file system and an environment.
    bindgen is a dependency: whether its two passes succeed is part of the environment. *)
From Stdlib Require Import ZArith NArith Ascii.
From Stdlib Require String.
From stdpp Require Import base tactics option list gmap strings.
From S2P Require Import Prelude Text StrOps AbiScanner.

(** ** [fnv1a_hex] *)
Definition fnv_offset : Z := 0xcbf29ce484222325.
Definition fnv_prime : Z := 0x00000100000001b3.
Definition fnv_step (hash : Z) (b : ascii) : Z :=
  wrap_u 64 (Z.lxor hash (Z.of_N (byte_val b)) * fnv_prime).
Fixpoint fnv_go (hash : Z) (s : string) : Z :=
  match s with "" => hash | String b s => fnv_go (fnv_step hash b) s end.
Definition fnv1a (s : string) : Z := fnv_go fnv_offset s.

(** [{:016x}] *)
Definition hex_lower (n : N) : ascii := ascii_of_N (if (n <? 10)%N then 48 + n else 87 + n).
Fixpoint hex_pad (digits : nat) (z : Z) : string :=
  match digits with
  | O => ""
  | S d => hex_pad d (z / 16) +:+ String (hex_lower (Z.to_N (z mod 16))) ""
  end.
Definition fnv1a_hex (s : string) : string := hex_pad 16 (fnv1a s).

Example fnv1a_empty : fnv1a_hex "" = "cbf29ce484222325". Proof. by vm_compute. Qed.
Example fnv1a_a : fnv1a_hex "a" = "af63dc4c8601ec8c". Proof. by vm_compute. Qed.
Example fnv1a_foobar : fnv1a_hex "foobar" = "85944171f73967e8". Proof. by vm_compute. Qed.

(** ** [abi_signature] *)
Definition abi_signature (header_src : string) : string :=
  str_join (";" +:+ String "010" "")
    (List.filter (str_contains "llingr_")
      (map (λ stmt, str_join " " (split_whitespace stmt))
        (split_by (is_char ";") (strip_comments header_src)))).

(** ** [version_after]: [None] is the build-stopping panic *)
Fixpoint take_digits (s : string) : string :=
  match s with
  | String b s => if digit b then String b (take_digits s) else ""
  | "" => ""
  end.
Definition version_after (src marker : string) : option N :=
  rest ← after_first marker src;
  parse_uint 64 (take_digits (trim_start rest)).

(** ** The lock file *)
Definition parse_lock_line (acc : option N * option string) (line : string) : option N * option string :=
  let line := trim line in
  match strip_prefix "version" line with
  | Some rest => (v ← strip_prefix "=" (trim_start rest); parse_uint 64 (trim v), acc.2)
  | None =>
    match strip_prefix "signature" line with
    | Some rest => (acc.1, trim <$> strip_prefix "=" (trim_start rest))
    | None => acc
    end
  end.
Definition parse_lock (src : string) : option (N * string) :=
  let '(version, signature) := foldl parse_lock_line (None, None) (lines src) in
  v ← version; s ← signature; Some (v, s).

Definition newline : string := String "010" "".
Definition lock_body (version : N) (signature : string) : string :=
  "version = " +:+ dec_N version +:+ newline +:+ "signature = " +:+ signature +:+ newline.

(** ** The decision of [main] *)
Inductive LockOutcome :=
  | Unchanged
  | WroteLock (version : N) (signature : string)   (* the lock was regenerated *)
  | NoVersion                              (* a version constant was not found *)
  | VersionsDisagree (go rust : N)
  | LockMissing
  | LockMalformed
  | ContractChanged (version : N)          (* the signature moved, the version did not *)
  | BothChanged (locked now : N)
  | VersionChanged (locked now : N).       (* the version moved, the signature did not *)

Definition lock_step (header_src main_go_src ffi_src : string) (update : bool) (lock : option string) : LockOutcome :=
  let signature := fnv1a_hex (abi_signature header_src) in
  match version_after main_go_src "const abiVersion =", version_after ffi_src "LLINGR_ABI_VERSION: c_int =" with
  | Some go_version, Some rust_version =>
    if negb (go_version =? rust_version)%N then VersionsDisagree go_version rust_version
    else
      let version := go_version in
      if update then WroteLock version signature
      else match lock with
           | None => LockMissing
           | Some locked =>
             match parse_lock locked with
             | None => LockMalformed
             | Some (lock_version, lock_signature) =>
               match String.eqb lock_signature signature, (lock_version =? version)%N with
               | true, true => Unchanged
               | false, true => ContractChanged version
               | false, false => BothChanged lock_version version
               | true, false => VersionChanged lock_version version
               end
             end
           end
  | _, _ => NoVersion
  end.

(** ** [find_header] and [main] *)
(** Which paths exist, the files that can be read as text, and the entries of dist/ in the
    order the directory lists them ([None]: it cannot be read). *)
Record FS := mkFS {
  fs_exists : string → bool;
  fs_text : gmap string string;
  fs_dist : option (list string);
}.
Record Env := mkEnv {
  env_manifest : string;              (* CARGO_MANIFEST_DIR *)
  env_header : option string;         (* LLINGR_HEADER *)
  env_update : option string;         (* UPDATE_ABI_LOCK *)
  env_out_dir : bool;                 (* OUT_DIR is set *)
  env_bindgen_types : bool;           (* pass A succeeds *)
  env_bindgen_fns : bool;             (* pass B succeeds *)
  env_write_ok : bool;                (* abi.lock can be written *)
}.
Definition repo_root (e : Env) : string := env_manifest e +:+ "/..".
Definition lock_path (e : Env) : string := env_manifest e +:+ "/abi.lock".
Definition main_go_path (e : Env) : string := repo_root e +:+ "/bridge/main.go".
Definition ffi_rs_path (e : Env) : string := repo_root e +:+ "/src/ffi.rs".

(** [None] is the panic that no header was found. *)
Definition find_header (e : Env) (fs : FS) : option string :=
  match env_header e with
  | Some header => Some header
  | None =>
    head (List.filter (fs_exists fs)
      (map (λ entry, repo_root e +:+ "/dist/" +:+ entry +:+ "/libllingr.h") (default [] (fs_dist fs))))
  end.

Inductive BuildStop :=
  | HeaderNotFound | OutDirUnset | BindgenFailed | CannotRead (path : string) | CannotWriteLock
  | LockRefused (outcome : LockOutcome).

Definition rerun_lines (e : Env) (header : string) : list string :=
  map (λ path, "cargo:rerun-if-changed=" +:+ path) [header; main_go_path e; ffi_rs_path e; lock_path e] ++
  map (λ var, "cargo:rerun-if-env-changed=" +:+ var) ["LLINGR_HEADER"; "UPDATE_ABI_LOCK"].

Definition write_file (path body : string) (fs : FS) : FS :=
  mkFS (λ p, String.eqb p path || fs_exists fs p) (<[path := body]> (fs_text fs)) (fs_dist fs).

(** The file system the script leaves, and the lines it printed or the panic that stopped
    the build. *)
Definition main (e : Env) (fs : FS) : FS * (list string + BuildStop) :=
  match find_header e fs with
  | None => (fs, inr HeaderNotFound)
  | Some header =>
    if negb (fs_exists fs header) then (fs, inr HeaderNotFound)
    else if negb (env_out_dir e) then (fs, inr OutDirUnset)
    else if negb (env_bindgen_types e && env_bindgen_fns e) then (fs, inr BindgenFailed)
    else
      match fs_text fs !! header, fs_text fs !! main_go_path e, fs_text fs !! ffi_rs_path e with
      | None, _, _ => (fs, inr (CannotRead header))
      | Some _, None, _ => (fs, inr (CannotRead (main_go_path e)))
      | Some _, Some _, None => (fs, inr (CannotRead (ffi_rs_path e)))
      | Some header_src, Some main_go_src, Some ffi_src =>
        let update := match env_update e with Some v => nonempty v | None => false end in
        match lock_step header_src main_go_src ffi_src update (fs_text fs !! lock_path e) with
        | Unchanged => (fs, inl (rerun_lines e header))
        | WroteLock version signature =>
          if env_write_ok e then
            (write_file (lock_path e) (lock_body version signature) fs,
             inl (("cargo:warning=abi-check: wrote abi.lock (version " +:+ dec_N version +:+ ", signature "
                   +:+ signature +:+ ")") :: rerun_lines e header))
          else (fs, inr CannotWriteLock)
        | refused => (fs, inr (LockRefused refused))
        end
      end
  end.

(** ** The fingerprint *)
#[local] Open Scope Z_scope.
Definition fnv_inverse : Z := 0xce965057aff6957b.
Lemma fnv_inverse_spec : wrap_u 64 (fnv_prime * fnv_inverse) = 1.
Proof. by vm_compute. Qed.

Lemma fnv_mul_inj x y :
  in_u 64 x → in_u 64 y → wrap_u 64 (x * fnv_prime) = wrap_u 64 (y * fnv_prime) → x = y.
Proof.
  intros Hx Hy H.
  assert (∀ z, in_u 64 z → wrap_u 64 (wrap_u 64 (z * fnv_prime) * fnv_inverse) = z) as Hinv.
  { intros z Hz. unfold wrap_u. rewrite Zmult_mod_idemp_l, <-Z.mul_assoc, <-Zmult_mod_idemp_r.
    change (fnv_prime * fnv_inverse) with (fnv_prime * fnv_inverse). fold (wrap_u 64 (fnv_prime * fnv_inverse)).
    rewrite fnv_inverse_spec, Z.mul_1_r. by apply wrap_u_small. }
  by rewrite <-(Hinv x Hx), <-(Hinv y Hy), H.
Qed.

Lemma byte_val_bound b : (byte_val b < 256)%N.
Proof. by destruct b as [[] [] [] [] [] [] [] []]. Qed.

Lemma lxor_byte_u64 h b : in_u 64 h → in_u 64 (Z.lxor h (Z.of_N (byte_val b))).
Proof.
  intros [Hl Hu]. pose proof (byte_val_bound b). split; [apply Z.lxor_nonneg; lia|].
  destruct (decide (Z.lxor h (Z.of_N (byte_val b)) = 0)) as [->|Hne]; [done|].
  apply Z.log2_lt_pow2; [pose proof (proj2 (Z.lxor_nonneg h (Z.of_N (byte_val b))) ltac:(lia)); lia|].
  eapply Z.le_lt_trans; [apply Z.log2_lxor; lia|]. apply Z.max_lub_lt.
  - destruct (decide (h = 0)) as [->|]; [done|]. apply Z.log2_lt_pow2; lia.
  - destruct (decide (Z.of_N (byte_val b) = 0)) as [->|]; [done|]. apply Z.log2_lt_pow2; lia.
Qed.

Lemma fnv_step_u64 h b : in_u 64 (fnv_step h b).
Proof. by apply wrap_u_range. Qed.

Lemma fnv_step_inj_hash h h' b : in_u 64 h → in_u 64 h' → fnv_step h b = fnv_step h' b → h = h'.
Proof.
  intros Hh Hh' H. apply fnv_mul_inj in H; [|by apply lxor_byte_u64..].
  apply (f_equal (λ z, Z.lxor z (Z.of_N (byte_val b)))) in H.
  by rewrite !Z.lxor_assoc, !Z.lxor_nilpotent, !Z.lxor_0_r in H.
Qed.

Lemma fnv_step_inj_byte h b b' : in_u 64 h → fnv_step h b = fnv_step h b' → b = b'.
Proof.
  intros Hh H. apply fnv_mul_inj in H; [|by apply lxor_byte_u64..].
  apply (f_equal (Z.lxor h)) in H.
  rewrite <-!Z.lxor_assoc, !Z.lxor_nilpotent, !Z.lxor_0_l in H. apply N2Z.inj in H.
  rewrite <-(ascii_N_embedding b), <-(ascii_N_embedding b'). unfold byte_val in H. by rewrite H.
Qed.

Lemma fnv_go_inj h h' s : in_u 64 h → in_u 64 h' → fnv_go h s = fnv_go h' s → h = h'.
Proof.
  revert h h'. induction s as [|b s IH]; intros h h' Hh Hh' H; [done|].
  apply (fnv_step_inj_hash h h' b Hh Hh'). apply IH; [apply fnv_step_u64..|done].
Qed.

Lemma fnv_go_u64 h s : in_u 64 h → in_u 64 (fnv_go h s).
Proof.
  revert h. induction s as [|b s IH]; intros h Hh; [done|]. apply IH, fnv_step_u64.
Qed.

Lemma fnv_go_app h s t : fnv_go h (s +:+ t) = fnv_go (fnv_go h s) t.
Proof. revert h. induction s as [|b s IH]; intros h; [done|]. rewrite sapp_cons. simpl. by rewrite IH. Qed.

Lemma hex_lower_inj m n : (m < 16)%N → (n < 16)%N → hex_lower m = hex_lower n → m = n.
Proof.
  intros Hm Hn H. unfold hex_lower in H. apply (f_equal N_of_ascii) in H.
  rewrite !N_ascii_embedding in H by (repeat case_match; lia).
  destruct (N.ltb_spec m 10), (N.ltb_spec n 10); lia.
Qed.

Lemma hex_pad_inj d z z' :
  0 ≤ z < 16 ^ Z.of_nat d → 0 ≤ z' < 16 ^ Z.of_nat d → hex_pad d z = hex_pad d z' → z = z'.
Proof.
  revert z z'. induction d as [|d IH]; intros z z' Hz Hz' H; [simpl in *; lia|].
  cbn [hex_pad] in H. rewrite Nat2Z.inj_succ, Z.pow_succ_r in Hz, Hz' by lia.
  pose proof (Z.div_mod z 16 ltac:(lia)). pose proof (Z.div_mod z' 16 ltac:(lia)).
  pose proof (Z.mod_pos_bound z 16 ltac:(lia)). pose proof (Z.mod_pos_bound z' 16 ltac:(lia)).
  assert (∀ s t a b, s +:+ String a "" = t +:+ String b "" → s = t ∧ a = b) as Hsnoc.
  { clear. induction s as [|c s IH]; intros [|c' t] a b H; rewrite ?sapp_cons, ?sapp_nil_l in H; simpl in H;
      try (by injection H as ->).
    - injection H as _ H. by destruct t.
    - injection H as _ H. by destruct s.
    - injection H as -> H. by apply IH in H as [-> ->]. }
  apply Hsnoc in H as [Hq Hr]. apply hex_lower_inj in Hr; [|lia..].
  apply IH in Hq; [lia| |].
  - split; [apply Z.div_pos; lia|]. apply Z.div_lt_upper_bound; lia.
  - split; [apply Z.div_pos; lia|]. apply Z.div_lt_upper_bound; lia.
Qed.

Lemma hex_lower_solid n : (n < 16)%N → solid (hex_lower n) = true.
Proof.
  intros Hn. rewrite <-(N2Nat.id n). assert (N.to_nat n < 16)%nat as Hk by lia.
  revert Hk. generalize (N.to_nat n). intros k Hk.
  do 16 (destruct k as [|k]; [by vm_compute|]). lia.
Qed.

Lemma hex_pad_solid d z : str_all solid (hex_pad d z) = true.
Proof.
  revert z. induction d as [|d IH]; intros z; [done|]. cbn [hex_pad].
  rewrite str_all_app_bool, IH. cbn [str_all]. rewrite hex_lower_solid; [done|].
  pose proof (Z.mod_pos_bound z 16 ltac:(lia)). lia.
Qed.

Lemma hex_pad_length d z : String.length (hex_pad d z) = d.
Proof. revert z. induction d as [|d IH]; intros z; [done|]. cbn [hex_pad]. rewrite slen_app, IH. simpl. lia. Qed.

Lemma fnv1a_u64 s : in_u 64 (fnv1a s).
Proof. by apply fnv_go_u64. Qed.

Lemma fnv1a_hex_inj s t : fnv1a_hex s = fnv1a_hex t → fnv1a s = fnv1a t.
Proof.
  apply hex_pad_inj; [apply (fnv1a_u64 s)|apply (fnv1a_u64 t)].
Qed.

(** ** The lock file *)
Lemma parse_version_line acc v :
  (v < 2 ^ 64)%N → parse_lock_line acc ("version = " +:+ dec_N v) = (Some v, acc.2).
Proof.
  intros Hv. unfold parse_lock_line.
  assert (str_all solid (dec_N v) = true) as Hs by (eapply str_all_impl; [apply digit_solid|apply dec_N_digits]).
  pose proof (dec_N_nonempty v) as Hne.
  change "version = " with (String "v" "ersion = "). rewrite trim_text by done.
  replace (String "v" "ersion = " +:+ dec_N v) with ("version" +:+ String " " (String "=" (String " " (dec_N v)))) by done.
  rewrite (proj2 (strip_prefix_spec _ _ _) eq_refl), trim_start_space, trim_start_solid by done.
  cbn [strip_prefix]. change (Ascii.eqb "=" "=") with true. cbn [mbind option_bind].
  by rewrite trim_space_solid, parse_uint_dec.
Qed.

Lemma parse_signature_line acc s :
  str_all solid s = true → s ≠ "" → parse_lock_line acc ("signature = " +:+ s) = (acc.1, Some s).
Proof.
  intros Hs Hne. unfold parse_lock_line.
  change "signature = " with (String "s" "ignature = "). rewrite trim_text by done.
  replace (String "s" "ignature = " +:+ s) with ("signature" +:+ String " " (String "=" (String " " s))) by done.
  replace (strip_prefix "version" ("signature" +:+ String " " (String "=" (String " " s)))) with (@None string) by done.
  rewrite (proj2 (strip_prefix_spec _ _ _) eq_refl), trim_start_space, trim_start_solid by done.
  cbn [strip_prefix]. change (Ascii.eqb "=" "=") with true. cbn [fmap option_fmap option_map].
  by rewrite trim_space_solid.
Qed.

Lemma parse_lock_body v s :
  (v < 2 ^ 64)%N → str_all solid s = true → s ≠ "" → parse_lock (lock_body v s) = Some (v, s).
Proof.
  intros Hv Hs Hne. unfold parse_lock, lock_body, lines, newline.
  assert (str_all solid (dec_N v) = true) as Hd by (eapply str_all_impl; [apply digit_solid|apply dec_N_digits]).
  assert (∀ d, str_all solid d = true → str_all no_newline d = true) as Hnl
    by (intros d; apply str_all_impl, solid_no_newline).
  replace ("version = " +:+ dec_N v +:+ String "010" "" +:+ "signature = " +:+ s +:+ String "010" "")
    with (("version = " +:+ dec_N v) +:+ String "010" (("signature = " +:+ s) +:+ String "010" ""))
    by (by rewrite !sapp_assoc).
  rewrite lines_go_line by (by rewrite str_all_app_bool, (Hnl _ Hd)).
  rewrite lines_go_line by (by rewrite str_all_app_bool, (Hnl _ Hs)).
  rewrite !sapp_nil_l, !strip_cr_text by (done || apply dec_N_nonempty).
  cbn [lines_go nonempty foldl]. change (negb (String.eqb "" "")) with false. cbn [foldl].
  rewrite parse_version_line by done. by rewrite parse_signature_line.
Qed.

Lemma fnv1a_hex_solid s : str_all solid (fnv1a_hex s) = true ∧ fnv1a_hex s ≠ "".
Proof.
  split; [apply hex_pad_solid|]. intros H. apply (f_equal String.length) in H.
  unfold fnv1a_hex in H. by rewrite hex_pad_length in H.
Qed.

Lemma version_after_u64 src marker v : version_after src marker = Some v → (v < 2 ^ 64)%N.
Proof.
  unfold version_after. intros H. apply bind_Some in H as (rest & _ & H).
  by apply parse_uint_bound in H.
Qed.

(** The lock written for a pair of sources is accepted for them. *)
Lemma lock_step_update_check header go ffi old v s :
  lock_step header go ffi true old = WroteLock v s →
  lock_step header go ffi false (Some (lock_body v s)) = Unchanged.
Proof.
  unfold lock_step. destruct (version_after go _) as [w|] eqn:Eg; [|done].
  destruct (version_after ffi _) as [w'|]; [|done].
  destruct (N.eqb_spec w w') as [<-|]; [|done]. cbn [negb]. intros [= <- <-].
  destruct (fnv1a_hex_solid (abi_signature header)) as [Hs Hne].
  rewrite parse_lock_body; [|by eapply version_after_u64|done|done].
  by rewrite String.eqb_refl, N.eqb_refl.
Qed.

Lemma lock_step_true_not_unchanged header go ffi old : lock_step header go ffi true old ≠ Unchanged.
Proof. unfold lock_step. by repeat case_match. Qed.

(** The same environment without the request to regenerate. *)
Definition no_update (e : Env) : Env :=
  mkEnv (env_manifest e) (env_header e) None (env_out_dir e) (env_bindgen_types e) (env_bindgen_fns e) (env_write_ok e).

Lemma sapp_inj_l s t u : s +:+ t = s +:+ u → t = u.
Proof. induction s as [|c s IH]; [done|]. rewrite !sapp_cons. intros [= H]. by apply IH. Qed.

Lemma source_paths_not_lock e :
  main_go_path e ≠ lock_path e ∧ ffi_rs_path e ≠ lock_path e ∧
  ∀ entry, repo_root e +:+ "/dist/" +:+ entry +:+ "/libllingr.h" ≠ lock_path e.
Proof.
  unfold main_go_path, ffi_rs_path, repo_root, lock_path.
  split_and!; [| |intros entry]; rewrite sapp_assoc; intros H%sapp_inj_l; discriminate.
Qed.

Lemma find_header_written e body fs :
  find_header (no_update e) (write_file (lock_path e) body fs) = find_header e fs.
Proof.
  unfold find_header. cbn [no_update env_header fs_dist write_file]. destruct (env_header e); [done|].
  f_equal. apply List.filter_ext_in. intros path Hin. apply in_map_iff in Hin as (entry & <- & _).
  cbn [fs_exists write_file]. change (repo_root (no_update e)) with (repo_root e).
  assert (String.eqb (repo_root e +:+ "/dist/" +:+ entry +:+ "/libllingr.h") (lock_path e) = false) as ->; [|done].
  apply String.eqb_neq, source_paths_not_lock.
Qed.

(** C26: The documented way to change the contract works: a build that was asked to
    regenerate the lock and went through leaves the lock of its own sources, whatever
    lock (or none) was there, and the next build of the same tree without that request
    goes through and writes nothing. *)
Theorem lock_update_then_build e fs fs' lines value header :
  env_update e = Some value → value ≠ "" → find_header e fs = Some header → header ≠ lock_path e →
  main e fs = (fs', inl lines) →
  main (no_update e) fs' = (fs', inl (rerun_lines e header)) ∧
  ∃ v s, fs' = write_file (lock_path e) (lock_body v s) fs.
Proof.
  intros Hu Hv Hh Hne H. unfold main in H. rewrite Hh, Hu in H.
  destruct (fs_exists fs header) eqn:Ex; [|done]. cbn [negb] in H.
  destruct (env_out_dir e) eqn:Eo; [|done]. cbn [negb] in H.
  destruct (env_bindgen_types e && env_bindgen_fns e) eqn:Eb; [|done]. cbn [negb] in H.
  destruct (fs_text fs !! header) as [hs|] eqn:E1; [|done].
  destruct (fs_text fs !! main_go_path e) as [gs|] eqn:E2; [|done].
  destruct (fs_text fs !! ffi_rs_path e) as [rs|] eqn:E3; [|done].
  assert (nonempty value = true) as Hn by (unfold nonempty; by destruct (String.eqb_spec value "")).
  rewrite Hn in H.
  destruct (lock_step hs gs rs true (fs_text fs !! lock_path e)) as [|v s| | | | | | |] eqn:Es;
    [by apply lock_step_true_not_unchanged in Es| |done..].
  destruct (env_write_ok e); [|done]. injection H as <- _. split; [|by exists v, s].
  destruct (source_paths_not_lock e) as (Hg & Hf & _).
  unfold main. rewrite find_header_written, Hh. cbn [write_file fs_exists fs_text no_update env_out_dir
    env_bindgen_types env_bindgen_fns env_update].
  rewrite Ex, Eo, Eb, orb_true_r. cbn [negb].
  change (main_go_path (no_update e)) with (main_go_path e). change (ffi_rs_path (no_update e)) with (ffi_rs_path e).
  change (lock_path (no_update e)) with (lock_path e).
  rewrite !lookup_insert_ne, E1, E2, E3, lookup_insert_eq by done.
  by rewrite (lock_step_update_check _ _ _ _ _ _ Es).
Qed.

(** Both sources carry the constant [v]; the lock file records [v] and [signature]. *)
Definition agreed (go ffi : string) (v : N) : Prop :=
  version_after go "const abiVersion =" = Some v ∧ version_after ffi "LLINGR_ABI_VERSION: c_int =" = Some v.
Definition records (lock : option string) (v : N) (signature : string) : Prop :=
  ∃ locked, lock = Some locked ∧ parse_lock locked = Some (v, signature).

(** The outcome of a check as a relation: one rule per outcome, over the three facts read
    (the agreed version, the locked version, the locked fingerprint). *)
Inductive verdict (signature go ffi : string) (lock : option string) : LockOutcome → Prop :=
  | verdict_unchanged v :
      agreed go ffi v → records lock v signature → verdict signature go ffi lock Unchanged
  | verdict_contract v s :
      agreed go ffi v → records lock v s → s ≠ signature → verdict signature go ffi lock (ContractChanged v)
  | verdict_version locked now :
      agreed go ffi now → records lock locked signature → locked ≠ now →
      verdict signature go ffi lock (VersionChanged locked now)
  | verdict_both locked now s :
      agreed go ffi now → records lock locked s → locked ≠ now → s ≠ signature →
      verdict signature go ffi lock (BothChanged locked now)
  | verdict_disagree g r :
      version_after go "const abiVersion =" = Some g → version_after ffi "LLINGR_ABI_VERSION: c_int =" = Some r →
      g ≠ r → verdict signature go ffi lock (VersionsDisagree g r)
  | verdict_no_version :
      version_after go "const abiVersion =" = None ∨ version_after ffi "LLINGR_ABI_VERSION: c_int =" = None →
      verdict signature go ffi lock NoVersion
  | verdict_missing v : agreed go ffi v → lock = None → verdict signature go ffi lock LockMissing
  | verdict_malformed v locked :
      agreed go ffi v → lock = Some locked → parse_lock locked = None → verdict signature go ffi lock LockMalformed.

Lemma lock_step_verdict header go ffi lock :
  verdict (fnv1a_hex (abi_signature header)) go ffi lock (lock_step header go ffi false lock).
Proof.
  unfold lock_step. destruct (version_after go _) as [v|] eqn:Eg; [|apply verdict_no_version; by left].
  destruct (version_after ffi _) as [v'|] eqn:Ef; [|apply verdict_no_version; by right].
  destruct (N.eqb_spec v v') as [<-|]; [|by eapply verdict_disagree]. cbn [negb].
  assert (agreed go ffi v) as Ha by done.
  destruct lock as [locked|]; [|by eapply verdict_missing].
  destruct (parse_lock locked) as [[lv ls]|] eqn:El; [|by eapply verdict_malformed].
  assert (records (Some locked) lv ls) as Hr by (by exists locked).
  destruct (String.eqb_spec ls (fnv1a_hex (abi_signature header))) as [->|Hs], (N.eqb_spec lv v) as [->|Hv].
  - by eapply verdict_unchanged.
  - by eapply verdict_version.
  - by eapply verdict_contract.
  - by eapply verdict_both.
Qed.

Lemma verdict_functional signature go ffi lock o o' :
  verdict signature go ffi lock o → verdict signature go ffi lock o' → o = o'.
Proof.
  intros H H'. destruct H, H'; unfold agreed, records in *; by naive_solver congruence.
Qed.

(** C25: The lock does its job: a checking build passes only when both version constants are
    present and equal, and the lock parses to exactly that version and to the fingerprint
    of the header's declarations. Every other outcome is the one rule of [verdict] that
    applies: it says whether a constant is missing or the two disagree, whether the lock is
    missing or malformed, and otherwise which of the version and the fingerprint moved,
    with the versions involved. In particular a contract whose fingerprint moved cannot pass
    while the version stands still, and the build then says so. *)
Theorem lock_gate header go ffi lock :
  (lock_step header go ffi false lock = Unchanged ↔
   ∃ v locked, version_after go "const abiVersion =" = Some v ∧
     version_after ffi "LLINGR_ABI_VERSION: c_int =" = Some v ∧ lock = Some locked ∧
     parse_lock locked = Some (v, fnv1a_hex (abi_signature header))) ∧
  (∀ outcome, lock_step header go ffi false lock = outcome ↔
     verdict (fnv1a_hex (abi_signature header)) go ffi lock outcome) ∧
  (∀ header' v, lock_step header go ffi false lock = Unchanged →
     version_after go "const abiVersion =" = Some v →
     fnv1a (abi_signature header') ≠ fnv1a (abi_signature header) →
     lock_step header' go ffi false lock = ContractChanged v).
Proof.
  assert (∀ h o, lock_step h go ffi false lock = o ↔ verdict (fnv1a_hex (abi_signature h)) go ffi lock o) as Hv.
  { intros h o. split; [intros <-; apply lock_step_verdict|].
    intros H. eapply verdict_functional; [apply lock_step_verdict|done]. }
  split_and!; [|apply Hv|].
  - rewrite Hv. split.
    + intros H. inversion H as [v [Hg Hf] (locked & Hl & Hp)| | | | | | |]. by exists v, locked.
    + intros (v & locked & Hg & Hf & Hl & Hp). apply (verdict_unchanged _ _ _ _ v); [done|by exists locked].
  - intros header' v H%Hv Hgo Hne. apply Hv. inversion H as [w [Hg Hf] Hr| | | | | | |].
    assert (w = v) as -> by congruence. eapply verdict_contract; [done|done|].
    intros E. by apply fnv1a_hex_inj in E.
Qed.

(** The fingerprint sees every single-byte edit: replacing one byte of the declaration
    text by another, anywhere, always changes the 16 hexadecimal digits. *)
Theorem fnv1a_detects_byte_edits s b b' t :
  b ≠ b' → fnv1a_hex (s +:+ String b t) ≠ fnv1a_hex (s +:+ String b' t) ∧
  String.length (fnv1a_hex (s +:+ String b t)) = 16%nat.
Proof.
  intros Hb. split; [|apply hex_pad_length]. intros H. apply fnv1a_hex_inj in H. apply Hb.
  unfold fnv1a in H. rewrite !fnv_go_app in H. cbn [fnv_go] in H.
  apply fnv_go_inj in H; [|apply fnv_step_u64..].
  eapply fnv_step_inj_byte; [|exact H]. by apply fnv_go_u64.
Qed.


(** ** Witnesses *)
Definition demo_header : string :=
  "/* c; */ extern int llingr_run(void); // tail" +:+ newline +:+ "extern void GoString(void);".
Definition demo_go : string := "const abiVersion = 1".
Definition demo_ffi : string := "pub const LLINGR_ABI_VERSION: c_int = 1;".
Example demo_signature : abi_signature demo_header = "extern int llingr_run(void)".
Proof. by vm_compute. Qed.

Definition demo_env : Env := mkEnv "abi-check" None (Some "1") true true true true.
Definition demo_fs : FS := mkFS (λ p, String.eqb p "abi-check/../dist/x86_64/libllingr.h")
  (list_to_map [("abi-check/../dist/x86_64/libllingr.h", demo_header);
                ("abi-check/../bridge/main.go", demo_go); ("abi-check/../src/ffi.rs", demo_ffi)])
  (Some ["aarch64"; "x86_64"]).
Example demo_build_without_lock : (main (no_update demo_env) demo_fs).2 = inr (LockRefused LockMissing).
Proof. by vm_compute. Qed.

Lemma lock_update_then_build_witness :
  ∃ lines, (main (no_update demo_env) (main demo_env demo_fs).1).2 = inl lines.
Proof.
  destruct (lock_update_then_build demo_env demo_fs (main demo_env demo_fs).1
    match (main demo_env demo_fs).2 with inl l => l | inr _ => [] end "1" "abi-check/../dist/x86_64/libllingr.h") as [H _].
  1-5: by vm_compute.
  eexists. by rewrite H.
Defined.

Lemma lock_gate_witness :
  lock_step "extern int llingr_run(int x);" demo_go demo_ffi false
    (Some (lock_body 1 (fnv1a_hex (abi_signature demo_header)))) = ContractChanged 1 ∧
  lock_step demo_header demo_go demo_ffi false
    (Some (lock_body 2 (fnv1a_hex (abi_signature demo_header)))) = VersionChanged 2 1.
Proof.
  split.
  - apply (proj2 (proj2 (lock_gate demo_header demo_go demo_ffi
      (Some (lock_body 1 (fnv1a_hex (abi_signature demo_header))))))); by vm_compute.
  - apply (proj1 (proj2 (lock_gate demo_header demo_go demo_ffi
      (Some (lock_body 2 (fnv1a_hex (abi_signature demo_header))))))).
    apply verdict_version; [split; by vm_compute|eexists; split; [done|by vm_compute]|done].
Defined.

Lemma fnv1a_detects_byte_edits_witness : fnv1a_hex "int a" ≠ fnv1a_hex "int b".
Proof. apply (fnv1a_detects_byte_edits "int " "a" "b" ""). done. Defined.

Definition demo_pieces (block line : string) (more : list Piece) : list Piece :=
  [BlockComment block; Code " int x; "; LineComment line; Code (newline +:+ "int llingr_stop();")] ++ more.
Example demo_pieces_text :
  header_text (demo_pieces " a; b " " one" []) = "/* a; b */ int x; // one" +:+ newline +:+ "int llingr_stop();".
Proof. by vm_compute. Qed.
