(* ===== verification/DocsCheck.v ===== *)
(** * Mirroring the documentation samples: src/docs/check-examples/build.rs

    Which pages are read and in which order, which fenced blocks of a page are handed to the
    compiler, how they are re-tagged, and the generated samples.md. The file system is what
    [main] finds of it: whether README.md is a file, the entries of docs/ in the order the
    directory lists them, and the text of each path. *)
From Stdlib Require Import ZArith NArith Ascii.
From Stdlib Require String.
From stdpp Require Import base tactics option list strings.
From S2P Require Import Prelude Text StrOps.

Definition nl : string := String "010" "".
Definition fence : string := "```".

(** The loop's state: the blocks found, and the open block's info and body. *)
Record Scan := mkScan { found : list (string * string); open_block : option (string * string) }.

(** [info.split(|c| c == ',' || c == ' ' || c == '\t').next().unwrap_or("")] *)
Definition first_token (info : string) : string :=
  match split_by (λ c, is_char "," c || is_char " " c || is_char "009" c) info with
  | t :: _ => t
  | [] => ""
  end.

Definition scan_line (st : Scan) (line : string) : Scan :=
  let trimmed := trim_start line in
  match open_block st with
  | None =>
    match strip_prefix fence trimmed with
    | Some rest => mkScan (found st) (Some (trim rest, ""))
    | None => st
    end
  | Some (info, body) =>
    if starts_with fence trimmed
    then mkScan (if String.eqb (first_token info) "rust" then found st ++ [(info, body)] else found st) None
    else mkScan (found st) (Some (info, body +:+ line +:+ nl))
  end.

Definition extract_rust_blocks (text : string) : list (string * string) :=
  found (foldl scan_line (mkScan [] None) (lines text)).

Definition reemit_info (info : string) : string :=
  let attrs := List.filter nonempty (map trim (split_by (λ c, is_char "," c || is_whitespace c) info)) in
  if existsb (String.eqb "ignore") attrs then "rust,ignore"
  else if existsb (String.eqb "compile_fail") attrs then "rust,compile_fail"
  else "rust,no_run".

Definition ends_with_newline (s : string) : bool :=
  match reverse (String.list_ascii_of_string s) with "010"%char :: _ => true | _ => false end.

(** One mirrored block, and the section of a page. *)
Definition mirror_block (b : string * string) : string :=
  fence +:+ reemit_info b.1 +:+ nl +:+ b.2 +:+ (if ends_with_newline b.2 then "" else nl) +:+ fence +:+ nl +:+ nl.
Definition mirror_page (rel text : string) : string :=
  let blocks := extract_rust_blocks text in
  match blocks with
  | [] => ""
  | _ => "## " +:+ rel +:+ nl +:+ nl +:+ str_concat (map mirror_block blocks)
  end.

(** ** [main] *)
(** [Path::extension] of a file name: what follows its last dot, unless the dot leads it. *)
Fixpoint last_dot (s : string) : option (string * string) :=
  match s with
  | "" => None
  | String c s =>
    match last_dot s with
    | Some (stem, ext) => Some (String c stem, ext)
    | None => if Ascii.eqb c "." then Some ("", s) else None
    end
  end.
Definition extension (name : string) : option string :=
  '(stem, ext) ← last_dot name; if String.eqb stem "" then None else Some ext.
Definition is_md (name : string) : bool := bool_decide (extension name = Some "md").

(** The sources, by their path under the repository: README.md, then the pages sorted;
    [docs] is [None] when docs/ is not a directory. *)
Definition docs_sources (readme : bool) (docs : option (list string)) : list string :=
  (if readme then ["README.md"] else []) ++
  match docs with
  | Some entries => map (λ name, "docs/" +:+ name) (merge_sort String.le (List.filter is_md entries))
  | None => []
  end.

Definition samples_header : string :=
  "<!-- GENERATED by docs/check-examples/build.rs from README.md and docs/*.md. Do not edit. -->" +:+ nl +:+ nl.

(** samples.md; a page that cannot be read counts as empty. *)
Definition samples (readme : bool) (docs : option (list string)) (read : string → option string) : string :=
  samples_header +:+
  str_concat (map (λ rel, mirror_page rel (default "" (read rel))) (docs_sources readme docs)).

(** What the script prints for cargo. *)
Definition rerun_lines (repo : string) (readme : bool) (docs : option (list string)) : list string :=
  map (λ rel, "cargo:rerun-if-changed=" +:+ repo +:+ "/" +:+ rel) (docs_sources readme docs ++ ["docs"]).

Example md_extension : map is_md ["a.md"; ".md"; "b.md.bak"; "md"; "c.d.md"] = [true; false; false; false; true].
Proof. by vm_compute. Qed.

(** ** Pages

    The reference the extractor and the mirror are judged by: a page as it is written, prose
    lines and closed fenced blocks, with what its samples are and what their mirror is. *)
Definition line_ok (l : string) : Prop := str_all no_newline l = true ∧ strip_cr l = l.
(** A line that opens or closes a block. *)
Definition is_fence (l : string) : bool := starts_with fence (trim_start l).

(** An info string: its first token, and the further ones with the separators before them. *)
Record Info := mkInfo { lang : string; attrs : list (ascii * string) }.
Definition info_text (i : Info) : string := lang i +:+ str_concat (map (λ a, String a.1 a.2) (attrs i)).
Definition separator (b : ascii) : bool := Ascii.eqb b "," || Ascii.eqb b " " || Ascii.eqb b "009".
Definition token_char (b : ascii) : bool := solid b && negb (Ascii.eqb b ",").
(** ASCII tokens; an info string neither begins nor ends with a blank. *)
Definition info_ok (i : Info) : Prop :=
  str_all token_char (lang i) = true ∧
  Forall (λ a, separator a.1 = true ∧ str_all token_char a.2 = true) (attrs i) ∧
  match last (attrs i) with Some a => lang i ≠ "" ∧ a.2 ≠ "" | None => True end.

Inductive Segment :=
  | Prose (line : string)
  | Fenced (indent : string) (info : Info) (body : list string) (closing : string).
Definition body_line (l : string) : Prop := line_ok l ∧ is_fence l = false.
Definition indent_char (b : ascii) : bool := Ascii.eqb b " " || Ascii.eqb b "009".
Definition segment_ok (s : Segment) : Prop :=
  match s with
  | Prose l => body_line l
  | Fenced indent info body closing =>
    str_all indent_char indent = true ∧ info_ok info ∧ Forall body_line body ∧
    line_ok closing ∧ is_fence closing = true
  end.
Definition segment_lines (s : Segment) : list string :=
  match s with
  | Prose l => [l]
  | Fenced indent info body closing => (indent +:+ fence +:+ info_text info) :: body ++ [closing]
  end.

Definition Page := list Segment.
Definition page_lines (p : Page) : list string := concat (map segment_lines p).
(** With either line ending. *)
Definition line_end (crlf : bool) : string := if crlf then String "013" nl else nl.
Definition unlines_with (crlf : bool) (ls : list string) : string := str_concat (map (λ l, l +:+ line_end crlf) ls).
Definition unlines (ls : list string) : string := unlines_with false ls.
Definition page_text (crlf : bool) (p : Page) : string := unlines_with crlf (page_lines p).

(** The samples of a page: its blocks tagged [rust], in order. *)
Definition segment_rust (s : Segment) : list (Info * list string) :=
  match s with
  | Fenced _ info body _ => if String.eqb (lang info) "rust" then [(info, body)] else []
  | Prose _ => []
  end.
Definition rust_blocks (p : Page) : list (Info * list string) := concat (map segment_rust p).
Definition block_text (b : Info * list string) : string * string := (info_text b.1, unlines b.2).

(** How a sample is compiled: never run. An empty body gains one empty line. *)
Definition mode (i : Info) : string :=
  if decide ("ignore" ∈ (attrs i).*2) then "ignore"
  else if decide ("compile_fail" ∈ (attrs i).*2) then "compile_fail"
  else "no_run".
Definition body_lines (ls : list string) : list string := match ls with [] => [""] | _ => ls end.
Definition compiled (b : Info * list string) : Info * list string :=
  (mkInfo "rust" [(","%char, mode b.1)], body_lines b.2).

(** samples.md as a page: a heading per source page that has samples, and the samples. *)
Definition mirror_segments (b : Info * list string) : Page :=
  [Fenced "" (compiled b).1 (compiled b).2 fence; Prose ""].
Definition mirror_section (rel : string) (p : Page) : Page :=
  match rust_blocks p with
  | [] => []
  | bs => [Prose ("## " +:+ rel); Prose ""] ++ concat (map mirror_segments bs)
  end.
Definition header_line : string :=
  "<!-- GENERATED by docs/check-examples/build.rs from README.md and docs/*.md. Do not edit. -->".
Definition mirror_doc (sources : list string) (pages : string → Page) : Page :=
  [Prose header_line; Prose ""] ++ concat (map (λ rel, mirror_section rel (pages rel)) sources).

(** ** Lines *)
Lemma unlines_with_cons c l ls : unlines_with c (l :: ls) = l +:+ line_end c +:+ unlines_with c ls.
Proof.
  unfold unlines_with. change (map (λ l, l +:+ line_end c) (l :: ls)) with ((l +:+ line_end c) :: map (λ l, l +:+ line_end c) ls).
  by rewrite str_concat_cons, sapp_assoc.
Qed.
Lemma unlines_cons l ls : unlines (l :: ls) = l +:+ nl +:+ unlines ls.
Proof. apply unlines_with_cons. Qed.
Lemma unlines_nil : unlines [] = "".
Proof. done. Qed.
Lemma unlines_app l k : unlines (l ++ k) = unlines l +:+ unlines k.
Proof. unfold unlines, unlines_with. by rewrite map_app, str_concat_app. Qed.

Lemma strip_cr_removes l : strip_cr (l +:+ String "013" "") = l.
Proof.
  unfold strip_cr. rewrite list_ascii_snoc, reverse_app. change (reverse ["013"%char]) with ["013"%char].
  cbn [app]. by rewrite reverse_involutive, String.string_of_list_ascii_of_string.
Qed.

Lemma lines_unlines c ls : Forall line_ok ls → lines (unlines_with c ls) = ls.
Proof.
  unfold lines. induction 1 as [|l ls [Hn Hc] HF IH]; [done|]. rewrite unlines_with_cons. destruct c.
  - unfold line_end, nl. rewrite <-sapp_assoc.
    change (l +:+ String "013" (String "010" "")) with (l +:+ (String "013" "" +:+ String "010" "")).
    rewrite <-(sapp_assoc l), sapp_assoc, sapp_cons, sapp_nil_l.
    rewrite lines_go_line by (by rewrite str_all_app_bool, Hn). by rewrite sapp_nil_l, strip_cr_removes, IH.
  - change (line_end false +:+ ?t) with (String "010" t).
    rewrite lines_go_line by done. by rewrite sapp_nil_l, Hc, IH.
Qed.

Lemma ends_with_newline_snoc s : ends_with_newline (s +:+ nl) = true.
Proof. unfold ends_with_newline, nl. by rewrite list_ascii_snoc, reverse_app. Qed.

Lemma unlines_ends ls : ls ≠ [] → ends_with_newline (unlines ls) = true.
Proof.
  destruct ls as [|l ls] using rev_ind; [done|]. intros _. rewrite unlines_app.
  rewrite unlines_cons, unlines_nil, sapp_nil_r, <-sapp_assoc. apply ends_with_newline_snoc.
Qed.

(** Text without a carriage return or a line feed is a line. *)
Definition plain (b : ascii) : bool := no_newline b && negb (Ascii.eqb b "013").
Lemma plain_line s : str_all plain s = true → line_ok s.
Proof.
  intros H. split; [eapply str_all_impl; [|done]; by intros b [? _]%andb_true_iff|].
  destruct (decide (s = "")) as [->|Hne]; [done|]. destruct (str_snoc s Hne) as (r & b & ->).
  apply strip_cr_snoc. intros ->. by rewrite str_all_app_bool, andb_false_r in H.
Qed.

Lemma token_char_solid b : token_char b = true → solid b = true.
Proof. by intros [? _]%andb_true_iff. Qed.
Lemma solid_plain b : solid b = true → plain b = true.
Proof. by destruct b as [[] [] [] [] [] [] [] []]. Qed.
Lemma indent_plain b : indent_char b = true → plain b = true.
Proof. by destruct b as [[] [] [] [] [] [] [] []]. Qed.
Lemma separator_plain b : separator b = true → plain b = true ∧ is_ascii b = true.
Proof. by destruct b as [[] [] [] [] [] [] [] []]. Qed.

(** ** Info strings *)
Lemma info_text_all (f : ascii → bool) i :
  (∀ b, token_char b = true ∨ separator b = true → f b = true) → info_ok i → str_all f (info_text i) = true.
Proof.
  intros Hf (Hl & Ha & _). unfold info_text. rewrite str_all_app_bool, (str_all_impl token_char f) by eauto.
  clear Hl. simpl. induction Ha as [|[b t] l [Hb Ht] HF IH]; [done|]. cbn [map fst snd] in *.
  rewrite str_concat_cons, sapp_cons. cbn [str_all]. rewrite str_all_app_bool, Hf, IH by auto.
  rewrite (str_all_impl token_char f) by eauto. done.
Qed.

Lemma trim_info i : info_ok i → trim (info_text i) = info_text i.
Proof.
  intros Hi. pose proof Hi as (Hl & Ha & Hlast). unfold info_text in *.
  assert (∀ t, str_all token_char t = true → str_all solid t = true) as Hsolid
    by (intros t; apply str_all_impl, token_char_solid).
  destruct (attrs i) as [|[b t] l _] eqn:E using rev_ind.
  - simpl. rewrite sapp_nil_r. destruct (decide (lang i = "")) as [->|]; [done|]. apply trim_solid; auto.
  - rewrite last_snoc in Hlast. destruct Hlast as [Hne Hnt]. cbn [snd] in Hnt.
    apply Forall_app in Ha as [Ha Hbt]. apply Forall_cons_1 in Hbt as [[Hb Ht] _]. cbn [fst snd] in *.
    rewrite map_app, str_concat_app. cbn [map fst snd]. rewrite str_concat_cons, sapp_cons.
    change (str_concat []) with "". rewrite sapp_nil_r.
    change (String b t) with (String b "" +:+ t). rewrite <-!sapp_assoc.
    destruct (lang i) as [|a s] eqn:El; [done|]. rewrite !sapp_cons, <-sapp_cons.
    cbn [str_all] in Hl. apply andb_true_iff in Hl as [Hla Hl].
    apply trim_text; [by apply token_char_solid| |by apply Hsolid|done].
    rewrite !str_all_app_bool. cbn [str_all]. rewrite (proj2 (separator_plain b Hb)).
    rewrite (str_all_impl token_char is_ascii _ (λ b H, solid_ascii b (token_char_solid b H)) Hl). simpl.
    rewrite andb_true_r. clear -Ha. induction Ha as [|[c u] l [Hc Hu] HF IH]; [done|]. cbn [map fst snd] in *.
    rewrite str_concat_cons, sapp_cons. cbn [str_all]. rewrite str_all_app_bool, IH, (proj2 (separator_plain c Hc)).
    by rewrite (str_all_impl token_char is_ascii _ (λ b H, solid_ascii b (token_char_solid b H)) Hu).
Qed.

(** Splitting an info string at a set of separators gives its tokens back. *)
Lemma split_info f i :
  (∀ b, token_char b = true → f (String b "") = false) → (∀ b, separator b = true → f (String b "") = true) →
  info_ok i → split_by f (info_text i) = lang i :: (attrs i).*2.
Proof.
  intros Ht Hs (Hl & Ha & _). unfold info_text. revert Hl. generalize (lang i).
  assert (∀ t, str_all token_char t = true → str_all is_ascii t = true ∧ str_all (λ b, negb (f (String b ""))) t = true) as Htok.
  { intros t H. split; (eapply str_all_impl; [|exact H]); intros b Hb; [by apply solid_ascii, token_char_solid|by rewrite Ht]. }
  induction Ha as [|[b t] l [Hb Hbt] HF IH]; intros w [Hw Hw']%Htok.
  - simpl. rewrite sapp_nil_r. by apply split_by_last.
  - cbn [map fst snd] in *. rewrite str_concat_cons, sapp_cons.
    rewrite split_by_word by (done || auto || by apply separator_plain). by rewrite IH.
Qed.

Lemma first_token_info i : info_ok i → first_token (info_text i) = lang i.
Proof.
  intros Hi. unfold first_token. rewrite split_info; [done| | |done].
  - intros b. by destruct b as [[] [] [] [] [] [] [] []].
  - intros b. by destruct b as [[] [] [] [] [] [] [] []].
Qed.

Lemma trim_tokens ts : Forall (λ t, str_all token_char t = true) ts → map trim ts = ts.
Proof.
  induction 1 as [|t ts Ht HF IH]; [done|]. cbn [map]. rewrite IH. f_equal.
  destruct (decide (t = "")) as [->|]; [done|]. apply trim_solid; [|done].
  eapply str_all_impl; [apply token_char_solid|done].
Qed.

Lemma existsb_nonempty x ts :
  x ≠ "" → existsb (String.eqb x) (List.filter nonempty ts) = bool_decide (x ∈ ts).
Proof.
  intros Hx. apply eq_true_iff_eq. rewrite bool_decide_eq_true, existsb_exists, list_elem_of_In. split.
  - by intros (y & [Hy _]%List.filter_In & ->%String.eqb_eq).
  - intros H. exists x. split; [|apply String.eqb_refl]. apply List.filter_In. split; [done|].
    unfold nonempty. by destruct (String.eqb_spec x "").
Qed.

Lemma reemit_info_mode i : info_ok i → lang i = "rust" → reemit_info (info_text i) = "rust," +:+ mode i.
Proof.
  intros Hi Hl. unfold reemit_info. rewrite split_info; [| | |done].
  - pose proof Hi as (Hlang & Ha & _). rewrite trim_tokens.
    + rewrite !existsb_nonempty by done. unfold mode. rewrite Hl.
      repeat case_bool_decide; repeat case_decide; try done; set_solver.
    + constructor; [done|]. apply Forall_map. eapply Forall_impl; [exact Ha|]. by intros a [].
  - intros b. by destruct b as [[] [] [] [] [] [] [] []].
  - intros b. by destruct b as [[] [] [] [] [] [] [] []].
Qed.

(** ** The extractor reads every page *)
Lemma trim_start_indent indent s : str_all indent_char indent = true → trim_start (indent +:+ s) = trim_start s.
Proof.
  induction indent as [|b r IH]; intros H; [done|]. cbn [str_all] in H. apply andb_true_iff in H as [Hb H].
  rewrite sapp_cons, <-(IH H). unfold trim_start.
  rewrite chars_ascii_cons by by destruct b as [[] [] [] [] [] [] [] []].
  cbn [drop_while]. by replace (is_whitespace (String b "")) with true
    by by destruct b as [[] [] [] [] [] [] [] []].
Qed.

Lemma trim_start_fence s : trim_start (fence +:+ s) = fence +:+ s.
Proof. by apply trim_start_solid. Qed.

Lemma segment_line_ok s : segment_ok s → Forall line_ok (segment_lines s).
Proof.
  destruct s as [l|indent info body closing]; cbn [segment_ok segment_lines].
  - intros [? _]. by constructor.
  - intros (Hi & Hf & Hb & Hc & _). constructor.
    + apply plain_line. rewrite !str_all_app_bool, (str_all_impl indent_char plain) by eauto using indent_plain.
      rewrite (info_text_all plain); [done| |done].
      intros b [Hb'|Hb']; [by apply solid_plain, token_char_solid|by apply separator_plain].
    + apply Forall_app. split; [|by constructor]. eapply Forall_impl; [exact Hb|]. by intros l [].
Qed.

Lemma page_lines_ok p : Forall segment_ok p → Forall line_ok (page_lines p).
Proof. intros H. apply Forall_concat, Forall_map. eapply Forall_impl; [exact H|]. apply segment_line_ok. Qed.

(** A body line that does not end the block joins the body. *)
Lemma scan_body fs info body ls :
  Forall body_line ls →
  foldl scan_line (mkScan fs (Some (info, body))) ls = mkScan fs (Some (info, body +:+ unlines ls)).
Proof.
  intros HF. revert body. induction HF as [|l ls [_ Hl] HF IH]; intros body.
  - by rewrite unlines_nil, sapp_nil_r.
  - cbn [foldl]. unfold scan_line at 2. cbn [open_block found]. unfold is_fence in Hl.
    rewrite Hl, IH, unlines_cons. by rewrite !sapp_assoc.
Qed.

Lemma scan_segment fs s :
  segment_ok s →
  foldl scan_line (mkScan fs None) (segment_lines s) = mkScan (fs ++ map block_text (segment_rust s)) None.
Proof.
  destruct s as [l|indent info body closing]; cbn [segment_ok segment_lines segment_rust].
  - intros [_ Hl]. cbn [foldl map]. unfold scan_line. cbn [open_block].
    unfold is_fence, starts_with in Hl. apply bool_decide_eq_false in Hl.
    rewrite app_nil_r. destruct (strip_prefix fence (trim_start l)); [|done]. destruct Hl. by eexists.
  - intros (Hi & Hf & Hb & _ & Hc). cbn [foldl]. unfold scan_line at 2. cbn [open_block found].
    rewrite trim_start_indent, trim_start_fence, (proj2 (strip_prefix_spec _ _ _) eq_refl), trim_info by done.
    rewrite foldl_app, scan_body, sapp_nil_l by done. cbn [foldl]. unfold scan_line. cbn [open_block found].
    unfold is_fence in Hc. rewrite Hc, first_token_info by done. unfold block_text.
    destruct (String.eqb (lang info) "rust"); cbn [map fst snd]; [done|by rewrite app_nil_r].
Qed.

Lemma scan_page fs p :
  Forall segment_ok p →
  foldl scan_line (mkScan fs None) (page_lines p) = mkScan (fs ++ map block_text (rust_blocks p)) None.
Proof.
  unfold page_lines, rust_blocks. intros H. revert fs. induction H as [|s p Hs HF IH]; intros fs.
  - by rewrite app_nil_r.
  - cbn [map concat]. by rewrite foldl_app, scan_segment, IH, map_app, app_assoc.
Qed.

Lemma extract_page crlf p :
  Forall segment_ok p → extract_rust_blocks (page_text crlf p) = map block_text (rust_blocks p).
Proof.
  intros H. unfold extract_rust_blocks, page_text. rewrite lines_unlines by by apply page_lines_ok.
  by rewrite scan_page.
Qed.

(** ** The mirror writes the reference's document *)
Lemma rust_blocks_ok p :
  Forall segment_ok p → Forall (λ b, info_ok b.1 ∧ lang b.1 = "rust" ∧ Forall body_line b.2) (rust_blocks p).
Proof.
  intros H. apply Forall_concat, Forall_map. eapply Forall_impl; [exact H|].
  intros [l|indent info body closing]; cbn [segment_ok segment_rust]; [constructor|].
  intros (_ & Hi & Hb & _). destruct (String.eqb_spec (lang info) "rust"); [|constructor].
  by apply Forall_singleton.
Qed.

Lemma page_text_app c p q : page_text c (p ++ q) = page_text c p +:+ page_text c q.
Proof. unfold page_text, page_lines, unlines_with. by rewrite map_app, concat_app, map_app, str_concat_app. Qed.

Lemma compiled_info_text b : info_text (compiled b).1 = "rust," +:+ mode b.1.
Proof. unfold compiled, info_text. cbn [lang attrs fst snd map]. by rewrite str_concat_cons, sapp_nil_r. Qed.

Lemma mirror_block_page b :
  info_ok b.1 → lang b.1 = "rust" → mirror_block (block_text b) = page_text false (mirror_segments b).
Proof.
  intros Hi Hl. unfold mirror_block, block_text. cbn [fst snd]. rewrite reemit_info_mode by done.
  unfold page_text, page_lines, mirror_segments. cbn [map segment_lines concat app].
  rewrite compiled_info_text. fold (unlines ((fence +:+ "rust," +:+ mode b.1) :: ((compiled b).2 ++ [fence]) ++ [""])).
  rewrite sapp_nil_l, unlines_cons, !unlines_app, !unlines_cons, unlines_nil, !sapp_assoc, !sapp_nil_l, sapp_nil_r.
  do 3 f_equal. unfold compiled. cbn [snd]. destruct b.2 as [|l ls]; [done|].
  cbn [body_lines]. by rewrite unlines_ends, sapp_nil_l.
Qed.

Lemma mirror_blocks_page bs :
  Forall (λ b, info_ok b.1 ∧ lang b.1 = "rust" ∧ Forall body_line b.2) bs →
  str_concat (map mirror_block (map block_text bs)) = page_text false (concat (map mirror_segments bs)).
Proof.
  induction 1 as [|b bs (Hi & Hl & _) HF IH]; [done|]. cbn [map concat].
  by rewrite str_concat_cons, mirror_block_page, IH, page_text_app.
Qed.

Lemma mirror_page_section crlf rel p :
  Forall segment_ok p → mirror_page rel (page_text crlf p) = page_text false (mirror_section rel p).
Proof.
  intros H. unfold mirror_page, mirror_section. rewrite extract_page by done.
  pose proof (rust_blocks_ok p H) as Hb. destruct (rust_blocks p) as [|b bs]; [done|].
  rewrite page_text_app, <-mirror_blocks_page by done.
  cbn [map]. cbn iota. rewrite <-!sapp_assoc. f_equal.
Qed.

(** ** The mirror is itself a page *)
Lemma mode_cases i : mode i = "ignore" ∨ mode i = "compile_fail" ∨ mode i = "no_run".
Proof. unfold mode. repeat case_decide; auto. Qed.

Lemma compiled_ok b : info_ok (compiled b).1.
Proof.
  unfold compiled, info_ok. cbn [fst lang attrs last snd].
  destruct (mode_cases b.1) as [->|[->| ->]]; repeat constructor; by vm_compute.
Qed.

Lemma mirror_section_ok rel p :
  line_ok rel → Forall segment_ok p → Forall segment_ok (mirror_section rel p).
Proof.
  intros [Hn Hc] H. unfold mirror_section. pose proof (rust_blocks_ok p H) as Hb.
  destruct (rust_blocks p) as [|b0 bs0]; [constructor|].
  assert (segment_ok (Prose "")) as Hempty by (split; [split; by vm_compute|by vm_compute]).
  constructor; [|constructor; [done|]].
  - split; [split; [by rewrite str_all_app_bool, Hn|by apply strip_cr_app]|].
    unfold is_fence. change ("## " +:+ rel) with (String "#" ("# " +:+ rel)). by rewrite trim_start_solid.
  - apply Forall_concat, Forall_map. eapply Forall_impl; [exact Hb|]. intros b (_ & _ & Hls).
    constructor; [|by constructor]. split_and!; [done|apply compiled_ok| |split; by vm_compute|by vm_compute].
    unfold compiled. cbn [snd]. destruct b.2; [|done]. repeat constructor; by vm_compute.
Qed.

Lemma mirror_segments_blocks bs : rust_blocks (concat (map mirror_segments bs)) = map compiled bs.
Proof.
  unfold rust_blocks. induction bs as [|b bs IH]; [done|]. cbn [map concat]. by rewrite map_app, concat_app, IH.
Qed.

Lemma mirror_section_blocks rel p : rust_blocks (mirror_section rel p) = map compiled (rust_blocks p).
Proof.
  unfold mirror_section. destruct (rust_blocks p) as [|b bs]; [done|].
  rewrite <-mirror_segments_blocks. done.
Qed.

Lemma mirror_doc_ok sources pages :
  (∀ rel, rel ∈ sources → line_ok rel ∧ Forall segment_ok (pages rel)) →
  Forall segment_ok (mirror_doc sources pages).
Proof.
  intros H. constructor; [by split; [split|]; vm_compute|]. constructor; [by split; [split|]; vm_compute|].
  apply Forall_concat, Forall_map, Forall_forall. intros rel [Hr Hp]%H. by apply mirror_section_ok.
Qed.

Lemma mirror_doc_blocks sources pages :
  rust_blocks (mirror_doc sources pages) = map compiled (concat (map (λ rel, rust_blocks (pages rel)) sources)).
Proof.
  unfold mirror_doc. unfold rust_blocks at 1. cbn [app map segment_rust concat].
  induction sources as [|rel sources IH]; [done|]. cbn [map concat]. rewrite map_app, concat_app, IH, map_app.
  f_equal. apply mirror_section_blocks.
Qed.

Lemma samples_mirror readme docs read pages :
  (∀ rel, rel ∈ docs_sources readme docs →
    Forall segment_ok (pages rel) ∧ ∃ crlf, read rel = Some (page_text crlf (pages rel))) →
  samples readme docs read = page_text false (mirror_doc (docs_sources readme docs) pages).
Proof.
  intros H. unfold samples, mirror_doc. rewrite page_text_app. f_equal.
  revert H. induction (docs_sources readme docs) as [|rel rels IH]; intros H; [done|].
  cbn [map concat]. rewrite str_concat_cons, page_text_app, IH by (intros r Hr; apply H; by constructor).
  destruct (H rel) as (Hp & crlf & ->); [by constructor|]. f_equal. by apply mirror_page_section.
Qed.

(** ** Which pages *)
Lemma last_dot_spec s stem ext :
  last_dot s = Some (stem, ext) ↔ s = stem +:+ String "." ext ∧ str_all (λ b, negb (Ascii.eqb b ".")) ext = true.
Proof.
  assert (∀ s, last_dot s = None → str_all (λ b, negb (Ascii.eqb b ".")) s = true) as Hnone.
  { clear. induction s as [|c s IH]; [done|]. cbn [last_dot str_all].
    destruct (last_dot s) as [[]|]; [done|]. destruct (Ascii.eqb c "."); [done|]. intros _. by rewrite IH. }
  assert (∀ s stem ext, last_dot s = Some (stem, ext) →
    s = stem +:+ String "." ext ∧ str_all (λ b, negb (Ascii.eqb b ".")) ext = true) as Hsome.
  { clear -Hnone. induction s as [|c s IH]; intros stem ext; [done|]. cbn [last_dot].
    destruct (last_dot s) as [[stem' ext']|] eqn:E.
    - intros [= <- <-]. destruct (IH _ _ eq_refl) as [-> He]. done.
    - destruct (Ascii.eqb_spec c ".") as [->|]; [|done]. intros [= <- <-]. by split; [|apply Hnone]. }
  split; [apply Hsome|]. intros [-> He]. induction stem as [|c stem IH].
  - rewrite sapp_nil_l. cbn [last_dot]. destruct (last_dot ext) as [[a b]|] eqn:E; [|done].
    apply Hsome in E as [-> _]. rewrite str_all_app_bool in He. cbn [str_all] in He.
    by rewrite andb_false_r in He.
  - rewrite sapp_cons. cbn [last_dot]. by rewrite IH.
Qed.

Lemma is_md_spec name : is_md name = true ↔ ∃ stem, stem ≠ "" ∧ name = stem +:+ ".md".
Proof.
  unfold is_md, extension. rewrite bool_decide_eq_true. split.
  - destruct (last_dot name) as [[stem ext]|] eqn:E; [|done]. cbn [mbind option_bind].
    destruct (String.eqb_spec stem ""); [done|]. intros [= ->]. exists stem. by apply last_dot_spec in E as [-> _].
  - intros (stem & Hne & ->). assert (last_dot (stem +:+ ".md") = Some (stem, "md")) as -> by by apply last_dot_spec.
    cbn [mbind option_bind]. by destruct (String.eqb_spec stem "").
Qed.

Lemma docs_source_spec readme docs rel :
  rel ∈ docs_sources readme docs ↔
    (readme = true ∧ rel = "README.md") ∨
    ∃ entries stem, docs = Some entries ∧ stem ≠ "" ∧ stem +:+ ".md" ∈ entries ∧ rel = "docs/" +:+ stem +:+ ".md".
Proof.
  unfold docs_sources. rewrite elem_of_app. f_equiv; [by destruct readme; set_solver|].
  destruct docs as [entries|]; [|set_solver]. rewrite list_elem_of_fmap.
  setoid_rewrite merge_sort_Permutation. setoid_rewrite list_elem_of_In. setoid_rewrite List.filter_In.
  setoid_rewrite is_md_spec. naive_solver.
Qed.

Lemma md_sorted_permutation entries entries' :
  entries ≡ₚ entries' →
  merge_sort String.le (List.filter is_md entries) = merge_sort String.le (List.filter is_md entries').
Proof.
  intros H. apply (StronglySorted_unique String.le); [by apply StronglySorted_merge_sort; apply _..|].
  rewrite !merge_sort_Permutation. clear -H.
  induction H as [|x l l' H IH|x y l|l l' l'' H1 IH1 H2 IH2]; simpl; [done| | |by etrans].
  - destruct (is_md x); by rewrite IH.
  - destruct (is_md x), (is_md y); try done. apply Permutation_swap.
Qed.

(** C28: samples.md is faithful to the repository's pages. The pages are README.md and the
    entries of docs/ named [stem.md], in the byte order of their names. For pages written
    as prose and closed fenced blocks (either line ending; fences at any indentation of
    spaces and tabs; info strings of ASCII tokens separated by commas, spaces or tabs), the
    extractor finds exactly the blocks whose first token is [rust], in order, with their
    info strings and bodies. samples.md is byte for byte the document that holds, under a
    heading per page, those blocks, each tagged [rust] with [ignore] or [compile_fail]
    where its attributes say so and [no_run] everywhere else, the body unchanged (an empty
    one gains an empty line). That document is again such a page, whose samples are exactly
    those: none is lost, added or executed. Neither samples.md nor the lines printed for
    cargo depend on the order the directory is listed in. *)
Theorem samples_are_faithful readme docs read pages :
  (∀ rel, rel ∈ docs_sources readme docs →
    line_ok rel ∧ Forall segment_ok (pages rel) ∧ ∃ crlf, read rel = Some (page_text crlf (pages rel))) →
  let sources := docs_sources readme docs in
  let doc := mirror_doc sources pages in
  (∀ rel, rel ∈ sources →
    extract_rust_blocks (default "" (read rel)) = map block_text (rust_blocks (pages rel))) ∧
  samples readme docs read = page_text false doc ∧
  Forall segment_ok doc ∧
  rust_blocks doc = map compiled (concat (map (λ rel, rust_blocks (pages rel)) sources)) ∧
  (∀ rel, rel ∈ sources ↔
    (readme = true ∧ rel = "README.md") ∨
    ∃ entries stem, docs = Some entries ∧ stem ≠ "" ∧ stem +:+ ".md" ∈ entries ∧ rel = "docs/" +:+ stem +:+ ".md") ∧
  (∃ names, StronglySorted String.le names ∧
    sources = (if readme then ["README.md"] else []) ++ map (λ name, "docs/" +:+ name) names) ∧
  ∀ repo entries entries', docs = Some entries → entries ≡ₚ entries' →
    samples readme (Some entries') read = samples readme docs read ∧
    rerun_lines repo readme (Some entries') = rerun_lines repo readme docs.
Proof.
  intros H sources doc. split_and!.
  - intros rel (_ & Hp & crlf & ->)%H. by apply extract_page.
  - apply samples_mirror. intros rel (_ & Hp & Hr)%H. done.
  - apply mirror_doc_ok. intros rel (Hl & Hp & _)%H. done.
  - apply mirror_doc_blocks.
  - apply docs_source_spec.
  - subst sources. unfold docs_sources. destruct docs as [entries|].
    + eexists. split; [|done]. apply StronglySorted_merge_sort; apply _.
    + exists []. split; [constructor|done].
  - intros repo entries entries' -> Hp. unfold samples, rerun_lines, docs_sources.
    by rewrite (md_sorted_permutation _ _ Hp).
Qed.

Definition demo_page : Page :=
  [Prose "# Title"; Fenced "" (mkInfo "sh" []) ["make"] fence;
   Fenced "  " (mkInfo "rust" [(","%char, "ignore")]) ["  let x = 1;"] "  ```"; Fenced "" (mkInfo "rust" []) [] fence].
Example demo_extract :
  extract_rust_blocks (page_text true demo_page) = [("rust,ignore", "  let x = 1;" +:+ nl); ("rust", "")].
Proof. by vm_compute. Qed.

Definition demo_read (rel : string) : option string :=
  if String.eqb rel "docs/x.md" then Some (page_text true demo_page)
  else if String.eqb rel "README.md" then Some (page_text false demo_page) else Some "".
Definition demo_pages (rel : string) : Page := if String.eqb rel "docs/a.md" then [] else demo_page.
Lemma samples_are_faithful_witness :
  let docs := Some ["x.md"; "internal"; "a.md"] in
  docs_sources true docs = ["README.md"; "docs/a.md"; "docs/x.md"] ∧
  samples true docs demo_read = page_text false (mirror_doc (docs_sources true docs) demo_pages).
Proof.
  split; [by vm_compute|].
  apply (samples_are_faithful true (Some ["x.md"; "internal"; "a.md"]) demo_read demo_pages).
  replace (docs_sources true (Some ["x.md"; "internal"; "a.md"])) with ["README.md"; "docs/a.md"; "docs/x.md"]
    by by vm_compute.
  assert (Forall segment_ok demo_page) by (repeat constructor; by vm_compute).
  intros rel Hrel%list_elem_of_In. destruct Hrel as [<-|[<-|[<-|[]]]].
  - split_and!; [by split; vm_compute|done|by exists false].
  - split_and!; [by split; vm_compute|constructor|by exists false].
  - split_and!; [by split; vm_compute|done|by exists true].
Defined.
