(* ===== verification/BuildScript.v ===== *)
(** * The crate's build script: src/build.rs

    What [main] prints for cargo, which [go build] it runs, and when it stops the build, as
    a function of the environment: variables, the file system as far as it is asked, and the
    answers of the Go toolchain. *)
From Stdlib Require Import ZArith NArith Ascii.
From Stdlib Require String.
From stdpp Require Import base tactics option list strings.
From S2P Require Import Prelude Text StrOps.

Definition dq : string := String "034" "".

(** One [go build] invocation: its directory, the variables it sets, its arguments. *)
Record GoBuild := mkGoBuild { gb_dir : string; gb_env : list (string * string); gb_args : list string }.

Record Env := mkEnv {
  var : string → option string;            (* std::env::var *)
  file_exists : string → bool;
  canonicalize : string → option string;
  bridge_files : list string;              (* read_dir(bridge) *)
  manifest_dir : string;
  go_version : option string;              (* `go version`'s stdout; None: not on PATH *)
  go_build : GoBuild → bool;               (* the build's exit status *)
}.

Inductive Outcome := Finished | Panicked (message : string).
Record Report := mkReport { printed : list string; builds : list GoBuild; outcome : Outcome }.

Definition var_is (e : Env) (name value : string) : bool := bool_decide (var e name = Some value).
Definition path_join (dir file : string) : string :=
  match reverse (String.list_ascii_of_string dir) with
  | [] => file
  | "/"%char :: _ => dir +:+ file
  | _ => dir +:+ "/" +:+ file
  end.
Definition ends_with (suffix s : string) : bool :=
  (String.length suffix <=? String.length s) &&
  String.eqb (String.substring (String.length s - String.length suffix) (String.length suffix) s) suffix.

Definition rerun_lines : list string :=
  map (λ v, "cargo:rerun-if-env-changed=" +:+ v)
    ["LLINGR_LIB_DIR"; "LLINGR_LINK"; "DOCS_RS"; "GOOS"; "GOARCH"; "CC"; "CXX"; "CARGO_CFG_PANIC"].

Definition panic_warnings : list string :=
  ["cargo::warning=llingr-kafka: this profile sets panic = " +:+ dq +:+ "abort" +:+ dq +:+ ", which DISABLES the panic-to-dead-letter contract: a panicking handler will abort the whole process instead of routing the message to the dead-letter handler.";
   "cargo::warning=llingr-kafka: remove panic = " +:+ dq +:+ "abort" +:+ dq +:+ " from the profile (llingr-kafka needs panic = " +:+ dq +:+ "unwind" +:+ dq +:+ ", the default) unless a whole-process abort per handler panic is acceptable."].

Definition options_text : string :=
  "llingr-kafka compiles its Go engine during `cargo build`. Four options: (1) install Go 1.26+ from https://go.dev/dl/, (2) download a prebuilt engine from https://github.com/llingr/llingr-rs-kafka/releases and set LLINGR_LIB_DIR to the extracted directory, (3) build the engine once with `make engine` (uses Docker) and set LLINGR_LIB_DIR=dist/<target-triple>, or (4) build the whole application inside the provided builder image (docker/Dockerfile).".

(** [emit_link] *)
Definition emit_link (e : Env) (dir : string) : list string :=
  ["cargo:rustc-link-search=native=" +:+ dir; "cargo:rustc-link-lib=static=llingr";
   "cargo::metadata=link=static"; "cargo::metadata=lib_dir=" +:+ dir;
   "cargo:rustc-link-arg=-lpthread"; "cargo:rustc-link-arg=-lm"; "cargo:rustc-link-arg=-ldl"] ++
  (if var_is e "CARGO_CFG_TARGET_OS" "macos"
   then ["cargo:rustc-link-lib=framework=CoreFoundation"; "cargo:rustc-link-lib=framework=Security"] else []).

(** [emit_link_shared] *)
Definition emit_link_shared (e : Env) : list string * Outcome :=
  match var e "LLINGR_LIB_DIR" with
  | None => ([], Panicked "LLINGR_LINK=shared requires LLINGR_LIB_DIR pointing at the prebuilt shared engine. Build it once with `make engine LINK=shared` (writes dist/<target-triple>/libllingr.so, .dylib on macOS), then set LLINGR_LIB_DIR=dist/<target-triple>.")
  | Some dir =>
    let macos := var_is e "CARGO_CFG_TARGET_OS" "macos" in
    let lib := if macos then "libllingr.dylib" else "libllingr.so" in
    let resolved := default dir (canonicalize e dir) in
    let origin := if macos then "@loader_path" else "$ORIGIN" in
    ((if file_exists e (path_join resolved lib) then [] else
        ["cargo::warning=LLINGR_LINK=shared but " +:+ lib +:+ " is not in " +:+ resolved +:+ ": linking will fail with `ld: library 'llingr' not found`. Build it with `make engine LINK=shared` and point LLINGR_LIB_DIR at dist/<target-triple>/."]) ++
     ["cargo:rustc-link-search=native=" +:+ resolved; "cargo:rustc-link-lib=dylib=llingr";
      "cargo:rustc-link-arg=-Wl,-rpath," +:+ origin; "cargo:rustc-link-arg=-Wl,-rpath," +:+ resolved;
      "cargo::metadata=link=shared"; "cargo::metadata=lib_dir=" +:+ resolved;
      "cargo::metadata=rpath_origin=" +:+ origin], Finished)
  end.

(** [ver.trim_start_matches("go")] *)
Fixpoint trim_go (s : string) : string :=
  match s with String "g" (String "o" r) => trim_go r | _ => s end.

(** The version word of `go version` and its two leading numbers. *)
Definition go_version_word (text : string) : string :=
  trim_go (default "" (split_whitespace (from_utf8_lossy text) !! 2)).
Definition go_version_numbers (ver : string) : N * N :=
  let parts := split_by (is_char ".") ver in
  let number := λ i, default 0%N (parse_uint 32 (default "0" (parts !! i))) in
  (number 0, number 1).

(** [require_go_1_26]: [None] lets the build go on. *)
Definition require_go_1_26 (e : Env) : option string :=
  match go_version e with
  | None => Some ("Go toolchain not found on PATH. " +:+ options_text)
  | Some text =>
    let ver := go_version_word text in
    let '(major, minor) := go_version_numbers ver in
    if ((1 <? major) || ((major =? 1) && (26 <=? minor)))%N then None
    else Some ("Go 1.26+ is required for the engine build, found " +:+ ver +:+ ". " +:+ options_text)
  end.

Definition goos_of (os : option string) : option string :=
  match os with Some "linux" => Some "linux" | Some "macos" => Some "darwin" | _ => None end.
Definition goarch_of (arch : option string) : option string :=
  match arch with Some "x86_64" => Some "amd64" | Some "aarch64" => Some "arm64" | _ => None end.

(** The C compiler for cgo: the caller's, or the derived darwin form; [inl] is the refusal
    of a cross build without one. *)
Definition choose_cc (e : Env) (goos goarch : string) : string + option string :=
  let user_cc := match var e "CC" with Some "" => None | cc => cc end in
  let cross := bool_decide (var e "TARGET" ≠ var e "HOST") in
  let darwin_to_darwin := bool_decide (goos = "darwin") &&
    match var e "HOST" with Some host => ends_with "-apple-darwin" host | None => false end in
  let darwin_cross_cc :=
    if cross && bool_decide (user_cc = None) && darwin_to_darwin
    then Some ("cc -arch " +:+ (if String.eqb goarch "amd64" then "x86_64" else "arm64")) else None in
  if cross && bool_decide (user_cc = None) && bool_decide (darwin_cross_cc = None)
  then inl ("engine build: cross-compiling to " +:+ default "" (var e "TARGET") +:+ " but CC is unset. cgo builds the engine's C glue with the host compiler, which cannot target another architecture. Set CC (and CXX) to a cross toolchain, e.g. CC=aarch64-linux-gnu-gcc CXX=aarch64-linux-gnu-g++, or set LLINGR_LIB_DIR to a prebuilt library.")
  else inr (match user_cc with Some cc => Some cc | None => darwin_cross_cc end).

Definition go_command (e : Env) (bridge out_dir goos goarch : string) (cc : option string) : GoBuild :=
  mkGoBuild bridge
    ([("CGO_ENABLED", "1")] ++
     (match var e "GOOS" with None => [("GOOS", goos)] | Some _ => [] end) ++
     (match var e "GOARCH" with None => [("GOARCH", goarch)] | Some _ => [] end) ++
     (match cc with Some cc => [("CC", cc)] | None => [] end) ++
     (match var e "CXX" with Some "" | None => [] | Some cxx => [("CXX", cxx)] end))
    ["build"; "-tags"; "netgo"; "-buildmode"; "c-archive"; "-ldflags"; "-s -w"; "-o";
     path_join out_dir "libllingr.a"; "."].

(** [path.extension().is_some_and(|e| e == "go")]: something before the last dot. *)
Definition is_go_file (name : string) : bool :=
  match reverse (split_by (is_char ".") name) with
  | "go" :: stem :: rest => negb (bool_decide (stem = "" ∧ rest = []))
  | _ => false
  end.

(** Branch 4: building the engine from bridge/. The two "unsupported" messages end with the
    debug form of the variable, which is left out. *)
Definition build_engine (e : Env) : Report :=
  if var_is e "CARGO_CFG_TARGET_ENV" "musl" then
    mkReport [] [] (Panicked ("musl target " +:+ default "" (var e "TARGET") +:+ " is unsupported: the Go engine c-archive crashes in runtime init on musl (Go assumes glibc's argc/argv/envp .init_array convention; golang/go#13492, fix PR 69325 unmerged), and a dlopen route hits Go's Initial-Exec TLS which musl refuses for dlopen'd libraries (golang/go#48596). Build against glibc (a *-gnu target; the Makefile and docker/Dockerfile default to LIBC=glibc). See docs/internal/MUSL.md"))
  else
  match require_go_1_26 e with
  | Some message => mkReport [] [] (Panicked message)
  | None =>
    match var e "OUT_DIR" with
    | None => mkReport [] [] (Panicked "OUT_DIR")
    | Some out_dir =>
      let raw := path_join (manifest_dir e) "bridge" in
      match canonicalize e raw with
      | None => mkReport [] [] (Panicked ("engine bridge source not found at " +:+ raw +:+ ": the Go bridge ships inside the crate, so this working tree or package is incomplete"))
      | Some bridge =>
        let reruns := ("cargo:rerun-if-changed=" +:+ path_join bridge "go.sum") ::
          map (λ f, "cargo:rerun-if-changed=" +:+ path_join bridge f) (List.filter is_go_file (bridge_files e)) in
        match goos_of (var e "CARGO_CFG_TARGET_OS"), goarch_of (var e "CARGO_CFG_TARGET_ARCH") with
        | None, _ => mkReport reruns [] (Panicked "engine build: unsupported target OS")
        | _, None => mkReport reruns [] (Panicked "engine build: unsupported target arch")
        | Some goos, Some goarch =>
          match choose_cc e goos goarch with
          | inl message => mkReport reruns [] (Panicked message)
          | inr cc =>
            let cmd := go_command e bridge out_dir goos goarch cc in
            if go_build e cmd then mkReport (reruns ++ emit_link e out_dir) [cmd] Finished
            else mkReport reruns [cmd] (Panicked "engine `go build` failed")
          end
        end
      end
    end
  end.

(** Branches 3 and 4. *)
Definition main_static (e : Env) : Report :=
  match var e "LLINGR_LIB_DIR" with
  | Some dir =>
    let resolved := default dir (canonicalize e dir) in
    mkReport ((if file_exists e (path_join resolved "libllingr.a") then [] else
        ["cargo::warning=LLINGR_LIB_DIR is set to " +:+ resolved +:+ " but libllingr.a is not there: linking will fail with `ld: library 'llingr' not found`. Point LLINGR_LIB_DIR at the directory holding libllingr.a (`make engine` builds it into dist/<target-triple>/), or unset it to build the engine from source."])
      ++ emit_link e resolved) [] Finished
  | None => build_engine e
  end.

Definition after_prints (lines : list string) (r : Report) : Report :=
  mkReport (lines ++ printed r) (builds r) (outcome r).

Definition main (e : Env) : Report :=
  after_prints (rerun_lines ++ (if var_is e "CARGO_CFG_PANIC" "abort" then panic_warnings else []))
    (match var e "DOCS_RS" with
     | Some _ => mkReport [] [] Finished
     | None =>
       match var e "LLINGR_LINK" with
       | None => main_static e
       | Some mode =>
         if String.eqb mode "shared" then let '(lines, o) := emit_link_shared e in mkReport lines [] o
         else if String.eqb mode "static" then main_static e
         else mkReport [] [] (Panicked ("LLINGR_LINK must be `static` (the default) or `shared`, got `" +:+ mode +:+ "`. `shared` links the engine as a libllingr.so/.dylib deployed beside the application binary; see docs/building-packaging.md."))
       end
     end).

(** ** What the script does *)
(** The line that links the engine, and any line that touches the link. *)
Definition is_engine_link (l : string) : bool :=
  String.eqb l "cargo:rustc-link-lib=static=llingr" || String.eqb l "cargo:rustc-link-lib=dylib=llingr".
Definition is_link_line (l : string) : bool := starts_with "cargo:rustc-link" l.

Lemma filter_map_none (f : string → bool) (p : string) (g : string → string) l :
  (∀ s, f (p +:+ s) = false) → List.filter f (map (λ s, p +:+ g s) l) = [].
Proof. intros H. induction l as [|x l IH]; [done|]. simpl. by rewrite H. Qed.

Lemma prelude_no_link (f : string → bool) e :
  (f = is_engine_link ∨ f = is_link_line) →
  List.filter f (rerun_lines ++ (if var_is e "CARGO_CFG_PANIC" "abort" then panic_warnings else [])) = [].
Proof. intros [-> | ->]; destruct (var_is e "CARGO_CFG_PANIC" "abort"); by vm_compute. Qed.

Lemma emit_link_once e dir : length (List.filter is_engine_link (emit_link e dir)) = 1.
Proof. unfold emit_link. by destruct (var_is e "CARGO_CFG_TARGET_OS" "macos"). Qed.

Lemma emit_link_shared_once e lines :
  emit_link_shared e = (lines, Finished) → length (List.filter is_engine_link lines) = 1.
Proof.
  unfold emit_link_shared. destruct (var e "LLINGR_LIB_DIR") as [dir|]; [|done]. intros [= <-].
  destruct (var_is e "CARGO_CFG_TARGET_OS" "macos"); simpl; by case_match.
Qed.

Lemma build_engine_cases e :
  let r := build_engine e in
  (builds r = [] ∧ outcome r ≠ Finished) ∨
  (var_is e "CARGO_CFG_TARGET_ENV" "musl" = false ∧ require_go_1_26 e = None ∧ ∃ cmd, builds r = [cmd] ∧
    (outcome r = Finished ↔ go_build e cmd = true) ∧
    (outcome r = Finished → length (List.filter is_engine_link (printed r)) = 1)).
Proof.
  unfold build_engine. destruct (var_is e "CARGO_CFG_TARGET_ENV" "musl"); [by left|].
  destruct (require_go_1_26 e); [by left|]. destruct (var e "OUT_DIR") as [out|]; [|by left].
  destruct (canonicalize e _) as [bridge|]; [|by left].
  destruct (goos_of _) as [goos|]; [|by left]. destruct (goarch_of _) as [goarch|]; [|by left].
  destruct (choose_cc e goos goarch) as [m|cc]; [by left|]. right. split_and!; [done|done|].
  set (cmd := go_command e bridge out goos goarch cc). exists cmd.
  destruct (go_build e cmd); split_and!; try done.
  intros _. cbn [printed]. rewrite List.filter_app, length_app, emit_link_once. cbn [List.filter].
  replace (is_engine_link _) with false by done.
  by rewrite (filter_map_none is_engine_link "cargo:rerun-if-changed=" (path_join bridge)).
Qed.

(** The build is left to the Go toolchain. *)
Definition builds_from_source (e : Env) : Prop :=
  var e "DOCS_RS" = None ∧ (var e "LLINGR_LINK" = None ∨ var e "LLINGR_LINK" = Some "static") ∧
  var e "LLINGR_LIB_DIR" = None ∧ var_is e "CARGO_CFG_TARGET_ENV" "musl" = false ∧ require_go_1_26 e = None.

Lemma main_static_cases e (lines : list string) :
  (∀ l, length (List.filter is_engine_link (lines ++ l)) = length (List.filter is_engine_link l)) →
  let r := main_static e in
  (builds r = [] ∨ (var e "LLINGR_LIB_DIR" = None ∧ var_is e "CARGO_CFG_TARGET_ENV" "musl" = false ∧
     require_go_1_26 e = None) ∧ ∃ cmd, builds r = [cmd] ∧ (outcome r = Finished ↔ go_build e cmd = true)) ∧
  (outcome r = Finished → length (List.filter is_engine_link (lines ++ printed r)) = 1).
Proof.
  intros Hl. unfold main_static. destruct (var e "LLINGR_LIB_DIR") as [dir|].
  - cbn [builds outcome printed]. split; [by left|]. intros _. rewrite Hl, List.filter_app, length_app, emit_link_once.
    by case_match.
  - cbn zeta. rewrite Hl. destruct (build_engine_cases e) as [[-> Hf]|(Hm & Hg & cmd & -> & Hc & Hp)].
    + split; [by left|done].
    + split; [right|done]. split; [done|]. by exists cmd.
Qed.

(** C39: The script links the engine exactly once and compiles it only when it must: a
    documentation build (DOCS_RS set) finishes, prints no link line and runs nothing; the
    Go build runs at most once, and only for a source build (no shared mode, no prebuilt
    directory) on a non-musl target with a recent enough Go; any other build (DOCS_RS unset)
    that finishes has printed exactly one engine link line, and an unknown link mode stops
    it. *)
Theorem main_links_once e :
  let r := main e in
  (is_Some (var e "DOCS_RS") → outcome r = Finished ∧ builds r = [] ∧ List.filter is_link_line (printed r) = []) ∧
  (builds r = [] ∨ builds_from_source e ∧ ∃ cmd, builds r = [cmd] ∧ (outcome r = Finished ↔ go_build e cmd = true)) ∧
  (outcome r = Finished → var e "DOCS_RS" = None → length (List.filter is_engine_link (printed r)) = 1) ∧
  (∀ mode, var e "DOCS_RS" = None → var e "LLINGR_LINK" = Some mode → mode ≠ "static" → mode ≠ "shared" →
     outcome r ≠ Finished).
Proof.
  assert (∀ lines, length (List.filter is_engine_link ((rerun_lines ++
    (if var_is e "CARGO_CFG_PANIC" "abort" then panic_warnings else [])) ++ lines)) =
    length (List.filter is_engine_link lines)) as Hpre.
  { intros lines. by rewrite List.filter_app, prelude_no_link by auto. }
  unfold main, after_prints, builds_from_source. cbn [outcome builds printed].
  destruct (var e "DOCS_RS") as [v|] eqn:Ed.
  { cbn [outcome builds printed]. rewrite app_nil_r. split_and!; [|by left|done|done].
    intros _. split_and!; [done|done|]. apply prelude_no_link. auto. }
  split; [by intros []|]. destruct (var e "LLINGR_LINK") as [mode|] eqn:El.
  - destruct (decide (mode = "shared")) as [->|Hsh].
    { change (String.eqb "shared" "shared") with true. cbn iota. destruct (emit_link_shared e) as [lines o] eqn:Es. cbn [outcome builds printed].
      split_and!; [by left| |by intros ? _ [= <-] _ ?]. intros -> _. rewrite Hpre. by eapply emit_link_shared_once. }
    destruct (decide (mode = "static")) as [->|Hst].
    + change (String.eqb "static" "shared") with false. change (String.eqb "static" "static") with true. cbn iota.
      destruct (main_static_cases e _ Hpre) as [H1 H2].
      split_and!; [destruct H1; [by left|right]; naive_solver|by auto|by intros ? _ [= <-]].
    + apply String.eqb_neq in Hsh, Hst. rewrite Hsh, Hst. cbn [outcome builds printed]. split_and!; [by left|done|done].
  - destruct (main_static_cases e _ Hpre) as [H1 H2].
    split_and!; [destruct H1; [by left|right]; naive_solver|by auto|done].
Qed.

(** ** The Go version *)
Lemma digits_solid n : str_all solid (dec_N n) = true.
Proof. eapply str_all_impl; [apply digit_solid|apply dec_N_digits]. Qed.
Lemma solid_text_ascii s : str_all solid s = true → str_all is_ascii s = true.
Proof. apply str_all_impl, solid_ascii. Qed.
Lemma digit_not_dot b : digit b = true → negb (is_char "." (String b "")) = true.
Proof. by destruct b as [[] [] [] [] [] [] [] []]. Qed.
Lemma digits_not_dot n : str_all (λ b, negb (is_char "." (String b ""))) (dec_N n) = true.
Proof. eapply str_all_impl; [apply digit_not_dot|apply dec_N_digits]. Qed.

Lemma trim_go_digits n r : trim_go (dec_N n +:+ r) = dec_N n +:+ r.
Proof.
  pose proof (dec_N_digits n) as Hd. pose proof (dec_N_nonempty n) as Hn.
  destruct (dec_N n) as [|b s]; [done|]. cbn [str_all] in Hd. apply andb_true_iff in Hd as [Hb _].
  by destruct b as [[] [] [] [] [] [] [] []].
Qed.

(** The numbers of a version word [M.m], with or without a further part. *)
Lemma go_version_numbers_of M m rest :
  (M < 2 ^ 32)%N → (m < 2 ^ 32)%N → (rest = "" ∨ ∃ p, rest = String "." p) →
  go_version_numbers (dec_N M +:+ "." +:+ dec_N m +:+ rest) = (M, m).
Proof.
  intros HM Hm Hr. unfold go_version_numbers.
  change ("." +:+ dec_N m +:+ rest) with (String "." (dec_N m +:+ rest)).
  rewrite split_by_word by (done || apply solid_text_ascii, digits_solid || apply digits_not_dot).
  assert (∃ tl, split_by (is_char ".") (dec_N m +:+ rest) = dec_N m :: tl) as [tl ->].
  { destruct Hr as [->|[p ->]].
    - exists []. rewrite sapp_nil_r. apply split_by_last; [apply solid_text_ascii, digits_solid|apply digits_not_dot].
    - eexists. apply split_by_word; (done || apply solid_text_ascii, digits_solid || apply digits_not_dot). }
  simpl. by rewrite !parse_uint_dec.
Qed.

Lemma go_version_word_of w plat :
  str_all solid w = true → w ≠ "" → str_all is_ascii plat = true →
  go_version_word ("go version " +:+ w +:+ " " +:+ plat) = trim_go w.
Proof.
  intros Hw Hne Hp. unfold go_version_word. rewrite from_utf8_lossy_id.
  2:{ apply utf8_valid_ascii. rewrite !str_all_app_bool, (solid_text_ascii _ Hw), Hp. done. }
  unfold split_whitespace.
  change ("go version " +:+ ?t) with ("go" +:+ String " " ("version" +:+ String " " t)).
  rewrite !split_by_word by done.
  change (" " +:+ plat) with (String " " plat).
  rewrite split_by_word; [|by apply solid_text_ascii|eapply str_all_impl; [apply solid_not_ws|done]|done|done].
  cbn [List.filter]. change (nonempty "go") with true. change (nonempty "version") with true. cbn iota.
  assert (nonempty w = true) as -> by (unfold nonempty; destruct (String.eqb_spec w ""); done).
  done.
Qed.

(** The Go version gate reads the toolchain's answer as a number, not as text: for the
    line `go version goM.m[.patch] platform` the build goes on exactly when (M, m) is at
    least (1, 26), so 1.9 is refused and 1.100 and 2.0 are accepted; without Go on the PATH
    the build stops with the four options. *)
Theorem go_version_gate e M m rest plat :
  (M < 2 ^ 32)%N → (m < 2 ^ 32)%N → (rest = "" ∨ ∃ p, rest = String "." p) →
  str_all solid rest = true → str_all is_ascii plat = true →
  go_version e = Some ("go version " +:+ ("go" +:+ dec_N M +:+ "." +:+ dec_N m +:+ rest) +:+ " " +:+ plat) →
  require_go_1_26 e = None ↔ (1 < M ∨ M = 1 ∧ 26 ≤ m)%N.
Proof.
  intros HM Hm Hr Hs Hp Hv. unfold require_go_1_26. rewrite Hv.
  rewrite go_version_word_of; [|by rewrite !str_all_app_bool, !digits_solid, Hs|by destruct (dec_N M)|done].
  change (trim_go ("go" +:+ ?t)) with (trim_go t). rewrite trim_go_digits.
  rewrite go_version_numbers_of by done.
  destruct ((1 <? M) || ((M =? 1) && (26 <=? m)))%N eqn:E.
  - split; [|done]. intros _. apply orb_true_iff in E as [E|E].
    + left. by apply N.ltb_lt.
    + right. apply andb_true_iff in E as [E1%N.eqb_eq E2%N.leb_le]. done.
  - split; [done|]. intros H. exfalso. apply orb_false_iff in E as [E1%N.ltb_ge E2].
    destruct H as [H|[-> H]]; [lia|]. apply andb_false_iff in E2 as [E2|E2]; [done|]. apply N.leb_gt in E2. lia.
Qed.

Definition env_with_go (text : string) : Env :=
  mkEnv (λ _, None) (λ _, true) (λ s, Some s) [] "/src" (Some text) (λ _, true).
Lemma go_version_gate_witness :
  require_go_1_26 (env_with_go "go version go1.100.2 linux/arm64") = None ∧
  require_go_1_26 (env_with_go "go version go1.9 linux/arm64") ≠ None.
Proof.
  split.
  - apply (go_version_gate _ 1 100 ".2" "linux/arm64"); [done|done|right; by exists "2"|done|done|by vm_compute|].
    right. by split.
  - intros H. apply (go_version_gate _ 1 9 "" "linux/arm64") in H; [|done|done|by left|done|done|by vm_compute].
    destruct H as [H|[_ H]]; [by apply N.lt_irrefl in H|by apply H].
Defined.
