(* ===== verification/Consumer.v ===== *)
(** * The end-to-end consumer: src/examples/e2e/consumer/src/main.rs

    An application of the crate, whole: its handlers, its builder, the monitor thread that
    ends the run, and [main] with its exit code, over the engine's [build] and the handler
    set it publishes. The state is [State] of the source next to the metric store; the
    records the [log] facade is given are kept in order. serde_json's parse of an order,
    [Message::key_str] of llingr-nexus and [Debug] for strings are parameters, and so is
    [carry], the text the bridge hands the dead-letter callback for a message whose handler
    returned an error ([Some]) or panicked ([None]). *)
From Stdlib Require Import ZArith NArith Ascii.
From Stdlib Require String.
From stdpp Require Import base tactics option list gmap strings.
From S2P Require Import Prelude Text StrOps Json Nexus Options Config Ffi Effects Logging MetricsSink.
From S2P Require Import Engine EngineProps.

(** [State]; [expected] is fixed by [main]. *)
Record CState := mkCState { st_processed : Z; st_failed : bool; st_log : list LogRecord }.

(** [env_or], for [u64]. *)
Definition env_or (var : string → option string) (name : string) (dflt : N) : N :=
  default dflt (v ← var name; parse_uint 64 (trim v)).

Section consumer.
Context {NX : Nexus} {PR : Prom}.
Notation US := (CState * Store)%type.
Context (order_id : string → string + string).   (* serde_json: the orderId, or the error text *)
Context (key_str : Message → option string).
Context (debug : string → string).
Context (carry : option string → string).

(** ** The handlers *)
Definition CRATE_TARGET : string := "consumer".
Definition write_log (r : LogRecord) (u : US) : US :=
  (mkCState (st_processed u.1) (st_failed u.1) (st_log u.1 ++ [r]), u.2).
(** [log::info!] and [log::error!] of the binary. *)
Definition log_line (l : Level) (text : string) : US → US := write_log (mkLogRecord l CRATE_TARGET text).
(** The facade: env_logger is given every record. *)
Definition facade (r : LogRecord) : UserCall US unit := λ u, (write_log r u, UDone tt).
Definition store_failed (u : US) : US := (mkCState (st_processed u.1) true (st_log u.1), u.2).
(** [fetch_add(1)] wraps. *)
Definition fetch_add_processed (u : US) : US :=
  (mkCState (wrap_u 64 (st_processed u.1 + 1)) (st_failed u.1) (st_log u.1), u.2).

Definition text_error (text : string) : UserError US :=
  mkUserError (λ u, (u, UDone text)) (λ u, (u, UDone tt)).

Definition place (msg : Message) : string :=
  "partition=" +:+ dec_Z (msg_partition msg) +:+ " offset=" +:+ dec_Z (msg_offset msg).

Definition OrderProcessor_process (msg : Message) : UserCall US (Traits + UserError US) := λ u,
  match order_id (default "" (msg_value msg)) with
  | inr e => (u, UDone (inr (text_error ("invalid order JSON: " +:+ e))))
  | inl order =>
    let key := default "" (key_str msg) in
    if negb (String.eqb key order) then
      (store_failed u,
       UDone (inr (text_error ("invariant violated: record key " +:+ debug key +:+ " != body orderId "
         +:+ debug order +:+ " (partition " +:+ dec_Z (msg_partition msg) +:+ ", offset "
         +:+ dec_Z (msg_offset msg) +:+ ")"))))
    else
      let u := log_line Info ("orderId=" +:+ order +:+ " " +:+ place msg) u in
      (fetch_add_processed u, UDone (inl Traits_none))
  end.

Definition DeadLetters_handle (msg : Message) (error_msg : string) : UserCall US (unit + UserError US) := λ u,
  (log_line Error ("DEAD LETTER " +:+ place msg +:+ " error=" +:+ error_msg) (store_failed u), UDone (inl tt)).

Definition ShutdownLogger_handle (reason : string) : UserCall US unit := λ u,
  (log_line Info ("engine shutdown: " +:+ reason) u, UDone tt).

(** ** The builder of [main] *)
Context (earliest : AutoOffsetReset).   (* AutoOffsetReset::Earliest *)
Context (var : string → option string). (* std::env::var *)

Definition consumer_options : Options :=
  let options := Options_auto_offset_reset Options_new earliest in
  match var "SASL_USERNAME" with
  | Some username =>
    if String.eqb username "" then options
    else Options_tls_ca_location
           (Options_sasl_scram_sha256 options username (default "" (var "SASL_PASSWORD")))
           (default "/certs/ca-cert.pem" (var "TLS_CA_LOCATION"))
  | None => options
  end.

Definition consumer_topic : string := default "orders" (var "TOPIC").
Definition consumer_expected : Z := Z.of_N (env_or var "EXPECTED" 1000).

Definition consumer_builder : Builder CState :=
  Builder_shutdown
    (Builder_metrics
      (Builder_options
        (Builder_consumer_group
          (Builder_brokers (Builder_new consumer_topic OrderProcessor_process DeadLetters_handle)
            (default "redpanda:9092" (var "BROKERS")))
          "orders-example")
        consumer_options)
      (Metrics_serve "0.0.0.0:9464" "/metrics"))
    ShutdownLogger_handle.

(** ** The monitor thread *)
Inductive StopReason := FailureRecorded | ReachedExpected | TimedOut.

(** One iteration: the failure flag, then the count, then the clock. *)
Definition monitor_poll (expected : Z) (failed : bool) (processed : Z) (now deadline : Z) : option StopReason :=
  if failed then Some FailureRecorded
  else if (expected <=? processed)%Z then Some ReachedExpected
  else if (deadline <=? now)%Z then Some TimedOut
  else None.

(** Nanoseconds of [Duration::from_secs(120)] and [Duration::from_millis(200)]. *)
Definition MONITOR_TIMEOUT : Z := Z.of_N (total_nanos (from_secs 120)).
Definition MONITOR_SLEEP : Z := Z.of_N (total_nanos (from_millis 200)).

(** The loop from iteration [i] on: what each iteration loads ([state i]) and when it reads
    the clock ([clock i]); [None] is a loop that has not ended within the fuel. *)
Fixpoint monitor_loop (fuel : nat) (expected deadline : Z) (state : nat → CState) (clock : nat → Z) (i : nat)
    : option (nat * StopReason) :=
  match fuel with
  | O => None
  | S fuel =>
    match monitor_poll expected (st_failed (state i)) (st_processed (state i)) (clock i) deadline with
    | Some reason => Some (i, reason)
    | None => monitor_loop fuel expected deadline state clock (S i)
    end
  end.
Definition monitor (fuel : nat) (expected : Z) (started : Z) (state : nat → CState) (clock : nat → Z)
    : option (nat * StopReason) :=
  monitor_loop fuel expected (started + MONITOR_TIMEOUT) state clock 0.

(** ** The run *)
(** A user call as a callback makes it: a panic is caught and its payload dropped. *)
Definition contain {R} (c : UserCall US R) (u : US) : US * option R :=
  match c u with
  | (u, UDone r) => (u, Some r)
  | (u, UPanic p) => ((Payload_drop p u).1, None)
  end.

(** What the engine does while [run] blocks: one callback after another. *)
Inductive RunEvent :=
  | EvMessage (msg : Message)
  | EvLog (level : LogLevel) (text : string)
  | EvMetrics (m : MessageMetrics)
  | EvBandwidth (b : BandwidthMetrics)
  | EvShutdown (reason : string).

(** The engine's contract for one message: a failed one goes to the dead-letter callback. *)
Definition deliver (h : Handlers US) (msg : Message) (u : US) : US :=
  let dead text u := match dead_letter h with Some d => (contain (d msg (carry text)) u).1 | None => u end in
  match contain (process h msg) u with
  | (u, Some (inl _)) => u
  | (u, Some (inr e)) => let '(u, text) := contain (err_to_string e) u in dead text u
  | (u, None) => dead None u
  end.

Definition call {R} (h : option (UserCall US R)) (u : US) : US :=
  match h with Some c => (contain c u).1 | None => u end.
Definition run_event (h : Handlers US) (u : US) (e : RunEvent) : US :=
  match e with
  | EvMessage msg => deliver h msg u
  | EvLog l text => call ((λ f, f l text) <$> log h) u
  | EvMetrics m => call ((λ f, f m) <$> metrics h) u
  | EvBandwidth b => call ((λ f, f b) <$> bandwidth h) u
  | EvShutdown r => call ((λ f, f r) <$> shutdown h) u
  end.

(** ** [main] *)
Context (overflow_checks : bool) (os_bind : list string → string → option string).

(** The decision after [run] returned without an error. *)
Definition exit_decision (expected : Z) (u : US) : US * Z :=
  let processed := st_processed u.1 in
  let failed := st_failed u.1 in
  if negb failed && (expected <=? processed)%Z then
    (log_line Info ("SUCCESS: processed " +:+ dec_Z processed +:+ " messages, no dead letters, key invariant held") u, 0%Z)
  else
    (log_line Error ("FAILURE: processed " +:+ dec_Z processed +:+ " of " +:+ dec_Z expected +:+ " (failed="
       +:+ (if failed then "true" else "false") +:+ ")") u, 1%Z).

(** The process from [main] on: the state it leaves and its exit code (101 is an unwinding
    panic of the main thread). [run_rc] and [events] are the bridge's. *)
Definition consumer_main (br : Bridge) (events : list RunEvent) (run_rc : Z) (s : Proc CState) : US * Z :=
  match build overflow_checks facade os_bind br consumer_builder s with
  | (s, BuildPanicked) => (p_user s, 101%Z)
  | (s, Failed e) =>
    (log_line Error ("failed to initialise llingr-kafka engine: " +:+ LlingrError_fmt e) (p_user s), 1%Z)
  | (s, Built) =>
    let u := log_line Info ("consumer started: topic=" +:+ debug consumer_topic
               +:+ " group=" +:+ String quote "orders-example" +:+ String quote " expecting " +:+ dec_Z consumer_expected
               +:+ " messages, metrics on :9464/metrics") (p_user s) in
    let u := match p_handlers s with Some hs => foldl (run_event (hs_handlers hs)) u events | None => u end in
    match (Llingr_run run_rc).2 with
    | inr e => (log_line Error ("engine error: " +:+ LlingrError_fmt e) u, 1%Z)
    | inl _ => exit_decision consumer_expected u
    end
  end.

(** ** The monitor *)
Lemma monitor_poll_none expected failed processed now deadline :
  monitor_poll expected failed processed now deadline = None ↔
  failed = false ∧ (processed < expected)%Z ∧ (now < deadline)%Z.
Proof.
  unfold monitor_poll. destruct failed; [naive_solver|].
  destruct (Z.leb_spec expected processed); [naive_solver lia|].
  destruct (Z.leb_spec deadline now); naive_solver lia.
Qed.

Lemma monitor_poll_some expected failed processed now deadline reason :
  monitor_poll expected failed processed now deadline = Some reason →
  match reason with
  | FailureRecorded => failed = true
  | ReachedExpected => failed = false ∧ (expected ≤ processed)%Z
  | TimedOut => failed = false ∧ (processed < expected)%Z ∧ (deadline ≤ now)%Z
  end.
Proof.
  unfold monitor_poll. destruct failed; [by intros [= <-]|].
  destruct (Z.leb_spec expected processed); [by intros [= <-]|].
  destruct (Z.leb_spec deadline now); [by intros [= <-]|done].
Qed.

(** A poll that ends the loop, if none before it does, is where the loop ends. *)
Lemma monitor_loop_ends expected deadline state clock n i :
  (∃ reason, monitor_poll expected (st_failed (state (i + n)%nat)) (st_processed (state (i + n)%nat))
               (clock (i + n)%nat) deadline = Some reason) →
  ∃ j reason, (j ≤ n)%nat ∧
    monitor_poll expected (st_failed (state (i + j)%nat)) (st_processed (state (i + j)%nat))
      (clock (i + j)%nat) deadline = Some reason ∧
    (∀ k, (k < j)%nat → monitor_poll expected (st_failed (state (i + k)%nat)) (st_processed (state (i + k)%nat))
      (clock (i + k)%nat) deadline = None) ∧
    (∀ fuel, (j < fuel)%nat → monitor_loop fuel expected deadline state clock i = Some ((i + j)%nat, reason)).
Proof.
  revert i. induction n as [|n IH]; intros i [reason Hn].
  - exists 0%nat, reason. split_and!; [lia|done|intros; lia|]. intros [|fuel] Hf; [lia|].
    rewrite Nat.add_0_r in *. simpl. by rewrite Hn.
  - destruct (monitor_poll expected (st_failed (state i)) (st_processed (state i)) (clock i) deadline) as [r|] eqn:E.
    + exists 0%nat, r. rewrite Nat.add_0_r. split_and!; [lia|done|intros; lia|].
      intros [|fuel] Hf; [lia|]. simpl. by rewrite E.
    + destruct (IH (S i)) as (j & r & Hj & Hp & Hk & Hl).
      { exists reason. by rewrite Nat.add_succ_comm. }
      exists (S j), r. rewrite <-Nat.add_succ_comm. split_and!; [lia|done| |].
      * intros [|k] Hlt; [by rewrite Nat.add_0_r|]. rewrite <-Nat.add_succ_comm. apply Hk. lia.
      * intros [|fuel] Hf; [lia|]. simpl. rewrite E. apply Hl. lia.
Qed.

(** C33: The run cannot hang: with a clock that never goes back and sleeps that last at least
    the 200 ms they ask for, whatever the handlers record meanwhile, the monitor thread
    ends its loop within 601 polls; it ends at the first poll that sees a failure, the
    expected count or the deadline, in that priority, and a time-out means that 120 s have
    passed with no failure seen and too few messages. *)
Theorem monitor_terminates expected started state clock :
  (started ≤ clock 0%nat)%Z → (∀ i, clock i + MONITOR_SLEEP ≤ clock (S i))%Z →
  ∃ i reason, (i ≤ 600)%nat ∧
    (∀ fuel, (i < fuel)%nat → monitor fuel expected started state clock = Some (i, reason)) ∧
    (∀ k, (k < i)%nat → st_failed (state k) = false ∧ (st_processed (state k) < expected)%Z ∧
       (clock k < started + MONITOR_TIMEOUT)%Z) ∧
    match reason with
    | FailureRecorded => st_failed (state i) = true
    | ReachedExpected => st_failed (state i) = false ∧ (expected ≤ st_processed (state i))%Z
    | TimedOut => st_failed (state i) = false ∧ (st_processed (state i) < expected)%Z ∧
        (started + MONITOR_TIMEOUT ≤ clock i)%Z
    end.
Proof.
  intros H0 Hc. assert (∀ i, started + Z.of_nat i * MONITOR_SLEEP ≤ clock i)%Z as Hclock.
  { induction i as [|i IH]; [lia|]. specialize (Hc i). lia. }
  destruct (monitor_loop_ends expected (started + MONITOR_TIMEOUT) state clock 600 0) as (j & r & Hj & Hp & Hk & Hl).
  { destruct (monitor_poll _ _ _ _ _) as [r|] eqn:E; [by exists r|]. exfalso.
    apply monitor_poll_none in E as (_ & _ & E). specialize (Hclock (0 + 600)%nat).
    change MONITOR_TIMEOUT with 120000000000%Z in E. change MONITOR_SLEEP with 200000000%Z in Hclock. lia. }
  exists j, r. split_and!; [done|exact Hl| |by apply monitor_poll_some in Hp].
  intros k Hlt. by apply monitor_poll_none, (Hk k).
Qed.

(** ** The run *)
(** What the exit code depends on. *)
Definition progress (u : US) : Z * bool := (st_processed u.1, st_failed u.1).
Definition consumer_handlers (rm : option RealisedMetrics) : Handlers US :=
  make_handlers overflow_checks facade consumer_builder rm.

Definition order_ok (msg : Message) : bool :=
  match order_id (default "" (msg_value msg)) with
  | inl order => String.eqb (default "" (key_str msg)) order
  | inr _ => false
  end.
Definition event_message (e : RunEvent) : option Message := match e with EvMessage m => Some m | _ => None end.
Definition run_messages (events : list RunEvent) : list Message := omap event_message events.

Lemma lift_store_progress {R} (c : UserCall Store R) (u : US) : (contain (lift_store c) u).1.1 = u.1.
Proof.
  unfold contain, lift_store. destruct (c u.2) as [st [r|[d]]]; [done|].
  cbn [lift_payload Payload_drop snd fst]. by destruct (d st) as [st' [p|]].
Qed.

Lemma facade_progress level text u :
  progress (contain (LogRouter_log facade level text) u).1 = progress u.
Proof. by destruct level. Qed.

Lemma deliver_progress rm msg u :
  progress (deliver (consumer_handlers rm) msg u) =
    if order_ok msg then (wrap_u 64 (st_processed u.1 + 1), st_failed u.1) else (st_processed u.1, true).
Proof.
  unfold deliver, order_ok. cbn [consumer_handlers make_handlers process dead_letter consumer_builder].
  unfold contain at 1. simpl. unfold OrderProcessor_process.
  destruct (order_id (default "" (msg_value msg))) as [order|e]; [|done].
  by destruct (String.eqb (default "" (key_str msg)) order).
Qed.

Lemma run_event_progress rm u e :
  progress (run_event (consumer_handlers rm) u e) =
    match e with
    | EvMessage msg =>
      if order_ok msg then (wrap_u 64 (st_processed u.1 + 1), st_failed u.1) else (st_processed u.1, true)
    | _ => progress u
    end.
Proof.
  destruct e as [msg|l text|m|b|r]; cbn [run_event].
  - apply deliver_progress.
  - apply facade_progress.
  - unfold call. destruct rm as [rm|]; [|done]. cbn [consumer_handlers make_handlers metrics fmap option_fmap option_map].
    unfold progress. by rewrite lift_store_progress.
  - unfold call. destruct rm as [rm|]; [|done]. cbn [consumer_handlers make_handlers bandwidth fmap option_fmap option_map].
    unfold progress. by rewrite lift_store_progress.
  - done.
Qed.

Lemma run_progress rm events u :
  in_u 64 (st_processed u.1) →
  progress (foldl (run_event (consumer_handlers rm)) u events) =
    (wrap_u 64 (st_processed u.1 + Z.of_nat (length (List.filter order_ok (run_messages events)))),
     st_failed u.1 || negb (forallb order_ok (run_messages events))).
Proof.
  revert u. induction events as [|e events IH]; intros u Hu.
  { unfold progress. simpl. by rewrite Z.add_0_r, orb_false_r, wrap_u_small. }
  cbn [foldl]. pose proof (run_event_progress rm u e) as He. unfold progress in He.
  set (v := run_event (consumer_handlers rm) u e) in *.
  assert (st_processed v.1 = (match e with EvMessage msg => if order_ok msg then wrap_u 64 (st_processed u.1 + 1)
      else st_processed u.1 | _ => st_processed u.1 end) ∧
    st_failed v.1 = (match e with EvMessage msg => if order_ok msg then st_failed u.1 else true
      | _ => st_failed u.1 end)) as [Hp Hf]
    by (clearbody v; destruct e; try case_match; by injection He).
  rewrite IH, Hp, Hf.
  - destruct e as [msg| | | |]; try done.
    cbn [run_messages omap list_omap event_message List.filter forallb].
    destruct (order_ok msg); cbn [length negb andb fst snd]; f_equal.
    + unfold wrap_u. rewrite Zplus_mod_idemp_l. f_equal. unfold run_messages. lia.
    + by rewrite orb_true_r.
  - rewrite Hp. destruct e as [msg| | | |]; try done. destruct (order_ok msg); [by apply wrap_u_range|done].
Qed.

(** ** From [main] to the exit code *)
Notation cbuild := (build overflow_checks facade os_bind).







(** The monitor's reason agrees with the exit code: a failure it saw at any point of the run
    makes the exit code 1, and once it has seen the expected count the exit code is decided
    by the failure flag alone. *)
Theorem monitor_and_exit_agree rm events n expected log st :
  (Z.of_nat (length (run_messages events)) < 2 ^ 64)%Z →
  let run es := foldl (run_event (consumer_handlers rm)) (mkCState 0 false log, st) es in
  (st_failed (run (take n events)).1 = true → (exit_decision expected (run events)).2 = 1%Z) ∧
  ((expected ≤ st_processed (run (take n events)).1)%Z →
     (exit_decision expected (run events)).2 = if st_failed (run events).1 then 1%Z else 0%Z).
Proof.
  intros Hlen run.
  assert (∀ es, progress (run es) =
    (wrap_u 64 (Z.of_nat (length (List.filter order_ok (run_messages es)))),
     negb (forallb order_ok (run_messages es)))) as Hrun by (intros es; by apply run_progress).
  pose proof (Hrun events) as [= Hp Hf]. pose proof (Hrun (take n events)) as [= Hp' Hf'].
  rewrite <-(take_drop n events) in Hlen, Hp, Hf. unfold run_messages in *.
  rewrite omap_app in Hlen, Hp, Hf. rewrite List.filter_app, length_app in Hp. rewrite forallb_app in Hf.
  rewrite length_app in Hlen.
  set (front := omap event_message (take n events)) in *. set (back := omap event_message (drop n events)) in *.
  pose proof (List.filter_length_le order_ok front). pose proof (List.filter_length_le order_ok back).
  rewrite wrap_u_small in Hp, Hp' by (unfold in_u; lia). rewrite take_drop in Hp, Hf.
  unfold exit_decision. rewrite Hp, Hf, Hp', Hf'. split.
  - intros E. apply negb_true_iff in E. by rewrite E.
  - intros He. destruct (forallb order_ok front && forallb order_ok back); [|done].
    cbn [negb andb]. destruct (Z.leb_spec expected
      (Z.of_nat (length (List.filter order_ok front) + length (List.filter order_ok back)))); [done|lia].
Qed.
End consumer.

(** ** Witnesses *)
Section witnesses.
#[local] Existing Instance nexus_ref.
#[local] Existing Instance prom_ref.
Definition demo_order (body : string) : string + string :=
  if String.eqb body "" then inr "EOF" else inl body.
Definition demo_msg (k v : string) : Message :=
  mkMessage (Some k) (Some v) "orders" 0 0 NotAvailable [].
Definition demo_env (name : string) : option string := if String.eqb name "EXPECTED" then Some " 2 " else None.
Definition demo_run (events : list RunEvent) : Z :=
  (consumer_main demo_order msg_key id (default "panic") RefEarliest demo_env true os0 bridge_up events 0
     (fresh (mkCState 0 false [], prom_empty))).2.

Example demo_run_bad_key : demo_run [EvMessage (demo_msg "a" "a"); EvMessage (demo_msg "b" "c")] = 1%Z.
Proof. by vm_compute. Qed.


Lemma monitor_terminates_witness :
  ∃ i reason, (i ≤ 600)%nat ∧
    monitor 601 10 0 (λ i, mkCState (Z.of_nat i / 2) false []) (λ i, Z.of_nat i * 250000000)%Z = Some (i, reason).
Proof.
  destruct (monitor_terminates 10 0 (λ i, mkCState (Z.of_nat i / 2) false []) (λ i, Z.of_nat i * 250000000)%Z)
    as (i & r & Hi & Hm & _).
  - lia.
  - intros i. change MONITOR_SLEEP with 200000000%Z. lia.
  - exists i, r. split; [done|]. apply Hm. lia.
Defined.
End witnesses.
