(* ===== verification/Examples.v ===== *)
(** * The authentication examples: src/examples/auth

    The six programs: their handlers, their client options, the builder each hands to the
    engine and [main] up to the exit code. They print with [println!] and [eprintln!], which
    panic when the stream cannot be written; the state is what the two streams hold.
    [signal_hook] is a dependency: whether its two registrations succeed is a parameter. *)
From Stdlib Require Import ZArith NArith Ascii.
From Stdlib Require String.
From stdpp Require Import base tactics option list gmap strings.
From S2P Require Import Prelude Text Json StrOps Nexus Options Config Ffi Effects Logging MetricsSink.
From S2P Require Import Engine EngineProps.

(** stdout and stderr; [None] cannot be written. *)
Record Console := mkConsole { c_out : option (list string); c_err : option (list string) }.

Section examples.
Context {NX : Nexus} {PR : Prom}.
Notation US := (Console * Store)%type.
Context (var : string → option string).

(** ** The handlers, the same in the six programs *)
Definition print_panic : Payload US := mkPayload (λ u, (u, None)).
Definition println (text : string) : UserCall US unit := λ u,
  match c_out u.1 with
  | Some out => ((mkConsole (Some (out ++ [text])) (c_err u.1), u.2), UDone tt)
  | None => (u, UPanic print_panic)
  end.
Definition eprintln (text : string) : UserCall US unit := λ u,
  match c_err u.1 with
  | Some err => ((mkConsole (c_out u.1) (Some (err ++ [text])), u.2), UDone tt)
  | None => (u, UPanic print_panic)
  end.

Definition Processor_process (msg : Message) : UserCall US (Traits + UserError US) := λ u,
  match println ("processed partition=" +:+ dec_Z (msg_partition msg) +:+ " offset=" +:+ dec_Z (msg_offset msg)) u with
  | (u, UDone _) => (u, UDone (inl Traits_none))
  | (u, UPanic p) => (u, UPanic p)
  end.

Definition DeadLetters_handle (msg : Message) (error : string) : UserCall US (unit + UserError US) := λ u,
  match eprintln ("dead letter partition=" +:+ dec_Z (msg_partition msg) +:+ " offset="
          +:+ dec_Z (msg_offset msg) +:+ " error=" +:+ error) u with
  | (u, UDone _) => (u, UDone (inl tt))
  | (u, UPanic p) => (u, UPanic p)
  end.

(** ** The client options; [None] is the [?] of a variable that is not set *)
Definition aws_msk_iam_options : option Options :=
  let options := Options_aws_region (Options_sasl_aws_msk_iam Options_new) (default "eu-west-1" (var "AWS_REGION")) in
  Some (match var "AWS_ROLE_ARN" with
        | Some role_arn => Options_aws_assume_role options role_arn (var "AWS_ROLE_SESSION_NAME")
        | None => options
        end).

Definition gcp_iam_options : option Options :=
  let options := Options_sasl_gcp_iam Options_new in
  let options := match var "GCP_CREDENTIALS_FILE" with
                 | Some f => Options_gcp_credentials_file options f | None => options end in
  Some (match var "GCP_PRINCIPAL" with Some p => Options_gcp_principal options p | None => options end).

Definition mtls_options : option Options :=
  let ca := default "/etc/ssl/certs/cluster-ca.pem" (var "KAFKA_TLS_CA") in
  client_cert ← var "KAFKA_TLS_CLIENT_CERT";
  client_key ← var "KAFKA_TLS_CLIENT_KEY";
  Some (Options_tls_client_certificate (Options_tls_ca_location Options_new ca) client_cert client_key).

Definition oauthbearer_oidc_options : option Options :=
  let ca := default "/etc/ssl/certs/cluster-ca.pem" (var "KAFKA_TLS_CA") in
  token_endpoint ← var "OAUTH_TOKEN_ENDPOINT";
  client_id ← var "OAUTH_CLIENT_ID";
  client_secret ← var "OAUTH_CLIENT_SECRET";
  let options := Options_sasl_oauthbearer_oidc (Options_tls_ca_location Options_new ca)
                   token_endpoint client_id client_secret in
  Some (match var "OAUTH_SCOPE" with Some s => Options_oauthbearer_scope options s | None => options end).

Definition sasl_plain_options : option Options :=
  key ← var "KAFKA_API_KEY";
  secret ← var "KAFKA_API_SECRET";
  Some (Options_sasl_plain (Options_tls Options_new) key secret).

Definition scram_sha256_options : option Options :=
  let username := default "svc-orders" (var "KAFKA_SASL_USERNAME") in
  password ← var "KAFKA_SASL_PASSWORD";
  let ca := default "/etc/ssl/certs/cluster-ca.pem" (var "KAFKA_TLS_CA") in
  Some (Options_sasl_scram_sha256 (Options_tls_ca_location Options_new ca) username password).

(** ** [main] *)
Definition auth_builder (default_brokers : string) (options : Options) : Builder Console :=
  Builder_options
    (Builder_consumer_group
      (Builder_brokers
        (Builder_new (default "orders" (var "KAFKA_TOPIC")) Processor_process DeadLetters_handle)
        (default default_brokers (var "KAFKA_BROKERS")))
      (default "orders-example" (var "KAFKA_GROUP")))
    options.

(** The thread that turns the signal flag into [stop()]: the iteration at which it calls
    it, [None] when the fuel ran out first. *)
Fixpoint signal_thread (fuel : nat) (flag : nat → bool) (i : nat) : option nat :=
  match fuel with
  | O => None
  | S fuel => if flag i then Some i else signal_thread fuel flag (S i)
  end.

Context (overflow_checks : bool) (os_bind : list string → string → option string).
(** No logger is installed: the facade discards every record. *)
Definition no_logger (r : LogRecord) : UserCall US unit := λ u, (u, UDone tt).

(** [run] is what the engine does to the process until it returns, and its code;
    [registered] whether both signal handlers could be installed. *)
Definition auth_main (default_brokers : string) (options : option Options) (br : Bridge)
    (registered : bool) (run : Proc Console → Proc Console * Z) (s : Proc Console) : Proc Console * Z :=
  match options with
  | None => (s, 1%Z)
  | Some options =>
    match build overflow_checks no_logger os_bind br (auth_builder default_brokers options) s with
    | (s, BuildPanicked) => (s, 101%Z)
    | (s, Failed _) => (s, 1%Z)
    | (s, Built) =>
      if registered then
        let '(s, rc) := run s in
        match (Llingr_run rc).2 with inl _ => (s, 0%Z) | inr _ => (s, 1%Z) end
      else (s, 1%Z)
    end
  end.

Definition aws_msk_iam_main := auth_main "localhost:9098" aws_msk_iam_options.
Definition gcp_iam_main := auth_main "localhost:9092" gcp_iam_options.
Definition mtls_main := auth_main "localhost:9092" mtls_options.
Definition oauthbearer_oidc_main := auth_main "localhost:9092" oauthbearer_oidc_options.
Definition sasl_plain_main := auth_main "localhost:9092" sasl_plain_options.
Definition scram_sha256_main := auth_main "localhost:9092" scram_sha256_options.

(** The six programs with the protocol each means to speak. *)
Definition auth_examples : list ((Bridge → bool → (Proc Console → Proc Console * Z) → Proc Console → Proc Console * Z)
    * string * option Options * string) :=
  [(aws_msk_iam_main, "localhost:9098", aws_msk_iam_options, "sasl_ssl");
   (gcp_iam_main, "localhost:9092", gcp_iam_options, "sasl_ssl");
   (mtls_main, "localhost:9092", mtls_options, "ssl");
   (oauthbearer_oidc_main, "localhost:9092", oauthbearer_oidc_options, "sasl_ssl");
   (sasl_plain_main, "localhost:9092", sasl_plain_options, "sasl_ssl");
   (scram_sha256_main, "localhost:9092", scram_sha256_options, "sasl_ssl")].

(** The kafka options of a configuration document, as a JSON reader finds them. *)
Definition member_named (name : string) (j : json) : list json :=
  match j with
  | JObj m => map snd (List.filter (λ kv, String.eqb kv.1 name) m)
  | _ => []
  end.
Definition wire_protocols (document : string) : list json :=
  match parse document with
  | Some j => k ← member_named "kafka_config" j; member_named "security.protocol" k
  | None => []
  end.

(** The document the bridge is handed carries the options' last values. *)
Lemma wire_protocols_build brokers o :
  wire_protocols (build_json (auth_builder brokers o)) =
    (λ kv, JStr kv.2) <$> List.filter (λ kv, String.eqb kv.1 "security.protocol")
      (BrokerConfig_deduped_kafka_config (b_broker (auth_builder brokers o))).
Proof.
  unfold wire_protocols, build_json. rewrite config_json_parses. unfold config_doc.
  set (l := BrokerConfig_deduped_kafka_config _).
  change (demux_doc _) with (@nil (string * json)). change (bandwidth_doc _ _) with (@nil (string * json)).
  change (opt_field "service" _) with (@nil (string * json)).
  destruct l as [|kv l]; [done|]. cbn [section_field str_fields map app member_named List.filter fst snd].
  change (String.eqb "adapter" "kafka_config") with false. change (String.eqb "brokers" "kafka_config") with false.
  change (String.eqb "topic" "kafka_config") with false.
  change (String.eqb "consumer_group" "kafka_config") with false.
  change (String.eqb "kafka_config" "kafka_config") with true.
  cbn [map snd mbind list_bind member_named]. rewrite app_nil_r.
  change ((kv.1, JStr kv.2) :: map _ l) with (str_fields (kv :: l)).
  change (if String.eqb kv.1 "security.protocol" then _ else _)
    with (List.filter (λ kv, String.eqb kv.1 "security.protocol") (kv :: l)).
  generalize (kv :: l). intros l'. induction l' as [|kv' l' IH]; [done|]. cbn [str_fields map List.filter fst snd].
  destruct (String.eqb kv'.1 "security.protocol"); cbn [map fmap list_fmap snd]; [f_equal|]; apply IH.
Qed.

(** What the builder sends is the options' own entries, deduplicated. *)
Lemma auth_deduped brokers o :
  BrokerConfig_deduped_kafka_config (b_broker (auth_builder brokers o)) =
    foldl (λ deduped kv, upsert kv.1 kv.2 deduped) [] (Options_entries o).
Proof. done. Qed.

(** C35: The authentication examples are safe as written. Whatever the environment holds, an
    example whose credential variable is missing stops before the engine is built, with
    exit code 1; otherwise the options it builds pass client-side validation, the document
    the bridge is handed names one security protocol and it is the encrypted one the
    example means, so no credential of an example travels in the clear; and the program
    exits 0 exactly when the engine was built, the signal handlers could be installed and
    [run] returned 0. *)
Theorem auth_examples_are_encrypted (example : _) brokers options protocol :
  (example, brokers, options, protocol) ∈ auth_examples →
  match options with
  | None => ∀ br registered run s, example br registered run s = (s, 1%Z)
  | Some o =>
    Options_validate o = inr tt ∧ wire_protocols (build_json (auth_builder brokers o)) = [JStr protocol] ∧
    ∀ br registered run s s' r,
      build overflow_checks no_logger os_bind br (auth_builder brokers o) s = (s', r) →
      (example br registered run s).2 = 0%Z ↔ r = Built ∧ registered = true ∧ (run s').2 = 0%Z
  end.
Proof.
  intros H.
  assert (example = auth_main brokers options ∧ ∀ o, options = Some o →
    Options_validate o = inr tt ∧ wire_protocols (build_json (auth_builder brokers o)) = [JStr protocol]) as [-> Ho].
  { unfold auth_examples in H.
    repeat (apply elem_of_cons in H as [H|H]; [|]); try (by apply not_elem_of_nil in H);
      injection H as -> -> -> ->; (split; [done|]); intros o Ho; rewrite wire_protocols_build, auth_deduped;
      unfold aws_msk_iam_options, gcp_iam_options, mtls_options, oauthbearer_oidc_options,
        sasl_plain_options, scram_sha256_options in Ho;
      repeat (apply bind_Some in Ho as (? & _ & Ho)); injection Ho as <-;
      repeat match goal with |- context [var ?n] => destruct (var n) end;
      (split; [reflexivity|reflexivity]). }
  destruct options as [o|]; [|done]. destruct (Ho o eq_refl) as [Hv Hw]. split_and!; [done|done|].
  intros br registered run s s' r Hb. unfold auth_main. rewrite Hb.
  destruct r as [|e|]; [|split; [done|by intros (? & _)]..].
  destruct registered; [|split; [done|by intros (_ & ? & _)]].
  destruct (run s') as [s2 rc]. pose proof (run_result_ok rc) as Hr. unfold Llingr_run. cbn [snd] in *.
  destruct (run_result rc) as [x|e]; cbn [snd]; (split; [intros Hz; split_and!|intros (_ & _ & Hz)]); try done.
  - apply Hr. by exists x.
  - apply Hr in Hz as [x Hx]. done.
Qed.

(** The signal thread calls [stop()] at the first poll that sees the flag. *)
Lemma signal_thread_stops flag n :
  flag n = true → (∀ k, (k < n)%nat → flag k = false) →
  ∀ fuel, (n < fuel)%nat → signal_thread fuel flag 0 = Some n.
Proof.
  intros Hn Hk. assert (∀ fuel i, (i ≤ n)%nat → (n < i + fuel)%nat → signal_thread fuel flag i = Some n) as H.
  { induction fuel as [|fuel IH]; intros i Hi Hf; [lia|]. simpl.
    destruct (decide (i = n)) as [->|]; [by rewrite Hn|]. rewrite Hk by lia. apply IH; lia. }
  intros fuel Hf. apply H; lia.
Qed.
End examples.

(** ** Witnesses *)
Section witnesses.
#[local] Existing Instance nexus_ref.
#[local] Existing Instance prom_ref.

Lemma auth_examples_are_encrypted_witness :
  ∃ o, gcp_iam_options (λ _, None) = Some o ∧
    wire_protocols (build_json (auth_builder (λ _, None) "localhost:9092" o)) = [JStr "sasl_ssl"].
Proof.
  eexists. split; [reflexivity|].
  apply (auth_examples_are_encrypted (λ _, None) true os0 (gcp_iam_main (λ _, None) true os0) "localhost:9092" (Some _)).
  right; left.
Defined.
End witnesses.
