(* ===== verification/TestKit.v ===== *)
(** * The crate's unit tests, as executable checks: shared vocabulary

    OptionsTests, ConfigTests, EngineTests, TrampolinesTests, MetricsTests and CoverageTests
    translate the [#[test]] functions of the crate, one boolean per test, assertion by
    assertion, and evaluate them on the model with the reference instance of llingr-nexus:
    what the authors expect of the code holds of the definitions that stand for it. *)
From Stdlib Require Import ZArith NArith Ascii.
From Stdlib Require String.
From stdpp Require Import base tactics option list strings.
From S2P Require Import Prelude Text.

(** [assert_eq!] and the conjunction of a test's assertions. *)
Notation assert_eq a b := (bool_decide (a = b)).
Definition all_of (l : list bool) : bool := forallb id l.

(** A raw string literal: a backquote stands for a double quote. *)
Fixpoint raw (s : string) : string :=
  match s with
  | "" => ""
  | String c s => String (if Ascii.eqb c "`" then "034"%char else c) (raw s)
  end.

(** [s.starts_with(p)] and [s.matches(p).count()] for a pattern that does not overlap
    itself. *)
Definition has_prefix (p s : string) : bool := String.prefix p s.
Fixpoint count_matches (p s : string) : nat :=
  match s with
  | "" => 0
  | String _ r => (if String.prefix p s then 1 else 0) + count_matches p r
  end.

(** The replacement character, and strings from byte values. *)
Definition REPLACEMENT : string := String "239" (String "191" (String "189" "")).
Definition bytes_of (l : list N) : string := String.string_of_list_ascii (map ascii_of_N l).
