(* ===== verification/OptionsTests.v ===== *)
(** * The unit tests of src/src/options.rs

    Chains of setter calls are written as the programs of [Options.run_setters]. *)
From Stdlib Require Import ZArith NArith Ascii.
From Stdlib Require String.
From stdpp Require Import base tactics option list strings.
From S2P Require Import Prelude Text Nexus Options TestKit.

#[local] Existing Instance nexus_ref.

(** [entry(&entries, key)], and [position(key)] among the keys. *)
Definition entry (entries : list (string * string)) (key : string) : option string :=
  (λ p, p.2.2) <$> list_find (λ kv, kv.1 = key) entries.
Definition before (entries : list (string * string)) (k1 k2 : string) : bool :=
  match list_find (λ kv, kv.1 = k1) entries, list_find (λ kv, kv.1 = k2) entries with
  | Some (i, _), Some (j, _) => (i <? j)%nat
  | _, _ => false
  end.
Definition emits (l : list Setter) (key : string) (value : string) : bool :=
  assert_eq (entry (Options_entries (run_setters l)) key) (Some value).
(** [format!("{options:?}").contains(text)]: in a key or a value of the printed map. *)
Definition debug_contains (l : list Setter) (text : string) : bool :=
  existsb (λ kv, str_contains text kv.1 || str_contains text kv.2) (Options_fmt (run_setters l)).
Definition validates (l : list Setter) : bool :=
  match Options_validate (run_setters l) with inr _ => true | inl _ => false end.

Definition options_render_kafka_style_entries : bool :=
  let l := [SAutoOffsetReset RefEarliest; SClientId "app-7"; SGroupInstanceId "orders-0";
            SSessionTimeout (from_secs 30); SFetchMaxWait (from_millis 500); SFetchMinBytes 1024] in
  all_of [emits l "auto.offset.reset" "earliest"; emits l "client.id" "app-7";
    emits l "group.instance.id" "orders-0"; emits l "session.timeout.ms" "30000";
    emits l "fetch.max.wait.ms" "500"; emits l "fetch.min.bytes" "1024";
    assert_eq (entry (Options_entries (run_setters l)) "security.protocol") None].

Definition validate_defaults_to_ok : bool :=
  validates [STlsCaLocation "/ca.pem"; SSaslScramSha256 "u" "p"].

Definition sub_millisecond_duration_rounds_up : bool :=
  emits [SSessionTimeout (from_micros 500)] "session.timeout.ms" "1".

Definition security_protocol_matrix : bool :=
  let both := [STlsCaLocation "/ca.pem"; SSaslScramSha256 "u" "p"] in
  all_of [emits [STls] "security.protocol" "ssl";
    emits [SSaslPlain "u" "p"] "security.protocol" "sasl_plaintext";
    emits both "security.protocol" "sasl_ssl"; emits both "ssl.ca.location" "/ca.pem";
    emits both "sasl.mechanism" "SCRAM-SHA-256"; emits both "sasl.username" "u"; emits both "sasl.password" "p"].

Definition tls_setters_emit_ssl_keys_and_imply_tls : bool :=
  let l := [STlsClientCertificate "/cert.pem" "/key.pem"; SDisableHostnameVerification] in
  all_of [emits l "security.protocol" "ssl"; emits l "ssl.certificate.location" "/cert.pem";
    emits l "ssl.key.location" "/key.pem"; emits l "ssl.endpoint.identification.algorithm" "none"].

Definition scram_512_and_verification_toggle : bool :=
  let l := [SSaslScramSha512 "u" "p"; SDisableCertificateVerification] in
  all_of [emits l "security.protocol" "sasl_ssl"; emits l "sasl.mechanism" "SCRAM-SHA-512";
    emits l "enable.ssl.certificate.verification" "false"].

Definition debug_redacts_passwords : bool :=
  let l := [SSaslPlain "user" "hunter2"] in
  all_of [negb (debug_contains l "hunter2"); debug_contains l "<redacted>"; debug_contains l "user"].

Definition partition_assignment_strategy_emits_names_in_preference_order : bool :=
  emits [SPartitionAssignmentStrategy [CooperativeSticky; Sticky; RoundRobin; Range]]
    "partition.assignment.strategy" "cooperative-sticky,sticky,roundrobin,range".

Definition debug_redacts_inline_private_key_but_not_public_material : bool :=
  let l := [STlsCaPem "PUBLIC CA PEM"; STlsClientCertificatePem "PUBLIC CERT PEM" "PRIVATE KEY PEM"] in
  all_of [negb (debug_contains l "PRIVATE KEY PEM"); debug_contains l "PUBLIC CERT PEM"; debug_contains l "PUBLIC CA PEM"].

Definition client_log_level_wire_names : bool :=
  forallb (λ c : ClientLogLevel * string, emits [SClientLogLevel c.1] "llingr.client.log.level" c.2)
    [(CllNone, "none"); (CllError, "error"); (CllWarn, "warn"); (CllInfo, "info"); (CllDebug, "debug")].

Definition remaining_scalar_setters_emit_documented_keys : bool :=
  let l := [SAutoOffsetReset RefLatest; SHeartbeatInterval (from_secs 3); SRebalanceTimeout (from_secs 60);
            SFetchMaxBytes 52428800; SMaxPartitionFetchBytes 1048576; SRack "eu-west-1a";
            SMetadataMaxAge (from_secs 120)] in
  all_of [emits l "auto.offset.reset" "latest"; emits l "heartbeat.interval.ms" "3000";
    emits l "rebalance.timeout.ms" "60000"; emits l "fetch.max.bytes" "52428800";
    emits l "max.partition.fetch.bytes" "1048576"; emits l "client.rack" "eu-west-1a";
    emits l "metadata.max.age.ms" "120000"].

Definition sasl_plain_emits_plain_mechanism : bool :=
  let l := [SSaslPlain "u" "p"] in
  all_of [emits l "sasl.mechanism" "PLAIN"; emits l "sasl.username" "u"; emits l "sasl.password" "p"].

Definition disable_setters_alone_imply_tls : bool :=
  all_of [emits [SDisableCertificateVerification] "security.protocol" "ssl";
    emits [SDisableHostnameVerification] "security.protocol" "ssl"].

Definition pem_setters_emit_inline_keys : bool :=
  let l := [STlsCaPem "CA"; STlsClientCertificatePem "CERT" "KEY"] in
  all_of [emits l "ssl.ca.pem" "CA"; emits l "ssl.certificate.pem" "CERT"; emits l "ssl.key.pem" "KEY"].

Definition repeated_sasl_calls_last_write_wins : bool :=
  let l := [SSaslPlain "old-user" "old-pass"; SSaslScramSha512 "new-user" "new-pass"] in
  let entries := Options_entries (run_setters l) in
  all_of [emits l "sasl.mechanism" "SCRAM-SHA-512"; emits l "sasl.username" "new-user";
    emits l "sasl.password" "new-pass";
    assert_eq (length (filter (λ kv : string * string, kv.1 = "sasl.mechanism") entries)) 1;
    negb (existsb (λ kv, String.eqb kv.2 "old-pass") entries)].

Definition security_entries_append_after_base_in_fixed_order : bool :=
  let entries := Options_entries (run_setters [SClientId "app"; STlsCaLocation "/ca.pem"; SSaslPlain "u" "p"]) in
  all_of [before entries "client.id" "security.protocol"; before entries "security.protocol" "ssl.ca.location";
    before entries "ssl.ca.location" "sasl.mechanism"; before entries "sasl.mechanism" "sasl.username";
    before entries "sasl.username" "sasl.password"].

Definition empty_assignment_strategy_emits_empty_value : bool :=
  emits [SPartitionAssignmentStrategy []] "partition.assignment.strategy" "".

Definition kafka_option_records_pairs_in_call_order : bool :=
  let l := [SClientId "app"; SKafkaOption "isolation.level" "read_committed"; SKafkaOption "fetch.min.bytes" (dec_N 1024)] in
  all_of [emits l "isolation.level" "read_committed"; emits l "fetch.min.bytes" "1024";
    before (Options_entries (run_setters l)) "client.id" "isolation.level"].

Definition kafka_options_plural_ingests_iterators : bool :=
  let l := [SKafkaOptions [("metadata.max.age.ms", "10000"); ("client.rack", "eu-1a")]] in
  all_of [emits l "metadata.max.age.ms" "10000"; emits l "client.rack" "eu-1a"].

Definition typed_and_string_security_key_conflict_is_rejected : bool :=
  match Options_validate (run_setters [SSaslScramSha256 "u" "p"; SKafkaOption "sasl.password" "other"]) with
  | inl message => all_of [str_contains "sasl.password" message; str_contains "kafka_option" message]
  | inr _ => false
  end.

Definition sasl_mechanisms_alias_conflicts_with_typed_sasl : bool :=
  negb (validates [SSaslPlain "u" "p"; SKafkaOption "sasl.mechanisms" "PLAIN"]).

Definition string_only_security_keys_pass_validation : bool :=
  validates [SKafkaOption "security.protocol" "sasl_ssl"; SKafkaOption "sasl.mechanism" "SCRAM-SHA-256";
             SKafkaOption "sasl.username" "u"; SKafkaOption "sasl.password" "p"].

Definition non_overlapping_string_security_key_composes_with_typed_tls : bool :=
  validates [STls; SKafkaOption "ssl.endpoint.identification.algorithm" "none"].

Definition debug_redacts_string_pair_passwords : bool :=
  let l := [SKafkaOption "sasl.password" "hunter2"] in
  all_of [negb (debug_contains l "hunter2"); debug_contains l "<redacted>"].

Definition audit_setters_emit_documented_keys : bool :=
  let l := [SDialTimeout (from_secs 5); SConnectionIdleTimeout (from_secs 60); SRequestRetries 10;
            SRetryTimeout (from_secs 45); SMaxConcurrentFetches 4; SAllowAutoTopicCreation;
            SDisableFetchCrcValidation; SDisableClientMetricsPush] in
  all_of [emits l "socket.connection.setup.timeout.ms" "5000"; emits l "connections.max.idle.ms" "60000";
    emits l "llingr.request.retries" "10"; emits l "llingr.retry.timeout.ms" "45000";
    emits l "llingr.max.concurrent.fetches" "4"; emits l "allow.auto.create.topics" "true";
    emits l "check.crcs" "false"; emits l "enable.metrics.push" "false"].

Definition poll_error_setters_emit_adapter_keys : bool :=
  let l := [SPollErrorBailAfter (from_secs 300); SPollErrorLogInterval (from_secs 2);
            SPollErrorBackoff (from_millis 100)] in
  let disabled := [SPollErrorBailAfter (from_secs 0); SPollErrorBackoff (from_secs 0)] in
  all_of [emits l "llingr.poll.error.bail.after.ms" "300000"; emits l "llingr.poll.error.log.interval.ms" "2000";
    emits l "llingr.poll.error.backoff.ms" "100"; emits disabled "llingr.poll.error.bail.after.ms" "0";
    emits disabled "llingr.poll.error.backoff.ms" "0"].

Definition options_tests : list bool :=
  [options_render_kafka_style_entries; validate_defaults_to_ok; sub_millisecond_duration_rounds_up;
   security_protocol_matrix; tls_setters_emit_ssl_keys_and_imply_tls; scram_512_and_verification_toggle;
   debug_redacts_passwords; partition_assignment_strategy_emits_names_in_preference_order;
   debug_redacts_inline_private_key_but_not_public_material; client_log_level_wire_names;
   remaining_scalar_setters_emit_documented_keys; sasl_plain_emits_plain_mechanism;
   disable_setters_alone_imply_tls; pem_setters_emit_inline_keys; repeated_sasl_calls_last_write_wins;
   security_entries_append_after_base_in_fixed_order; empty_assignment_strategy_emits_empty_value;
   kafka_option_records_pairs_in_call_order; kafka_options_plural_ingests_iterators;
   typed_and_string_security_key_conflict_is_rejected; sasl_mechanisms_alias_conflicts_with_typed_sasl;
   string_only_security_keys_pass_validation; non_overlapping_string_security_key_composes_with_typed_tls;
   debug_redacts_string_pair_passwords; audit_setters_emit_documented_keys; poll_error_setters_emit_adapter_keys].

Lemma options_tests_pass : all_of options_tests = true.
Proof. by vm_compute. Qed.
