(* ===== verification/ConfigTests.v ===== *)
(** * The unit tests of src/src/config.rs *)
From Stdlib Require Import ZArith NArith Ascii.
From Stdlib Require String.
From stdpp Require Import base tactics option list strings.
From S2P Require Import Prelude Text Json Nexus Options Config TestKit.

#[local] Existing Instance nexus_ref.

(** [BrokerConfig::kafka_option], which only the tests have. *)
Definition BrokerConfig_kafka_option (self : BrokerConfig) (key value : string) : BrokerConfig :=
  mkBrokerConfig (bc_brokers self) (bc_consumer_group self) (bc_kafka_config self ++ [(key, value)])
    (bc_deferred_error self).
Definition bool_str (b : bool) : string := if b then "true" else "false".

Definition minimal_broker : BrokerConfig :=
  BrokerConfig_consumer_group (BrokerConfig_brokers BrokerConfig_new "localhost:9092") "grp".
Definition json_of (topic : string) (broker : BrokerConfig) (demux : DemuxConfig) : string :=
  config_json topic broker demux None None None.

(** The options builders the tests make up. *)
Record FakeOptions := mkFakeOptions { fake_entries : list (string * string); fake_validate : string + unit }.
#[local] Instance FakeOptions_AdapterOptions : AdapterOptions FakeOptions := {|
  ao_entries := fake_entries; ao_validate := fake_validate;
|}.

Definition minimal_config_json : bool :=
  assert_eq (json_of "orders" minimal_broker DemuxConfig_new)
    (raw "{`adapter`:`franz`,`brokers`:`localhost:9092`,`topic`:`orders`,`consumer_group`:`grp`}").

Definition full_config_json : bool :=
  let broker := BrokerConfig_kafka_option (BrokerConfig_consumer_group
    (BrokerConfig_brokers BrokerConfig_new "b1:9092,b2:9092") "grp") "auto.offset.reset" "earliest" in
  let demux := DemuxConfig_worker_shards_count (DemuxConfig_drain_timeout (DemuxConfig_poll_timeout
    (DemuxConfig_concurrent_keys DemuxConfig_new 500) (from_millis 150)) (from_secs 30)) 32 in
  let json := config_json "orders" broker demux (Some ("order-service", "payments")) None None in
  forallb (λ tag, str_contains (raw tag) json)
    ["`adapter`:`franz`"; "`kafka_config`:{`auto.offset.reset`:`earliest`}";
     "`service`:{`name`:`order-service`,`team`:`payments`}"; "`demux`:{"; "`concurrentKeys`:500";
     "`pollTimeout`:`150ms`"; "`drainTimeout`:`30000ms`"; "`workerShardsCount`:32"].

Definition all_thirteen_demux_tags_match_go : bool :=
  let demux := DemuxConfig_concurrent_keys DemuxConfig_new 500 in
  let demux := DemuxConfig_per_key_buffer_len demux 32 in
  let demux := DemuxConfig_poll_timeout demux (from_millis 150) in
  let demux := DemuxConfig_auto_commit_interval demux (from_secs 5) in
  let demux := DemuxConfig_drain_timeout demux (from_secs 30) in
  let demux := DemuxConfig_await_assignments_timeout demux (from_secs 50) in
  let demux := DemuxConfig_commit_ingest_channel_len demux 2000 in
  let demux := DemuxConfig_commit_partition_slice_len demux 400 in
  let demux := DemuxConfig_query_timeout demux (from_secs 5) in
  let demux := DemuxConfig_acquire_worker_timeout_circuit_breaker demux (from_secs 60) in
  let demux := DemuxConfig_worker_shards_count demux 32 in
  let demux := DemuxConfig_rebalance_pause_polling_timeout demux (from_secs 30) in
  let demux := DemuxConfig_acquire_commit_guard_timeout demux (from_secs 10) in
  let json := json_of "t" minimal_broker demux in
  forallb (λ tag, str_contains (raw tag) json)
    ["`concurrentKeys`:500"; "`perKeyBufferLen`:32"; "`pollTimeout`:`150ms`"; "`autoCommitInterval`:`5000ms`";
     "`drainTimeout`:`30000ms`"; "`awaitAssignmentsTimeout`:`50000ms`"; "`commitIngestChannelLen`:2000";
     "`commitPartitionSliceLen`:400"; "`queryTimeout`:`5000ms`";
     "`acquireWorkerTimeoutCircuitBreaker`:`60000ms`"; "`workerShardsCount`:32";
     "`rebalancePausePollingTimeout`:`30000ms`"; "`acquireCommitGuardTimeout`:`10000ms`"].

(** The key's value holds a tab, a carriage return and U+0001. *)
Definition json_escaping_control_characters : bool :=
  let value := "a" +:+ bytes_of [9%N] +:+ "b" +:+ bytes_of [13%N] +:+ "c" +:+ bytes_of [1%N] +:+ "d" in
  str_contains "a\tb\rc\u0001d" (json_of "t" (BrokerConfig_kafka_option minimal_broker "key" value) DemuxConfig_new).

Definition json_escaping : bool :=
  let nl := bytes_of [10%N] in
  let broker := BrokerConfig_kafka_option (BrokerConfig_consumer_group
    (BrokerConfig_brokers BrokerConfig_new "localhost:9092") "group\with\backslashes")
    "key" ("value" +:+ nl +:+ "with" +:+ nl +:+ "newlines") in
  let json := json_of (raw "topic-with-`quotes`") broker DemuxConfig_new in
  all_of [str_contains (raw "topic-with-\`quotes\`") json; str_contains "group\\with\\backslashes" json;
    str_contains "value\nwith\nnewlines" json].

Definition adapter_options_applies_entries : bool :=
  let fake := mkFakeOptions [("client.id", "app-1")] (inr tt) in
  let broker := BrokerConfig_adapter_options (BrokerConfig_adapter_options minimal_broker fake) fake in
  str_contains (raw "`client.id`:`app-1`") (json_of "t" broker DemuxConfig_new).

Definition duplicate_kafka_options_last_write_wins : bool :=
  let broker := BrokerConfig_kafka_option (BrokerConfig_kafka_option minimal_broker
    "session.timeout.ms" (dec_N 6000)) "session.timeout.ms" (dec_N 9000) in
  let json := json_of "t" broker DemuxConfig_new in
  all_of [str_contains (raw "`session.timeout.ms`:`9000`") json;
    negb (str_contains (raw "`session.timeout.ms`:`6000`") json);
    assert_eq (count_matches "session.timeout.ms" json) 1].

Definition last_write_wins_across_kafka_option_and_adapter_options : bool :=
  let broker := BrokerConfig_adapter_options (BrokerConfig_kafka_option minimal_broker "client.id" "from-raw")
    (mkFakeOptions [("client.id", "from-options")] (inr tt)) in
  let json := json_of "t" broker DemuxConfig_new in
  all_of [str_contains (raw "`client.id`:`from-options`") json; negb (str_contains "from-raw" json)].

Definition kafka_option_accepts_numbers_and_bools : bool :=
  let broker := BrokerConfig_kafka_option (BrokerConfig_kafka_option minimal_broker
    "fetch.min.bytes" (dec_N 1024)) "enable.partition.eof" (bool_str false) in
  let json := json_of "t" broker DemuxConfig_new in
  all_of [str_contains (raw "`fetch.min.bytes`:`1024`") json; str_contains (raw "`enable.partition.eof`:`false`") json].

Definition adapter_options_validation_failure_is_deferred : bool :=
  let broken := mkFakeOptions [] (inl "conflicting configuration") in
  assert_eq (BrokerConfig_deferred_error (BrokerConfig_adapter_options minimal_broker broken))
    (Some "conflicting configuration").

Definition sub_millisecond_poll_timeout_rounds_up : bool :=
  str_contains (raw "`pollTimeout`:`1ms`")
    (json_of "t" minimal_broker (DemuxConfig_poll_timeout DemuxConfig_new (from_micros 500))).

Definition bandwidth_intervals_serialise_when_set : bool :=
  let json stats flush := config_json "t" minimal_broker DemuxConfig_new None stats flush in
  all_of [str_contains (raw "`bandwidth`:{`statsInterval`:`5000ms`,`flushInterval`:`15000ms`}")
      (json (Some (from_secs 5)) (Some (from_secs 15)));
    str_contains (raw "`bandwidth`:{`statsInterval`:`1000ms`}") (json (Some (from_secs 1)) None);
    negb (str_contains "bandwidth" (json None None))].

Definition no_demux_object_when_no_tunables : bool :=
  negb (str_contains "demux" (json_of "t" minimal_broker DemuxConfig_new)).

(** [clone_preserves_config_for_retry] compares a value with its clone, which in the model is
    the same value; every other test is here. *)
Definition config_tests : list bool :=
  [minimal_config_json; full_config_json; all_thirteen_demux_tags_match_go; json_escaping_control_characters;
   json_escaping; adapter_options_applies_entries; duplicate_kafka_options_last_write_wins;
   last_write_wins_across_kafka_option_and_adapter_options; kafka_option_accepts_numbers_and_bools;
   adapter_options_validation_failure_is_deferred; sub_millisecond_poll_timeout_rounds_up;
   bandwidth_intervals_serialise_when_set; no_demux_object_when_no_tunables].

Lemma config_tests_pass : all_of config_tests = true.
Proof. by vm_compute. Qed.
