(* ===== verification/EngineTests.v ===== *)
(** * The unit tests of src/src/engine.rs, ffi.rs, snapshot.rs and logging.rs

    The engine's tests of the bridge itself ([emergency_stop] before [llingr_init]) call the
    linked Go library and are not here; the library's answers in the others are those of a
    library before [llingr_init]: its ABI version, a NULL snapshot. *)
From Stdlib Require Import ZArith NArith Ascii.
From Stdlib Require String.
From stdpp Require Import base tactics option list gmap strings.
From S2P Require Import Prelude Text Json Nexus Options Config Ffi Effects Logging MetricsSink Engine Snapshot TestKit.
#[local] Open Scope Z_scope.
#[local] Existing Instance nexus_ref.
#[local] Existing Instance prom_ref.

(** ** src/src/engine.rs *)
Definition NoopProcessor (msg : Message) : UserCall (unit * Store) (Traits + UserError (unit * Store)) :=
  λ u, (u, UDone (inl Traits_none)).
Definition NoopDeadLetter (msg : Message) (error_msg : string)
    : UserCall (unit * Store) (unit + UserError (unit * Store)) := λ u, (u, UDone (inl tt)).
Definition test_facade (r : LogRecord) : UserCall (unit * Store) unit := λ u, (u, UDone tt).

(** The linked library, and an operating system that keeps port 1 for the superuser. *)
Definition linked_library : Bridge := mkBridge 1 (λ _ _, mkInitReply [] (-4) "" 0).
Definition user_bind (bound : list string) (addr : string) : option string :=
  if String.eqb addr "127.0.0.1:1" then Some "Permission denied (os error 13)" else None.
Definition build_twice (b : Builder unit) : list BuildResult :=
  (build_all true test_facade user_bind [(linked_library, b); (linked_library, b)] (fresh (tt, prom_empty))).2.

Definition llingr_error_display_format_and_code : bool :=
  let err := LlingrError_new (-5) "conflicting configuration" in
  assert_eq (LlingrError_fmt err) "llingr error -5: conflicting configuration" && (LlingrError_code err =? -5).

Definition take_snapshot_before_init_is_a_clean_error : bool :=
  match take_snapshot_json 1 ∅ 0 with
  | Some (inr err, _) => (LlingrError_code err =? -1) && str_contains "not initialised" (LlingrError_fmt err)
  | _ => false
  end.

Definition build_surfaces_deferred_config_error : bool :=
  let b := Builder_options (Builder_consumer_group (Builder_brokers
             (Builder_new "t" NoopProcessor NoopDeadLetter) "b:9092") "g")
             (Options_kafka_option (Options_sasl_plain Options_new "u" "p") "sasl.password" "other") in
  forallb (λ r, match r with
    | Failed err => (LlingrError_code err =? -5) && str_contains "kafka_option" (LlingrError_fmt err)
    | _ => false end) (build_twice b).

Definition metrics_bind_failure_is_a_clean_error : bool :=
  let b := Builder_metrics (Builder_consumer_group (Builder_brokers
             (Builder_new "t" NoopProcessor NoopDeadLetter) "b:9092") "g")
             (Metrics_serve "127.0.0.1:1" "/metrics") in
  forallb (λ r, match r with
    | Failed err => (LlingrError_code err =? -6) && str_contains "127.0.0.1:1" (LlingrError_fmt err)
    | _ => false end) (build_twice b).

(** ** src/src/ffi.rs *)
Definition abi_version_is_v1 : bool := LLINGR_ABI_VERSION =? 1.

Definition offset_of (fs : list cty) (i : nat) : Z := nth i (repr_c_offsets fs) (-1).
Definition repr_c_layouts : bool :=
  all_of [assert_eq (map (offset_of HeaderRaw) [0; 1; 2; 3]%nat) [0; 8; 16; 24];
    repr_c_size HeaderRaw =? 32; repr_c_align HeaderRaw =? 8;
    assert_eq (map (offset_of BrokerInfoRaw) [0; 1; 2; 3; 4; 5; 6; 7]%nat) [0; 8; 16; 24; 32; 40; 48; 56];
    repr_c_size BrokerInfoRaw =? 64;
    assert_eq (map (offset_of PartitionBandwidthRaw) [0; 5; 6; 7; 8; 9; 10]%nat) [0; 40; 48; 56; 64; 72; 80];
    repr_c_size PartitionBandwidthRaw =? 88].

(** ** src/src/snapshot.rs *)
Definition CANONICAL_DOCUMENT : string := raw (
  "{`summary`:{`topicName`:`orders`,`assignedPartitionCount`:12,`totalProcessed`:5000000123,`lastRe" +:+
  "balanceTime`:`2026-07-16T14:30:05.123Z`},`throughput`:{`windows`:[{`fromTime`:`2026-07-16T14:30:" +:+
  "05.123Z`,`toTime`:`2026-07-16T14:30:06.123Z`,`processedCount`:1451,`deadLetterCount`:2}],`totalP" +:+
  "rocessed`:5000000123,`totalDeadLettered`:7,`avgProcessDuration`:`1.517ms`,`maxProcessDuration`:`" +:+
  "92ms`,`avgEndToEndDuration`:`3ms`,`maxEndToEndDuration`:`2m30s`,`minEndToEndDuration`:`0s`},`pre" +:+
  "Commits`:{`partitions`:[{`partition`:3,`committedOffset`:9000000001,`highestReadyOffset`:9000000" +:+
  "005,`maxOffsetSeen`:9000000042,`gapBufferDepth`:4,`assigned`:true},{`partition`:7,`committedOffs" +:+
  "et`:-1,`highestReadyOffset`:-1,`maxOffsetSeen`:-1,`gapBufferDepth`:0,`assigned`:false}]},`concur" +:+
  "rency`:{`guardActive`:17,`guardCapacity`:250,`overflowActive`:1,`overflowCapacity`:50,`commitIng" +:+
  "estActive`:42,`commitIngestCapacity`:2000},`shards`:[{`shard`:0,`activeWorkers`:5,`pooledWorkers" +:+
  "`:11},{`shard`:1,`activeWorkers`:0,`pooledWorkers`:16}]}").

(** [s.replacen(from, to, 1)] *)
Fixpoint replace_first (from to s : string) : string :=
  if String.prefix from s then to +:+ String.substring (String.length from) (String.length s) s
  else match s with "" => "" | String c s => String c (replace_first from to s) end.

Definition from_json (text : string) : option Snapshot := Snapshot_from_json parse text.

Definition parses_the_canonical_engine_document : bool :=
  match from_json CANONICAL_DOCUMENT with
  | None => false
  | Some s =>
    all_of [assert_eq (topic_name (summary s)) "orders"; assigned_partition_count (summary s) =? 12;
      sum_total_processed (summary s) =? 5000000123;
      assert_eq (last_rebalance_time (summary s)) "2026-07-16T14:30:05.123Z";
      match windows (throughput s) with
      | [w] => all_of [processed_count w =? 1451; dead_letter_count w =? 2;
          assert_eq (from_time w) "2026-07-16T14:30:05.123Z"]
      | _ => false
      end;
      total_dead_lettered (throughput s) =? 7; assert_eq (avg_process_duration (throughput s)) "1.517ms";
      assert_eq (max_end_to_end_duration (throughput s)) "2m30s";
      assert_eq (min_end_to_end_duration (throughput s)) "0s";
      match partitions (pre_commits s) with
      | [a; u] => all_of [partition a =? 3; committed_offset a =? 9000000001; highest_ready_offset a =? 9000000005;
          max_offset_seen a =? 9000000042; gap_buffer_depth a =? 4; assigned a; committed_offset u =? -1;
          negb (assigned u)]
      | _ => false
      end;
      guard_active (concurrency s) =? 17; guard_capacity (concurrency s) =? 250;
      commit_ingest_capacity (concurrency s) =? 2000;
      match shards s with [a; b] => (active_workers a =? 5) && (pooled_workers b =? 16) | _ => false end]
  end.

Definition tolerates_unknown_fields_at_every_level : bool :=
  let extended := replace_first (raw "{`summary`:{`topicName")
    (raw "{`futureTopLevel`:{`a`:1},`summary`:{`futureSummaryField`:`x`,`topicName") CANONICAL_DOCUMENT in
  let extended := replace_first (raw "{`partition`:3,") (raw "{`futurePartitionField`:[1,2],`partition`:3,") extended in
  let extended := replace_first (raw "{`shard`:0,") (raw "{`futureShardField`:true,`shard`:0,") extended in
  match from_json extended with
  | Some s => all_of [assert_eq (topic_name (summary s)) "orders";
      match partitions (pre_commits s) with p :: _ => partition p =? 3 | [] => false end;
      match shards s with a :: _ => active_workers a =? 5 | [] => false end]
  | None => false
  end.

Definition missing_section_is_an_error : bool :=
  negb (bool_decide (is_Some (from_json (replace_first (raw "`summary`:") (raw "`renamed`:") CANONICAL_DOCUMENT)))).

Definition malformed_json_is_an_error : bool :=
  negb (bool_decide (is_Some (from_json "{not json"))) && negb (bool_decide (is_Some (from_json ""))).

(** ** src/src/logging.rs *)
(** [CapturingLogger] *)
Definition capture_record (r : LogRecord) : UserCall (list LogRecord) unit := λ u, (u ++ [r], UDone tt).
Definition forwards_levels_and_target : bool :=
  let log l m u := (LogRouter_log capture_record l m u).1 in
  let captured := log LogError "e" (log LogWarn "w" (log LogInfo "i" (log LogDebug "d" []))) in
  forallb (λ '(level, message), existsb (λ r, bool_decide (rec_level r = level) &&
      String.eqb (rec_target r) LOG_TARGET && String.eqb (rec_args r) message) captured)
    [(Debug, "d"); (Info, "i"); (Warn, "w"); (Error, "e")].

Definition engine_tests : list bool :=
  [llingr_error_display_format_and_code; take_snapshot_before_init_is_a_clean_error;
   build_surfaces_deferred_config_error; metrics_bind_failure_is_a_clean_error; abi_version_is_v1; repr_c_layouts;
   parses_the_canonical_engine_document; tolerates_unknown_fields_at_every_level; missing_section_is_an_error;
   malformed_json_is_an_error; forwards_levels_and_target].

Lemma engine_tests_pass : all_of engine_tests = true.
Proof. by vm_compute. Qed.
