(* ===== verification/TrampolinesTests.v ===== *)
(** * The unit tests of src/src/trampolines.rs

    The handlers of the test module record what they observe in a [Seen]; every test calls a
    trampoline on a memory laid out as its buffers and starts from an empty record. A
    [panic!] is a payload that drops quietly, [PanicOnDrop] one whose drop panics again.
    [abi_version_matches_library] calls the linked Go library and is not here; neither is the
    one assertion on [has_commit_buffered], a trait bit that no definition reads. *)
From Stdlib Require Import ZArith NArith Ascii.
From Stdlib Require String.
From stdpp Require Import base tactics option list gmap strings.
From S2P Require Import Prelude Text Nexus Ffi Effects Trampolines TestKit.
#[local] Open Scope Z_scope.
#[local] Existing Instance nexus_ref.

(** ** The recorders and the handlers *)
Record Seen := mkSeen {
  proc_meta_seen : list (Z * Timestamp * list (string * option string));
  dlq_seen : list (Z * string);
  value_seen : list (Z * option string);
  metrics_seen : list MessageMetrics;
  shutdown_seen : list string;
  log_seen : list (LogLevel * string);
  bandwidth_seen : list BandwidthMetrics;
}.
Definition nothing_seen : Seen := mkSeen [] [] [] [] [] [] [].

Definition str_payload : Payload Seen := mkPayload (λ u, (u, None)).
Definition PanicOnDrop : Payload Seen := mkPayload (λ u, (u, Some str_payload)).
Definition boxed (text : string) : UserError Seen := mkUserError (λ u, (u, UDone text)) (λ u, (u, UDone tt)).

Definition push_value (x : Z * option string) (s : Seen) : Seen :=
  mkSeen (proc_meta_seen s) (dlq_seen s) (value_seen s ++ [x]) (metrics_seen s) (shutdown_seen s) (log_seen s) (bandwidth_seen s).
Definition push_meta (x : Z * Timestamp * list (string * option string)) (s : Seen) : Seen :=
  mkSeen (proc_meta_seen s ++ [x]) (dlq_seen s) (value_seen s) (metrics_seen s) (shutdown_seen s) (log_seen s) (bandwidth_seen s).
Definition push_dlq (x : Z * string) (s : Seen) : Seen :=
  mkSeen (proc_meta_seen s) (dlq_seen s ++ [x]) (value_seen s) (metrics_seen s) (shutdown_seen s) (log_seen s) (bandwidth_seen s).

(** The key as [key_str] gives it: the tests' keys are valid UTF-8. *)
Definition TProc (msg : Message) : UserCall Seen (Traits + UserError Seen) := λ u,
  let key := default "" (msg_key msg) in
  if String.eqb key "err-marker" then (u, UDone (inr (boxed "custom failure text")))
  else if String.eqb key "panic-marker" then (u, UPanic str_payload)
  else if String.eqb key "panic-any-evil-drop" then (u, UPanic PanicOnDrop)
  else if String.eqb key "traits20" then (u, UDone (inl (Traits_from_raw (Z.shiftl 1 20))))
  else if String.eqb key "value-probe" then
    (push_value (msg_offset msg, msg_value msg) u, UDone (inl Traits_none))
  else if String.eqb key "meta-probe" then
    (push_meta (msg_offset msg, msg_timestamp msg, map (λ h, (h_key h, h_value h)) (msg_headers msg)) u,
     UDone (inl Traits_none))
  else (u, UDone (inl Traits_none)).

Definition TDead (msg : Message) (error_msg : string) : UserCall Seen (unit + UserError Seen) := λ u,
  let key := default "" (msg_key msg) in
  if String.eqb key "dlq-err-marker" then (u, UDone (inr (boxed "dlq write failed")))
  else if String.eqb key "dlq-panic-marker" then (u, UPanic str_payload)
  else (push_dlq (msg_offset msg, error_msg) u, UDone (inl tt)).

Definition TMetrics (m : MessageMetrics) : UserCall Seen unit := λ u,
  if m_offset m =? -999999 then (u, UPanic PanicOnDrop)
  else (mkSeen (proc_meta_seen u) (dlq_seen u) (value_seen u) (metrics_seen u ++ [m]) (shutdown_seen u)
          (log_seen u) (bandwidth_seen u), UDone tt).
Definition TShutdown (reason : string) : UserCall Seen unit := λ u,
  if String.eqb reason "trigger-shutdown-panic" then (u, UPanic str_payload)
  else (mkSeen (proc_meta_seen u) (dlq_seen u) (value_seen u) (metrics_seen u) (shutdown_seen u ++ [reason])
          (log_seen u) (bandwidth_seen u), UDone tt).
Definition TLog (level : LogLevel) (message : string) : UserCall Seen unit := λ u,
  if has_prefix "trigger-log-panic" message then (u, UPanic str_payload)
  else (mkSeen (proc_meta_seen u) (dlq_seen u) (value_seen u) (metrics_seen u) (shutdown_seen u)
          (log_seen u ++ [(level, message)]) (bandwidth_seen u), UDone tt).
Definition TBandwidth (b : BandwidthMetrics) : UserCall Seen unit := λ u,
  if String.eqb (bm_metrics_id b) "trigger-bandwidth-panic" then (u, UPanic str_payload)
  else (mkSeen (proc_meta_seen u) (dlq_seen u) (value_seen u) (metrics_seen u) (shutdown_seen u)
          (log_seen u) (bandwidth_seen u ++ [b]), UDone tt).

(** [seal()] *)
Definition sealed : Handlers Seen :=
  mkHandlers "test-topic" TProc (Some TDead) (Some TMetrics) (Some TShutdown) (Some TLog) (Some TBandwidth).
Definition world (m : mem) : World Seen := mkWorld m (Some sealed) (Some []) nothing_seen.

(** ** Calling the trampolines *)
Definition zero_bytes (n : nat) : string := String.string_of_list_ascii (replicate n "000"%char).
(** Locals of the callers: traits_out, err_len and a 256-byte err_buf. *)
Definition locals : list (Z * string) := [(1000, zero_bytes 8); (1008, zero_bytes 4); (1100, zero_bytes 256)].
Definition outs : OutArgs := mkOutArgs 1000 1100 256 1008.
Definition len (s : string) : Z := Z.of_nat (String.length s).

Definition run_process (blocks : list (Z * string)) (a : RecordArgs) : option (Z * World Seen) :=
  match process_trampoline a outs (world (blocks_mem (blocks ++ locals))) with Ret rc w => Some (rc, w) | _ => None end.

(** [call_process]: the return code, the traits and the error text. *)
Definition call_process (key value : string) (offset : Z) : option (Z * Z * string) :=
  '(rc, w) ← run_process [(100, key); (300, value)] (mkRecordArgs 100 (len key) 300 (len value) 0 offset 0 0 0 0);
  traits ← read_scalar (w_mem w) 1000 CI64;
  err_len ← read_scalar (w_mem w) 1008 CInt;
  bytes ← load_bytes (w_mem w) 1100 (Z.to_nat err_len);
  Some (rc, traits, from_utf8_lossy bytes).

(** [header_raw] for the [i]-th header: its texts lie at [4000 + 64 i] and 32 bytes on. *)
Definition pad4 : string := zero_bytes 4.
Definition header_raw (i : nat) (h : string * option string) : string :=
  let at_ := 4000 + 64 * Z.of_nat i in
  c_put CPtr at_ +:+ c_put CInt (len h.1) +:+ pad4 +:+
  match h.2 with
  | None => c_put CPtr 0 +:+ c_put CInt (-1)
  | Some v => c_put CPtr (at_ + 32) +:+ c_put CInt (len v)
  end +:+ pad4.
Definition header_blocks (hs : list (string * option string)) : list (Z * string) :=
  (3000, str_concat (imap header_raw hs)) ::
  concat (imap (λ i h, [(4000 + 64 * Z.of_nat i, h.1); (4032 + 64 * Z.of_nat i, default "" h.2)]) hs).
Definition call_process_meta (key : string) (offset ts_kind ts_millis : Z) (hs : list (string * option string))
    : option (Z * World Seen) :=
  run_process ([(100, key); (300, "v")] ++ header_blocks hs)
    (mkRecordArgs 100 (len key) 300 1 0 offset ts_kind ts_millis
       (match hs with [] => 0 | _ => 3000 end) (Z.of_nat (length hs))).

(** [call_process_raw_value] with [recorded_value]: the code and what the probe saw. *)
Definition call_process_raw_value (offset : Z) (value : option string) (value_len : Z) : option (Z * list (Z * option string)) :=
  '(rc, w) ← run_process [(100, "value-probe"); (300, default "" value)]
    (mkRecordArgs 100 (len "value-probe") (match value with Some _ => 300 | None => 0 end) value_len 0 offset 0 0 0 0);
  Some (rc, value_seen (w_user w)).

Definition run_deadletter (key error : string) (offset : Z) : option (Z * list (Z * string)) :=
  match deadletter_trampoline (mkRecordArgs 100 (len key) 300 1 0 offset 0 0 0 0) 500 (len error)
          (world (blocks_mem [(100, key); (300, "v"); (500, error)])) with
  | Ret rc w => Some (rc, dlq_seen (w_user w))
  | _ => None
  end.

(** A callback without a result: what the handlers saw, when it returned. *)
Definition run_void (blocks : list (Z * string)) (call : M Seen ()) : option Seen :=
  match call (world (blocks_mem blocks)) with Ret _ w => Some (w_user w) | _ => None end.
Definition returns (blocks : list (Z * string)) (call : M Seen ()) : bool :=
  bool_decide (is_Some (run_void blocks call)).

(** ** The tests *)
Definition process_carries_timestamp_and_headers : bool :=
  let headers := [("trace-id", Some "abc123"); ("content-type", Some "application/json");
                  ("tombstone", None); ("empty-val", Some "")] in
  match call_process_meta "meta-probe" 2001 1 1700000000000 headers with
  | Some (rc, w) => (rc =? 0) && assert_eq (proc_meta_seen (w_user w)) [(2001, CreateTime 1700000000000, headers)]
  | None => false
  end.

Definition process_without_headers_sees_empty_and_not_available : bool :=
  match call_process_meta "meta-probe" 2002 0 0 [] with
  | Some (rc, w) => (rc =? 0) && assert_eq (proc_meta_seen (w_user w)) [(2002, NotAvailable, [])]
  | None => false
  end.

Definition f5_process_error_text_is_reported : bool :=
  assert_eq (call_process "err-marker" "v" 1001) (Some (1, 0, "custom failure text")).

Definition f7_panic_is_contained_and_reported : bool :=
  assert_eq (call_process "panic-marker" "v" 1002) (Some (1, 0, "panic in process callback")).

Definition f7_panicking_drop_payload_is_contained : bool :=
  assert_eq (call_process "panic-any-evil-drop" "v" 1009) (Some (1, 0, "panic in process callback")).

Definition metrics_panicking_handler_is_contained : bool :=
  returns [] (metrics_trampoline 0 0 0 (-999999) 0 0 0 0 0).

Definition shutdown_panicking_handler_is_contained : bool :=
  returns [(100, "trigger-shutdown-panic")] (shutdown_trampoline 100 (len "trigger-shutdown-panic")).

Definition log_panicking_handler_is_contained : bool :=
  returns [(100, "trigger-log-panic")] (log_trampoline 1 100 (len "trigger-log-panic")).

Definition bandwidth_panicking_handler_is_contained : bool :=
  returns [(100, "trigger-bandwidth-panic")]
    (bandwidth_trampoline 1 1000 100 (len "trigger-bandwidth-panic") 0 0 0 0 0 0 0 0).

Definition process_success_sets_custom_traits : bool :=
  assert_eq (call_process "traits20" "v" 1003) (Some (0, Z.shiftl 1 20, "")).

Definition tombstone_value_maps_to_none : bool :=
  assert_eq (call_process_raw_value 3001 None (-1)) (Some (0, [(3001, None)])).

Definition empty_value_stays_some_and_distinct_from_null : bool :=
  assert_eq (call_process_raw_value 3002 None 0) (Some (0, [(3002, Some "")])).

Definition nonempty_value_arrives_byte_identical : bool :=
  let payload := bytes_of [0; 255]%N +:+ " binary bytes" in
  assert_eq (call_process_raw_value 3003 (Some payload) (len payload)) (Some (0, [(3003, Some payload)])).

Definition f2_metrics_fields_map_one_to_one_and_carry_full_64_bits : bool :=
  let traits_raw := Z.lor (Z.shiftl 1 45) 11 in
  match run_void [] (metrics_trampoline traits_raw 71 72 5000000001 5000000002 5000000003
          1900000000000000004 1900000000000000005 1900000000000000006) with
  | Some seen =>
    match metrics_seen seen with
    | [m] => all_of [assert_eq (Traits_raw (m_traits m)) traits_raw; has_process_error (m_traits m);
        has_process_panic (m_traits m); m_queue_depth m =? 71; m_partition m =? 72; m_offset m =? 5000000001;
        m_process_duration_ns m =? 5000000002; m_deadletter_duration_ns m =? 5000000003;
        m_read_time_ns m =? 1900000000000000004; m_process_start_time_ns m =? 1900000000000000005;
        m_watermark_advance_time_ns m =? 1900000000000000006]
    | _ => false
    end
  | None => false
  end.

Definition f1_deadletter_tolerates_non_utf8_error : bool :=
  match run_deadletter "k" (bytes_of [0x66; 0x6f; 0x6f; 0xff; 0xfe]%N) 1004 with
  | Some (_, [(1004, msg)]) => has_prefix "foo" msg && str_contains REPLACEMENT msg
  | _ => false
  end.

Definition deadletter_panic_is_contained_at_the_boundary : bool :=
  assert_eq (fst <$> run_deadletter "dlq-panic-marker" "process failed" 1005) (Some 1).

Definition deadletter_error_return_maps_to_rc_1 : bool :=
  all_of [assert_eq (fst <$> run_deadletter "dlq-err-marker" "process failed" 1006) (Some 1);
    assert_eq (run_deadletter "dlq-ok" "process failed" 1007) (Some (0, [(1007, "process failed")]))].

Definition ts_kind_2_maps_to_log_append_time : bool :=
  match call_process_meta "meta-probe" 7002 2 555 [] with
  | Some (rc, w) => (rc =? 0) && assert_eq (proc_meta_seen (w_user w)) [(7002, LogAppendTime 555, [])]
  | None => false
  end.

Definition f1_shutdown_tolerates_non_utf8_reason : bool :=
  match run_void [(100, bytes_of [0xff; 0xfe]%N)] (shutdown_trampoline 100 2) with
  | Some seen => existsb (str_contains REPLACEMENT) (shutdown_seen seen)
  | None => false
  end.

Definition log_round_trip_with_level_mapping : bool :=
  let msg := "subscription started: topic=orders" in
  assert_eq (log_seen <$> run_void [(100, msg)] (log_trampoline 2 100 (len msg))) (Some [(LogWarn, msg)]).

Definition log_tolerates_non_utf8_and_unknown_level : bool :=
  match run_void [(100, bytes_of [0x6c; 0x6f; 0x67; 0xff]%N)] (log_trampoline 42 100 4) with
  | Some seen => existsb (λ '(lv, m), assert_eq lv LogInfo && has_prefix "log" m && str_contains REPLACEMENT m) (log_seen seen)
  | None => false
  end.

Definition null_pointers_are_handled : bool :=
  match call_process "" "" 1005 with Some (rc, _, _) => rc =? 0 | None => false end.

(** "aébc" with a cap that would split the two bytes of é. *)
Definition write_c_err_truncates_on_char_boundary : bool :=
  let s := "a" +:+ bytes_of [0xc3; 0xa9]%N +:+ "bc" in
  match write_c_err 1100 2 1008 s (world (blocks_mem [(1008, zero_bytes 4); (1100, zero_bytes 8)])) with
  | Ret _ w => assert_eq (read_scalar (w_mem w) 1008 CInt) (Some 1) && assert_eq (load_bytes (w_mem w) 1100 1) (Some "a")
  | _ => false
  end.

Definition write_c_err_null_safe : bool :=
  returns [(1008, c_put CInt (-1))] (write_c_err 0 16 1008 "x").

Definition bandwidth_packet_round_trip : bool :=
  let host := "broker-1.cluster.internal" in
  let broker := c_put CPtr 100 +:+ c_put CInt 1 +:+ pad4 +:+ c_put CPtr 110 +:+ c_put CInt 25 +:+ pad4 +:+
    c_put CPtr 140 +:+ c_put CInt 4 +:+ pad4 +:+ c_put CPtr 150 +:+ c_put CInt 3 +:+ pad4 in
  let partition := str_concat (map (c_put CI64) [1900000000000000001; 5000000002; 6000000003; 7000000004;
      8000000005; 9000000006]) +:+ c_put CI32 3 +:+ pad4 +:+ c_put CPtr 100 +:+ c_put CInt 1 +:+ pad4 +:+
    c_put CPtr 0 +:+ c_put CInt 0 +:+ pad4 in
  match run_void [(100, "1"); (110, host); (140, "9092"); (150, bytes_of [0x65; 0x75; 0xff]%N); (200, broker);
                  (304, partition); (400, "packet-uuid-1"); (420, "orders"); (430, "grp")]
          (bandwidth_trampoline 1900000000000000000 60000 400 13 420 6 430 3 200 1 304 1) with
  | Some seen =>
    match bandwidth_seen seen with
    | [m] =>
      match bm_brokers m, bm_partitions m with
      | [b], p :: _ =>
        all_of [bm_ts_unix_ns m =? 1900000000000000000; bm_stats_interval_ms m =? 60000;
          assert_eq (bm_metrics_id m) "packet-uuid-1"; assert_eq (bm_topic m) "orders";
          assert_eq (bm_consumer_group m) "grp"; assert_eq (broker_id b) "1"; assert_eq (broker_host b) host;
          assert_eq (broker_port b) "9092"; has_prefix "eu" (broker_rack b); str_contains REPLACEMENT (broker_rack b);
          pb_ts_unix_ns p =? 1900000000000000001; pb_received_bytes p =? 5000000002;
          pb_transmitted_bytes p =? 6000000003; pb_received_message_count p =? 7000000004;
          pb_compressed_bytes p =? 8000000005; pb_uncompressed_bytes p =? 9000000006; pb_id p =? 3;
          assert_eq (pb_leader p) "1"; assert_eq (pb_compression p) ""]
      | _, _ => false
      end
    | _ => false
    end
  | None => false
  end.

Definition bandwidth_tolerates_empty_packet : bool :=
  match run_void [(100, "empty-packet")] (bandwidth_trampoline 1 1000 100 12 0 0 0 0 0 0 0 0) with
  | Some seen =>
    match bandwidth_seen seen with
    | [m] => all_of [assert_eq (bm_metrics_id m) "empty-packet"; assert_eq (bm_topic m) "";
        match bm_brokers m with [] => true | _ => false end; match bm_partitions m with [] => true | _ => false end]
    | _ => false
    end
  | None => false
  end.

Definition trampolines_tests : list bool :=
  [process_carries_timestamp_and_headers; process_without_headers_sees_empty_and_not_available;
   f5_process_error_text_is_reported; f7_panic_is_contained_and_reported; f7_panicking_drop_payload_is_contained;
   metrics_panicking_handler_is_contained; shutdown_panicking_handler_is_contained;
   log_panicking_handler_is_contained; bandwidth_panicking_handler_is_contained; process_success_sets_custom_traits;
   tombstone_value_maps_to_none; empty_value_stays_some_and_distinct_from_null; nonempty_value_arrives_byte_identical;
   f2_metrics_fields_map_one_to_one_and_carry_full_64_bits; f1_deadletter_tolerates_non_utf8_error;
   deadletter_panic_is_contained_at_the_boundary; deadletter_error_return_maps_to_rc_1;
   ts_kind_2_maps_to_log_append_time; f1_shutdown_tolerates_non_utf8_reason; log_round_trip_with_level_mapping;
   log_tolerates_non_utf8_and_unknown_level; null_pointers_are_handled; write_c_err_truncates_on_char_boundary;
   write_c_err_null_safe; bandwidth_packet_round_trip; bandwidth_tolerates_empty_packet].

Lemma trampolines_tests_pass : all_of trampolines_tests = true.
Proof. by vm_compute. Qed.
