(* ===== verification/MetricsTests.v ===== *)
(** * The unit tests of src/src/metrics.rs

    The tests read the exposition text, which prometheus_client writes: they run here with
    an instance of its class whose store is the list of touched series and whose [encode] is
    the OpenMetrics sample lines of those series. HTTP over a local socket is the response
    the endpoint gives the request; [http_get] reads its status, content type and body. *)
From Stdlib Require Import ZArith NArith Ascii.
From Stdlib Require String.
From Stdlib.Floats Require Import SpecFloat.
From stdpp Require Import base tactics option list gmap strings.
From S2P Require Import Prelude Text StrOps Nexus Ffi Effects MetricsSink TestKit.
#[local] Open Scope Z_scope.
#[local] Existing Instance nexus_ref.
#[local] Existing Instance http_ref.

(** ** The exposition *)
Inductive Sample := SCounter (z : Z) | SGauge (z : Z) | SFloat (f : spec_float) | SHist (l : list spec_float).
Definition Exposition : Type := list (Series * Sample).
Fixpoint touch (s : Series) (f : option Sample → Sample) (st : Exposition) : Exposition :=
  match st with
  | [] => [(s, f None)]
  | (s', x) :: st => if decide (s = s') then (s', f (Some x)) :: st else (s', x) :: touch s f st
  end.
Definition sample_of (st : Exposition) (s : Series) : option Sample :=
  (λ p, p.2.2) <$> list_find (λ p, p.1 = s) st.

Definition label (name value : string) : string := name +:+ raw "=`" +:+ value +:+ raw "`".
Definition identity_labels (t g s m : string) : list string :=
  [label "topic" t; label "consumer_group" g; label "service" s; label "team" m].
Definition label_text (l : Labels) : string :=
  str_join "," match l with
  | LMessage l => identity_labels (ml_topic l) (ml_consumer_group l) (ml_service l) (ml_team l)
      ++ [label "partition" (dec_Z (ml_partition l))]
  | LPartition l => identity_labels (pl_topic l) (pl_consumer_group l) (pl_service l) (pl_team l)
      ++ [label "partition" (dec_Z (pl_partition l))]
  | LCompression l => identity_labels (cl_topic l) (cl_consumer_group l) (cl_service l) (cl_team l)
      ++ [label "partition" (dec_Z (cl_partition l)); label "compression" (cl_compression l)]
  | LTopology l => identity_labels (tl_topic l) (tl_consumer_group l) (tl_service l) (tl_team l)
  | LBroker l => identity_labels (bl_topic l) (bl_consumer_group l) (bl_service l) (bl_team l)
      ++ [label "broker_id" (bl_broker_id l); label "broker_host" (bl_broker_host l);
          label "broker_port" (bl_broker_port l); label "broker_rack" (bl_broker_rack l)]
  end.
(** A whole number as a float prints it; the tests read no other float value. *)
Definition float_text (f : spec_float) : string :=
  match f with
  | S754_finite sign m e =>
    let v := if 0 <=? e then Zpos m * 2 ^ e else Z.div (Zpos m) (2 ^ (- e)) in
    (if sign then "-" else "") +:+ dec_Z v +:+ ".0"
  | _ => "0.0"
  end.
Definition sample_lines (full labels : string) (x : Sample) : list string :=
  match x with
  | SCounter z => [full +:+ "_total{" +:+ labels +:+ "} " +:+ dec_Z z]
  | SGauge z => [full +:+ "{" +:+ labels +:+ "} " +:+ dec_Z z]
  | SFloat f => [full +:+ "{" +:+ labels +:+ "} " +:+ float_text f]
  | SHist l => [full +:+ "_sum{" +:+ labels +:+ "}"; full +:+ "_count{" +:+ labels +:+ "} " +:+ dec_Z (Z.of_nat (length l))]
  end.
Definition expo_encode (registry : Registry) (st : Exposition) : string :=
  str_concat (map (λ l, l +:+ String "010" "") (concat (map (λ '(s, x),
    match list_find (λ r, reg_name r = s.1) registry with
    | Some (_, r) => sample_lines (str_join "_" (reg_prefix r ++ [reg_name r])) (label_text s.2) x
    | None => []
    end) st))).

#[local] Instance prom_expo : Prom := {|
  Store := Exposition;
  counter_inc_by s n := touch s (λ x, match x with Some (SCounter z) => SCounter (wrap_u 64 (z + n)) | _ => SCounter (wrap_u 64 n) end);
  gauge_set s v := touch s (λ _, SGauge v);
  fgauge_set s v := touch s (λ _, SFloat v);
  observe s v := touch s (λ x, match x with Some (SHist l) => SHist (l ++ [v]) | _ => SHist [v] end);
  counter_of st s := match sample_of st s with Some (SCounter z) => z | _ => 0 end;
  gauge_of st s := match sample_of st s with Some (SGauge z) => Some z | _ => None end;
  fgauge_of st s := match sample_of st s with Some (SFloat f) => Some f | _ => None end;
  observed st s := match sample_of st s with Some (SHist l) => l | _ => [] end;
  encode := expo_encode;
|}.

Definition handled {R} (c : UserCall Exposition R) (st : Exposition) : Exposition := (c st).1.

(** ** [message_tests] *)
Definition base_metrics : MessageMetrics := mkMetrics Traits_none 0 0 0 0 0 0 0 0.
Definition message_sink_and_registry : Registry * MessageSink :=
  MessageSink_register []
    (MessageOptions_service "svc" "team" (MessageOptions_consumer_group "grp" (MessageOptions_topic "orders" MessageOptions_new))).
(** Handle the packets and scrape. *)
Definition scrape_messages (ms : list MessageMetrics) : string :=
  let '(registry, sink) := message_sink_and_registry in
  scrape registry (foldl (λ st m, handled (MessageSink_handle true sink m) st) [] ms).

Definition processed_always_counts_with_identity_labels : bool :=
  let text := scrape_messages [mkMetrics Traits_none 0 3 0 0 0 0 0 0] in
  forallb (λ p, str_contains (raw p) text)
    ["llingr_engine_processed_total{"; "topic=`orders`"; "consumer_group=`grp`"; "service=`svc`"; "team=`team`";
     "partition=`3`"]
  && negb (str_contains "errored_total{" text) && negb (str_contains "panicked_total{" text).

Definition trait_bits_drive_error_counters : bool :=
  let raw_bits := 1 + 2 + 4 + 8 + 16 + 32 in
  let text := scrape_messages [mkMetrics (Traits_from_raw raw_bits) 0 0 0 0 0 0 0 0] in
  forallb (λ name, str_contains ("llingr_engine_" +:+ name +:+ "{") text)
    ["processed_total"; "errored_total"; "panicked_total"; "dead_lettered_total"; "duplicate_total"; "used_overflow_total"].

Definition gauges_and_histograms_record_conversions : bool :=
  let text := scrape_messages [mkMetrics Traits_none 7 0 42 2000000 4000000 1000000 3000000 0] in
  forallb (λ p, str_contains p text)
    ["llingr_engine_queue_depth{"; "} 7"; "llingr_engine_current_offset{"; "} 42";
     "llingr_engine_process_duration_seconds_sum{"; "llingr_engine_process_duration_seconds_count{";
     "llingr_engine_dead_letter_duration_seconds_count{"; "llingr_engine_queue_wait_duration_seconds_count{"].

Definition zero_durations_are_not_observed : bool :=
  let text := scrape_messages [base_metrics] in
  negb (str_contains "process_duration_seconds_count{" text) && negb (str_contains "queue_wait_duration_seconds_count{" text).

(** The bounds [exponential_buckets(start, factor, length)] yields, and whether a decimal
    n/d is one of them. *)
Definition bucket_bounds (k : Kind) : list spec_float :=
  match k with
  | KHistogram start factor n => (fix go (x : spec_float) (n : nat) : list spec_float :=
      match n with O => [] | S n => x :: go (SFmul 53 1024 x factor) n end) start n
  | _ => []
  end.
Definition spec_float_eqb (a b : spec_float) : bool :=
  match SFcompare a b with Some Eq => true | _ => false end.
Definition has_bucket (name : string) (n d : Z) : bool :=
  match list_find (λ r, reg_name r = name) (message_sink_and_registry.1) with
  | Some (_, r) => existsb (spec_float_eqb (f64_lit n d)) (bucket_bounds (reg_kind r))
  | None => false
  end.
Definition histogram_buckets_match_go_boundaries : bool :=
  all_of [has_bucket "process_duration_seconds" 1 1000; has_bucket "process_duration_seconds" 256 1000;
    has_bucket "process_duration_seconds" 16384 1000; has_bucket "queue_wait_duration_seconds" 1 10000;
    has_bucket "queue_wait_duration_seconds" 131072 10000; negb (has_bucket "process_duration_seconds" 32768 1000);
    negb (has_bucket "queue_wait_duration_seconds" 262144 10000)].

Definition negative_durations_and_waits_are_not_observed : bool :=
  let text := scrape_messages [mkMetrics Traits_none 0 0 0 (-5) (-5) 10 4 0] in
  forallb (λ p, negb (str_contains p text))
    ["process_duration_seconds_count{"; "dead_letter_duration_seconds_count{"; "queue_wait_duration_seconds_count{"].

(** ** [bandwidth_tests] *)
Definition test_broker (id host : string) : BrokerInfo := mkBrokerInfo id host "9092" "".
Definition test_partition (received transmitted messages compressed uncompressed : Z) (compression : string)
    : PartitionBandwidth :=
  mkPartitionBandwidth 0 received transmitted messages compressed uncompressed 0 "" compression.
Definition packet_at (ts : Z) (brokers : list BrokerInfo) (ps : list PartitionBandwidth) : BandwidthMetrics :=
  mkBandwidthMetrics ts 5000 "id-1" "orders" "grp" brokers ps.
Definition packet := packet_at 1700000000000000000.
Definition scrape_packets (l : list BandwidthMetrics) : string :=
  let '(registry, sink) := BandwidthSink_register [] (BandwidthOptions_service "svc" "team" BandwidthOptions_new) in
  scrape registry (foldl (λ st m, handled (BandwidthSink_handle sink m) st) [] l).
Definition ends_with (p s : string) : bool :=
  String.eqb (String.substring (String.length s - String.length p) (String.length p) s) p.
(** [text.lines().find(|l| l.starts_with(p))] ends with [e]. *)
Definition line_ends (p e text : string) : bool :=
  match list_find (λ l, has_prefix p l = true) (lines text) with Some (_, l) => ends_with e (trim_end l) | None => false end.

Definition counters_gauges_and_broker_info : bool :=
  let text := scrape_packets [packet [test_broker "1" "h1"; test_broker "2" "h2"] [test_partition 1000 500 10 300 900 "lz4"]] in
  forallb (λ p, str_contains (raw p) text)
    ["llingr_bandwidth_received_bytes_total{"; "llingr_bandwidth_transmitted_bytes_total{";
     "llingr_bandwidth_received_messages_total{"; "compression=`lz4`"; "llingr_bandwidth_broker_count{";
     "llingr_bandwidth_partition_count{"; "llingr_bandwidth_stats_interval_seconds{";
     "llingr_bandwidth_last_collection_timestamp_seconds{"; "broker_host=`h1`"; "broker_host=`h2`"; "topic=`orders`"].

Definition empty_compression_falls_back_to_unknown : bool :=
  str_contains (raw "compression=`unknown`") (scrape_packets [packet [] [test_partition 0 0 0 128 0 ""]]).

Definition counters_accumulate_deltas : bool :=
  let make := packet [] [test_partition 1000 0 0 0 0 ""] in
  str_contains "} 2000" (scrape_packets [make; make]).

Definition broker_info_retains_stale_series_on_topology_change : bool :=
  let text := scrape_packets [packet [test_broker "1" "h1"; test_broker "2" "h2"] [];
                              packet [test_broker "1" "h1"; test_broker "2" "h2-new"] []] in
  all_of [str_contains (raw "broker_host=`h2`") text; str_contains (raw "broker_host=`h2-new`") text;
    assert_eq (count_matches "llingr_bandwidth_broker_info{" text) 3%nat].

Definition zero_valued_partition_fields_are_skipped : bool :=
  let text := scrape_packets [packet [] [test_partition 0 0 0 0 0 ""]] in
  negb (str_contains "received_bytes_total{" text) && negb (str_contains "compressed_bytes_total{" text).

Definition timestamp_zero_is_skipped_and_interval_converts : bool :=
  let text := scrape_packets [packet_at 0 [] []] in
  let text2 := scrape_packets [packet_at 0 [] []; packet [] []] in
  all_of [negb (str_contains "last_collection_timestamp_seconds{" text);
    str_contains "llingr_bandwidth_stats_interval_seconds{" text;
    line_ends "llingr_bandwidth_stats_interval_seconds{" " 5.0" text;
    line_ends "llingr_bandwidth_last_collection_timestamp_seconds{" " 1700000000" text2].

(** ** [exporter_tests] *)
Definition serves_metrics_at_the_configured_path : bool :=
  let '(registry, sink) := MessageSink_register []
    (MessageOptions_consumer_group "grp" (MessageOptions_topic "orders" MessageOptions_new)) in
  let st := handled (MessageSink_handle true sink (mkMetrics Traits_none 0 1 0 0 0 0 0 0)) [] in
  match serve_exposition (λ _, None) registry "127.0.0.1:0" "/telemetry" with
  | inl handle =>
    let http_get path := serve_response (ex_registry handle) (ex_path handle) true path st in
    all_of [status (http_get "/telemetry") =? 200;
      assert_eq (content_type (http_get "/telemetry")) (Some OPENMETRICS_CONTENT_TYPE);
      str_contains "llingr_engine_processed_total{" (body (http_get "/telemetry"));
      status (http_get "/metrics") =? 404]
  | inr _ => false
  end.

Definition query_strings_match_and_non_get_is_rejected : bool :=
  match serve_exposition (λ _, None) [] "127.0.0.1:0" "/metrics" with
  | inl handle =>
    let respond is_get url := serve_response (ex_registry handle) (ex_path handle) is_get url [] in
    (status (respond true "/metrics?format=openmetrics") =? 200) && (status (respond false "/metrics") =? 405)
  | inr _ => false
  end.

(** ** [activation_tests] *)
Definition record_one_message (r : RealisedMetrics) (partition : Z) : Exposition :=
  handled (MessageSink_handle true (message_sink r) (mkMetrics Traits_none 0 partition 0 0 0 0 0 0)) [].

Definition serve_mode_binds_and_exposes_both_sinks : bool :=
  match Metrics_realise (λ _, None) (Metrics_serve "127.0.0.1:0" "/metrics") "orders" "grp" "svc" "team" ∅ with
  | (_, inl realised) =>
    match exporter realised with
    | Some handle =>
      let response := serve_response (ex_registry handle) (ex_path handle) true "/metrics" (record_one_message realised 4) in
      (status response =? 200) && str_contains "llingr_engine_processed_total{" (body response)
    | None => false
    end
  | _ => false
  end.

(** Port 1 is refused to a normal user. *)
Definition serve_mode_unbindable_address_is_an_error : bool :=
  let bind addr := if String.eqb addr "127.0.0.1:1" then Some "Permission denied (os error 13)" else None in
  match Metrics_realise bind (Metrics_serve "127.0.0.1:1" "/metrics") "t" "g" "" "" ∅ with
  | (_, inr _) => true
  | _ => false
  end.

Definition registry_mode_handle_goes_live_at_realise : bool :=
  let '(m, handle) := Metrics_registry 0 in
  match Metrics_realise (λ _, None) m "orders" "grp" "svc" "team" ∅ with
  | (slots, inl realised) =>
    let text := MetricsHandle_scrape handle slots (record_one_message realised 2) in
    all_of [assert_eq (MetricsHandle_scrape handle ∅ []) ""; match exporter realised with None => true | _ => false end;
      str_contains "llingr_engine_processed_total{" text; str_contains (raw "partition=`2`") text]
  | _ => false
  end.

Definition metrics_tests : list bool :=
  [processed_always_counts_with_identity_labels; trait_bits_drive_error_counters;
   gauges_and_histograms_record_conversions; zero_durations_are_not_observed; histogram_buckets_match_go_boundaries;
   negative_durations_and_waits_are_not_observed; counters_gauges_and_broker_info;
   empty_compression_falls_back_to_unknown; counters_accumulate_deltas;
   broker_info_retains_stale_series_on_topology_change; zero_valued_partition_fields_are_skipped;
   timestamp_zero_is_skipped_and_interval_converts; serves_metrics_at_the_configured_path;
   query_strings_match_and_non_get_is_rejected; serve_mode_binds_and_exposes_both_sinks;
   serve_mode_unbindable_address_is_an_error; registry_mode_handle_goes_live_at_realise].

Lemma metrics_tests_pass : all_of metrics_tests = true.
Proof. by vm_compute. Qed.
