(* ===== verification/CoverageTests.v ===== *)
(** * The coverage tests of the crate

    src/src/options_auth_tests.rs, options_gcp_tests.rs, trampolines_coverage_tests.rs and
    engine_coverage_tests.rs: the authentication setters, the header decoder called directly
    and the error texts of the engine. *)
From Stdlib Require Import ZArith NArith Ascii.
From Stdlib Require String.
From stdpp Require Import base tactics option list gmap strings.
From S2P Require Import Prelude Text Nexus Options Ffi Effects Trampolines Logging MetricsSink Engine TestKit.
From S2P Require Import OptionsTests TrampolinesTests.
#[local] Open Scope Z_scope.
#[local] Existing Instance nexus_ref.

(** [assert_eq!(entry(&entries, key), None)], and [expect_err] with a [contains]. *)
Definition silent (l : list Setter) (key : string) : bool :=
  assert_eq (entry (Options_entries (run_setters l)) key) None.
Definition refused_naming (l : list Setter) (key : string) : bool :=
  match Options_validate (run_setters l) with inl message => str_contains key message | inr _ => false end.

(** ** options_auth_tests.rs *)
Definition role : string := "arn:aws:iam::123456789012:role/consumer".

Definition aws_msk_iam_forces_tls_and_emits_mechanism : bool :=
  let l := [SSaslAwsMskIam] in
  all_of [emits l "security.protocol" "sasl_ssl"; emits l "sasl.mechanism" "AWS_MSK_IAM";
    silent l "sasl.username"; silent l "sasl.password"].

Definition aws_steering_keys_emit_when_set : bool :=
  let l := [SSaslAwsMskIam; SAwsRegion "eu-west-2"; SAwsProfile "prod"; SAwsAssumeRole role (Some "svc-orders")] in
  all_of [emits l "aws.region" "eu-west-2"; emits l "aws.profile" "prod"; emits l "aws.role.arn" role;
    emits l "aws.role.session.name" "svc-orders"].

Definition aws_assume_role_without_session_name_emits_only_the_arn : bool :=
  let l := [SSaslAwsMskIam; SAwsAssumeRole role None] in
  all_of [emits l "aws.role.arn" role; silent l "aws.role.session.name"].

Definition aws_steering_setters_before_mechanism_are_inert : bool :=
  let l := [SAwsRegion "eu-west-2"] in all_of [silent l "aws.region"; silent l "sasl.mechanism"].

Definition oauthbearer_emits_endpoint_and_credentials : bool :=
  let l := [SSaslOauthbearerOidc "https://idp.example/token" "client-id" "client-secret"] in
  all_of [emits l "sasl.mechanism" "OAUTHBEARER";
    emits l "sasl.oauthbearer.token.endpoint.url" "https://idp.example/token";
    emits l "sasl.oauthbearer.client.id" "client-id"; emits l "sasl.oauthbearer.client.secret" "client-secret";
    emits l "security.protocol" "sasl_plaintext"].

Definition oauthbearer_with_tls_scope_and_extensions : bool :=
  let l := [STls; SSaslOauthbearerOidc "https://idp.example/token" "id" "secret"; SOauthbearerScope "kafka";
            SOauthbearerExtensions [("logicalCluster", "lkc-1"); ("identityPoolId", "pool-9")]] in
  all_of [emits l "security.protocol" "sasl_ssl"; emits l "sasl.oauthbearer.scope" "kafka";
    emits l "sasl.oauthbearer.extensions" "logicalCluster=lkc-1,identityPoolId=pool-9"].

Definition oauthbearer_debug_redacts_client_secret : bool :=
  let l := [SSaslOauthbearerOidc "https://idp.example/token" "public-client-id" "s3cr3t-value"] in
  all_of [negb (debug_contains l "s3cr3t-value"); debug_contains l "<redacted>";
    debug_contains l "public-client-id"; debug_contains l "idp.example"].

Definition last_mechanism_setter_wins : bool :=
  let l := [SSaslAwsMskIam; SAwsRegion "eu-west-2"; SSaslOauthbearerOidc "https://idp/token" "id" "secret"] in
  all_of [emits l "sasl.mechanism" "OAUTHBEARER"; silent l "aws.region"].

Definition aws_typed_and_string_conflict_is_rejected : bool :=
  refused_naming [SSaslAwsMskIam; SAwsRegion "eu-west-2"; SKafkaOption "aws.region" "us-east-1"] "aws.region".

Definition oauthbearer_typed_and_string_conflict_is_rejected : bool :=
  refused_naming [SSaslOauthbearerOidc "https://idp/token" "id" "secret";
                  SKafkaOption "sasl.oauthbearer.client.id" "other"] "sasl.oauthbearer.client.id".

Definition auth_tests : list bool :=
  [aws_msk_iam_forces_tls_and_emits_mechanism; aws_steering_keys_emit_when_set;
   aws_assume_role_without_session_name_emits_only_the_arn; aws_steering_setters_before_mechanism_are_inert;
   oauthbearer_emits_endpoint_and_credentials; oauthbearer_with_tls_scope_and_extensions;
   oauthbearer_debug_redacts_client_secret; last_mechanism_setter_wins; aws_typed_and_string_conflict_is_rejected;
   oauthbearer_typed_and_string_conflict_is_rejected].

(** ** options_gcp_tests.rs *)
Definition principal : string := "svc@project.iam.gserviceaccount.com".

Definition gcp_iam_forces_tls_and_emits_mechanism_and_method : bool :=
  let l := [SSaslGcpIam] in
  all_of [emits l "security.protocol" "sasl_ssl"; emits l "sasl.mechanism" "OAUTHBEARER";
    emits l "sasl.oauthbearer.method" "gcp"; silent l "sasl.username";
    silent l "sasl.oauthbearer.token.endpoint.url"].

Definition gcp_steering_keys_emit_when_set : bool :=
  let l := [SSaslGcpIam; SGcpPrincipal principal; SGcpCredentialsFile "/secrets/sa-key.json"] in
  all_of [emits l "gcp.principal" principal; emits l "gcp.credentials.file" "/secrets/sa-key.json"].

Definition gcp_steering_setters_before_mechanism_are_inert : bool :=
  let l := [SGcpPrincipal principal] in all_of [silent l "gcp.principal"; silent l "sasl.mechanism"].

Definition last_mechanism_setter_wins_across_oauthbearer_methods : bool :=
  let l := [SSaslGcpIam; SGcpPrincipal principal; SSaslOauthbearerOidc "https://idp/token" "id" "secret"] in
  let reversed := [SSaslOauthbearerOidc "https://idp/token" "id" "secret"; SSaslGcpIam] in
  all_of [emits l "sasl.mechanism" "OAUTHBEARER"; silent l "sasl.oauthbearer.method"; silent l "gcp.principal";
    assert_eq (length (filter (λ kv : string * string, kv.1 = "sasl.mechanism")
      (Options_entries (run_setters reversed)))) 1%nat;
    emits reversed "sasl.oauthbearer.method" "gcp"; silent reversed "sasl.oauthbearer.token.endpoint.url"].

Definition gcp_typed_and_string_conflicts_are_rejected : bool :=
  all_of [
    refused_naming [SSaslGcpIam; SGcpPrincipal "svc@x.iam.gserviceaccount.com";
                    SKafkaOption "gcp.principal" "other@x.iam.gserviceaccount.com"] "gcp.principal";
    refused_naming [SSaslGcpIam; SKafkaOption "sasl.oauthbearer.method" "oidc"] "sasl.oauthbearer.method"].

Definition gcp_debug_shows_steering_keys : bool :=
  let l := [SSaslGcpIam; SGcpPrincipal principal; SGcpCredentialsFile "/secrets/sa-key.json"] in
  all_of [debug_contains l principal; debug_contains l "/secrets/sa-key.json"].

Definition gcp_tests : list bool :=
  [gcp_iam_forces_tls_and_emits_mechanism_and_method; gcp_steering_keys_emit_when_set;
   gcp_steering_setters_before_mechanism_are_inert; last_mechanism_setter_wins_across_oauthbearer_methods;
   gcp_typed_and_string_conflicts_are_rejected; gcp_debug_shows_steering_keys].

(** ** trampolines_coverage_tests.rs *)
(** [borrow_headers] on an array laid out from [hs]; [null] passes a null pointer. *)
Definition views (null : bool) (hs : list (string * option string)) (count : Z) : option (list (string * option string)) :=
  match borrow_headers (if null then 0 else 3000) count (world (blocks_mem (header_blocks hs))) with
  | Ret headers _ => Some (map (λ h, (h_key h, h_value h)) headers)
  | _ => None
  end.
Definition decoded (hs : list (string * option string)) : option (list (string * option string)) :=
  views false hs (Z.of_nat (length hs)).

Definition duplicate_header_keys_are_all_delivered_in_order : bool :=
  let headers := [("dup", Some "first"); ("other", Some "middle"); ("dup", Some "second")] in
  assert_eq (decoded headers) (Some headers).

Definition null_and_empty_header_values_stay_distinct : bool :=
  let headers := [("tombstone", None); ("empty", Some ""); ("filled", Some "v")] in
  assert_eq (map snd <$> decoded headers) (Some [None; Some ""; Some "v"]).

Definition invalid_utf8_header_key_decodes_to_empty : bool :=
  assert_eq (decoded [(bytes_of [0x64; 0xff; 0xfe]%N, Some "v")]) (Some [("", Some "v")]).

Definition null_or_empty_header_arrays_decode_to_no_headers : bool :=
  let headers := [("k", Some "v")] in
  all_of [assert_eq (views true [] 4) (Some []); assert_eq (views false headers 0) (Some []);
    assert_eq (views false headers (-1)) (Some [])].

Definition header_tests : list bool :=
  [duplicate_header_keys_are_all_delivered_in_order; null_and_empty_header_values_stay_distinct;
   invalid_utf8_header_key_decodes_to_empty; null_or_empty_header_arrays_decode_to_no_headers].

(** ** engine_coverage_tests.rs *)
Definition run_result_maps_every_code_to_its_documented_text : bool :=
  all_of [match run_result 0 with inl _ => true | inr _ => false end;
    forallb (λ c : Z * string,
      match run_result c.1 with
      | inr err => (LlingrError_code err =? c.1) &&
                   assert_eq (LlingrError_fmt err) ("llingr error " +:+ dec_Z c.1 +:+ ": " +:+ c.2)
      | inl _ => false
      end)
      [(-1, "engine not initialised"); (-2, "subscribe failed");
       (-3, "engine panicked (recovered at FFI boundary)"); (-99, "unknown runtime error");
       (7, "unknown runtime error")]].

Definition abi_mismatch_error_text_is_the_documented_shape : bool :=
  let err := abi_mismatch_error 1 2 in
  all_of [LlingrError_code err =? -1;
    assert_eq (LlingrError_fmt err)
      ("llingr error -1: llingr ABI mismatch: crate expects 1, library reports 2 " +:+
       "(rebuild libllingr to match this crate)")].

Definition init_failure_fallback_text_per_code : bool :=
  forallb (λ c : Z * string, assert_eq (init_failure_text c.1 (zero_bytes 4) 0) (Some c.2))
    [(-1, "already initialised"); (-2, "invalid configuration JSON");
     (-3, "missing required config (brokers, topic, or consumer_group)");
     (-4, "failed to create adapter or connect to broker"); (-5, "invalid adapter or engine option");
     (-6, "unknown initialisation error"); (42, "unknown initialisation error")].

Definition init_failure_bridge_text_wins_and_is_length_bounded : bool :=
  let text := "franz adapter: broker unreachable" in
  let buf := text +:+ zero_bytes (64 - String.length text) in
  all_of [assert_eq (init_failure_text (-4) buf (len text)) (Some text);
    assert_eq (init_failure_text (-4) buf 5) (Some "franz")].

Definition init_failure_text_decodes_invalid_utf8_lossily : bool :=
  let bytes := bytes_of [0x66; 0x6f; 0x6f; 0xff; 0xfe]%N in
  match init_failure_text (-5) (bytes +:+ zero_bytes 3) (len bytes) with
  | Some text => has_prefix "foo" text && str_contains REPLACEMENT text
  | None => false
  end.

Definition error_text_tests : list bool :=
  [run_result_maps_every_code_to_its_documented_text; abi_mismatch_error_text_is_the_documented_shape;
   init_failure_fallback_text_per_code; init_failure_bridge_text_wins_and_is_length_bounded;
   init_failure_text_decodes_invalid_utf8_lossily].

Definition coverage_tests : list bool := auth_tests ++ gcp_tests ++ header_tests ++ error_text_tests.

Lemma coverage_tests_pass : all_of coverage_tests = true.
Proof. by vm_compute. Qed.
